(* ===== verification/_CoqProject ===== *)
-Q . S2P
Prelude.v
RustStr.v
RustOrd.v
Ids.v
ToolTypes.v
ToolProtocol.v
ToolEngine.v
ToolInv.v
ToolFacts.v
ToolSteps.v
ToolRequests.v
ToolReach.v
ToolLife.v
ToolDemo.v
ToolTheorems.v
ToolSpecs.v
Input.v
InputFacts.v
SessionTypes.v
RecordTypes.v
ProviderTypes.v
Control.v
TypesTheorems.v
SpecTypes.v
OneShot.v
OneShotFacts.v
SessionOptions.v
SessionOptionFacts.v
Catalog.v
CatalogFacts.v
Builtin.v
CatalogOptions.v
CatalogOptionFacts.v
EngineReduce.v
ReduceFacts.v
ProviderTheorems.v
EngineState.v
EngineCommands.v
EngineObserve.v
EngineRespects.v
EngineCounters.v
EngineInv.v
EngineCommandFacts.v
EngineIngestFacts.v
EngineObserveFacts.v
EngineHeadroom.v
EngineEntry.v
EngineReach.v
EngineFrame.v
EngineRuns.v
EngineTheorems.v
EngineSpecs.v
EngineStreams.v
EngineResolve.v
EngineResume.v
EngineDefects.v
