(* ===== verification/Prelude.v ===== *)
(** * gate4agent: a verification library of the session control plane

    gate4agent (the repository's README.md) drives CLI coding agents as managed
    sessions. Its control plane is a deterministic, single-writer engine,
    crates/gate4agent-engine/src/lib.rs: a host applies commands and feeds
    observations, the engine changes its sessions, queues effects for the host
    to execute and logs events for subscribers. Everything it exchanges is
    defined, and everything that enters it is validated, in
    crates/gate4agent-types/src. Beside it runs the tool engine,
    crates/gate4agent-tool-engine/src/engine.rs, which decides which capability
    requests of clients reach which providers, under which grants and
    approvals; its messages are those of crates/gate4agent-tool-protocol/src.
    This library models the four crates and proves what the rest of the system
    relies on.

    ** How the program is modelled

    A [String] is the list of its characters as numbers, with byte lengths and
    bytes those of UTF-8 (RustStr). An unsigned integer is an [N] whose checked
    or saturating addition is written out against its width ([U64_MAX]); signed
    exit codes are [Z]. A [BTreeMap] is a [gmap], read in key order where the
    code iterates. [Result] is [result]; a panic is a third outcome ([outcome])
    so that [expect] and [unreachable!] are modelled, not assumed away. A method
    with [&mut self] is a computation of [stm], a state monad that keeps the
    state reached when an error is returned, as Rust does. All definitions are
    executable, by structural recursion; the one fuel, the six digits of
    [hex_lower_aux], covers every Unicode scalar value (below 2^24).

    Names follow the source. A definition that translates code carries a comment
    with the file and the symbol, or the lines, it translates.

    ** The files

    - Prelude: results, outcomes, the state monad, record update, checked
      integers, list functions of [Vec], relations a method [Respects], and the
      tactics [break], [bool_prop], [respect].
    - RustStr: characters, UTF-8, [trim], the formatting of numbers. RustOrd:
      the derived orders ([Ord], with laws), [sort], the iteration of a
      [BTreeMap] and the counting of its entries.
    - Ids: instance, command, operation and interaction ids, generations, agent
      and adapter slugs and bindings (id.rs, adapter.rs).
    - Input, InputFacts: input actions and their preparation into bounded
      terminal writes (input.rs); chunking, sanitizing and framing proved.
    - SessionTypes, RecordTypes, ProviderTypes, Control: the types and
      validators of control.rs, session_options.rs, capability.rs, history.rs
      and resume.rs. TypesTheorems: what the validators accept.
    - EngineReduce: the reduction of provider events and gaps into a session's
      provider snapshot ([reduce_provider_event], [reduce_provider_gap]).
      ReduceFacts: its invariant [provider_wf] and the replay of interactions;
      ProviderTheorems: the properties of one event, of a gap, and of streams.
    - EngineState: [Gate4AgentEngine] and [SessionState], counters, event log,
      effects, headroom, snapshot and drains. EngineCommands: the sixteen
      command handlers and [apply_command]. EngineObserve: the admission tests,
      the five groups of observations and the lifecycle, [apply_observation].
    - EngineRespects: the interface between the engine's steps and the
      relations proved about them. A relation with an instance of [CallClosed]
      (or [DataClosed], when it speaks of counters) is respected by every
      command and observation; the cost, the log and [confined] are instances.
    - EngineCounters: a weakest precondition [wp] for engine methods and the
      cost of a method in counter steps. EngineInv: the invariant
      ([session_wf], [core_inv], [log_inv], [engine_inv]), the life of a session
      as a step relation ([life_step]), what a call may issue ([issued]) and
      [commit], the contract of an accepted call. EngineCommandFacts,
      EngineIngestFacts, EngineObserveFacts: every command, batch and
      observation fulfils it. EngineHeadroom: the reserved headroom covers every
      cost. EngineEntry: the two entry points.
    - EngineReach: runs of calls, the reachable states, stages, and what the
      host has drained. EngineFrame: what a call may change. EngineRuns: exact
      runs and the example states.
    - EngineTheorems: the properties of every call. EngineSpecs: registration,
      launch, stop, exit, removal. EngineStreams: ignored observations, provider
      batches, snapshot. EngineResolve: inputs and answers. EngineResume: a
      resume and the answer to its authorization. EngineDefects: runs in which
      the engine does not do what its comments say.
    - ToolTypes: every type and validator of the tool protocol. ToolProtocol:
      what the validators of providers and capability names accept.
    - ToolEngine: the state and every method of the tool engine. ToolInv: its
      invariant [tool_inv], a predicate per part of the state, with what the
      host has drained as ghost lists. ToolFacts: the primitive steps and the
      five ways a request is closed. ToolSteps, ToolRequests: every method keeps
      the invariant, does exactly what its lemma says, and fails unchanged.
      ToolReach: calls, drains and runs ([tool_step], [tool_run]); every
      reachable world has the invariant. ToolLife: the life cycle of a request
      ([status_step], [request_step]) and what releases an invocation.
      ToolDemo: example runs.
    - ToolTheorems: the properties of every state and call of the tool engine.
      ToolSpecs: the exact behaviour of requests, approvals, authority,
      observations, grants, runtimes, time and generations.

    ** What is shown

    Of the session engine: every reachable state satisfies the invariant (C1);
    events are numbered without gaps and their interaction events replay to the
    open interactions (C2); no effect is handed out twice (C3); every call moves
    a session by one legal step of [life_step], so stages only advance (C4, C5);
    commands never panic and fail atomically (C6, C7); the reserved headroom
    suffices, which is the [debug_assert] of both entry points (C8); observations
    panic exactly in one situation (C9); instances are isolated (C10). C19 to
    C24 give the exact behaviour of launch, resume and its authorization, exit,
    answers and inputs; C33 and C34 that of provider batches and of the
    admission of observations; C35 and C36 the provider reduction.

    Of the tool engine: every reachable state is well formed (C11); what is
    active is authorized by the policy in force (C12), nothing is invoked
    without a decision or an approval for it (C13), and the effects handed out
    follow the protocol of an invocation (C14); requests follow their life cycle
    (C15) and each completes exactly once (C16); calls never panic, fail
    unchanged (C17) and every run ends (C18). C25 to C32 give the exact
    behaviour of the calls; C39 and C40 say what the protocol's validators
    accept. C37 and C38 are about prompts and their chunks. Further theorems of
    the same files (registration, stop, removal, snapshots, gaps, validators,
    defects) are kept with their instances.

    The abstract specifications are [life_step] (the life cycle of a session and
    its watermark), [replay] (what a subscriber knows to be open) and
    [status_step] (the life cycle of a request); the refinement theorems are C4,
    C2 and C15.

    A property of an engine call assumes a reachable state; one about the exact
    result of a call assumes [has_counter_headroom], the code's own test that no
    counter is within a few hundred steps of 2^64. Without it the code runs on a
    copy; C1 to C7 and C10 cover that path too. The tool engine has no such
    mode: its properties hold of every reachable world.

    ** What is not modelled

    Serde encodings; the printability tables behind the [Debug] text of a
    rejected adapter revision; the error texts and [Debug] summaries of the tool
    crates; [executable.rs], [readiness.rs] and [spec.rs] of the types crate,
    which are plain data the engine does not use. The kernel, which runs both
    engines for subscribers and executors, the handle, the relay, the session
    registry of a node and the wake chain come next, in that order. The shell
    crates, the native runtime, the PTY backend, the node wire and the root
    transport library are processes, files and sockets around this core. *)

From stdpp Require Export base list gmap strings numbers option sorting pretty.
From Stdlib Require Export NArith ZArith Lia.

#[export] Set Default Goal Selector "!".

Declare Scope g4a_scope.
Delimit Scope g4a_scope with g4a.
#[global] Open Scope g4a_scope.

(** ** Fallible results

    [result E A] is Rust's [Result<A, E>]; [outcome E A] adds the third way a
    Rust call can end, a panic ([expect], [unreachable!], an out-of-range
    index). *)

Inductive result (E A : Type) : Type :=
| Ok (a : A)
| Err (e : E).
Arguments Ok {E A} a.
Arguments Err {E A} e.

Inductive outcome (E A : Type) : Type :=
| Done (a : A)
| Fail (e : E)
| Panic.
Arguments Done {E A} a.
Arguments Fail {E A} e.
Arguments Panic {E A}.

#[export] Instance result_ret E : MRet (result E) := λ A a, Ok a.
#[export] Instance result_bind E : MBind (result E) := λ A B k r,
  match r with
  | Ok a => k a
  | Err e => Err e
  end.

(** A fallible function that may panic; [checked] is a call that cannot. *)
#[export] Instance outcome_ret E : MRet (outcome E) := λ A a, Done a.
#[export] Instance outcome_bind E : MBind (outcome E) := λ A B k r,
  match r with
  | Done a => k a
  | Fail e => Fail e
  | Panic => Panic
  end.
Definition checked {E A} (r : result E A) : outcome E A :=
  match r with
  | Ok a => Done a
  | Err e => Fail e
  end.
Definition expect_some {E A} (o : option A) : outcome E A :=
  match o with
  | Some a => Done a
  | None => Panic
  end.
Definition expect_ok {E F A} (r : result E A) : outcome F A :=
  match r with
  | Ok a => Done a
  | Err _ => Panic
  end.
Definition map_fail {E F A} (f : E → F) (r : outcome E A) : outcome F A :=
  match r with
  | Done a => Done a
  | Fail e => Fail (f e)
  | Panic => Panic
  end.

(** [is_ok] is [Result::is_ok]. *)
Definition is_ok {E A} (r : result E A) : bool :=
  match r with
  | Ok _ => true
  | Err _ => false
  end.

(** [map_err] is [Result::map_err]. *)
Definition map_err {E F A} (f : E → F) (r : result E A) : result F A :=
  match r with
  | Ok a => Ok a
  | Err e => Err (f e)
  end.

(** [for_each f l] is the loop [for x in l { f(x)?; }]. *)
Fixpoint for_each {E A} (f : A → result E unit) (l : list A) : result E unit :=
  match l with
  | [] => Ok tt
  | x :: l' => f x ;; for_each f l'
  end.

(** [opt_each f o] is [if let Some(x) = o { f(x)?; }]. *)
Definition opt_each {E A} (f : A → result E unit) (o : option A) : result E unit :=
  match o with
  | Some x => f x
  | None => Ok tt
  end.

(** [guard b e] is [if b { return Err(e); }]. *)
Definition guard_err {E} (b : bool) (e : E) : result E unit :=
  if b then Err e else Ok tt.

(** ** A state monad with errors and panics

    A method with a [&mut self] receiver and a [Result] return type: the state
    reached when an error is returned is kept, as Rust keeps it. *)

Definition stm (S E A : Type) : Type := S → outcome E A * S.

Section stm.
Context {S E : Type}.

#[export] Instance stm_ret : MRet (stm S E) := λ A a s, (Done a, s).
#[export] Instance stm_bind : MBind (stm S E) := λ A B k m s,
  match m s with
  | (Done a, s') => k a s'
  | (Fail e, s') => (Fail e, s')
  | (Panic, s') => (Panic, s')
  end.

Definition get_state : stm S E S := λ s, (Done s, s).
Definition modify_state (f : S → S) : stm S E unit := λ s, (Done tt, f s).
Definition throw {A} (e : E) : stm S E A := λ s, (Fail e, s).
Definition panic {A} : stm S E A := λ s, (Panic, s).

(** [lift_result f r] is [r.map_err(f)?]. *)
Definition lift_result {F A} (f : F → E) (r : result F A) : stm S E A :=
  match r with
  | Ok a => mret a
  | Err e => throw (f e)
  end.

(** [lift_option e o] is [o.ok_or(e)?]; [expect o] is [o.expect(..)]. *)
Definition lift_option {A} (e : E) (o : option A) : stm S E A :=
  match o with
  | Some a => mret a
  | None => throw e
  end.
Definition expect {A} (o : option A) : stm S E A :=
  match o with
  | Some a => mret a
  | None => panic
  end.

(** [lift_outcome f r] is [r.map_err(f)?] for a call that may panic. *)
Definition lift_outcome {F A} (f : F → E) (r : outcome F A) : stm S E A :=
  match r with
  | Done a => mret a
  | Fail e => throw (f e)
  | Panic => panic
  end.

(** [fail_when b e] is [if b { return Err(e); }]. *)
Definition fail_when (b : bool) (e : E) : stm S E unit :=
  if b then throw e else mret tt.

(** [each f l] is [for x in l { f(x)?; }]; [attempt m] is [match m { .. }] on
    the [Result] of a call. *)
Fixpoint each {A} (f : A → stm S E unit) (l : list A) : stm S E unit :=
  match l with
  | [] => mret tt
  | x :: l' => f x ;; each f l'
  end.
Definition attempt {A} (m : stm S E A) : stm S E (result E A) := λ s,
  match m s with
  | (Done a, s') => (Done (Ok a), s')
  | (Fail e, s') => (Done (Err e), s')
  | (Panic, s') => (Panic, s')
  end.
End stm.

(** ** Relations between the states before and after

    A method respects a relation when every run of it, whatever its outcome,
    ends in a state related to the one it started in. A preorder is respected
    by a composition when it is respected by its parts; [respect] walks through
    a method to its primitive steps, which are instances. *)

Class Respects {S E A : Type} (R : relation S) (m : stm S E A) : Prop :=
  respects s : R s (snd (m s)).

Section respects.
Context {S E A B : Type} (R : relation S) `{!PreOrder R}.

#[export] Instance respects_ret (a : A) : Respects R (mret a : stm S E A).
Proof. intros s. done. Qed.
#[export] Instance respects_throw (e : E) : Respects R (throw e : stm S E A).
Proof. intros s. done. Qed.
#[export] Instance respects_panic : Respects R (panic : stm S E A).
Proof. intros s. done. Qed.
#[export] Instance respects_get : Respects R (get_state : stm S E S).
Proof. intros s. done. Qed.
#[export] Instance respects_fail_when b (e : E) : Respects R (fail_when b e).
Proof. destruct b; intros s; done. Qed.
#[export] Instance respects_lift_result {F} (f : F → E) (r : result F A) :
  Respects R (lift_result f r).
Proof. destruct r; intros s; done. Qed.
#[export] Instance respects_lift_option (e : E) (o : option A) : Respects R (lift_option e o).
Proof. destruct o; intros s; done. Qed.
#[export] Instance respects_expect (o : option A) : Respects R (expect o : stm S E A).
Proof. destruct o; intros s; done. Qed.

Lemma respects_modify f : (∀ s, R s (f s)) → Respects R (modify_state f : stm S E unit).
Proof. done. Qed.
Lemma respects_bind (m : stm S E A) (k : A → stm S E B) :
  Respects R m → (∀ a, Respects R (k a)) → Respects R (m ≫= k).
Proof.
  intros Hm Hk s. specialize (Hm s). unfold mbind, stm_bind.
  destruct (m s) as [[a|e|] s']; cbn in *; [by etransitivity; [|apply Hk]|done|done].
Qed.
End respects.

Ltac respect_step :=
  lazymatch goal with
  | |- Respects _ (_ ≫= _) => 
      notypeclasses refine (@respects_bind _ _ _ _ _ _ _ _ _ _); [apply _| |intros ?]
  | |- Respects _ (match ?x with _ => _ end) => destruct x
  | |- Respects _ _ => apply _
  end.
Ltac respect := repeat (cbn zeta; respect_step).

(** ** Weakest preconditions

    [wp m Q F s]: run in [s], [m] does not panic; it ends with [Q] of its
    value and its state, or in an error with [F]. *)

Definition wp {S E A} (m : stm S E A) (Q : A → S → Prop) (F : E → S → Prop) (s : S) : Prop :=
  match m s with
  | (Done a, s') => Q a s'
  | (Fail error, s') => F error s'
  | (Panic, _) => False
  end.

Section wp.
Context {S E A B : Type} (F : E → S → Prop).
Implicit Types (s : S).

Lemma wp_ret (a : A) (Q : A → S → Prop) s : Q a s → wp (mret a) Q F s.
Proof. done. Qed.

Lemma wp_bind (m : stm S E A) (k : A → stm S E B) Q s :
  wp m (λ a, wp (k a) Q F) F s → wp (m ≫= k) Q F s.
Proof. unfold wp, mbind, stm_bind. destruct (m s) as [[a|err|] s']; done. Qed.

Lemma wp_mono (m : stm S E A) (Q Q' : A → S → Prop) s :
  (∀ a s', Q a s' → Q' a s') → wp m Q F s → wp m Q' F s.
Proof. unfold wp. destruct (m s) as [[a|err|] s']; auto. Qed.

Lemma wp_get (Q : S → S → Prop) s : Q s s → wp get_state Q F s.
Proof. done. Qed.

Lemma wp_modify f (Q : unit → S → Prop) s : Q tt (f s) → wp (modify_state f) Q F s.
Proof. done. Qed.

Lemma wp_throw err (Q : A → S → Prop) s : F err s → wp (throw err) Q F s.
Proof. done. Qed.

Lemma wp_fail_when b err (Q : unit → S → Prop) s :
  (b = true → F err s) → (b = false → Q tt s) → wp (fail_when b err) Q F s.
Proof. unfold fail_when. destruct b; intros H1 H2; [by apply H1|by apply H2]. Qed.

Lemma wp_lift_result {G} (f : G → E) (r : result G A) (Q : A → S → Prop) s :
  (∀ err, r = Err err → F (f err) s) → (∀ a, r = Ok a → Q a s) →
  wp (lift_result f r) Q F s.
Proof. destruct r; intros H1 H2; [by apply H2|by apply H1]. Qed.

Lemma wp_lift_option err (o : option A) (Q : A → S → Prop) s :
  (o = None → F err s) → (∀ a, o = Some a → Q a s) → wp (lift_option err o) Q F s.
Proof. destruct o; intros H1 H2; [by apply H2|by apply H1]. Qed.

Lemma wp_expect (o : option A) (Q : A → S → Prop) s :
  is_Some o → (∀ a, o = Some a → Q a s) → wp (expect o) Q F s.
Proof. intros [a ->] H. by apply H. Qed.
End wp.

(** ** Record update

    [r <| f := v |>] and [r <| f ::= g |>] build a copy of a record with one
    field changed; the setter is derived from the list of fields given once
    per record by [fields_of]. *)

Class Fields (R : Type) := rebuild : R → R.
Class Setter {R T : Type} (proj : R → T) := set_field : (T → T) → R → R.

Definition env_pure {R A : Type} (a : A) : R → A := λ _, a.
Definition env_ap {R A B : Type} (g : R → A → B) (f : R → A) : R → B :=
  λ r, g r (f r).

Notation "'fields_of' B < f ; .. ; h >" :=
  (env_ap .. (env_ap (env_pure B) f) .. h)
  (at level 0, B at level 9, f at level 9, h at level 9, only parsing).

Ltac derive_setter :=
  match goal with
  | |- @Setter ?R ?T ?proj =>
      let fs := constr:(_ : Fields R) in
      let whole := eval hnf in (@rebuild R fs) in
      let whole := eval cbv beta delta [env_ap env_pure] in whole in
      let abstracted := eval pattern proj in whole in
      match abstracted with
      | ?body _ =>
          let t := constr:(λ (g : T → T) (r : R), body (λ r', g (proj r')) r) in
          let t := eval cbv beta in t in
          exact t
      end
  end.

#[export] Hint Extern 0 (@Setter _ _ _) => derive_setter : typeclass_instances.

Notation "r <| f ::= g |>" := (@set_field _ _ f _ g r)
  (at level 12, f at next level, g at level 200, left associativity) : g4a_scope.
Notation "r <| f := v |>" := (@set_field _ _ f _ (λ _, v) r)
  (at level 12, f at next level, v at level 200, left associativity) : g4a_scope.

(** ** Machine integers

    Unsigned integers are [N] with the wrap or saturation of the operation
    written out. *)

Definition U16_MAX : N := 65535.
Definition U32_MAX : N := 4294967295.
Definition U64_MAX : N := 18446744073709551615.

(** [u64::checked_add], [u64::saturating_add], [u64::checked_sub]. *)
Definition checked_add (a b : N) : option N :=
  if (a + b <=? U64_MAX)%N then Some (a + b)%N else None.
Definition saturating_add (a b : N) : N := N.min (a + b)%N U64_MAX.
Definition checked_sub (a b : N) : option N :=
  if (b <=? a)%N then Some (a - b)%N else None.

(** [iter().find_map(f)], [iter().any(p)], and the update of the first element
    found by [iter_mut().find(p)]. *)
Fixpoint find_map {A B} (f : A → option B) (l : list A) : option B :=
  match l with
  | [] => None
  | x :: l' => match f x with Some b => Some b | None => find_map f l' end
  end.
Fixpoint update_first {A} (p : A → bool) (f : A → A) (l : list A) : list A :=
  match l with
  | [] => []
  | x :: l' => if p x then f x :: l' else x :: update_first p f l'
  end.

(** [Vec::retain(p)]. *)
Fixpoint retain {A} (p : A → bool) (l : list A) : list A :=
  match l with
  | [] => []
  | x :: l' => if p x then x :: retain p l' else retain p l'
  end.

(** [iter().position(p)] and [Vec::remove(i)] in range. *)
Fixpoint position {A} (p : A → bool) (l : list A) : option nat :=
  match l with
  | [] => None
  | x :: l' => if p x then Some 0 else S <$> position p l'
  end.
Fixpoint remove_at {A} (i : nat) (l : list A) : option (A * list A) :=
  match l, i with
  | [], _ => None
  | x :: l', O => Some (x, l')
  | x :: l', S i' => match remove_at i' l' with
                     | Some (y, r) => Some (y, x :: r)
                     | None => None
                     end
  end.

(** [iter().min_by_key(f)]: the first of the least elements. *)
Fixpoint min_by_key {A} (f : A → N) (l : list A) : option A :=
  match l with
  | [] => None
  | x :: l' =>
      match min_by_key f l' with
      | Some y => if (f x <=? f y)%N then Some x else Some y
      | None => Some x
      end
  end.

(** [Vec::len] as a [usize]. *)
Definition len {A} (l : list A) : N := N.of_nat (length l).

(** ** Automation *)

Create HintDb g4a.
Create Rewrite HintDb g4a.

(** [break] opens every [match] and [if] of the goal, with equations. *)
Ltac break_step :=
  match goal with
  | |- context [match ?x with _ => _ end] =>
      first [is_var x; destruct x | destruct x eqn:?]
  | |- context [if ?x then _ else _] => destruct x eqn:?
  end.
Ltac break := repeat (break_step; cbn in *; simplify_eq).

(** [break_in H] does so in a hypothesis. *)
Ltac break_in H :=
  repeat match type of H with
  | context [match ?x with _ => _ end] => destruct x eqn:?; cbn in *; simplify_eq
  end.

(** [bool_prop] turns boolean tests of the context into propositions. *)
Ltac bool_prop :=
  repeat match goal with
  | H : (_ && _) = true |- _ => apply andb_true_iff in H as [? ?]
  | H : (_ && _) = false |- _ => apply andb_false_iff in H
  | H : (_ || _) = true |- _ => apply orb_true_iff in H
  | H : (_ || _) = false |- _ => apply orb_false_iff in H as [? ?]
  | H : negb _ = true |- _ => apply negb_true_iff in H
  | H : negb _ = false |- _ => apply negb_false_iff in H
  | H : bool_decide _ = true |- _ => apply bool_decide_eq_true in H
  | H : bool_decide _ = false |- _ => apply bool_decide_eq_false in H
  | H : (_ <=? _)%N = true |- _ => apply N.leb_le in H
  | H : (_ <=? _)%N = false |- _ => apply N.leb_gt in H
  | H : (_ <? _)%N = true |- _ => apply N.ltb_lt in H
  | H : (_ <? _)%N = false |- _ => apply N.ltb_ge in H
  | H : (_ =? _)%N = true |- _ => apply N.eqb_eq in H
  | H : (_ =? _)%N = false |- _ => apply N.eqb_neq in H
  end.

(** ** Generic lemmas *)

Lemma checked_add_Some a b c :
  checked_add a b = Some c ↔ c = (a + b)%N ∧ (a + b <= U64_MAX)%N.
Proof. unfold checked_add. destruct (_ <=? _)%N eqn:H; bool_prop; naive_solver lia. Qed.

Lemma checked_add_None a b : checked_add a b = None ↔ (U64_MAX < a + b)%N.
Proof. unfold checked_add. destruct (_ <=? _)%N eqn:H; bool_prop; naive_solver lia. Qed.

Lemma saturating_add_bound a b : (saturating_add a b <= U64_MAX)%N.
Proof. unfold saturating_add. lia. Qed.

Lemma result_bind_Ok {E A B} (m : result E A) (k : A → result E B) b :
  m ≫= k = Ok b ↔ ∃ a, m = Ok a ∧ k a = Ok b.
Proof. destruct m; cbn; naive_solver. Qed.

Lemma retain_sublist {A} (p : A → bool) l : sublist (retain p l) l.
Proof. induction l as [|x l IH]; cbn; [constructor|]. destruct (p x); by constructor. Qed.

Lemma elem_of_retain {A} (p : A → bool) l x : x ∈ retain p l ↔ x ∈ l ∧ p x = true.
Proof.
  induction l as [|y l IH]; cbn; [rewrite elem_of_nil; tauto|].
  destruct (p y) eqn:E; rewrite ?elem_of_cons, IH; naive_solver congruence.
Qed.

Lemma len_cons {A} (x : A) l : len (x :: l) = (len l + 1)%N.
Proof. unfold len. cbn. lia. Qed.

Lemma seq_Ok {E A} (m : result E unit) (k : result E A) a :
  (m ;; k) = Ok a ↔ m = Ok tt ∧ k = Ok a.
Proof. rewrite result_bind_Ok. split; [by intros ([] & ? & ?)|]. intros []. by exists tt. Qed.

Lemma for_each_Ok {E A} (f : A → result E unit) l :
  for_each f l = Ok tt ↔ Forall (λ x, f x = Ok tt) l.
Proof.
  induction l as [|x l IH]; cbn; [split; auto|].
  rewrite Forall_cons, <- IH.
  destruct (f x) as [[]|]; naive_solver.
Qed.

Lemma guard_err_Ok {E} (b : bool) (e : E) : guard_err b e = Ok tt ↔ b = false.
Proof. destruct b; cbn; naive_solver. Qed.

Lemma is_ok_unit {E} (r : result E unit) : is_ok r = true ↔ r = Ok tt.
Proof. destruct r as [[]|]; cbn; naive_solver. Qed.

#[export] Hint Rewrite @result_bind_Ok @for_each_Ok @guard_err_Ok : g4a.
