(* ===== verification/RustStr.v ===== *)
(** * Rust characters and strings

    A [char] is a Unicode scalar value as an [N], a [String] is the list of
    its characters; byte lengths and byte contents are those of its UTF-8
    encoding.  The predicates are those of the Rust standard library. *)

From S2P Require Import Prelude.
From Stdlib Require Import Ascii String.

Abbreviation rstring := (list N) (only parsing).

(** String literals. *)
Fixpoint str (s : string) : list N :=
  match s with
  | EmptyString => []
  | String c s' => N_of_ascii c :: str s'
  end.

(** [char::is_control]: the general category Cc. *)
Definition is_control (c : N) : bool :=
  ((c <=? 0x1f) || ((0x7f <=? c) && (c <=? 0x9f)))%N%bool.

(** [char::is_whitespace]: the property White_Space. *)
Definition is_whitespace (c : N) : bool :=
  (((0x9 <=? c) && (c <=? 0xd)) || (c =? 0x20) || (c =? 0x85) || (c =? 0xa0)
   || (c =? 0x1680) || ((0x2000 <=? c) && (c <=? 0x200a)) || (c =? 0x2028)
   || (c =? 0x2029) || (c =? 0x202f) || (c =? 0x205f) || (c =? 0x3000))%N%bool.

Definition is_ascii_lowercase (c : N) : bool := ((0x61 <=? c) && (c <=? 0x7a))%N%bool.
Definition is_ascii_uppercase (c : N) : bool := ((0x41 <=? c) && (c <=? 0x5a))%N%bool.
Definition is_ascii_digit (c : N) : bool := ((0x30 <=? c) && (c <=? 0x39))%N%bool.
Definition is_ascii_alphanumeric (c : N) : bool :=
  is_ascii_lowercase c || is_ascii_uppercase c || is_ascii_digit c.

(** A control character other than the newline, carriage return and tab that
    text fields may carry. *)
Definition is_unsafe_control (c : N) : bool :=
  (is_control c && negb ((c =? 0xa) || (c =? 0xd) || (c =? 0x9)))%N%bool.

(** [char::len_utf8] and the UTF-8 encoding. *)
Definition len_utf8 (c : N) : N :=
  if (c <? 0x80)%N then 1%N
  else if (c <? 0x800)%N then 2%N
  else if (c <? 0x10000)%N then 3%N
  else 4%N.

Definition utf8_char (c : N) : list N :=
  if (c <? 0x80)%N then [c]
  else if (c <? 0x800)%N then
    [0xc0 + N.shiftr c 6; 0x80 + N.land c 0x3f]%N
  else if (c <? 0x10000)%N then
    [0xe0 + N.shiftr c 12; 0x80 + N.land (N.shiftr c 6) 0x3f; 0x80 + N.land c 0x3f]%N
  else
    [0xf0 + N.shiftr c 18; 0x80 + N.land (N.shiftr c 12) 0x3f;
     0x80 + N.land (N.shiftr c 6) 0x3f; 0x80 + N.land c 0x3f]%N.

(** [str::as_bytes] and [str::len]. *)
Definition as_bytes (s : list N) : list N := s ≫= utf8_char.
Fixpoint str_len (s : list N) : N :=
  match s with
  | [] => 0%N
  | c :: s' => (len_utf8 c + str_len s')%N
  end.

(** [str::is_empty], [str::trim], [str::starts_with], [chars().any], [chars().all]. *)
Definition str_is_empty (s : list N) : bool :=
  match s with [] => true | _ => false end.
Fixpoint trim_start (s : list N) : list N :=
  match s with
  | c :: s' => if is_whitespace c then trim_start s' else s
  | [] => []
  end.
Definition trim (s : list N) : list N := reverse (trim_start (reverse (trim_start s))).
Definition starts_with (s : list N) (c : N) : bool :=
  match s with x :: _ => (x =? c)%N | [] => false end.
Definition chars_any (p : N → bool) (s : list N) : bool := existsb p s.
Definition chars_all (p : N → bool) (s : list N) : bool := forallb p s.

(** Decimal and upper-case hexadecimal (at least four digits) formatting. *)
Definition fmt_dec (n : N) : list N := str (pretty n).
Definition hex_digit (d : N) : N := if (d <? 10)%N then (0x30 + d)%N else (0x37 + d)%N.
Definition fmt_hex4 (n : N) : list N :=
  let low := [hex_digit (N.land (N.shiftr n 12) 15); hex_digit (N.land (N.shiftr n 8) 15);
              hex_digit (N.land (N.shiftr n 4) 15); hex_digit (N.land n 15)] in
  if (n <? 0x10000)%N then low
  else if (n <? 0x100000)%N then hex_digit (N.land (N.shiftr n 16) 15) :: low
  else hex_digit (N.land (N.shiftr n 20) 15) :: hex_digit (N.land (N.shiftr n 16) 15) :: low.

(** [char_indices().find(p)]: the byte index and the first character with [p]. *)
Fixpoint find_char_from (p : N → bool) (index : N) (s : list N) : option (N * N) :=
  match s with
  | [] => None
  | c :: s' => if p c then Some (index, c) else find_char_from p (index + len_utf8 c)%N s'
  end.
Definition find_char (p : N → bool) (s : list N) : option (N * N) := find_char_from p 0 s.

(** [str::to_ascii_lowercase], [str::starts_with(prefix)], [str::contains(pattern)]. *)
Definition to_ascii_lowercase (s : list N) : list N :=
  (λ c, if is_ascii_uppercase c then c + 0x20 else c)%N <$> s.
Fixpoint starts_with_str (s prefix : list N) : bool :=
  match prefix, s with
  | [], _ => true
  | _ :: _, [] => false
  | p :: prefix', c :: s' => (p =? c)%N && starts_with_str s' prefix'
  end.
Fixpoint str_contains (s pattern : list N) : bool :=
  starts_with_str s pattern ||
  match s with
  | [] => false
  | _ :: s' => str_contains s' pattern
  end.

(** [str::split(p)]: the pieces between the characters with [p]. *)
Fixpoint split_on (p : N → bool) (s : list N) : list (list N) :=
  match s with
  | [] => [[]]
  | c :: s' =>
      if p c then [] :: split_on p s'
      else match split_on p s' with
           | piece :: rest => (c :: piece) :: rest
           | [] => [[c]]
           end
  end.

(** [str::strip_prefix(prefix)], [str::strip_suffix(suffix)], [str::ends_with(suffix)]. *)
Definition strip_prefix (s prefix : list N) : option (list N) :=
  if starts_with_str s prefix then Some (drop (List.length prefix) s) else None.
Definition strip_suffix (s suffix : list N) : option (list N) :=
  let n := (List.length s - List.length suffix)%nat in
  if bool_decide (List.length suffix <= List.length s)%nat && bool_decide (drop n s = suffix)
  then Some (take n s) else None.
Definition ends_with_str (s suffix : list N) : bool := bool_decide (is_Some (strip_suffix s suffix)).

(** [str::lines]: the pieces that end at a line feed, without it and without a
    carriage return before it, and the rest of the text if there is one. *)
Fixpoint lines_from (line s : list N) : list (list N) :=
  match s with
  | [] => if str_is_empty line then [] else [line]
  | c :: s' =>
      if (c =? 0xa)%N then default line (strip_suffix line [0xd]%N) :: lines_from [] s'
      else lines_from (line ++ [c]) s'
  end.
Definition lines (s : list N) : list (list N) := lines_from [] s.

(** [str::find(pattern)], as the text before the first occurrence. *)
Fixpoint before_str (s pattern : list N) : option (list N) :=
  if starts_with_str s pattern then Some []
  else match s with
       | [] => None
       | c :: s' => cons c <$> before_str s' pattern
       end.

(** [str::eq_ignore_ascii_case], [str::trim_end]. *)
Definition eq_ignore_ascii_case (a b : list N) : bool :=
  bool_decide (to_ascii_lowercase a = to_ascii_lowercase b).
Definition trim_end (s : list N) : list N := reverse (trim_start (reverse s)).

(** [&s[index..]] and [&s[..index]] at a byte index: none when it is not the
    boundary of a character or lies outside the text, where Rust panics. *)
Fixpoint split_at (s : list N) (index : N) : option (list N * list N) :=
  if (index =? 0)%N then Some ([], s)
  else match s with
       | [] => None
       | c :: s' =>
           if (index <? len_utf8 c)%N then None
           else '(a, b) ← split_at s' (index - len_utf8 c); Some (c :: a, b)
       end.

(** [str::split_ascii_whitespace]. *)
Definition is_ascii_whitespace (c : N) : bool :=
  ((c =? 0x20) || (c =? 0x9) || (c =? 0xa) || (c =? 0xc) || (c =? 0xd))%N.
Definition split_ascii_whitespace (s : list N) : list (list N) :=
  List.filter (λ piece, negb (str_is_empty piece)) (split_on is_ascii_whitespace s).

(** A Unicode scalar value. *)
Definition is_scalar (c : N) : Prop :=
  (c < 0xd800 ∨ 0xe000 <= c < 0x110000)%N.

(** ** Lemmas *)

Lemma str_len_app s t : str_len (s ++ t) = (str_len s + str_len t)%N.
Proof. induction s; cbn; lia. Qed.

Lemma len_utf8_range c : (1 <= len_utf8 c <= 4)%N.
Proof. unfold len_utf8. repeat case_match; lia. Qed.

Lemma utf8_char_length c : len (utf8_char c) = len_utf8 c.
Proof. unfold len, utf8_char, len_utf8. by repeat case_match. Qed.

Lemma split_on_nonempty p s : split_on p s ≠ [].
Proof. induction s as [|c s IH]; cbn; [done|]. destruct (p c); [done|]. by destruct (split_on p s). Qed.

Lemma split_on_sep p a c b :
  p c = true → split_on p (a ++ c :: b) = split_on p a ++ split_on p b.
Proof.
  intros Hc. induction a as [|x a IH]; cbn; [by rewrite Hc|]. destruct (p x); cbn; [by rewrite IH|].
  rewrite IH. pose proof (split_on_nonempty p a). by destruct (split_on p a).
Qed.

Lemma split_on_plain p s : Forall (λ c, p c = false) s → split_on p s = [s].
Proof. induction 1 as [|c s Hc _ IH]; cbn; [done|]. by rewrite Hc, IH. Qed.

Lemma as_bytes_app s t : as_bytes (s ++ t) = as_bytes s ++ as_bytes t.
Proof. unfold as_bytes. by rewrite bind_app. Qed.

Lemma as_bytes_length s : len (as_bytes s) = str_len s.
Proof.
  induction s as [|c s IH]; [done|].
  change (as_bytes (c :: s)) with (utf8_char c ++ as_bytes s).
  unfold len in *. rewrite length_app. cbn.
  rewrite <- IH, <- (utf8_char_length c). unfold len. lia.
Qed.

Lemma str_len_nil_inv s : str_len s = 0%N → s = [].
Proof. destruct s as [|c s]; cbn; [done|]. pose proof (len_utf8_range c). lia. Qed.

(** Every byte of the encoding of a character other than a byte [b < 0x80] is
    different from [b]: multi-byte encodings use bytes from 0x80 up. *)
Lemma utf8_char_ascii c b :
  (b < 0x80)%N → b ∈ utf8_char c → c = b.
Proof.
  intros Hb. unfold utf8_char.
  destruct (c <? 0x80)%N eqn:H1; [set_solver|].
  destruct (c <? 0x800)%N eqn:H2; [|destruct (c <? 0x10000)%N eqn:H3];
    rewrite ?elem_of_cons, ?elem_of_nil; intros Hin;
    repeat (destruct Hin as [Hin|Hin]); try done; lia.
Qed.

Lemma as_bytes_ascii s b : (b < 0x80)%N → b ∈ as_bytes s → b ∈ s.
Proof.
  intros Hb. unfold as_bytes. rewrite list_elem_of_bind.
  intros (c & Hc & Hs). by apply utf8_char_ascii in Hc; subst.
Qed.

Lemma trim_start_nil s : trim_start s = [] ↔ Forall (λ c, is_whitespace c = true) s.
Proof.
  induction s as [|c s IH]; cbn; [split; auto|].
  rewrite Forall_cons. destruct (is_whitespace c) eqn:H; [naive_solver|].
  split; [done|]. intros [? ?]. congruence.
Qed.

Lemma trim_start_suffix s : ∃ w, s = w ++ trim_start s ∧ Forall (λ c, is_whitespace c = true) w.
Proof.
  induction s as [|c s (w & Hw & HF)]; cbn; [by exists []|].
  destruct (is_whitespace c) eqn:H; [|by exists []].
  exists (c :: w). rewrite Forall_cons. split; [|done]. cbn. congruence.
Qed.

(** [s.trim().is_empty()] holds exactly of the strings of white space. *)
Lemma trim_is_empty s :
  str_is_empty (trim s) = true ↔ Forall (λ c, is_whitespace c = true) s.
Proof.
  unfold trim. destruct (trim_start_suffix s) as (w & Hw & HF).
  assert (Hiff : trim_start s = [] ↔ Forall (λ c, is_whitespace c = true) s)
    by apply trim_start_nil.
  transitivity (reverse (trim_start (reverse (trim_start s))) = []).
  { destruct (reverse (trim_start (reverse (trim_start s)))); cbn; split; done. }
  split.
  - intros H. apply (f_equal reverse) in H. rewrite reverse_involutive in H. cbn in H.
    apply trim_start_nil in H. rewrite Hw. apply Forall_app. split; [done|].
    rewrite Forall_reverse in H. done.
  - intros H. apply Hiff in H. by rewrite H.
Qed.

Lemma trim_start_id s : trim_start s = s ↔ ∀ c x, s = c :: x → is_whitespace c = false.
Proof.
  split.
  - intros E c x ->. destruct (trim_start_suffix (c :: x)) as (w & Hw & HF).
    rewrite E in Hw. destruct w as [|d w]; [|by apply (f_equal (@List.length N)) in Hw;
      rewrite length_app in Hw; cbn in Hw; lia].
    cbn in E. destruct (is_whitespace c); [|done].
    destruct (trim_start_suffix x) as (w & Hx & _). apply (f_equal (@List.length N)) in E, Hx.
    rewrite length_app in Hx. cbn in E. lia.
  - intros H. destruct s as [|c x]; [done|]. cbn. by rewrite (H c x eq_refl).
Qed.

Lemma trim_start_idem s : trim_start (trim_start s) = trim_start s.
Proof. induction s as [|c s IH]; cbn; [done|]. destruct (is_whitespace c) eqn:H; [done|]. cbn. by rewrite H. Qed.

(** [s.trim().trim()] is [s.trim()]. *)
Lemma trim_idem s : trim (trim s) = trim s.
Proof.
  unfold trim. set (u := trim_start s). set (v := trim_start (reverse u)).
  assert (Hu : trim_start (reverse v) = reverse v).
  { apply trim_start_id. intros c x E.
    destruct (trim_start_suffix (reverse u)) as (w & Hw & _). fold v in Hw.
    apply (f_equal reverse) in Hw. rewrite reverse_involutive, reverse_app, E in Hw.
    apply (proj1 (trim_start_id u)) with (x ++ reverse w); [apply trim_start_idem|done]. }
  rewrite Hu, reverse_involutive. unfold v. by rewrite trim_start_idem.
Qed.

Lemma chars_any_false p s : chars_any p s = false ↔ Forall (λ c, p c = false) s.
Proof.
  unfold chars_any. induction s as [|c s IH]; cbn; [split; auto|].
  rewrite Forall_cons, <- IH, orb_false_iff. done.
Qed.

Lemma chars_all_true p s : chars_all p s = true ↔ Forall (λ c, p c = true) s.
Proof.
  unfold chars_all. induction s as [|c s IH]; cbn; [split; auto|].
  rewrite Forall_cons, <- IH, andb_true_iff. done.
Qed.

#[export] Hint Rewrite @chars_any_false @chars_all_true @trim_is_empty : g4a.
