(* ===== verification/RustOrd.v ===== *)
(** * Rust's [Ord] and the order of a [BTreeMap]

    A type class for total orders, the derived orders (lexicographic on the
    fields), and the entries of a [gmap] in the order a [BTreeMap] lists them. *)

From S2P Require Import Prelude.

(** ** Total orders *)

Class Ord (A : Type) := cmp : A → A → comparison.
#[global] Hint Mode Ord ! : typeclass_instances.
Class OrdLaws (A : Type) `{Ord A} : Prop := {
  cmp_eq (a b : A) : cmp a b = Eq ↔ a = b;
  cmp_opp (a b : A) : cmp b a = CompOpp (cmp a b);
  cmp_trans (a b c : A) : cmp a b = Lt → cmp b c = Lt → cmp a c = Lt
}.

#[export] Instance N_ord : Ord N := N.compare.
#[export] Instance N_ord_laws : OrdLaws N.
Proof.
  split.
  - apply N.compare_eq_iff.
  - intros a b. apply N.compare_antisym.
  - intros a b c. unfold cmp, N_ord. rewrite !N.compare_lt_iff. lia.
Qed.

(** [#[derive(Ord)]] on a pair, and on a list or a [String]. *)
Definition then_cmp (c d : comparison) : comparison :=
  match c with Eq => d | _ => c end.

#[export] Instance pair_ord `{Ord A, Ord B} : Ord (A * B) := λ x y,
  then_cmp (cmp (fst x) (fst y)) (cmp (snd x) (snd y)).

#[export] Instance list_ord `{Ord A} : Ord (list A) :=
  fix go l k :=
    match l, k with
    | [], [] => Eq
    | [], _ :: _ => Lt
    | _ :: _, [] => Gt
    | x :: l', y :: k' => then_cmp (cmp x y) (go l' k')
    end.

(** A newtype or a struct is ordered by the tuple of its fields. *)
Definition ord_by {A} `{Ord B} (f : A → B) : Ord A := λ x y, cmp (f x) (f y).

Lemma then_cmp_opp c d : CompOpp (then_cmp c d) = then_cmp (CompOpp c) (CompOpp d).
Proof. by destruct c. Qed.

Lemma ord_by_laws {A} `{OrdLaws B} (f : A → B) `{!Inj (=) (=) f} : @OrdLaws A (ord_by f).
Proof.
  split; unfold cmp, ord_by.
  - intros a b. rewrite cmp_eq. split; [apply (inj f)|by intros ->].
  - intros a b. apply cmp_opp.
  - intros a b c. apply cmp_trans.
Qed.

#[export] Instance pair_ord_laws `{OrdLaws A, OrdLaws B} : OrdLaws (A * B).
Proof.
  split; unfold cmp, pair_ord.
  - intros [a b] [c d]. cbn. destruct (cmp a c) eqn:E; cbn;
      rewrite ?cmp_eq in *; split; intros; simplify_eq; try done;
      by rewrite (proj2 (cmp_eq c c)) in E.
  - intros [a b] [c d]. cbn. by rewrite then_cmp_opp, <- !cmp_opp.
  - intros [a b] [c d] [p q]. cbn.
    destruct (cmp a c) eqn:E1; cbn; [apply cmp_eq in E1 as ->; destruct (cmp c p); cbn|..]; try done.
    + apply cmp_trans.
    + destruct (cmp c p) eqn:E2; cbn; [apply cmp_eq in E2 as ->; by rewrite E1|..]; try done.
      intros _ _. by rewrite (cmp_trans _ _ _ E1 E2).
Qed.

#[export] Instance list_ord_laws `{OrdLaws A} : OrdLaws (list A).
Proof.
  split.
  - induction a as [|x l IH]; intros [|y k]; cbn; try done.
    specialize (IH k). unfold cmp, list_ord in IH.
    destruct (cmp x y) eqn:E; cbn; rewrite ?cmp_eq in *; subst;
      [rewrite IH; naive_solver|split; intros; simplify_eq; by rewrite (proj2 (cmp_eq y y)) in E..].
  - induction a as [|x l IH]; intros [|y k]; cbn; try done.
    by rewrite then_cmp_opp, <- cmp_opp, <- IH.
  - intros a b. revert a.
    induction b as [|y k IH]; intros [|x l] [|z m]; cbn; try done.
    specialize (IH l m). unfold cmp in IH at 1 2 3. unfold list_ord in IH.
    destruct (cmp x y) eqn:E1; cbn; [apply cmp_eq in E1 as ->; destruct (cmp y z); cbn|..]; try done.
    destruct (cmp y z) eqn:E2; cbn; [apply cmp_eq in E2 as ->; by rewrite E1|..]; try done.
    intros _ _. by rewrite (cmp_trans _ _ _ E1 E2).
Qed.

(** ** The order of a sort *)

Section order.
Context `{OrdLaws A}.

Definition ord_le (a b : A) : Prop := cmp a b ≠ Gt.
#[export] Instance ord_le_dec a b : Decision (ord_le a b).
Proof. unfold ord_le. apply _. Defined.

Lemma ord_le_cases a b : ord_le a b ↔ cmp a b = Lt ∨ a = b.
Proof. unfold ord_le. rewrite <- cmp_eq. destruct (cmp a b); naive_solver. Qed.

#[export] Instance ord_le_trans : Transitive ord_le.
Proof.
  intros a b c. rewrite !ord_le_cases. intros [Hab| ->] [Hbc| ->]; eauto using cmp_trans.
Qed.
#[export] Instance ord_le_total : Total ord_le.
Proof.
  intros a b. unfold ord_le. rewrite (cmp_opp a b).
  destruct (cmp a b); cbn; naive_solver.
Qed.
#[export] Instance ord_le_antisymm : AntiSymm (=) ord_le.
Proof.
  intros a b. unfold ord_le. rewrite <- (cmp_eq a b), (cmp_opp a b).
  destruct (cmp a b); cbn; naive_solver.
Qed.
End order.

(** [slice.sort()] and [sort_by(|a, b| f(a).cmp(f(b)))], both stable. *)
Definition sort `{OrdLaws A} (l : list A) : list A := merge_sort ord_le l.

Definition sort_by {A} `{OrdLaws B} (f : A → B) (l : list A) : list A :=
  merge_sort (λ x y, ord_le (f x) (f y)) l.

Section sort.
Context `{OrdLaws A}.

Lemma sort_Permutation (l : list A) : sort l ≡ₚ l.
Proof. apply merge_sort_Permutation. Qed.
Lemma sort_sorted (l : list A) : StronglySorted ord_le (sort l).
Proof. apply (StronglySorted_merge_sort _); apply _. Qed.
Lemma sort_by_Permutation {B} (f : B → A) l : sort_by f l ≡ₚ l.
Proof. apply merge_sort_Permutation. Qed.

(** [windows(2).any(|pair| pair[0] == pair[1])]. *)
Fixpoint adjacent_equal `{EqDecision A} (l : list A) : bool :=
  match l with
  | x :: (y :: _) as l' => bool_decide (x = y) || adjacent_equal l'
  | _ => false
  end.

(** In a sorted list equal elements are neighbours. *)
Lemma adjacent_equal_sorted `{EqDecision A} (l : list A) :
  StronglySorted ord_le l → adjacent_equal l = false ↔ NoDup l.
Proof.
  induction 1 as [|x l Hl IH Hx]; [split; [constructor|done]|].
  rewrite NoDup_cons, <- IH. destruct l as [|y l]; cbn; [set_solver|].
  rewrite orb_false_iff, bool_decide_eq_false. apply and_iff_compat_r.
  rewrite not_elem_of_cons. split; [|naive_solver]. intros Hxy. split; [done|].
  intros Hin. apply Hxy. apply StronglySorted_inv in Hl as [_ Hy].
  rewrite Forall_forall in Hx, Hy. apply (anti_symm ord_le); [apply Hx; left|by apply Hy].
Qed.
End sort.

(** ** Ordered maps *)

Section btree.
Context `{Countable K, !Ord K, !OrdLaws K} {V : Type}.
Implicit Types (m : gmap K V).

(** [map.iter()], [map.keys()] and [map.values()]. *)
Definition btree_iter m : list (K * V) := sort_by fst (map_to_list m).
Definition btree_keys m : list K := fst <$> btree_iter m.
Definition btree_values m : list V := snd <$> btree_iter m.

Lemma elem_of_btree_iter m k v : (k, v) ∈ btree_iter m ↔ m !! k = Some v.
Proof. unfold btree_iter. by rewrite sort_by_Permutation, elem_of_map_to_list. Qed.

Lemma btree_keys_NoDup m : NoDup (btree_keys m).
Proof.
  unfold btree_keys, btree_iter. rewrite sort_by_Permutation. apply NoDup_fst_map_to_list.
Qed.

Lemma btree_iter_length m : length (btree_iter m) = size m.
Proof. unfold btree_iter. by rewrite sort_by_Permutation, length_map_to_list. Qed.

(** [map.iter().filter(p).map(key)], collected. *)
Definition keys_where (p : K → V → bool) m : list K :=
  fst <$> List.filter (λ x, p (fst x) (snd x)) (btree_iter m).

Lemma elem_of_keys_where p m k : k ∈ keys_where p m ↔ ∃ v, m !! k = Some v ∧ p k v = true.
Proof.
  unfold keys_where. rewrite list_elem_of_fmap. split.
  - intros ([k' v] & -> & Hin). apply list_elem_of_In, filter_In in Hin as [Hin Hp].
    apply list_elem_of_In, elem_of_btree_iter in Hin. eauto.
  - intros (v & Hv & Hp). exists (k, v). split; [done|].
    apply list_elem_of_In, filter_In. split; [|done]. by apply list_elem_of_In, elem_of_btree_iter.
Qed.

Lemma keys_where_NoDup p m : NoDup (keys_where p m).
Proof.
  unfold keys_where. eapply sublist_NoDup; [apply (btree_keys_NoDup m)|apply fmap_sublist].
  generalize (btree_iter m) as l. induction l as [|x l IH]; cbn; [constructor|].
  destruct (p _ _); by constructor.
Qed.

(** [map.iter().filter(p).count()]. *)
Definition count (p : K → V → bool) m : N :=
  N.of_nat (size (filter (λ x, p (fst x) (snd x) = true) m)).

Lemma count_delete p m k :
  (count p m = count p (delete k m)
    + match m !! k with Some v => if p k v then 1 else 0 | None => 0 end)%N.
Proof.
  unfold count. destruct (m !! k) as [v|] eqn:E.
  - rewrite <- (insert_delete_id m k v E) at 1. destruct (p k v) eqn:Ep.
    + rewrite map_filter_insert_True by done.
      rewrite map_size_insert_None; [lia|].
      apply map_lookup_filter_None. left. apply lookup_delete_eq.
    + rewrite map_filter_insert_False by (cbn; congruence). rewrite delete_delete_eq. lia.
  - rewrite delete_id by done. lia.
Qed.

Lemma count_insert p m k v :
  (count p (<[k := v]> m)
    + match m !! k with Some v0 => if p k v0 then 1 else 0 | None => 0 end
   = count p m + (if p k v then 1 else 0))%N.
Proof.
  rewrite (count_delete p m k), (count_delete p (<[k := v]> m) k), lookup_insert_eq.
  rewrite delete_insert_eq. lia.
Qed.

Lemma len_keys_where p m : len (keys_where p m) = count p m.
Proof.
  unfold keys_where, count, len. rewrite length_fmap. f_equal.
  rewrite <- (length_map_to_list (filter _ m)).
  rewrite (Permutation_length (l' := base.filter (λ x, p (fst x) (snd x) = true) (btree_iter m))).
  - apply Permutation_length. unfold btree_iter. rewrite sort_by_Permutation.
    apply NoDup_Permutation; [apply NoDup_filter, NoDup_map_to_list|apply NoDup_map_to_list|].
    intros [k v]. rewrite list_elem_of_filter, !elem_of_map_to_list, map_lookup_filter_Some.
    naive_solver.
  - generalize (btree_iter m) as l. induction l as [|x l IH]; [done|].
    rewrite filter_cons. cbn. destruct (p _ _); cbn; [|done]. by constructor.
Qed.
End btree.
