(* ===== verification/Ids.v ===== *)
(** * Identifiers

    The newtypes of [control.rs] and the validated slugs of [id.rs] and
    [adapter.rs] of crates/gate4agent-types/src. *)

From S2P Require Import Prelude RustStr.

(** ** Numeric identifiers (tuple structs over u64) *)

(* types/control.rs AgentInstanceId *)
Record AgentInstanceId := MkInstance { instance_raw : N }.
(* types/control.rs CommandId *)
Record CommandId := MkCommand { command_raw : N }.
(* types/control.rs OperationId *)
Record OperationId := MkOperation { operation_raw : N }.
(* types/control.rs SessionGeneration *)
Record SessionGeneration := MkGeneration { generation_raw : N }.
(* types/control.rs ProviderInteractionId *)
Record ProviderInteractionId := MkInteraction { interaction_raw : N }.

#[export] Instance AgentInstanceId_eq : EqDecision AgentInstanceId.
Proof. solve_decision. Defined.
#[export] Instance CommandId_eq : EqDecision CommandId.
Proof. solve_decision. Defined.
#[export] Instance OperationId_eq : EqDecision OperationId.
Proof. solve_decision. Defined.
#[export] Instance SessionGeneration_eq : EqDecision SessionGeneration.
Proof. solve_decision. Defined.
#[export] Instance ProviderInteractionId_eq : EqDecision ProviderInteractionId.
Proof. solve_decision. Defined.

Lemma instance_raw_of i : MkInstance (instance_raw i) = i.
Proof. by destruct i. Qed.
#[export] Instance AgentInstanceId_countable : Countable AgentInstanceId :=
  inj_countable' instance_raw MkInstance instance_raw_of.

Lemma generation_raw_inj g h : generation_raw g = generation_raw h → g = h.
Proof. destruct g, h. cbn. congruence. Qed.
Lemma operation_raw_inj a b : operation_raw a = operation_raw b → a = b.
Proof. destruct a, b. cbn. congruence. Qed.
Lemma interaction_raw_inj a b : interaction_raw a = interaction_raw b → a = b.
Proof. destruct a, b. cbn. congruence. Qed.

(** [SessionGeneration::default()] and [Ord::max] on generations. *)
Definition generation_default : SessionGeneration := MkGeneration 0.
Definition generation_max (a b : SessionGeneration) : SessionGeneration :=
  MkGeneration (N.max (generation_raw a) (generation_raw b)).

(** ** Slugs *)

(** A byte admitted in a slug: a lowercase ASCII letter, a digit, '-' or '_'. *)
Definition is_slug_byte (b : N) : bool :=
  is_ascii_lowercase b || is_ascii_digit b || (b =? 0x2d)%N || (b =? 0x5f)%N.
Definition is_dash (b : N) : bool := ((b =? 0x2d) || (b =? 0x5f))%N%bool.
Definition first_is (p : N → bool) (l : list N) : bool :=
  match l with b :: _ => p b | [] => false end.
Definition last_is (p : N → bool) (l : list N) : bool :=
  match last l with Some b => p b | None => false end.

(* types/id.rs MAX_AGENT_ID_LEN *)
Definition MAX_AGENT_ID_LEN : N := 64.

(* types/id.rs AgentId *)
Record AgentId := MkAgentId { agent_id_str : list N }.
#[export] Instance AgentId_eq : EqDecision AgentId.
Proof. solve_decision. Defined.

(* types/id.rs AgentIdError *)
Inductive AgentIdError :=
| AgentIdEmpty
| AgentIdTooLong (len max : N)
| AgentIdInvalidCharacters (value : list N)
| AgentIdInvalidBoundary (value : list N).

(* types/id.rs validate *)
Definition agent_id_validate (value : list N) : result AgentIdError unit :=
  guard_err (str_is_empty value) AgentIdEmpty ;;
  guard_err (MAX_AGENT_ID_LEN <? str_len value)%N
    (AgentIdTooLong (str_len value) MAX_AGENT_ID_LEN) ;;
  guard_err (negb (forallb is_slug_byte (as_bytes value)))
    (AgentIdInvalidCharacters value) ;;
  guard_err (first_is is_dash (as_bytes value) || last_is is_dash (as_bytes value))
    (AgentIdInvalidBoundary value) ;;
  Ok tt.

(* types/id.rs AgentId::new *)
Definition AgentId_new (value : list N) : result AgentIdError AgentId :=
  agent_id_validate value ;;
  Ok (MkAgentId value).

(** ** Adapters *)

(* types/adapter.rs MAX_ADAPTER_ID_LEN *)
Definition MAX_ADAPTER_ID_LEN : N := 96.
(* types/adapter.rs MAX_ADAPTER_REVISION_LEN *)
Definition MAX_ADAPTER_REVISION_LEN : N := 256.

(* types/adapter.rs AdapterId *)
Record AdapterId := MkAdapterId { adapter_id_str : list N }.
#[export] Instance AdapterId_eq : EqDecision AdapterId.
Proof. solve_decision. Defined.

(* types/adapter.rs AdapterIdError *)
Inductive AdapterIdError :=
| AdapterIdEmpty
| AdapterIdTooLong (len max : N)
| AdapterIdInvalidCharacters (value : list N)
| AdapterIdInvalidBoundary (value : list N).

(* types/adapter.rs validate_id *)
Definition adapter_validate_id (value : list N) : result AdapterIdError unit :=
  guard_err (str_is_empty value) AdapterIdEmpty ;;
  guard_err (MAX_ADAPTER_ID_LEN <? str_len value)%N
    (AdapterIdTooLong (str_len value) MAX_ADAPTER_ID_LEN) ;;
  guard_err (negb (forallb is_slug_byte (as_bytes value)))
    (AdapterIdInvalidCharacters value) ;;
  guard_err (first_is is_dash (as_bytes value) || last_is is_dash (as_bytes value))
    (AdapterIdInvalidBoundary value) ;;
  Ok tt.

(* types/adapter.rs AdapterId::new *)
Definition AdapterId_new (value : list N) : result AdapterIdError AdapterId :=
  adapter_validate_id value ;;
  Ok (MkAdapterId value).

(* types/adapter.rs AdapterFamily *)
Inductive AdapterFamily :=
| PtySemantic | FamilyPipe | OneShot | FamilyAcp | Hook | ManagedHook
| FamilyHistory | FamilyResume | SessionOptions | CapabilityProbe.
#[export] Instance AdapterFamily_eq : EqDecision AdapterFamily.
Proof. solve_decision. Defined.

(* types/adapter.rs AdapterVerification *)
Inductive AdapterVerification :=
| Reference | SyntheticFixture | CapturedFixture | VendorCanary.
#[export] Instance AdapterVerification_eq : EqDecision AdapterVerification.
Proof. solve_decision. Defined.

(* types/adapter.rs AdapterBinding *)
Record AdapterBinding := MkAdapterBinding {
  binding_id : AdapterId;
  binding_revision : list N;
  binding_verification : AdapterVerification
}.
#[export] Instance AdapterBinding_eq : EqDecision AdapterBinding.
Proof. solve_decision. Defined.

(* types/adapter.rs AdapterBindingError *)
Inductive AdapterBindingError :=
| EmptyRevision
| RevisionTooLong (len max : N)
| InvalidRevision (value : list N).

(* types/adapter.rs validate_revision *)
Definition validate_revision (revision : list N) : result AdapterBindingError unit :=
  guard_err (str_is_empty (trim revision)) EmptyRevision ;;
  guard_err (MAX_ADAPTER_REVISION_LEN <? str_len revision)%N
    (RevisionTooLong (str_len revision) MAX_ADAPTER_REVISION_LEN) ;;
  guard_err (chars_any is_control revision) (InvalidRevision revision) ;;
  Ok tt.

(* types/adapter.rs AdapterBinding::new *)
Definition AdapterBinding_new (id : AdapterId) (revision : list N)
    (verification : AdapterVerification) : result AdapterBindingError AdapterBinding :=
  validate_revision revision ;;
  Ok (MkAdapterBinding id revision verification).

(* types/adapter.rs AdapterBinding::validate *)
Definition AdapterBinding_validate (b : AdapterBinding) : result AdapterBindingError unit :=
  validate_revision (binding_revision b).

(** The text of a rejected revision in [{0:?}]: quotes, backslashes and
    control characters escaped as [str::escape_debug] escapes them; characters
    above U+009F are kept (the printability tables of the Rust core library
    are not reproduced). *)
Fixpoint hex_lower_aux (fuel : nat) (n : N) (acc : list N) : list N :=
  match fuel with
  | O => acc
  | S fuel' =>
      let d := N.modulo n 16 in
      let acc' := (if (d <? 10)%N then 0x30 + d else 0x57 + d)%N :: acc in
      if (n <? 16)%N then acc' else hex_lower_aux fuel' (N.div n 16) acc'
  end.
Definition escape_debug_char (c : N) : list N :=
  if (c =? 0)%N then str "\0"
  else if (c =? 9)%N then str "\t"
  else if (c =? 10)%N then str "\n"
  else if (c =? 13)%N then str "\r"
  else if (c =? 0x22)%N then [0x5c; 0x22]%N
  else if (c =? 0x5c)%N then [0x5c; 0x5c]%N
  else if is_control c then str "\u{" ++ hex_lower_aux 6 c [] ++ str "}"
  else [c].
Definition fmt_debug_str (s : list N) : list N :=
  [0x22%N] ++ (s ≫= escape_debug_char) ++ [0x22%N].

(* types/adapter.rs AdapterBindingError *)
Definition AdapterBindingError_to_string (e : AdapterBindingError) : list N :=
  match e with
  | EmptyRevision => str "adapter revision cannot be empty"
  | RevisionTooLong len max =>
      str "adapter revision length " ++ fmt_dec len ++ str " exceeds the "
        ++ fmt_dec max ++ str "-byte limit"
  | InvalidRevision value =>
      str "adapter revision contains control characters: " ++ fmt_debug_str value
  end.

(** ** The accepted slugs *)

(** The abstract description of a slug: 1 to [max] characters, all lowercase
    letters, digits, '-' or '_', none of the last two at either end. *)
Definition is_slug (max : N) (s : list N) : Prop :=
  s ≠ [] ∧ (len s <= max)%N ∧ Forall (λ c, is_slug_byte c = true) s
  ∧ (∀ c, head s = Some c → is_dash c = false)
  ∧ (∀ c, last s = Some c → is_dash c = false).

Lemma is_slug_byte_ascii c : is_slug_byte c = true → (c < 0x80)%N.
Proof.
  unfold is_slug_byte, is_ascii_lowercase, is_ascii_digit. intros H.
  rewrite !orb_true_iff, !andb_true_iff, !N.leb_le, !N.eqb_eq in H. lia.
Qed.

(** Where all the bytes are ASCII the bytes are the characters. *)
Lemma as_bytes_ascii_id s : Forall (λ c, (c < 0x80)%N) s → as_bytes s = s.
Proof.
  induction 1 as [|c s Hc _ IH]; [done|].
  change (as_bytes (c :: s)) with (utf8_char c ++ as_bytes s).
  rewrite IH. unfold utf8_char. replace (c <? 0x80)%N with true; [done|].
  symmetry. by apply N.ltb_lt.
Qed.

Lemma as_bytes_ascii_all s :
  Forall (λ b, (b < 0x80)%N) (as_bytes s) → as_bytes s = s.
Proof.
  intros H. apply as_bytes_ascii_id. induction s as [|c s IH]; [constructor|].
  change (as_bytes (c :: s)) with (utf8_char c ++ as_bytes s) in H.
  apply Forall_app in H as [H1 H2]. constructor; [|by apply IH].
  unfold utf8_char in H1. destruct (c <? 0x80)%N eqn:E; [by bool_prop|].
  exfalso. destruct (c <? 0x800)%N; [|destruct (c <? 0x10000)%N];
    apply Forall_cons in H1 as [H1 _]; lia.
Qed.

Section slug.
Context (max : N) (s : list N).

Definition slug_test : bool :=
  negb (str_is_empty s) && negb (max <? str_len s)%N
  && forallb is_slug_byte (as_bytes s)
  && negb (first_is is_dash (as_bytes s) || last_is is_dash (as_bytes s)).

Lemma slug_test_spec : slug_test = true ↔ is_slug max s.
Proof.
  unfold slug_test, is_slug.
  assert (Hb : forallb is_slug_byte (as_bytes s) = true → as_bytes s = s).
  { intros H. apply as_bytes_ascii_all.
    apply (proj1 (chars_all_true _ _)) in H. eapply Forall_impl; [exact H|].
    apply is_slug_byte_ascii. }
  split.
  - intros H. bool_prop.
    rewrite <- (as_bytes_length s) in *.
    pose proof (Hb ltac:(done)) as E. rewrite E in *.
    split_and!; [by intros ->|lia|by apply chars_all_true| |].
    + intros c Hc. destruct s; cbn in *; by simplify_eq.
    + intros c Hc. unfold last_is in *. by rewrite Hc in *.
  - intros (Hne & Hlen & Hall & Hf & Hl).
    assert (E : as_bytes s = s).
    { apply as_bytes_ascii_id. eapply Forall_impl; [exact Hall|]. apply is_slug_byte_ascii. }
    rewrite <- (as_bytes_length s), E.
    change (forallb is_slug_byte s) with (chars_all is_slug_byte s). rewrite (proj2 (chars_all_true is_slug_byte s) Hall).
    replace (max <? len s)%N with false by (symmetry; apply N.ltb_ge; lia).
    destruct s as [|c s'] eqn:Es; [done|].
    cbn [str_is_empty first_is negb andb]. rewrite (Hf c eq_refl). cbn [orb].
    unfold last_is. destruct (last (c :: s')) as [d|] eqn:Ed; [|done].
    by rewrite (Hl d eq_refl).
Qed.
End slug.

(** The constructor of [AgentId] accepts exactly the slugs of at most 64
    characters. *)
Lemma agent_id_validate_test s : is_ok (agent_id_validate s) = slug_test MAX_AGENT_ID_LEN s.
Proof.
  unfold agent_id_validate, slug_test.
  destruct (str_is_empty s); [done|]. cbn -[first_is last_is].
  destruct (_ <? _)%N; [done|]. cbn -[first_is last_is].
  destruct (forallb _ _); [|done]. cbn -[first_is last_is].
  by destruct (_ || _).
Qed.

Lemma adapter_validate_id_test s :
  is_ok (adapter_validate_id s) = slug_test MAX_ADAPTER_ID_LEN s.
Proof.
  unfold adapter_validate_id, slug_test.
  destruct (str_is_empty s); [done|]. cbn -[first_is last_is].
  destruct (_ <? _)%N; [done|]. cbn -[first_is last_is].
  destruct (forallb _ _); [|done]. cbn -[first_is last_is].
  by destruct (_ || _).
Qed.
