(* ===== verification/ToolTypes.v ===== *)
(** * The tool protocol

    The types and validators of crates/gate4agent-tool-protocol/src/lib.rs:
    identifiers, providers and their capabilities, policy grants, requests,
    approvals, effects, observations, completions and audit events. *)

From S2P Require Import Prelude RustStr RustOrd Ids.

Local Open Scope N_scope.

(** ** Limits *)

(* toolproto/lib.rs TOOL_ACTOR_ID_MAX_BYTES *)
Definition TOOL_ACTOR_ID_MAX_BYTES : N := 256.
(* toolproto/lib.rs TOOL_CONSUMER_ID_MAX_BYTES *)
Definition TOOL_CONSUMER_ID_MAX_BYTES : N := 256.
(* toolproto/lib.rs TOOL_PROVIDER_ID_MAX_BYTES *)
Definition TOOL_PROVIDER_ID_MAX_BYTES : N := 256.
(* toolproto/lib.rs TOOL_CAPABILITY_ID_MAX_BYTES *)
Definition TOOL_CAPABILITY_ID_MAX_BYTES : N := 256.
(* toolproto/lib.rs TOOL_RESOURCE_SCOPE_ID_MAX_BYTES *)
Definition TOOL_RESOURCE_SCOPE_ID_MAX_BYTES : N := 512.
(* toolproto/lib.rs TOOL_CAPABILITY_DESCRIPTION_MAX_BYTES *)
Definition TOOL_CAPABILITY_DESCRIPTION_MAX_BYTES : N := 2048.
(* toolproto/lib.rs TOOL_APPROVAL_SUMMARY_MAX_BYTES *)
Definition TOOL_APPROVAL_SUMMARY_MAX_BYTES : N := 1024.
(* toolproto/lib.rs TOOL_PAYLOAD_MAX_BYTES *)
Definition TOOL_PAYLOAD_MAX_BYTES : N := 64 * 1024.
(* toolproto/lib.rs TOOL_RESULT_MAX_BYTES *)
Definition TOOL_RESULT_MAX_BYTES : N := 16 * 1024 * 1024.
(* toolproto/lib.rs TOOL_INLINE_RESULT_MAX_BYTES *)
Definition TOOL_INLINE_RESULT_MAX_BYTES : N := 256 * 1024.
(* toolproto/lib.rs TOOL_RESULT_REFERENCE_MAX_BYTES *)
Definition TOOL_RESULT_REFERENCE_MAX_BYTES : N := 2048.
(* toolproto/lib.rs TOOL_RESULT_SUMMARY_MAX_BYTES *)
Definition TOOL_RESULT_SUMMARY_MAX_BYTES : N := 4096.
(* toolproto/lib.rs TOOL_FAILURE_MESSAGE_MAX_BYTES *)
Definition TOOL_FAILURE_MESSAGE_MAX_BYTES : N := 4096.
(* toolproto/lib.rs TOOL_MEDIA_TYPE_MAX_BYTES *)
Definition TOOL_MEDIA_TYPE_MAX_BYTES : N := 256.
(* toolproto/lib.rs TOOL_PROVIDERS_MAX *)
Definition TOOL_PROVIDERS_MAX : N := 64.
(* toolproto/lib.rs TOOL_CAPABILITIES_PER_PROVIDER_MAX *)
Definition TOOL_CAPABILITIES_PER_PROVIDER_MAX : N := 256.
(* toolproto/lib.rs TOOL_POLICIES_MAX *)
Definition TOOL_POLICIES_MAX : N := 4096.
(* toolproto/lib.rs TOOL_REQUESTS_MAX *)
Definition TOOL_REQUESTS_MAX : N := 512.
(* toolproto/lib.rs TOOL_ACTIVE_REQUESTS_PER_CLIENT_MAX *)
Definition TOOL_ACTIVE_REQUESTS_PER_CLIENT_MAX : N := 32.
(* toolproto/lib.rs TOOL_EFFECTS_MAX *)
Definition TOOL_EFFECTS_MAX : N := TOOL_REQUESTS_MAX * 2.
(* toolproto/lib.rs TOOL_COMPLETIONS_MAX *)
Definition TOOL_COMPLETIONS_MAX : N := 128.
(* toolproto/lib.rs TOOL_AUDIT_EVENTS_MAX *)
Definition TOOL_AUDIT_EVENTS_MAX : N := 4096.

(** ** Identifiers *)

(* toolproto/lib.rs:72-72 ToolActorId *)
Record ToolActorId := MkToolActorId { tool_actor_id_str : list N }.
(* toolproto/lib.rs:73-73 ConsumerId *)
Record ConsumerId := MkConsumerId { consumer_id_str : list N }.
(* toolproto/lib.rs:74-78 ResourceScopeId *)
Record ResourceScopeId := MkResourceScopeId { resource_scope_id_str : list N }.
(* toolproto/lib.rs:79-83 ToolProviderId *)
Record ToolProviderId := MkToolProviderId { tool_provider_id_str : list N }.
(* toolproto/lib.rs:84-88 ToolCapabilityId *)
Record ToolCapabilityId := MkToolCapabilityId { tool_capability_id_str : list N }.
(* toolproto/lib.rs CapabilityRequestId *)
Record CapabilityRequestId := MkCapabilityRequestId { capability_request_raw : N }.
(* toolproto/lib.rs ToolOperationId *)
Record ToolOperationId := MkToolOperationId { tool_operation_raw : N }.
(* toolproto/lib.rs ProviderBindingId *)
Record ProviderBindingId := MkProviderBindingId { provider_binding_raw : N }.

#[export] Instance ToolActorId_eq : EqDecision ToolActorId.
Proof. solve_decision. Defined.
#[export] Instance ConsumerId_eq : EqDecision ConsumerId.
Proof. solve_decision. Defined.
#[export] Instance ResourceScopeId_eq : EqDecision ResourceScopeId.
Proof. solve_decision. Defined.
#[export] Instance ToolProviderId_eq : EqDecision ToolProviderId.
Proof. solve_decision. Defined.
#[export] Instance ToolCapabilityId_eq : EqDecision ToolCapabilityId.
Proof. solve_decision. Defined.
#[export] Instance CapabilityRequestId_eq : EqDecision CapabilityRequestId.
Proof. solve_decision. Defined.
#[export] Instance ToolOperationId_eq : EqDecision ToolOperationId.
Proof. solve_decision. Defined.
#[export] Instance ProviderBindingId_eq : EqDecision ProviderBindingId.
Proof. solve_decision. Defined.

#[export] Instance ToolProviderId_countable : Countable ToolProviderId.
Proof. by apply (inj_countable' tool_provider_id_str MkToolProviderId); intros []. Defined.
#[export] Instance ProviderBindingId_countable : Countable ProviderBindingId.
Proof. by apply (inj_countable' provider_binding_raw MkProviderBindingId); intros []. Defined.

(** ** Errors *)

(* toolproto/lib.rs ToolValidationError *)
Inductive ToolValidationError :=
| Tv_Required (field : list N)
| Tv_InvalidIdentifier (field : list N)
| Tv_ControlCharacter (field : list N)
| Tv_CapabilityOutsideAdmission (capability_id : ToolCapabilityId)
| Tv_DuplicateIdentifier (field : list N)
| Tv_ZeroIdentifier (field : list N)
| Tv_TooLarge (field : list N) (max actual : N)
| Tv_TooMany (field : list N) (max actual : N)
| Tv_ResultTooLarge (max actual : N)
| Tv_ResultLengthMismatch (declared actual : N)
| Tv_ProviderMismatch (field : list N) (expected actual : ToolProviderId)
| Tv_DeadlineElapsed (current_tick deadline_tick : N).

Abbreviation validation := (result ToolValidationError unit).

(** ** Text *)

(** A byte admitted in an identifier. *)
(* toolproto/lib.rs:1343-1343 validate_identifier *)
Definition is_identifier_byte (b : N) : bool :=
  is_ascii_alphanumeric b
  || (b =? 0x2d) || (b =? 0x5f) || (b =? 0x2e) || (b =? 0x3a) || (b =? 0x2f).

(* toolproto/lib.rs validate_identifier *)
Definition tool_identifier (field value : list N) (max : N) : validation :=
  guard_err (str_is_empty (trim value)) (Tv_Required field) ;;
  guard_err (max <? str_len value) (Tv_TooLarge field max (str_len value)) ;;
  guard_err (negb (forallb is_identifier_byte (as_bytes value))) (Tv_InvalidIdentifier field).

(* toolproto/lib.rs validate_text *)
Definition tool_text (field value : list N) (max : N) : validation :=
  guard_err (max <? str_len value) (Tv_TooLarge field max (str_len value)) ;;
  guard_err (chars_any is_control value) (Tv_ControlCharacter field).

(* toolproto/lib.rs validate_required_text *)
Definition tool_required_text (field value : list N) (max : N) : validation :=
  guard_err (str_is_empty (trim value)) (Tv_Required field) ;;
  tool_text field value max.

(* toolproto/lib.rs validate_optional_text *)
Definition tool_optional_text (field : list N) (value : option (list N)) (max : N)
    : validation :=
  opt_each (λ value, tool_text field value max) value.

(* toolproto/lib.rs:39-43 ToolActorId::new *)
Definition ToolActorId_new (value : list N) : result ToolValidationError ToolActorId :=
  tool_identifier (str "tool actor id") value TOOL_ACTOR_ID_MAX_BYTES ;;
  Ok (MkToolActorId value).
(* toolproto/lib.rs:39-43 ConsumerId::new *)
Definition ConsumerId_new (value : list N) : result ToolValidationError ConsumerId :=
  tool_identifier (str "tool consumer id") value TOOL_CONSUMER_ID_MAX_BYTES ;;
  Ok (MkConsumerId value).
(* toolproto/lib.rs:39-43 ResourceScopeId::new *)
Definition ResourceScopeId_new (value : list N) : result ToolValidationError ResourceScopeId :=
  tool_identifier (str "tool resource scope id") value TOOL_RESOURCE_SCOPE_ID_MAX_BYTES ;;
  Ok (MkResourceScopeId value).
(* toolproto/lib.rs:39-43 ToolProviderId::new *)
Definition ToolProviderId_new (value : list N) : result ToolValidationError ToolProviderId :=
  tool_identifier (str "tool provider id") value TOOL_PROVIDER_ID_MAX_BYTES ;;
  Ok (MkToolProviderId value).
(* toolproto/lib.rs:39-43 ToolCapabilityId::new *)
Definition ToolCapabilityId_new (value : list N)
    : result ToolValidationError ToolCapabilityId :=
  tool_identifier (str "tool capability id") value TOOL_CAPABILITY_ID_MAX_BYTES ;;
  Ok (MkToolCapabilityId value).

(** ** Capabilities *)

(** The characters [SEPARATORS] of [has_forbidden_capability_namespace]. *)
(* toolproto/lib.rs:1351-1351 has_forbidden_capability_namespace *)
Definition is_separator (c : N) : bool :=
  (c =? 0x2e) || (c =? 0x3a) || (c =? 0x2f) || (c =? 0x2d) || (c =? 0x5f).

(** The inner [any]: [candidate] grows by the segments until it has two bytes. *)
(* toolproto/lib.rs:1369-1376 has_forbidden_capability_namespace *)
Fixpoint joins_to_fs (candidate : list N) (segments : list (list N)) : bool :=
  match segments with
  | [] => false
  | segment :: rest =>
      if 2 <=? str_len candidate then joins_to_fs candidate rest
      else
        let candidate := candidate ++ segment in
        bool_decide (candidate = str "fs") || joins_to_fs candidate rest
  end.

(* toolproto/lib.rs:1368-1377 has_forbidden_capability_namespace *)
Fixpoint some_start_joins_to_fs (segments : list (list N)) : bool :=
  joins_to_fs [] segments ||
  match segments with
  | [] => false
  | _ :: rest => some_start_joins_to_fs rest
  end.

(* toolproto/lib.rs has_forbidden_capability_namespace *)
Definition has_forbidden_capability_namespace (value : list N) : bool :=
  let compact := List.filter (λ c, negb (is_separator c)) value in
  if existsb (str_contains compact) [str "shell"; str "filesystem"; str "mcp"] then true
  else
    some_start_joins_to_fs
      (List.filter (λ segment, negb (str_is_empty segment)) (split_on is_separator value)).

(* toolproto/lib.rs CapabilityOwner *)
Inductive CapabilityOwner :=
| Owner_Gate
| Owner_Consumer (owner : ConsumerId).

(* toolproto/lib.rs CapabilityClass *)
Inductive CapabilityClass := Browser | ConsumerState.

(* toolproto/lib.rs CapabilityDescriptor *)
Record CapabilityDescriptor := MkCapabilityDescriptor {
  cd_id : ToolCapabilityId;
  cd_class : CapabilityClass;
  cd_description : list N
}.

(* toolproto/lib.rs:149-152 CapabilityDescriptor::validate_admission *)
Definition class_prefix (class : CapabilityClass) : list N :=
  match class with
  | Browser => str "browser."
  | ConsumerState => str "consumer-state."
  end.

(* toolproto/lib.rs CapabilityDescriptor::validate_admission *)
Definition validate_admission (d : CapabilityDescriptor) : validation :=
  let normalized := to_ascii_lowercase (tool_capability_id_str (cd_id d)) in
  guard_err (has_forbidden_capability_namespace normalized
             || negb (starts_with_str normalized (class_prefix (cd_class d))))
    (Tv_CapabilityOutsideAdmission (cd_id d)).

(* toolproto/lib.rs:196-200 CapabilityProviderDescriptor::validate *)
Definition validate_description (d : CapabilityDescriptor) : validation :=
  tool_required_text (str "tool capability description") (cd_description d)
    TOOL_CAPABILITY_DESCRIPTION_MAX_BYTES.

(* toolproto/lib.rs CapabilityDescriptor::new *)
Definition CapabilityDescriptor_new (id : ToolCapabilityId) (class : CapabilityClass)
    (description : list N) : result ToolValidationError CapabilityDescriptor :=
  let descriptor := MkCapabilityDescriptor id class description in
  validate_admission descriptor ;;
  validate_description descriptor ;;
  Ok descriptor.

(** [#[derive(Ord)]] of the identifiers. *)
#[export] Instance ToolCapabilityId_ord : Ord ToolCapabilityId := ord_by tool_capability_id_str.
#[export] Instance ToolCapabilityId_inj : Inj (=) (=) tool_capability_id_str.
Proof. intros [] []. cbn. congruence. Qed.
#[export] Instance ToolCapabilityId_ord_laws : OrdLaws ToolCapabilityId := ord_by_laws _.
#[export] Instance ToolProviderId_ord : Ord ToolProviderId := ord_by tool_provider_id_str.
#[export] Instance ToolProviderId_inj : Inj (=) (=) tool_provider_id_str.
Proof. intros [] []. cbn. congruence. Qed.
#[export] Instance ToolProviderId_ord_laws : OrdLaws ToolProviderId := ord_by_laws _.
#[export] Instance AgentInstanceId_ord : Ord AgentInstanceId := ord_by instance_raw.
#[export] Instance AgentInstanceId_inj : Inj (=) (=) instance_raw.
Proof. intros [] []. cbn. congruence. Qed.
#[export] Instance AgentInstanceId_ord_laws : OrdLaws AgentInstanceId := ord_by_laws _.

(* toolproto/lib.rs CapabilityProviderDescriptor *)
Record CapabilityProviderDescriptor := MkProviderDescriptor {
  pd_id : ToolProviderId;
  pd_owner : CapabilityOwner;
  pd_capabilities : list CapabilityDescriptor
}.
#[export] Instance CapabilityProviderDescriptor_fields : Fields CapabilityProviderDescriptor :=
  fields_of MkProviderDescriptor <pd_id; pd_owner; pd_capabilities>.

(* toolproto/lib.rs CapabilityProviderDescriptor::validate *)
Definition CapabilityProviderDescriptor_validate (d : CapabilityProviderDescriptor)
    : validation :=
  guard_err (bool_decide (pd_capabilities d = []))
    (Tv_Required (str "tool provider capabilities")) ;;
  guard_err (TOOL_CAPABILITIES_PER_PROVIDER_MAX <? len (pd_capabilities d))
    (Tv_TooMany (str "tool provider capabilities") TOOL_CAPABILITIES_PER_PROVIDER_MAX
       (len (pd_capabilities d))) ;;
  guard_err (adjacent_equal (sort (cd_id <$> pd_capabilities d)))
    (Tv_DuplicateIdentifier (str "tool capability id")) ;;
  for_each (λ capability, validate_admission capability ;; validate_description capability)
    (pd_capabilities d).

(* toolproto/lib.rs CapabilityProviderDescriptor::has_capability *)
Definition has_capability (d : CapabilityProviderDescriptor)
    (capability_id : ToolCapabilityId) : bool :=
  existsb (λ capability, bool_decide (cd_id capability = capability_id)) (pd_capabilities d).

(** ** Policy *)

(* toolproto/lib.rs PolicyKey *)
Record PolicyKey := MkPolicyKey {
  pk_consumer_id : ConsumerId;
  pk_actor_id : ToolActorId;
  pk_instance_id : AgentInstanceId;
  pk_generation : SessionGeneration;
  pk_provider_id : ToolProviderId;
  pk_capability_id : ToolCapabilityId;
  pk_resource_scope_id : ResourceScopeId
}.
#[export] Instance PolicyKey_eq : EqDecision PolicyKey.
Proof. solve_decision. Defined.

(** The fields in their order, which is also the derived order. *)
Definition policy_key_fields (k : PolicyKey) :=
  (consumer_id_str (pk_consumer_id k), tool_actor_id_str (pk_actor_id k),
   instance_raw (pk_instance_id k), generation_raw (pk_generation k),
   tool_provider_id_str (pk_provider_id k), tool_capability_id_str (pk_capability_id k),
   resource_scope_id_str (pk_resource_scope_id k)).
Definition policy_key_of (t : list N * list N * N * N * list N * list N * list N) : PolicyKey :=
  let '(c, a, i, g, p, d, r) := t in
  MkPolicyKey (MkConsumerId c) (MkToolActorId a) (MkInstance i) (MkGeneration g)
    (MkToolProviderId p) (MkToolCapabilityId d) (MkResourceScopeId r).
Lemma policy_key_of_fields k : policy_key_of (policy_key_fields k) = k.
Proof. by destruct k as [[] [] [] [] [] [] []]. Qed.
#[export] Instance PolicyKey_countable : Countable PolicyKey :=
  inj_countable' policy_key_fields policy_key_of policy_key_of_fields.
#[export] Instance PolicyKey_ord : Ord PolicyKey := ord_by policy_key_fields.
#[export] Instance policy_key_fields_inj : Inj (=) (=) policy_key_fields.
Proof. intros k l E. by rewrite <- (policy_key_of_fields k), E, policy_key_of_fields. Qed.
#[export] Instance PolicyKey_ord_laws : OrdLaws PolicyKey := ord_by_laws _.

(* toolproto/lib.rs GrantMode *)
Inductive GrantMode := Grant_Allow | Grant_RequireApproval.
#[export] Instance GrantMode_eq : EqDecision GrantMode.
Proof. solve_decision. Defined.

(* toolproto/lib.rs PolicyGrant *)
Record PolicyGrant := MkPolicyGrant { pg_key : PolicyKey; pg_mode : GrantMode }.

(* toolproto/lib.rs PolicyDenial *)
Inductive PolicyDenial :=
| UnknownInstanceDenial
| InactiveInstance
| StaleGenerationDenial (current : SessionGeneration)
| UnknownProvider
| UnknownCapability
| ProviderOwnerMismatch
| MissingGrant.
#[export] Instance PolicyDenial_eq : EqDecision PolicyDenial.
Proof. solve_decision. Defined.

(* toolproto/lib.rs PolicyDecision *)
Inductive PolicyDecision :=
| Decision_Deny (reason : PolicyDenial)
| Decision_RequireApproval
| Decision_Allow.
#[export] Instance PolicyDecision_eq : EqDecision PolicyDecision.
Proof. solve_decision. Defined.

(** ** Requests *)

(* toolproto/lib.rs CapabilityRequestKey *)
Record CapabilityRequestKey := MkRequestKey {
  rk_consumer_id : ConsumerId;
  rk_actor_id : ToolActorId;
  rk_local_id : CapabilityRequestId
}.
#[export] Instance CapabilityRequestKey_eq : EqDecision CapabilityRequestKey.
Proof. solve_decision. Defined.

Definition request_key_fields (k : CapabilityRequestKey) : list N * list N * N :=
  (consumer_id_str (rk_consumer_id k), tool_actor_id_str (rk_actor_id k),
   capability_request_raw (rk_local_id k)).
Definition request_key_of (t : list N * list N * N) : CapabilityRequestKey :=
  let '(c, a, l) := t in
  MkRequestKey (MkConsumerId c) (MkToolActorId a) (MkCapabilityRequestId l).
Lemma request_key_of_fields k : request_key_of (request_key_fields k) = k.
Proof. by destruct k as [[] [] []]. Qed.
#[export] Instance CapabilityRequestKey_countable : Countable CapabilityRequestKey :=
  inj_countable' request_key_fields request_key_of request_key_of_fields.
#[export] Instance CapabilityRequestKey_ord : Ord CapabilityRequestKey :=
  ord_by request_key_fields.
#[export] Instance request_key_fields_inj : Inj (=) (=) request_key_fields.
Proof. intros k l E. by rewrite <- (request_key_of_fields k), E, request_key_of_fields. Qed.
#[export] Instance CapabilityRequestKey_ord_laws : OrdLaws CapabilityRequestKey :=
  ord_by_laws _.

(* toolproto/lib.rs CapabilityRequestInput *)
Record CapabilityRequestInput := MkRequestInput {
  ri_local_id : CapabilityRequestId;
  ri_instance_id : AgentInstanceId;
  ri_generation : SessionGeneration;
  ri_provider_id : ToolProviderId;
  ri_capability_id : ToolCapabilityId;
  ri_resource_scope_id : ResourceScopeId;
  ri_approval_summary : list N;
  ri_deadline_tick : N;
  ri_payload : list N
}.

(* toolproto/lib.rs CapabilityRequestInput::validate *)
Definition CapabilityRequestInput_validate (r : CapabilityRequestInput) (current_tick : N)
    : validation :=
  guard_err (capability_request_raw (ri_local_id r) =? 0)
    (Tv_ZeroIdentifier (str "tool request id")) ;;
  guard_err (ri_deadline_tick r <=? current_tick)
    (Tv_DeadlineElapsed current_tick (ri_deadline_tick r)) ;;
  guard_err (TOOL_PAYLOAD_MAX_BYTES <? len (ri_payload r))
    (Tv_TooLarge (str "tool request payload") TOOL_PAYLOAD_MAX_BYTES (len (ri_payload r))) ;;
  tool_required_text (str "tool approval summary") (ri_approval_summary r)
    TOOL_APPROVAL_SUMMARY_MAX_BYTES.

(* toolproto/lib.rs ConsumerBoundCapabilityRequest *)
Record ConsumerBoundCapabilityRequest := MkConsumerBound {
  cb_consumer_id : ConsumerId;
  cb_actor_id : ToolActorId;
  cb_request : CapabilityRequestInput
}.

(* toolproto/lib.rs ConsumerBoundCapabilityRequest::key *)
Definition ConsumerBound_key (r : ConsumerBoundCapabilityRequest) : CapabilityRequestKey :=
  MkRequestKey (cb_consumer_id r) (cb_actor_id r) (ri_local_id (cb_request r)).
(* toolproto/lib.rs ConsumerBoundCapabilityRequest::validate *)
Definition ConsumerBound_validate (r : ConsumerBoundCapabilityRequest) (current_tick : N)
    : validation :=
  CapabilityRequestInput_validate (cb_request r) current_tick.

(* toolproto/lib.rs ProviderBoundCapabilityRequest *)
Record ProviderBoundCapabilityRequest := MkProviderBound {
  pb_provider_binding_id : option ProviderBindingId;
  pb_request : ConsumerBoundCapabilityRequest
}.

(* toolproto/lib.rs ProviderBoundCapabilityRequest::key *)
Definition ProviderBound_key (r : ProviderBoundCapabilityRequest) : CapabilityRequestKey :=
  ConsumerBound_key (pb_request r).
(* toolproto/lib.rs ProviderBoundCapabilityRequest::validate_provider_binding *)
Definition validate_provider_binding (r : ProviderBoundCapabilityRequest) : validation :=
  guard_err (bool_decide (provider_binding_raw <$> pb_provider_binding_id r = Some 0))
    (Tv_ZeroIdentifier (str "provider binding id")).
(* toolproto/lib.rs ProviderBoundCapabilityRequest::validate *)
Definition ProviderBound_validate (r : ProviderBoundCapabilityRequest) (current_tick : N)
    : validation :=
  validate_provider_binding r ;;
  ConsumerBound_validate (pb_request r) current_tick.

(** ** Authority *)

(* toolproto/lib.rs ApprovalDecision *)
Inductive ApprovalDecision := Approval_ApproveOnce | Approval_Deny.
#[export] Instance ApprovalDecision_eq : EqDecision ApprovalDecision.
Proof. solve_decision. Defined.

(* toolproto/lib.rs ApprovalResolution *)
Record ApprovalResolution := MkApprovalResolution {
  ar_request_key : CapabilityRequestKey;
  ar_accepted_sequence : N;
  ar_instance_id : AgentInstanceId;
  ar_generation : SessionGeneration;
  ar_decision : ApprovalDecision
}.

(* toolproto/lib.rs ToolAuthorityCommand *)
Inductive ToolAuthorityCommand :=
| SetGrant (grant : PolicyGrant)
| RevokeGrant (key : PolicyKey)
| ResolveApproval (resolution : ApprovalResolution)
| CloseClient (consumer_id : ConsumerId) (actor_id : ToolActorId).

(* toolproto/lib.rs ToolAuthorityEnvelope *)
Record ToolAuthorityEnvelope := MkAuthorityEnvelope {
  ta_sequence : N;
  ta_command : ToolAuthorityCommand
}.

(* toolproto/lib.rs ToolAuthorityEnvelope::validate *)
Definition ToolAuthorityEnvelope_validate (e : ToolAuthorityEnvelope) : validation :=
  guard_err (ta_sequence e =? 0) (Tv_ZeroIdentifier (str "tool authority sequence")).

(* toolproto/lib.rs ToolAuthorityOutcome *)
Inductive ToolAuthorityOutcome :=
| GrantSet
| GrantRevoked (existed : bool)
| ApprovalResolved
| ApprovalExpired (request_key : CapabilityRequestKey) (accepted_sequence : N)
| ClientClosed (purged_grant_count closed_request_count : N).

(* toolproto/lib.rs ToolInstanceState *)
Inductive ToolInstanceState := Instance_Active | Instance_Inactive.
#[export] Instance ToolInstanceState_eq : EqDecision ToolInstanceState.
Proof. solve_decision. Defined.

(** ** Effects *)

(* toolproto/lib.rs InvocationCancelReason *)
Inductive InvocationCancelReason :=
| Cancel_DeadlineElapsed
| Cancel_GenerationSuperseded
| Cancel_GrantRevoked
| Cancel_InstanceClosed
| Cancel_ClientClosed.

(* toolproto/lib.rs CapabilityEffect *)
Inductive CapabilityEffect :=
| Invoke (consumer_id : ConsumerId) (actor_id : ToolActorId)
    (capability_id : ToolCapabilityId) (resource_scope_id : ResourceScopeId)
    (payload : list N)
| Cancel (reason : InvocationCancelReason).

(** [matches!(effect, CapabilityEffect::Invoke { .. })]. *)
Definition is_invoke (effect : CapabilityEffect) : bool :=
  match effect with Invoke _ _ _ _ _ => true | Cancel _ => false end.

(* toolproto/lib.rs CapabilityEffectEnvelope *)
Record CapabilityEffectEnvelope := MkCapabilityEffect {
  cf_sequence : N;
  cf_operation_id : ToolOperationId;
  cf_request_key : CapabilityRequestKey;
  cf_instance_id : AgentInstanceId;
  cf_generation : SessionGeneration;
  cf_provider_id : ToolProviderId;
  cf_deadline_tick : N;
  cf_effect : CapabilityEffect
}.

(* toolproto/lib.rs ProviderBoundCapabilityEffectEnvelope *)
Record ProviderBoundCapabilityEffectEnvelope := MkProviderBoundEffect {
  be_binding_id : ProviderBindingId;
  be_effect : CapabilityEffectEnvelope
}.

(* toolproto/lib.rs ProviderBoundCapabilityEffectEnvelope::validate *)
Definition ProviderBoundEffect_validate (e : ProviderBoundCapabilityEffectEnvelope)
    : validation :=
  guard_err (provider_binding_raw (be_binding_id e) =? 0)
    (Tv_ZeroIdentifier (str "provider binding id")) ;;
  guard_err (cf_sequence (be_effect e) =? 0)
    (Tv_ZeroIdentifier (str "tool effect sequence")) ;;
  guard_err (tool_operation_raw (cf_operation_id (be_effect e)) =? 0)
    (Tv_ZeroIdentifier (str "tool operation id")).

(** ** Results, failures and observations *)

(* toolproto/lib.rs CapabilityResultMetadata *)
Record CapabilityResultMetadata := MkResultMetadata {
  rm_byte_len : N;
  rm_media_type : option (list N);
  rm_truncated : bool;
  rm_redacted_summary : option (list N)
}.

(* toolproto/lib.rs CapabilityResultMetadata::validate *)
Definition CapabilityResultMetadata_validate (m : CapabilityResultMetadata) : validation :=
  guard_err (TOOL_RESULT_MAX_BYTES <? rm_byte_len m)
    (Tv_ResultTooLarge TOOL_RESULT_MAX_BYTES (rm_byte_len m)) ;;
  tool_optional_text (str "tool result media type") (rm_media_type m)
    TOOL_MEDIA_TYPE_MAX_BYTES ;;
  tool_optional_text (str "tool result redacted summary") (rm_redacted_summary m)
    TOOL_RESULT_SUMMARY_MAX_BYTES.

(* toolproto/lib.rs CapabilityResultDelivery *)
Inductive CapabilityResultDelivery :=
| Delivery_Inline (bytes : list N)
| Delivery_OpaqueReference (reference : list N).

(* toolproto/lib.rs CapabilityResult *)
Record CapabilityResult := MkCapabilityResult {
  cr_metadata : CapabilityResultMetadata;
  cr_delivery : CapabilityResultDelivery
}.

(* toolproto/lib.rs CapabilityResult::validate *)
Definition CapabilityResult_validate (r : CapabilityResult) : validation :=
  CapabilityResultMetadata_validate (cr_metadata r) ;;
  match cr_delivery r with
  | Delivery_Inline bytes =>
      guard_err (TOOL_INLINE_RESULT_MAX_BYTES <? len bytes)
        (Tv_TooLarge (str "inline tool result") TOOL_INLINE_RESULT_MAX_BYTES (len bytes)) ;;
      guard_err (negb (rm_byte_len (cr_metadata r) =? len bytes))
        (Tv_ResultLengthMismatch (rm_byte_len (cr_metadata r)) (len bytes))
  | Delivery_OpaqueReference reference =>
      tool_required_text (str "tool result opaque reference") reference
        TOOL_RESULT_REFERENCE_MAX_BYTES
  end.

(* toolproto/lib.rs ToolFailureKind *)
Inductive ToolFailureKind :=
| Kind_Rejected
| Kind_Unavailable
| Kind_InvalidInput
| Kind_Execution
| Kind_Cancelled
| Kind_ProviderContractViolation.

(* toolproto/lib.rs ToolFailure *)
Record ToolFailure := MkToolFailure {
  tf_kind : ToolFailureKind;
  tf_redacted_message : option (list N)
}.

(* toolproto/lib.rs ToolFailure::validate *)
Definition ToolFailure_validate (f : ToolFailure) : validation :=
  tool_optional_text (str "tool failure redacted message") (tf_redacted_message f)
    TOOL_FAILURE_MESSAGE_MAX_BYTES.
(* toolproto/lib.rs ToolFailure::provider_contract_violation *)
Definition provider_contract_violation : ToolFailure :=
  MkToolFailure Kind_ProviderContractViolation None.

(* toolproto/lib.rs CapabilityObservation *)
Inductive CapabilityObservation :=
| Observed_Succeeded (result : CapabilityResult)
| Observed_Failed (failure : ToolFailure).

(* toolproto/lib.rs CapabilityObservation::validate *)
Definition CapabilityObservation_validate (o : CapabilityObservation) : validation :=
  match o with
  | Observed_Succeeded result => CapabilityResult_validate result
  | Observed_Failed failure => ToolFailure_validate failure
  end.

(* toolproto/lib.rs CapabilityObservationEnvelope *)
Record CapabilityObservationEnvelope := MkCapabilityObservation {
  to_operation_id : ToolOperationId;
  to_request_key : CapabilityRequestKey;
  to_instance_id : AgentInstanceId;
  to_generation : SessionGeneration;
  to_provider_id : ToolProviderId;
  to_observation : CapabilityObservation
}.

(* toolproto/lib.rs CapabilityObservationEnvelope::validate *)
Definition CapabilityObservationEnvelope_validate (e : CapabilityObservationEnvelope)
    : validation :=
  guard_err (tool_operation_raw (to_operation_id e) =? 0)
    (Tv_ZeroIdentifier (str "tool operation id")) ;;
  CapabilityObservation_validate (to_observation e).

(** ** Provider runtimes *)

(* toolproto/lib.rs ProviderRuntimeCommand *)
Inductive ProviderRuntimeCommand :=
| Runtime_Attach (binding_id : ProviderBindingId) (provider_id : ToolProviderId)
| Runtime_Detach (binding_id : ProviderBindingId) (provider_id : ToolProviderId)
| Runtime_Observe (binding_id : ProviderBindingId)
    (observation : CapabilityObservationEnvelope).

(* toolproto/lib.rs ProviderRuntimeCommand::binding_id *)
Definition runtime_binding_id (c : ProviderRuntimeCommand) : ProviderBindingId :=
  match c with
  | Runtime_Attach binding_id _ | Runtime_Detach binding_id _
  | Runtime_Observe binding_id _ => binding_id
  end.

(* toolproto/lib.rs ProviderRuntimeEnvelope *)
Record ProviderRuntimeEnvelope := MkRuntimeEnvelope {
  pr_sequence : N;
  pr_command : ProviderRuntimeCommand
}.

(* toolproto/lib.rs ProviderRuntimeEnvelope::validate *)
Definition ProviderRuntimeEnvelope_validate (e : ProviderRuntimeEnvelope) : validation :=
  guard_err (pr_sequence e =? 0) (Tv_ZeroIdentifier (str "provider runtime sequence")) ;;
  guard_err (provider_binding_raw (runtime_binding_id (pr_command e)) =? 0)
    (Tv_ZeroIdentifier (str "provider binding id")) ;;
  match pr_command e with
  | Runtime_Observe _ observation => CapabilityObservationEnvelope_validate observation
  | _ => Ok tt
  end.

(* toolproto/lib.rs ProviderRuntimeEnvelope::validate_observation_provider *)
Definition validate_observation_provider (e : ProviderRuntimeEnvelope)
    (expected_provider_id : ToolProviderId) : validation :=
  ProviderRuntimeEnvelope_validate e ;;
  match pr_command e with
  | Runtime_Observe _ observation =>
      guard_err (bool_decide (to_provider_id observation ≠ expected_provider_id))
        (Tv_ProviderMismatch (str "provider runtime observation provider id")
           expected_provider_id (to_provider_id observation))
  | _ => Ok tt
  end.

(* toolproto/lib.rs ProviderRuntimeBindingSnapshot *)
Record ProviderRuntimeBindingSnapshot := MkBindingSnapshot {
  bs_binding_id : ProviderBindingId;
  bs_provider_id : ToolProviderId
}.

(* toolproto/lib.rs ProviderRuntimeSnapshot *)
Record ProviderRuntimeSnapshot := MkRuntimeSnapshot {
  rt_last_sequence : N;
  rt_sequence_exhausted : bool;
  rt_bindings : list ProviderRuntimeBindingSnapshot
}.

(* toolproto/lib.rs ProviderRuntimeSnapshot::validate *)
Definition ProviderRuntimeSnapshot_validate (s : ProviderRuntimeSnapshot) : validation :=
  guard_err (TOOL_PROVIDERS_MAX <? len (rt_bindings s))
    (Tv_TooMany (str "provider runtime bindings") TOOL_PROVIDERS_MAX (len (rt_bindings s))) ;;
  for_each (λ binding,
    guard_err (provider_binding_raw (bs_binding_id binding) =? 0)
      (Tv_ZeroIdentifier (str "provider binding id"))) (rt_bindings s).

(** ** The state of a request *)

(* toolproto/lib.rs CancellationDisposition *)
Inductive CancellationDisposition :=
| NotRequired
| QueuedInvokeRemoved
| CancelQueuedUnconfirmed
| ProviderDetachedUnconfirmed
| DroppedQueueFull
| DroppedSequenceExhausted.

(* toolproto/lib.rs CapabilityRequestStatus *)
Inductive CapabilityRequestStatus :=
| Req_Denied (reason : PolicyDenial)
| Req_AwaitingApproval
| Req_Dispatched (operation_id : ToolOperationId)
| Req_Succeeded (operation_id : ToolOperationId) (result : CapabilityResultMetadata)
| Req_Failed (operation_id : ToolOperationId) (failure : ToolFailure)
| Req_ApprovalDenied
| Req_GrantRevoked (operation_id : option ToolOperationId)
    (cancellation : CancellationDisposition)
| Req_TimedOut (operation_id : option ToolOperationId)
    (cancellation : CancellationDisposition)
| Req_Superseded (operation_id : option ToolOperationId)
    (cancellation : CancellationDisposition) (current_generation : SessionGeneration)
| Req_InstanceClosed (operation_id : option ToolOperationId)
    (cancellation : CancellationDisposition)
| Req_ClientClosed (operation_id : option ToolOperationId)
    (cancellation : CancellationDisposition)
| Req_ProviderDetached (operation_id : option ToolOperationId)
    (cancellation : CancellationDisposition).

(* toolproto/lib.rs CapabilityRequestStatus::is_terminal *)
Definition is_terminal (status : CapabilityRequestStatus) : bool :=
  match status with
  | Req_Denied _ | Req_Succeeded _ _ | Req_Failed _ _ | Req_ApprovalDenied
  | Req_GrantRevoked _ _ | Req_TimedOut _ _ | Req_Superseded _ _ _
  | Req_InstanceClosed _ _ | Req_ClientClosed _ _ | Req_ProviderDetached _ _ => true
  | Req_AwaitingApproval | Req_Dispatched _ => false
  end.

(* toolproto/lib.rs CapabilityRequestSnapshot *)
Record CapabilityRequestSnapshot := MkRequestSnapshot {
  rq_key : CapabilityRequestKey;
  rq_accepted_sequence : N;
  rq_accepted_at_tick : N;
  rq_instance_id : AgentInstanceId;
  rq_generation : SessionGeneration;
  rq_provider_id : ToolProviderId;
  rq_capability_id : ToolCapabilityId;
  rq_resource_scope_id : ResourceScopeId;
  rq_approval_summary : list N;
  rq_approval_summary_bytes : N;
  rq_deadline_tick : N;
  rq_payload_bytes : N;
  rq_policy_decision : PolicyDecision;
  rq_status : CapabilityRequestStatus
}.
#[export] Instance CapabilityRequestSnapshot_fields : Fields CapabilityRequestSnapshot :=
  fields_of MkRequestSnapshot
    <rq_key; rq_accepted_sequence; rq_accepted_at_tick; rq_instance_id; rq_generation;
     rq_provider_id; rq_capability_id; rq_resource_scope_id; rq_approval_summary;
     rq_approval_summary_bytes; rq_deadline_tick; rq_payload_bytes; rq_policy_decision;
     rq_status>.

(** ** Completions *)

(* toolproto/lib.rs CapabilityTerminalOutcome *)
Inductive CapabilityTerminalOutcome :=
| Out_Succeeded (result : CapabilityResult)
| Out_Failed (failure : ToolFailure)
| Out_PolicyDenied (reason : PolicyDenial)
| Out_ApprovalDenied
| Out_GrantRevoked (cancellation : CancellationDisposition)
| Out_TimedOut (cancellation : CancellationDisposition)
| Out_Superseded (current_generation : SessionGeneration)
    (cancellation : CancellationDisposition)
| Out_InstanceClosed (cancellation : CancellationDisposition)
| Out_ClientClosed (cancellation : CancellationDisposition)
| Out_ProviderDetached (cancellation : CancellationDisposition).

(* toolproto/lib.rs CapabilityCompletionEnvelope *)
Record CapabilityCompletionEnvelope := MkCompletion {
  co_sequence : N;
  co_accepted_sequence : N;
  co_operation_id : option ToolOperationId;
  co_request_key : CapabilityRequestKey;
  co_instance_id : AgentInstanceId;
  co_generation : SessionGeneration;
  co_provider_id : ToolProviderId;
  co_outcome : CapabilityTerminalOutcome
}.

(* toolproto/lib.rs CapabilityCompletionBatch *)
Record CapabilityCompletionBatch := MkCompletionBatch {
  ba_completions : list CapabilityCompletionEnvelope;
  ba_dropped_since_last_drain : N;
  ba_total_dropped : N;
  ba_next_sequence : N;
  ba_sequence_exhausted : bool
}.

(* toolproto/lib.rs CompletionDropReason *)
Inductive CompletionDropReason := Drop_QueueFull | Drop_SequenceExhausted.

(** ** Audit *)

(* toolproto/lib.rs ToolAuditSubject *)
Record ToolAuditSubject := MkAuditSubject {
  au_request_key : CapabilityRequestKey;
  au_accepted_sequence : N;
  au_instance_id : AgentInstanceId;
  au_generation : SessionGeneration;
  au_provider_id : ToolProviderId;
  au_capability_id : ToolCapabilityId;
  au_resource_scope_id : ResourceScopeId
}.

(* toolproto/lib.rs ObservationIgnoredReason *)
Inductive ToolIgnoredReason :=
| Ignored_UnknownRequest
| Ignored_StaleGeneration
| Ignored_InstanceMismatch
| Ignored_ProviderMismatch
| Ignored_RequestNotDispatched
| Ignored_OperationMismatch
| Ignored_DeadlineElapsed.

(* toolproto/lib.rs CapabilityObservationDisposition *)
Inductive CapabilityObservationDisposition :=
| Disposition_Applied
| Disposition_Ignored (reason : ToolIgnoredReason).

(* toolproto/lib.rs ToolAuditEventKind *)
Inductive ToolAuditEventKind :=
| Audit_ProviderRegistered (provider_id : ToolProviderId) (owner : CapabilityOwner)
    (capability_count : N)
| Audit_GrantSet (grant : PolicyGrant)
| Audit_GrantRevoked (key : PolicyKey)
| Audit_GenerationAdvanced (instance_id : AgentInstanceId)
    (previous : option SessionGeneration) (current : SessionGeneration)
    (purged_grant_count : N)
| Audit_InstanceStateChanged (instance_id : AgentInstanceId)
    (generation : SessionGeneration) (state : ToolInstanceState) (purged_grant_count : N)
| Audit_InstanceRemoved (instance_id : AgentInstanceId)
    (previous_generation : SessionGeneration) (purged_grant_count : N)
| Audit_ClientClosed (consumer_id : ConsumerId) (actor_id : ToolActorId)
    (purged_grant_count closed_request_count : N)
| Audit_RequestEvaluated (decision : PolicyDecision) (payload_bytes : N)
| Audit_ApprovalResolved (decision : ApprovalDecision)
| Audit_RequestGrantRevoked (operation_id : option ToolOperationId)
    (cancellation : CancellationDisposition)
| Audit_InvocationDispatched (operation_id : ToolOperationId)
| Audit_InvocationSucceeded (operation_id : ToolOperationId) (result_bytes : N)
    (truncated : bool)
| Audit_InvocationFailed (operation_id : ToolOperationId) (failure_kind : ToolFailureKind)
| Audit_RequestTimedOut (operation_id : option ToolOperationId)
    (cancellation : CancellationDisposition)
| Audit_RequestSuperseded (operation_id : option ToolOperationId)
    (cancellation : CancellationDisposition) (current_generation : SessionGeneration)
| Audit_RequestInstanceClosed (operation_id : option ToolOperationId)
    (cancellation : CancellationDisposition)
| Audit_RequestClientClosed (operation_id : option ToolOperationId)
    (cancellation : CancellationDisposition)
| Audit_RequestProviderDetached (operation_id : option ToolOperationId)
    (cancellation : CancellationDisposition)
| Audit_CompletionDropped (completion_sequence : option N) (reason : CompletionDropReason)
| Audit_ObservationIgnored (operation_id : ToolOperationId)
    (reason : ToolIgnoredReason).

(* toolproto/lib.rs ToolAuditEvent *)
Record ToolAuditEvent := MkAuditEvent {
  ae_sequence : N;
  ae_tick : N;
  ae_subject : option ToolAuditSubject;
  ae_event : ToolAuditEventKind
}.

(* toolproto/lib.rs ToolEngineSnapshot *)
Record ToolEngineSnapshot := MkToolSnapshot {
  ts_revision : N;
  ts_current_tick : N;
  ts_generations : list (AgentInstanceId * SessionGeneration);
  ts_instance_states : list (AgentInstanceId * ToolInstanceState);
  ts_providers : list CapabilityProviderDescriptor;
  ts_grants : list PolicyGrant;
  ts_requests : list CapabilityRequestSnapshot;
  ts_audit_events : list ToolAuditEvent;
  ts_dropped_audit_events : N;
  ts_revision_overflow_count : N;
  ts_next_completion_sequence : N;
  ts_dropped_completions : N;
  ts_effect_sequence_exhausted : bool;
  ts_completion_sequence_exhausted : bool;
  ts_audit_sequence_exhausted : bool
}.
