(* ===== verification/ToolProtocol.v ===== *)
(** * The validators of the tool protocol

    What the validators of providers and capability names accept, against
    declarative statements of it. *)

From S2P Require Import Prelude RustStr RustOrd Ids ToolTypes.

Local Open Scope N_scope.

(** ** Segments *)

Definition compact (s : list N) : list N := List.filter (λ c, negb (is_separator c)) s.
Definition segments (s : list N) : list (list N) :=
  List.filter (λ segment, negb (str_is_empty segment)) (split_on is_separator s).

Lemma compact_app a b : compact (a ++ b) = compact a ++ compact b.
Proof. apply List.filter_app. Qed.

Lemma segments_sep a c b :
  is_separator c = true → segments (a ++ c :: b) = segments a ++ segments b.
Proof. intros Hc. unfold segments. by rewrite split_on_sep, List.filter_app. Qed.

Lemma segments_sep_l c b : is_separator c = true → segments (c :: b) = segments b.
Proof. intros Hc. unfold segments. cbn. by rewrite Hc. Qed.

Lemma segments_plain s :
  Forall (λ c, is_separator c = false) s → s ≠ [] → segments s = [s].
Proof. intros Hs Hne. unfold segments. rewrite split_on_plain by done. by destruct s. Qed.

(** The concatenated segments are the text without its separators. *)
Lemma concat_segments s : concat (segments s) = compact s.
Proof.
  assert (H : ∀ l, concat (List.filter (λ x, negb (str_is_empty x)) l) = concat (A := N) l).
  { induction l as [|x l IH]; cbn; [done|]. destruct x; cbn; by rewrite IH. }
  unfold segments, compact. rewrite H. clear H. induction s as [|c s IH]; cbn; [done|].
  destruct (is_separator c); cbn; [done|]. rewrite <- IH.
  pose proof (split_on_nonempty is_separator s). by destruct (split_on is_separator s).
Qed.

Lemma segments_nonempty s : Forall (λ x, x ≠ []) (segments s).
Proof.
  apply Forall_forall. intros x Hx. apply list_elem_of_In, filter_In in Hx as [_ Hx]. by destruct x.
Qed.

(** [a] ends, or [b] starts, at a separator or at the end of the text. *)
Definition ends_segment (a : list N) : Prop := ∀ x c, a = x ++ [c] → is_separator c = true.
Definition starts_segment (b : list N) : Prop := ∀ c y, b = c :: y → is_separator c = true.

Lemma segments_after a b : ends_segment a → segments (a ++ b) = segments a ++ segments b.
Proof.
  intros Ha. destruct a as [|c x _] using rev_ind; [done|]. specialize (Ha x c eq_refl).
  rewrite <- (app_assoc x). cbn. rewrite !segments_sep by done. by rewrite app_nil_r.
Qed.

Lemma segments_before a b : starts_segment b → segments (a ++ b) = segments a ++ segments b.
Proof.
  intros Hb. destruct b as [|c y]; [by rewrite !app_nil_r|]. specialize (Hb c y eq_refl).
  rewrite segments_sep, segments_sep_l; done.
Qed.

Lemma plain_prefix s :
  ∃ p t, s = p ++ t ∧ Forall (λ c, is_separator c = false) p ∧ starts_segment t.
Proof.
  induction s as [|c s (p & t & -> & Hp & Ht)]; [by exists [], []|].
  destruct (is_separator c) eqn:Hc.
  - exists [], (c :: p ++ t). split_and!; [done|constructor|]. by intros c' y [= <- _].
  - exists (c :: p), t. split_and!; [done|by constructor|done].
Qed.

Lemma compact_plain p : Forall (λ c, is_separator c = false) p → compact p = p.
Proof. unfold compact. induction 1 as [|c p Hc _ IH]; cbn; [done|]. by rewrite Hc, IH. Qed.

(** The first segment, between what precedes it and what follows. *)
Lemma segments_uncons s x rest :
  segments s = x :: rest →
  ∃ pre suf, s = pre ++ x ++ suf ∧ compact pre = [] ∧ compact x = x
    ∧ ends_segment pre ∧ starts_segment suf ∧ segments suf = rest.
Proof.
  revert x rest. induction s as [|c s IH]; intros x rest; [done|].
  destruct (is_separator c) eqn:Hc.
  - rewrite segments_sep_l by done. intros (pre & suf & -> & Hpre & Hx & He & Hs & Hr)%IH.
    exists (c :: pre), suf. split_and!; try done.
    + unfold compact in *. cbn. by rewrite Hc.
    + intros y d E. destruct y as [|? y]; [by injection E as -> _|]. injection E as _ E. by eapply He.
  - destruct (plain_prefix s) as (p & t & -> & Hp & Ht). change (c :: p ++ t) with ((c :: p) ++ t).
    assert (Hcp : Forall (λ c, is_separator c = false) (c :: p)) by (by constructor).
    rewrite segments_before by done. rewrite (segments_plain (c :: p)) by done. intros [= <- <-].
    exists [], t. split_and!; [done|done|by apply compact_plain| |done|done].
    by intros [|? ?] ? [=].
Qed.

Lemma segments_first_plain s x rest :
  segments s = x :: rest → x ≠ [] ∧ (∀ c y, x = c :: y → is_separator c = false).
Proof.
  intros E. split.
  - pose proof (segments_nonempty s) as H. rewrite E in H. by apply Forall_inv in H.
  - destruct (segments_uncons _ _ _ E) as (pre & suf & _ & _ & Hx & _). intros c y ->.
    unfold compact in Hx. cbn in Hx. destruct (is_separator c) eqn:Hc; [|done]. exfalso.
    cbn in Hx. pose proof (List.filter_length_le (λ c, negb (is_separator c)) y) as Hl.
    apply (f_equal length) in Hx. cbn in Hx. lia.
Qed.

Lemma segments_compact_nil s : compact s = [] → segments s = [].
Proof.
  intros Hs. pose proof (concat_segments s) as Hc. rewrite Hs in Hc.
  pose proof (segments_nonempty s) as Hn. destruct (segments s) as [|x l]; [done|].
  apply Forall_inv in Hn. by destruct x.
Qed.

Lemma ends_segment_app a b : b ≠ [] → ends_segment b → ends_segment (a ++ b).
Proof.
  intros Hb He x c E. destruct b as [|d y _] using rev_ind; [done|].
  rewrite app_assoc in E. apply app_inj_tail in E as [_ <-]. by apply (He y).
Qed.

(** Dropping the segments before [x]. *)
Lemma segments_drop l1 s x l2 :
  segments s = l1 ++ x :: l2 →
  ∃ a b, s = a ++ x ++ b ∧ ends_segment a ∧ segments (x ++ b) = x :: l2.
Proof.
  revert s. induction l1 as [|y l1 IH]; intros s E; cbn in E;
    destruct (segments_uncons _ _ _ E) as (pre & suf & -> & Hpre & _ & He & Hs & Hr).
  - exists pre, suf. split_and!; [done..|].
    rewrite segments_after, (segments_compact_nil pre) in E by done. exact E.
  - destruct (IH suf Hr) as (a & b & -> & Ha & Hb). exists (pre ++ y ++ a), b.
    split_and!; [by rewrite <- !app_assoc| |done].
    destruct (segments_first_plain _ _ _ Hb) as [Hx Hp].
    rewrite app_assoc. apply ends_segment_app; [|done]. intros ->. destruct x as [|c x]; [done|].
    specialize (Hp c x eq_refl). specialize (Hs c (x ++ b) eq_refl). congruence.
Qed.

(** A run of segments is a part of the text between separators. *)
Lemma segments_run r s l2 :
  r ≠ [] → segments s = r ++ l2 →
  ∃ run t, s = run ++ t ∧ starts_segment t ∧ compact run = concat r.
Proof.
  intros Hr. revert s. induction r as [|x r IH]; [done|]. intros s E. cbn in E.
  destruct (segments_uncons _ _ _ E) as (pre & suf & -> & Hpre & Hx & _ & Hs & Hrest).
  destruct r as [|y r].
  - exists (pre ++ x), suf. split_and!; [by rewrite <- app_assoc|done|].
    cbn. by rewrite compact_app, Hpre, Hx, app_nil_r.
  - destruct (IH ltac:(done) suf Hrest) as (run & t & -> & Ht & Hc).
    exists (pre ++ x ++ run), t. split_and!; [by rewrite <- !app_assoc|done|].
    rewrite !compact_app, Hpre, Hx, Hc. done.
Qed.

(** ** Forbidden namespaces *)

(** Some run of segments joins to [word]. *)
Definition run_joins_to (word : list N) (l : list (list N)) : Prop :=
  ∃ l1 r l2, l = l1 ++ r ++ l2 ∧ r ≠ [] ∧ concat r = word.

Lemma run_joins_to_text word s :
  run_joins_to word (segments s) ∧ word ≠ []
  ↔ word ≠ [] ∧ ∃ a run b, s = a ++ run ++ b ∧ ends_segment a ∧ starts_segment b
      ∧ compact run = word.
Proof.
  split.
  - intros [(l1 & r & l2 & E & Hr & Hw) Hne]. split; [done|]. destruct r as [|x r]; [done|].
    destruct (segments_drop l1 s x (r ++ l2) E) as (a & b & -> & Ha & Hb).
    destruct (segments_run (x :: r) (x ++ b) l2 Hr Hb) as (run & t & Et & Ht & Hc).
    exists a, run, t. split_and!; [by rewrite Et|done..|by rewrite Hc].
  - intros [Hne (a & run & b & -> & Ha & Hb & Hc)]. split; [|done].
    exists (segments a), (segments run), (segments b).
    rewrite segments_after, segments_before by done. split_and!; [done| |].
    + intros E. apply Hne. rewrite <- Hc, <- concat_segments, E. done.
    + by rewrite concat_segments.
Qed.

Lemma joins_to_fs_spec cand l :
  Forall (λ x, x ≠ []) l →
  joins_to_fs cand l = true ↔ ∃ r l2, l = r ++ l2 ∧ r ≠ [] ∧ cand ++ concat r = str "fs".
Proof.
  intros Hl. revert cand. induction Hl as [|x l Hx Hl IH]; intros cand; cbn [joins_to_fs].
  { split; [done|]. intros (r & l2 & E & Hr & _). by destruct r. }
  destruct (2 <=? str_len cand) eqn:E; bool_prop.
  - rewrite IH. split; intros (r & l2 & El & Hr & Ec); exfalso; destruct r as [|y r]; try done;
      cbn in El; apply (f_equal str_len) in Ec; cbn [concat] in Ec; rewrite !str_len_app in Ec;
      change (str_len (str "fs")) with 2 in Ec.
    + destruct (decide (str_len y = 0)) as [->%str_len_nil_inv|]; [|lia].
      rewrite El in Hl. by apply Forall_inv in Hl.
    + injection El as -> _. destruct (decide (str_len y = 0)) as [->%str_len_nil_inv|]; [done|lia].
  - rewrite orb_true_iff, bool_decide_eq_true, IH. split.
    + intros [Ec|(r & l2 & -> & Hr & Ec)].
      * exists [x], l. split_and!; [done|done|]. cbn. by rewrite app_nil_r.
      * exists (x :: r), l2. split_and!; [done|done|]. cbn. by rewrite app_assoc.
    + intros (r & l2 & El & Hr & Ec). destruct r as [|y r]; [done|]. cbn in El, Ec.
      injection El as <- ->. rewrite app_assoc in Ec. destruct r as [|z r]; [left|right].
      * cbn in Ec. by rewrite app_nil_r in Ec.
      * by exists (z :: r), l2.
Qed.

Lemma some_start_spec l :
  Forall (λ x, x ≠ []) l → some_start_joins_to_fs l = true ↔ run_joins_to (str "fs") l.
Proof.
  intros Hl. induction Hl as [|x l Hx Hl IH].
  { split; [done|]. intros (l1 & r & l2 & E & Hr & _). by destruct l1, r. }
  change (some_start_joins_to_fs (x :: l))
    with (joins_to_fs [] (x :: l) || some_start_joins_to_fs l).
  rewrite orb_true_iff, joins_to_fs_spec, IH by (by constructor). split.
  - intros [(r & l2 & E & Hr & Ec)|(l1 & r & l2 & -> & Hr & Ec)].
    + by exists [], r, l2.
    + by exists (x :: l1), r, l2.
  - intros (l1 & r & l2 & E & Hr & Ec). destruct l1 as [|y l1]; [left|right].
    + by exists r, l2.
    + injection E as _ ->. by exists l1, r, l2.
Qed.

Lemma starts_with_str_spec s p : starts_with_str s p = true ↔ ∃ t, s = p ++ t.
Proof.
  revert s. induction p as [|c p IH]; intros s; cbn; [split; [by exists s|by destruct s]|].
  destruct s as [|d s]; cbn.
  - split; [done|]. by intros (t & [=]).
  - rewrite andb_true_iff, N.eqb_eq, IH. split.
    + intros [-> (t & ->)]. by exists t.
    + intros (t & [= -> ->]). split; [done|by exists t].
Qed.

Lemma str_contains_spec s p : str_contains s p = true ↔ ∃ a b, s = a ++ p ++ b.
Proof.
  induction s as [|c s IH]; cbn [str_contains]; rewrite orb_true_iff, starts_with_str_spec.
  - split; [intros [(t & E)|]; [by exists [], t|done]|]. intros (a & b & E). left.
    symmetry in E. apply app_nil in E as [-> E]. by exists b.
  - rewrite IH. split.
    + intros [(t & E)|(a & b & ->)]; [by exists [], t|by exists (c :: a), b].
    + intros (a & b & E). destruct a as [|d a]; [left; by exists b|right].
      injection E as _ ->. by exists a, b.
Qed.

(** C34: a capability name is in a forbidden namespace exactly when, its
    separators removed, it contains "shell", "filesystem" or "mcp", or when
    a part of it between separators (or its ends) reads "fs" once its own
    separators are removed, however it is spread over segments. *)
Theorem forbidden_namespace_spec name :
  has_forbidden_capability_namespace name = true ↔
  (∃ word a b, word ∈ [str "shell"; str "filesystem"; str "mcp"] ∧ compact name = a ++ word ++ b)
  ∨ ∃ a part b, name = a ++ part ++ b ∧ ends_segment a ∧ starts_segment b
      ∧ compact part = str "fs".
Proof.
  unfold has_forbidden_capability_namespace. fold (compact name). fold (segments name).
  destruct (existsb _ _) eqn:Ex.
  - split; [intros _; left|done]. apply existsb_exists in Ex as (word & Hin & Hc).
    apply list_elem_of_In in Hin. apply str_contains_spec in Hc as (a & b & E). by exists word, a, b.
  - rewrite some_start_spec by apply segments_nonempty.
    pose proof (run_joins_to_text (str "fs") name) as Hr. split.
    + intros Hj. right. by destruct Hr as [[_ ?] _].
    + intros [(word & a & b & Hin & E)|Hp]; [|by destruct Hr as [_ [? _]]].
      exfalso. apply not_true_iff_false in Ex. apply Ex. apply existsb_exists. exists word.
      split; [by apply list_elem_of_In|]. apply str_contains_spec. by exists a, b.
Qed.

(** ** Providers *)

(** What a provider may offer: a capability of its class outside the forbidden
    namespaces, with a description. *)
Definition admitted (c : CapabilityDescriptor) : Prop :=
  let name := to_ascii_lowercase (tool_capability_id_str (cd_id c)) in
  (∃ t, name = class_prefix (cd_class c) ++ t)
  ∧ has_forbidden_capability_namespace name = false
  ∧ trim (cd_description c) ≠ []
  ∧ str_len (cd_description c) <= TOOL_CAPABILITY_DESCRIPTION_MAX_BYTES
  ∧ Forall (λ x, is_control x = false) (cd_description c).

Lemma admitted_spec c :
  (validate_admission c ;; validate_description c) = Ok tt ↔ admitted c.
Proof.
  unfold validate_admission, validate_description, tool_required_text, tool_text, admitted.
  rewrite <- starts_with_str_spec, <- chars_any_false.
  rewrite !seq_Ok, !guard_err_Ok.
  rewrite orb_false_iff, negb_false_iff, N.ltb_ge. unfold str_is_empty.
  destruct (trim _); naive_solver.
Qed.

(** A provider descriptor is valid exactly when it offers between one and
    256 capabilities, no two of them under one id, and each of them is
    admitted: the sort and the comparison of neighbours find every duplicate. *)
Theorem provider_descriptor_spec d :
  CapabilityProviderDescriptor_validate d = Ok tt ↔
  1 <= len (pd_capabilities d) <= TOOL_CAPABILITIES_PER_PROVIDER_MAX
  ∧ NoDup (cd_id <$> pd_capabilities d) ∧ Forall admitted (pd_capabilities d).
Proof.
  unfold CapabilityProviderDescriptor_validate.
  rewrite !seq_Ok, !guard_err_Ok, for_each_Ok. setoid_rewrite admitted_spec. rewrite adjacent_equal_sorted by apply sort_sorted.
  rewrite sort_Permutation, bool_decide_eq_false, N.ltb_ge.
  assert (Hlen : pd_capabilities d ≠ [] ↔ 1 <= len (pd_capabilities d)).
  { unfold len. destruct (pd_capabilities d); cbn; split; try done; lia. }
  rewrite <- Hlen. naive_solver.
Qed.
