(* ===== verification/ToolEngine.v ===== *)
(** * The tool engine

    The policy and life cycle of capability requests,
    crates/gate4agent-tool-engine/src/engine.rs: its state and one definition
    per method. Methods are computations of [ToolM]; an error keeps the state
    reached, as [&mut self] does, and an [expect], an index, an overflow or a
    [debug_assert] that fails is a panic. *)

From S2P Require Import Prelude RustStr RustOrd Ids ToolTypes.

Local Open Scope N_scope.

(** ** State *)

(* tool/engine.rs AcceptedRequest *)
Record AcceptedRequest := MkAccepted {
  aq_key : CapabilityRequestKey;
  aq_instance_id : AgentInstanceId;
  aq_generation : SessionGeneration;
  aq_provider_id : ToolProviderId;
  aq_capability_id : ToolCapabilityId;
  aq_resource_scope_id : ResourceScopeId;
  aq_approval_summary : list N;
  aq_deadline_tick : N;
  aq_payload : list N
}.
#[export] Instance AcceptedRequest_fields : Fields AcceptedRequest :=
  fields_of MkAccepted
    <aq_key; aq_instance_id; aq_generation; aq_provider_id; aq_capability_id;
     aq_resource_scope_id; aq_approval_summary; aq_deadline_tick; aq_payload>.

(* tool/engine.rs RequestState *)
Record RequestState := MkRequestState {
  rst_request : AcceptedRequest;
  rst_snapshot : CapabilityRequestSnapshot
}.
#[export] Instance RequestState_fields : Fields RequestState :=
  fields_of MkRequestState <rst_request; rst_snapshot>.

(* tool/engine.rs From@AcceptedRequest::from *)
Definition accepted_from (envelope : ConsumerBoundCapabilityRequest) : AcceptedRequest :=
  {| aq_key := ConsumerBound_key envelope;
     aq_instance_id := ri_instance_id (cb_request envelope);
     aq_generation := ri_generation (cb_request envelope);
     aq_provider_id := ri_provider_id (cb_request envelope);
     aq_capability_id := ri_capability_id (cb_request envelope);
     aq_resource_scope_id := ri_resource_scope_id (cb_request envelope);
     aq_approval_summary := ri_approval_summary (cb_request envelope);
     aq_deadline_tick := ri_deadline_tick (cb_request envelope);
     aq_payload := ri_payload (cb_request envelope) |}.

(* tool/engine.rs RequestCloseKind *)
Inductive RequestCloseKind := Close_Instance | Close_Client.

(* tool/engine.rs ToolEngineError *)
Inductive ToolEngineError :=
| Te_Validation (error : ToolValidationError)
| Te_DuplicateProvider (provider_id : ToolProviderId)
| Te_UnknownRuntimeProvider (provider_id : ToolProviderId)
| Te_DuplicateRequest (request_key : CapabilityRequestKey)
| Te_ProviderCapacityExceeded
| Te_PolicyCapacityExceeded
| Te_RequestCapacityExceeded
| Te_ClientRequestCapacityExceeded (consumer_id : ConsumerId) (actor_id : ToolActorId)
    (max : N)
| Te_EffectCapacityExceeded
| Te_EffectSequenceExhausted
| Te_UnknownPolicyProvider (provider_id : ToolProviderId)
| Te_UnknownPolicyCapability (provider_id : ToolProviderId)
    (capability_id : ToolCapabilityId)
| Te_ProviderOwnerMismatch (provider_id : ToolProviderId)
    (owner requested_consumer : ConsumerId)
| Te_UnknownPolicyInstance (instance_id : AgentInstanceId)
| Te_InactivePolicyInstance (instance_id : AgentInstanceId)
| Te_PolicyGenerationMismatch (instance_id : AgentInstanceId)
    (current requested : SessionGeneration)
| Te_UnknownRequest (request_key : CapabilityRequestKey)
| Te_RequestNotAwaitingApproval (request_key : CapabilityRequestKey)
| Te_ApprovalScopeMismatch (request_key : CapabilityRequestKey)
| Te_ApprovalNonceMismatch (request_key : CapabilityRequestKey) (expected actual : N)
| Te_ApprovalGenerationStale (current actual : SessionGeneration)
| Te_ApprovalDeadlineElapsed (request_key : CapabilityRequestKey)
| Te_ClockRegressed (current_tick requested_tick : N)
| Te_GenerationRegressed (instance_id : AgentInstanceId)
    (current requested : SessionGeneration)
| Te_AuthoritySequenceRegressed (current requested : N)
| Te_CounterExhausted (counter : list N).

(* tool/engine.rs ToolEngine *)
Record ToolEngine := MkToolEngine {
  te_revision : N;
  te_current_tick : N;
  te_generations : gmap AgentInstanceId SessionGeneration;
  te_instance_states : gmap AgentInstanceId ToolInstanceState;
  te_providers : gmap ToolProviderId CapabilityProviderDescriptor;
  te_grants : gmap PolicyKey GrantMode;
  te_requests : gmap CapabilityRequestKey RequestState;
  te_effects : list CapabilityEffectEnvelope;
  te_completions : list CapabilityCompletionEnvelope;
  te_audit_events : list ToolAuditEvent;
  te_dropped_audit_events : N;
  te_revision_overflow_count : N;
  te_dropped_completions : N;
  te_dropped_completions_since_drain : N;
  te_last_authority_sequence : N;
  te_effect_sequence_exhausted : bool;
  te_completion_sequence_exhausted : bool;
  te_audit_sequence_exhausted : bool;
  te_next_request_sequence : N;
  te_next_operation_id : N;
  te_next_effect_sequence : N;
  te_next_completion_sequence : N;
  te_next_audit_sequence : N
}.
#[export] Instance ToolEngine_fields : Fields ToolEngine :=
  fields_of MkToolEngine
    <te_revision; te_current_tick; te_generations; te_instance_states; te_providers;
     te_grants; te_requests; te_effects; te_completions; te_audit_events;
     te_dropped_audit_events; te_revision_overflow_count; te_dropped_completions;
     te_dropped_completions_since_drain; te_last_authority_sequence;
     te_effect_sequence_exhausted; te_completion_sequence_exhausted;
     te_audit_sequence_exhausted; te_next_request_sequence; te_next_operation_id;
     te_next_effect_sequence; te_next_completion_sequence; te_next_audit_sequence>.

(* tool/engine.rs ToolEngine::new *)
Definition tool_engine_new : ToolEngine :=
  {| te_revision := 0; te_current_tick := 0; te_generations := ∅; te_instance_states := ∅;
     te_providers := ∅; te_grants := ∅; te_requests := ∅; te_effects := [];
     te_completions := []; te_audit_events := []; te_dropped_audit_events := 0;
     te_revision_overflow_count := 0; te_dropped_completions := 0;
     te_dropped_completions_since_drain := 0; te_last_authority_sequence := 0;
     te_effect_sequence_exhausted := false; te_completion_sequence_exhausted := false;
     te_audit_sequence_exhausted := false; te_next_request_sequence := 1;
     te_next_operation_id := 1; te_next_effect_sequence := 1;
     te_next_completion_sequence := 1; te_next_audit_sequence := 1 |}.

Abbreviation ToolM := (stm ToolEngine ToolEngineError).
Abbreviation status_in state := (rq_status (rst_snapshot state)).
Abbreviation sequence_in state := (rq_accepted_sequence (rst_snapshot state)).

(** ** Counters and the audit log *)

(* tool/engine.rs ToolEngine::bump_revision *)
Definition tool_bump_revision : ToolM unit :=
  modify_state (λ e,
    if te_revision e =? U64_MAX
    then e <| te_revision_overflow_count ::= λ n, saturating_add n 1 |>
    else e <| te_revision ::= λ n, n + 1 |>).

(* tool/engine.rs ToolEngine::emit_audit *)
Definition emit_audit (subject : option ToolAuditSubject) (event : ToolAuditEventKind)
    : ToolM unit :=
  modify_state (λ e,
    if te_audit_sequence_exhausted e
    then e <| te_dropped_audit_events ::= λ n, saturating_add n 1 |>
    else
      let e := if len (te_audit_events e) =? TOOL_AUDIT_EVENTS_MAX
               then e <| te_audit_events ::= drop 1 |>
                      <| te_dropped_audit_events ::= λ n, saturating_add n 1 |>
               else e in
      let sequence := te_next_audit_sequence e in
      let e := if sequence =? U64_MAX
               then e <| te_audit_sequence_exhausted := true |>
               else e <| te_next_audit_sequence ::= λ n, n + 1 |> in
      e <| te_audit_events ::= λ l,
             l ++ [MkAuditEvent sequence (te_current_tick e) subject event] |>).

(* tool/engine.rs ToolEngine::allocate_request_sequence *)
Definition allocate_request_sequence : ToolM N :=
  e ← get_state;
  next ← expect (checked_add (te_next_request_sequence e) 1);
  modify_state (λ e, e <| te_next_request_sequence := next |>) ;;
  mret (te_next_request_sequence e).

(* tool/engine.rs ToolEngine::allocate_operation *)
Definition tool_allocate_operation : ToolM ToolOperationId :=
  e ← get_state;
  next ← expect (checked_add (te_next_operation_id e) 1);
  modify_state (λ e, e <| te_next_operation_id := next |>) ;;
  mret (MkToolOperationId (te_next_operation_id e)).

(** ** Requests *)

(* tool/engine.rs subject_for *)
Definition subject_for (request : AcceptedRequest) (accepted_sequence : N)
    : ToolAuditSubject :=
  {| au_request_key := aq_key request;
     au_accepted_sequence := accepted_sequence;
     au_instance_id := aq_instance_id request;
     au_generation := aq_generation request;
     au_provider_id := aq_provider_id request;
     au_capability_id := aq_capability_id request;
     au_resource_scope_id := aq_resource_scope_id request |}.

(* tool/engine.rs request_matches_key *)
Definition request_matches_key (request : AcceptedRequest) (key : PolicyKey) : bool :=
  bool_decide (rk_consumer_id (aq_key request) = pk_consumer_id key)
  && bool_decide (rk_actor_id (aq_key request) = pk_actor_id key)
  && bool_decide (aq_instance_id request = pk_instance_id key)
  && bool_decide (aq_generation request = pk_generation key)
  && bool_decide (aq_provider_id request = pk_provider_id key)
  && bool_decide (aq_capability_id request = pk_capability_id key)
  && bool_decide (aq_resource_scope_id request = pk_resource_scope_id key).

(** [self.requests.get_mut(key).expect(..)], changed by [f]. *)
(* tool/engine.rs:1082-1085 ToolEngine::detach_request_from_provider *)
Definition update_request (request_key : CapabilityRequestKey)
    (f : RequestState → RequestState) : ToolM unit :=
  e ← get_state;
  state ← expect (te_requests e !! request_key);
  modify_state (λ e, e <| te_requests ::= <[request_key := f state]> |>).

(* tool/engine.rs:1224-1231 ToolEngine::timeout_request *)
Definition set_request_status (request_key : CapabilityRequestKey)
    (status : CapabilityRequestStatus) : ToolM unit :=
  update_request request_key (λ state, state <| rst_snapshot ::= λ s, s <| rq_status := status |> |>).

(* tool/engine.rs:1091-1091 ToolEngine::detach_request_from_provider *)
Definition clear_payload (state : RequestState) : RequestState :=
  state <| rst_request ::= λ r, r <| aq_payload := [] |> |>.

(** [match status { Dispatched { operation_id } => Some(operation_id), _ => None }]. *)
(* tool/engine.rs:1087-1090 ToolEngine::detach_request_from_provider *)
Definition dispatched_operation (status : CapabilityRequestStatus)
    : option ToolOperationId :=
  match status with
  | Req_Dispatched operation_id => Some operation_id
  | _ => None
  end.

(** The keys of the requests that are not terminal and have [p]. *)
(* tool/engine.rs:257-264 ToolEngine::detach_provider_runtime *)
Definition active_requests_where (p : CapabilityRequestKey → AcceptedRequest → bool)
    (e : ToolEngine) : list CapabilityRequestKey :=
  keys_where (λ key state, p key (rst_request state) && negb (is_terminal (status_in state)))
    (te_requests e).

(* tool/engine.rs ToolEngine::active_requests_for_key *)
Definition active_requests_for_key (key : PolicyKey) (e : ToolEngine)
    : list CapabilityRequestKey :=
  active_requests_where (λ _ request, request_matches_key request key) e.

(** ** Effects and completions *)

(* tool/engine.rs ToolEngine::push_effect *)
Definition tool_push_effect (request : AcceptedRequest) (operation_id : ToolOperationId)
    (effect : CapabilityEffect) : ToolM bool :=
  e ← get_state;
  if te_effect_sequence_exhausted e then mret false
  else
    let sequence := te_next_effect_sequence e in
    modify_state (λ e,
      if sequence =? U64_MAX
      then e <| te_effect_sequence_exhausted := true |>
      else e <| te_next_effect_sequence ::= λ n, n + 1 |>) ;;
    modify_state (λ e, e <| te_effects ::= λ l, l ++
      [{| cf_sequence := sequence;
          cf_operation_id := operation_id;
          cf_request_key := aq_key request;
          cf_instance_id := aq_instance_id request;
          cf_generation := aq_generation request;
          cf_provider_id := aq_provider_id request;
          cf_deadline_tick := aq_deadline_tick request;
          cf_effect := effect |}] |>) ;;
    mret true.

(* tool/engine.rs ToolEngine::emit_cancel *)
Definition emit_cancel (request : AcceptedRequest) (operation_id : ToolOperationId)
    (reason : InvocationCancelReason) : ToolM bool :=
  tool_push_effect request operation_id (Cancel reason).

(* tool/engine.rs ToolEngine::emit_invoke *)
Definition emit_invoke (request : AcceptedRequest) (operation_id : ToolOperationId)
    : ToolM unit :=
  emitted ← tool_push_effect request operation_id
    (Invoke (rk_consumer_id (aq_key request)) (rk_actor_id (aq_key request))
       (aq_capability_id request) (aq_resource_scope_id request) (aq_payload request));
  if emitted : bool then mret tt else panic.

(** The queued invocation of an operation, by its position. *)
(* tool/engine.rs:1408-1412 ToolEngine::cancel_best_effort *)
Definition queued_invoke (request : AcceptedRequest) (operation_id : ToolOperationId)
    (e : ToolEngine) : option nat :=
  position (λ effect,
    bool_decide (cf_request_key effect = aq_key request)
    && bool_decide (cf_operation_id effect = operation_id)
    && is_invoke (cf_effect effect)) (te_effects e).

(** [self.effects.remove(position)]. *)
(* tool/engine.rs:1413-1415 ToolEngine::cancel_best_effort *)
Definition remove_effect (index : nat) : ToolM unit :=
  e ← get_state;
  removed ← expect (remove_at index (te_effects e));
  modify_state (λ e, e <| te_effects := snd removed |>).

(* tool/engine.rs ToolEngine::cancel_best_effort *)
Definition cancel_best_effort (request : AcceptedRequest) (operation_id : ToolOperationId)
    (reason : InvocationCancelReason) : ToolM CancellationDisposition :=
  e ← get_state;
  match queued_invoke request operation_id e with
  | Some index => remove_effect index ;; mret QueuedInvokeRemoved
  | None =>
      if TOOL_EFFECTS_MAX <=? len (te_effects e) then mret DroppedQueueFull
      else
        emitted ← emit_cancel request operation_id reason;
        mret (if emitted : bool then CancelQueuedUnconfirmed else DroppedSequenceExhausted)
  end.

(* tool/engine.rs ToolEngine::record_completion_drop *)
Definition record_completion_drop (request : AcceptedRequest) (accepted_sequence : N)
    (completion_sequence : option N) (reason : CompletionDropReason) : ToolM unit :=
  modify_state (λ e, e
    <| te_dropped_completions ::= λ n, saturating_add n 1 |>
    <| te_dropped_completions_since_drain ::= λ n, saturating_add n 1 |>) ;;
  emit_audit (Some (subject_for request accepted_sequence))
    (Audit_CompletionDropped completion_sequence reason).

(* tool/engine.rs ToolEngine::push_terminal_completion *)
Definition push_terminal_completion (request : AcceptedRequest) (accepted_sequence : N)
    (operation_id : option ToolOperationId) (outcome : CapabilityTerminalOutcome)
    : ToolM unit :=
  e ← get_state;
  if te_completion_sequence_exhausted e then
    record_completion_drop request accepted_sequence None Drop_SequenceExhausted
  else
    let sequence := te_next_completion_sequence e in
    modify_state (λ e,
      if sequence =? U64_MAX
      then e <| te_completion_sequence_exhausted := true |>
      else e <| te_next_completion_sequence ::= λ n, n + 1 |>) ;;
    let completion :=
      {| co_sequence := sequence;
         co_accepted_sequence := accepted_sequence;
         co_operation_id := operation_id;
         co_request_key := aq_key request;
         co_instance_id := aq_instance_id request;
         co_generation := aq_generation request;
         co_provider_id := aq_provider_id request;
         co_outcome := outcome |} in
    if TOOL_COMPLETIONS_MAX <=? len (te_completions e) then
      record_completion_drop request accepted_sequence (Some sequence) Drop_QueueFull
    else modify_state (λ e, e <| te_completions ::= λ l, l ++ [completion] |>).

(** ** Closing a request

    The five ways an active request ends without an answer start alike: its
    payload is dropped, and the request, its audit subject, its sequence and
    the operation it was dispatched under are kept. *)

(* tool/engine.rs:1143-1160 ToolEngine::supersede_request *)
Definition take_active_request (request_key : CapabilityRequestKey)
    : ToolM (AcceptedRequest * ToolAuditSubject * N * option ToolOperationId) :=
  e ← get_state;
  state ← expect (te_requests e !! request_key);
  update_request request_key clear_payload ;;
  mret (rst_request state, subject_for (rst_request state) (sequence_in state),
        sequence_in state, dispatched_operation (status_in state)).

(* tool/engine.rs:1216-1223 ToolEngine::timeout_request *)
Definition cancel_if_dispatched (request : AcceptedRequest)
    (operation_id : option ToolOperationId) (reason : InvocationCancelReason)
    : ToolM CancellationDisposition :=
  match operation_id with
  | Some operation_id => cancel_best_effort request operation_id reason
  | None => mret NotRequired
  end.

(** A detached provider gets no cancellation. *)
(* tool/engine.rs:1099-1114 ToolEngine::detach_request_from_provider *)
Definition cancel_detached (request : AcceptedRequest) (operation_id : option ToolOperationId)
    : ToolM CancellationDisposition :=
  e ← get_state;
  match operation_id with
  | Some operation_id =>
      match queued_invoke request operation_id e with
      | Some index => remove_effect index ;; mret QueuedInvokeRemoved
      | None => mret ProviderDetachedUnconfirmed
      end
  | None => mret NotRequired
  end.

(* tool/engine.rs ToolEngine::detach_request_from_provider *)
Definition detach_request_from_provider (request_key : CapabilityRequestKey) : ToolM unit :=
  '(request, subject, accepted_sequence, operation_id) ← take_active_request request_key;
  cancellation ← cancel_detached request operation_id;
  set_request_status request_key (Req_ProviderDetached operation_id cancellation) ;;
  emit_audit (Some subject) (Audit_RequestProviderDetached operation_id cancellation) ;;
  push_terminal_completion request accepted_sequence operation_id
    (Out_ProviderDetached cancellation).

(* tool/engine.rs ToolEngine::supersede_request *)
Definition supersede_request (request_key : CapabilityRequestKey)
    (current_generation : SessionGeneration) : ToolM unit :=
  '(request, subject, accepted_sequence, operation_id) ← take_active_request request_key;
  cancellation ← cancel_if_dispatched request operation_id Cancel_GenerationSuperseded;
  set_request_status request_key
    (Req_Superseded operation_id cancellation current_generation) ;;
  emit_audit (Some subject)
    (Audit_RequestSuperseded operation_id cancellation current_generation) ;;
  push_terminal_completion request accepted_sequence operation_id
    (Out_Superseded current_generation cancellation).

(* tool/engine.rs ToolEngine::timeout_request *)
Definition timeout_request (request_key : CapabilityRequestKey) : ToolM unit :=
  '(request, subject, accepted_sequence, operation_id) ← take_active_request request_key;
  cancellation ← cancel_if_dispatched request operation_id Cancel_DeadlineElapsed;
  set_request_status request_key (Req_TimedOut operation_id cancellation) ;;
  emit_audit (Some subject) (Audit_RequestTimedOut operation_id cancellation) ;;
  push_terminal_completion request accepted_sequence operation_id (Out_TimedOut cancellation).

(* tool/engine.rs ToolEngine::revoke_request *)
Definition revoke_request (request_key : CapabilityRequestKey) : ToolM unit :=
  '(request, subject, _, operation_id) ← take_active_request request_key;
  cancellation ← cancel_if_dispatched request operation_id Cancel_GrantRevoked;
  set_request_status request_key (Req_GrantRevoked operation_id cancellation) ;;
  emit_audit (Some subject) (Audit_RequestGrantRevoked operation_id cancellation) ;;
  e ← get_state;
  state ← expect (te_requests e !! request_key);
  push_terminal_completion request (sequence_in state) operation_id
    (Out_GrantRevoked cancellation).

(* tool/engine.rs ToolEngine::close_request *)
Definition close_request (kind : RequestCloseKind) (request_key : CapabilityRequestKey)
    : ToolM unit :=
  '(request, subject, accepted_sequence, operation_id) ← take_active_request request_key;
  let reason := match kind with
                | Close_Instance => Cancel_InstanceClosed
                | Close_Client => Cancel_ClientClosed
                end in
  cancellation ← cancel_if_dispatched request operation_id reason;
  let '(status, outcome, audit) :=
    match kind with
    | Close_Instance =>
        (Req_InstanceClosed operation_id cancellation, Out_InstanceClosed cancellation,
         Audit_RequestInstanceClosed operation_id cancellation)
    | Close_Client =>
        (Req_ClientClosed operation_id cancellation, Out_ClientClosed cancellation,
         Audit_RequestClientClosed operation_id cancellation)
    end in
  set_request_status request_key status ;;
  emit_audit (Some subject) audit ;;
  push_terminal_completion request accepted_sequence operation_id outcome.

(** ** Providers *)

(* tool/engine.rs ToolEngine::provider_exists *)
Definition provider_exists (provider_id : ToolProviderId) (e : ToolEngine) : bool :=
  bool_decide (is_Some (te_providers e !! provider_id)).
(* tool/engine.rs ToolEngine::provider_descriptor *)
Definition provider_descriptor (provider_id : ToolProviderId) (e : ToolEngine)
    : option CapabilityProviderDescriptor :=
  te_providers e !! provider_id.

(* tool/engine.rs ToolEngine::register_provider *)
Definition register_provider (descriptor : CapabilityProviderDescriptor) : ToolM unit :=
  lift_result Te_Validation (CapabilityProviderDescriptor_validate descriptor) ;;
  e ← get_state;
  fail_when (provider_exists (pd_id descriptor) e) (Te_DuplicateProvider (pd_id descriptor)) ;;
  fail_when (TOOL_PROVIDERS_MAX <=? N.of_nat (size (te_providers e)))
    Te_ProviderCapacityExceeded ;;
  let descriptor := descriptor <| pd_capabilities ::= sort_by cd_id |> in
  modify_state (λ e, e <| te_providers ::= <[pd_id descriptor := descriptor]> |>) ;;
  tool_bump_revision ;;
  emit_audit None
    (Audit_ProviderRegistered (pd_id descriptor) (pd_owner descriptor)
       (len (pd_capabilities descriptor))).

(* tool/engine.rs ToolEngine::detach_provider_runtime *)
Definition detach_provider_runtime (provider_id : ToolProviderId) : ToolM N :=
  e ← get_state;
  fail_when (negb (provider_exists provider_id e)) (Te_UnknownRuntimeProvider provider_id) ;;
  let targets := active_requests_where
    (λ _ request, bool_decide (aq_provider_id request = provider_id)) e in
  each detach_request_from_provider targets ;;
  e ← get_state;
  let retained_effect_count := len (te_effects e) in
  let kept := retain (λ effect, negb (bool_decide (cf_provider_id effect = provider_id)))
                (te_effects e) in
  modify_state (λ e, e <| te_effects := kept |>) ;;
  let purged_effect_count := retained_effect_count - len kept in
  (if (0 <? len targets) || (0 <? purged_effect_count) then tool_bump_revision else mret tt) ;;
  mret (len targets).

(** ** Grants *)

(** [self.grants.remove(&key)] for the keys with [p], and their number. *)
(* tool/engine.rs:498-507 ToolEngine::close_client *)
Definition purge_grants (p : PolicyKey → bool) : ToolM N :=
  e ← get_state;
  let keys := keys_where (λ key _, p key) (te_grants e) in
  modify_state (λ e, e <| te_grants ::= λ m, foldr delete m keys |>) ;;
  mret (len keys).

(* tool/engine.rs ToolEngine::purge_instance_grants *)
Definition purge_instance_grants (instance_id : AgentInstanceId) : ToolM N :=
  purge_grants (λ key, bool_decide (pk_instance_id key = instance_id)).

(** [self.instance_states.get(id) == Some(&Active)]. *)
(* tool/engine.rs:1034-1034 ToolEngine::evaluate_policy *)
Definition instance_active (instance_id : AgentInstanceId) (e : ToolEngine) : bool :=
  bool_decide (te_instance_states e !! instance_id = Some Instance_Active).

(** The owner of a provider, if it serves only one other consumer. *)
(* tool/engine.rs:291-299 ToolEngine::set_grant *)
Definition foreign_owner (owner : CapabilityOwner) (consumer_id : ConsumerId)
    : option ConsumerId :=
  match owner with
  | Owner_Gate => None
  | Owner_Consumer owner => if bool_decide (owner = consumer_id) then None else Some owner
  end.

(* tool/engine.rs ToolEngine::set_grant *)
Definition set_grant (grant : PolicyGrant) : ToolM unit :=
  e ← get_state;
  let key := pg_key grant in
  provider ← lift_option (Te_UnknownPolicyProvider (pk_provider_id key))
    (te_providers e !! pk_provider_id key);
  fail_when (negb (has_capability provider (pk_capability_id key)))
    (Te_UnknownPolicyCapability (pk_provider_id key) (pk_capability_id key)) ;;
  match foreign_owner (pd_owner provider) (pk_consumer_id key) with
  | Some owner => throw (Te_ProviderOwnerMismatch (pd_id provider) owner (pk_consumer_id key))
  | None => mret tt
  end ;;
  current_generation ← lift_option (Te_UnknownPolicyInstance (pk_instance_id key))
    (te_generations e !! pk_instance_id key);
  fail_when (negb (instance_active (pk_instance_id key) e))
    (Te_InactivePolicyInstance (pk_instance_id key)) ;;
  fail_when (bool_decide (current_generation ≠ pk_generation key))
    (Te_PolicyGenerationMismatch (pk_instance_id key) current_generation (pk_generation key)) ;;
  let previous := te_grants e !! key in
  if bool_decide (previous = Some (pg_mode grant)) then mret tt
  else
    fail_when (bool_decide (previous = None)
               && (TOOL_POLICIES_MAX <=? N.of_nat (size (te_grants e))))
      Te_PolicyCapacityExceeded ;;
    (if bool_decide (is_Some previous)
     then each revoke_request (active_requests_for_key key e)
     else mret tt) ;;
    modify_state (λ e, e <| te_grants ::= <[key := pg_mode grant]> |>) ;;
    tool_bump_revision ;;
    emit_audit None (Audit_GrantSet grant).

(* tool/engine.rs ToolEngine::revoke_grant *)
Definition revoke_grant (key : PolicyKey) : ToolM bool :=
  e ← get_state;
  if bool_decide (te_grants e !! key = None) then mret false
  else
    let targets := active_requests_for_key key e in
    modify_state (λ e, e <| te_grants ::= delete key |>) ;;
    each revoke_request targets ;;
    tool_bump_revision ;;
    emit_audit None (Audit_GrantRevoked key) ;;
    mret true.

(** ** Instances *)

(* tool/engine.rs ToolEngine::set_generation *)
Definition set_generation (instance_id : AgentInstanceId) (generation : SessionGeneration)
    : ToolM unit :=
  e ← get_state;
  let previous := te_generations e !! instance_id in
  let regressed := match previous with
                   | Some current => generation_raw generation <? generation_raw current
                   | None => false
                   end in
  fail_when regressed
    (Te_GenerationRegressed instance_id (default generation previous) generation) ;;
  if bool_decide (previous = Some generation) then mret tt
  else
    purged_grant_count ← purge_grants (λ key,
      bool_decide (pk_instance_id key = instance_id)
      && bool_decide (pk_generation key ≠ generation));
    let targets := active_requests_where (λ _ request,
      bool_decide (aq_instance_id request = instance_id)
      && bool_decide (aq_generation request ≠ generation)) e in
    modify_state (λ e, e <| te_generations ::= <[instance_id := generation]> |>) ;;
    modify_state (λ e, e <| te_instance_states ::= λ m,
      <[instance_id := default Instance_Active (m !! instance_id)]> m |>) ;;
    each (λ request_id, supersede_request request_id generation) targets ;;
    tool_bump_revision ;;
    emit_audit None
      (Audit_GenerationAdvanced instance_id previous generation purged_grant_count).

(* tool/engine.rs ToolEngine::set_instance_state *)
Definition set_instance_state (instance_id : AgentInstanceId) (generation : SessionGeneration)
    (state : ToolInstanceState) : ToolM unit :=
  e ← get_state;
  current_generation ← lift_option (Te_UnknownPolicyInstance instance_id)
    (te_generations e !! instance_id);
  fail_when (bool_decide (current_generation ≠ generation))
    (Te_PolicyGenerationMismatch instance_id current_generation generation) ;;
  if bool_decide (te_instance_states e !! instance_id = Some state) then mret tt
  else
    purged_grant_count ←
      (if bool_decide (state = Instance_Inactive) then
         purged ← purge_instance_grants instance_id;
         let targets := active_requests_where
           (λ _ request, bool_decide (aq_instance_id request = instance_id)) e in
         modify_state (λ e, e <| te_instance_states ::= <[instance_id := state]> |>) ;;
         each (close_request Close_Instance) targets ;;
         mret purged
       else
         modify_state (λ e, e <| te_instance_states ::= <[instance_id := state]> |>) ;;
         mret 0);
    tool_bump_revision ;;
    emit_audit None
      (Audit_InstanceStateChanged instance_id generation state purged_grant_count).

(* tool/engine.rs ToolEngine::remove_instance *)
Definition remove_instance (instance_id : AgentInstanceId) : ToolM bool :=
  e ← get_state;
  match te_generations e !! instance_id with
  | None => mret false
  | Some previous_generation =>
      purged_grant_count ← purge_instance_grants instance_id;
      let targets := active_requests_where
        (λ _ request, bool_decide (aq_instance_id request = instance_id)) e in
      each (close_request Close_Instance) targets ;;
      modify_state (λ e, e <| te_generations ::= delete instance_id |>) ;;
      modify_state (λ e, e <| te_instance_states ::= delete instance_id |>) ;;
      tool_bump_revision ;;
      emit_audit None
        (Audit_InstanceRemoved instance_id previous_generation purged_grant_count) ;;
      mret true
  end.

(* tool/engine.rs ToolEngine::close_client *)
Definition close_client (consumer_id : ConsumerId) (actor_id : ToolActorId)
    : ToolM ToolAuthorityOutcome :=
  purged_grant_count ← purge_grants (λ key,
    bool_decide (pk_consumer_id key = consumer_id) && bool_decide (pk_actor_id key = actor_id));
  e ← get_state;
  let targets := active_requests_where (λ key _,
    bool_decide (rk_consumer_id key = consumer_id) && bool_decide (rk_actor_id key = actor_id)) e in
  let closed_request_count := len targets in
  each (close_request Close_Client) targets ;;
  tool_bump_revision ;;
  emit_audit None
    (Audit_ClientClosed consumer_id actor_id purged_grant_count closed_request_count) ;;
  mret (ClientClosed purged_grant_count closed_request_count).

(** ** Capacity *)

(* tool/engine.rs ToolEngine::ensure_request_capacity *)
Definition ensure_request_capacity : ToolM unit :=
  e ← get_state;
  if N.of_nat (size (te_requests e)) <? TOOL_REQUESTS_MAX then mret tt
  else
    let oldest_terminal := min_by_key (λ entry, sequence_in (snd entry))
      (List.filter (λ entry, is_terminal (status_in (snd entry))) (btree_iter (te_requests e))) in
    match oldest_terminal with
    | Some entry => modify_state (λ e, e <| te_requests ::= delete (fst entry) |>)
    | None => throw Te_RequestCapacityExceeded
    end.

(* tool/engine.rs ToolEngine::ensure_effect_capacity *)
Definition ensure_effect_capacity (additional : N) : ToolM unit :=
  e ← get_state;
  fail_when (te_effect_sequence_exhausted e) Te_EffectSequenceExhausted ;;
  fail_when (negb (additional <=? TOOL_EFFECTS_MAX - len (te_effects e)))
    Te_EffectCapacityExceeded.

(** The number of active requests of a client. *)
(* tool/engine.rs:1559-1567 ToolEngine::ensure_client_request_capacity *)
Definition client_active (consumer_id : ConsumerId) (actor_id : ToolActorId) (e : ToolEngine)
    : N :=
  len (active_requests_where (λ key _,
    bool_decide (rk_consumer_id key = consumer_id)
    && bool_decide (rk_actor_id key = actor_id)) e).

(* tool/engine.rs ToolEngine::ensure_client_request_capacity *)
Definition ensure_client_request_capacity (request_key : CapabilityRequestKey) : ToolM unit :=
  e ← get_state;
  fail_when
    (TOOL_ACTIVE_REQUESTS_PER_CLIENT_MAX
       <=? client_active (rk_consumer_id request_key) (rk_actor_id request_key) e)
    (Te_ClientRequestCapacityExceeded (rk_consumer_id request_key) (rk_actor_id request_key)
       TOOL_ACTIVE_REQUESTS_PER_CLIENT_MAX).

(* tool/engine.rs ToolEngine::ensure_operation_capacity *)
Definition ensure_operation_capacity : ToolM unit :=
  e ← get_state;
  fail_when (te_next_operation_id e =? U64_MAX)
    (Te_CounterExhausted (str "tool operation id")).

(* tool/engine.rs ToolEngine::ensure_correlation_capacity *)
Definition ensure_correlation_capacity (needs_operation : bool) : ToolM unit :=
  e ← get_state;
  fail_when (te_next_request_sequence e =? U64_MAX)
    (Te_CounterExhausted (str "tool request sequence")) ;;
  if needs_operation then ensure_operation_capacity else mret tt.

(** ** Policy *)

(** The grant a request needs. *)
(* tool/engine.rs:1054-1062 ToolEngine::evaluate_policy *)
Definition policy_key (request : AcceptedRequest) : PolicyKey :=
  {| pk_consumer_id := rk_consumer_id (aq_key request);
     pk_actor_id := rk_actor_id (aq_key request);
     pk_instance_id := aq_instance_id request;
     pk_generation := aq_generation request;
     pk_provider_id := aq_provider_id request;
     pk_capability_id := aq_capability_id request;
     pk_resource_scope_id := aq_resource_scope_id request |}.

(* tool/engine.rs ToolEngine::evaluate_policy *)
Definition evaluate_policy (e : ToolEngine) (request : AcceptedRequest) : PolicyDecision :=
  match te_generations e !! aq_instance_id request with
  | None => Decision_Deny UnknownInstanceDenial
  | Some current_generation =>
      if negb (instance_active (aq_instance_id request) e) then Decision_Deny InactiveInstance
      else if bool_decide (current_generation ≠ aq_generation request) then
        Decision_Deny (StaleGenerationDenial current_generation)
      else
        match te_providers e !! aq_provider_id request with
        | None => Decision_Deny UnknownProvider
        | Some provider =>
            if bool_decide (is_Some (foreign_owner (pd_owner provider)
                                       (rk_consumer_id (aq_key request)))) then
              Decision_Deny ProviderOwnerMismatch
            else if negb (has_capability provider (aq_capability_id request)) then
              Decision_Deny UnknownCapability
            else
              match te_grants e !! policy_key request with
              | Some Grant_Allow => Decision_Allow
              | Some Grant_RequireApproval => Decision_RequireApproval
              | None => Decision_Deny MissingGrant
              end
        end
  end.

(** ** Requests and approvals *)

(** [reuses_terminal_key] of [request]. *)
(* tool/engine.rs:586-590 ToolEngine::request *)
Definition terminal_key (request_key : CapabilityRequestKey) (e : ToolEngine) : bool :=
  match te_requests e !! request_key with
  | Some state => is_terminal (status_in state)
  | None => false
  end.

(* tool/engine.rs:615-630 ToolEngine::request *)
Definition snapshot_of_request (request : AcceptedRequest) (accepted_sequence tick : N)
    (decision : PolicyDecision) (status : CapabilityRequestStatus)
    : CapabilityRequestSnapshot :=
  {| rq_key := aq_key request;
     rq_accepted_sequence := accepted_sequence;
     rq_accepted_at_tick := tick;
     rq_instance_id := aq_instance_id request;
     rq_generation := aq_generation request;
     rq_provider_id := aq_provider_id request;
     rq_capability_id := aq_capability_id request;
     rq_resource_scope_id := aq_resource_scope_id request;
     rq_approval_summary := aq_approval_summary request;
     rq_approval_summary_bytes := str_len (aq_approval_summary request);
     rq_deadline_tick := aq_deadline_tick request;
     rq_payload_bytes := len (aq_payload request);
     rq_policy_decision := decision;
     rq_status := status |}.

(** The checks of [request], in their order. *)
(* tool/engine.rs:584-605 ToolEngine::request *)
Definition admit_request (envelope : ConsumerBoundCapabilityRequest) : ToolM PolicyDecision :=
  e ← get_state;
  lift_result Te_Validation (ConsumerBound_validate envelope (te_current_tick e)) ;;
  let request_key := ConsumerBound_key envelope in
  let reuses_terminal_key := terminal_key request_key e in
  fail_when (bool_decide (is_Some (te_requests e !! request_key)) && negb reuses_terminal_key)
    (Te_DuplicateRequest request_key) ;;
  let decision := evaluate_policy e (accepted_from envelope) in
  ensure_correlation_capacity (bool_decide (decision = Decision_Allow)) ;;
  (if bool_decide (decision = Decision_Allow) then ensure_effect_capacity 1 else mret tt) ;;
  match decision with
  | Decision_Deny _ => mret tt
  | _ => ensure_client_request_capacity request_key
  end ;;
  (if negb reuses_terminal_key then ensure_request_capacity else mret tt) ;;
  mret decision.

(* tool/engine.rs ToolEngine::request *)
Definition request_capability (envelope : ConsumerBoundCapabilityRequest)
    : ToolM PolicyDecision :=
  decision ← admit_request envelope;
  let request := accepted_from envelope in
  accepted_sequence ← allocate_request_sequence;
  operation_id ← (if bool_decide (decision = Decision_Allow)
                  then operation_id ← tool_allocate_operation; mret (Some operation_id)
                  else mret None);
  status ← match decision with
    | Decision_Deny reason => mret (Req_Denied reason)
    | Decision_RequireApproval => mret Req_AwaitingApproval
    | Decision_Allow => operation_id ← expect operation_id; mret (Req_Dispatched operation_id)
    end;
  e ← get_state;
  let snapshot := snapshot_of_request request accepted_sequence (te_current_tick e)
    decision status in
  let subject := subject_for request accepted_sequence in
  let payload_bytes := len (aq_payload request) in
  let stored_request :=
    if bool_decide (decision = Decision_RequireApproval) then request
    else request <| aq_payload := [] |> in
  modify_state (λ e, e
    <| te_requests ::= <[aq_key request := MkRequestState stored_request snapshot]> |>) ;;
  tool_bump_revision ;;
  emit_audit (Some subject) (Audit_RequestEvaluated decision payload_bytes) ;;
  match decision, operation_id with
  | Decision_Deny reason, None =>
      push_terminal_completion request accepted_sequence None (Out_PolicyDenied reason)
  | Decision_Allow, Some operation_id =>
      emit_invoke request operation_id ;;
      emit_audit (Some subject) (Audit_InvocationDispatched operation_id)
  | _, _ => mret tt
  end ;;
  mret decision.

(* tool/engine.rs ToolEngine::resolve_approval *)
Definition resolve_approval (resolution : ApprovalResolution) : ToolM unit :=
  e ← get_state;
  let request_key := ar_request_key resolution in
  state ← lift_option (Te_UnknownRequest request_key) (te_requests e !! request_key);
  fail_when (negb (ar_accepted_sequence resolution =? sequence_in state))
    (Te_ApprovalNonceMismatch request_key (sequence_in state)
       (ar_accepted_sequence resolution)) ;;
  let instance_id := aq_instance_id (rst_request state) in
  current ← lift_option (Te_UnknownPolicyInstance instance_id) (te_generations e !! instance_id);
  fail_when (negb (instance_active instance_id e)) (Te_InactivePolicyInstance instance_id) ;;
  fail_when (bool_decide (ar_generation resolution ≠ current))
    (Te_ApprovalGenerationStale current (ar_generation resolution)) ;;
  fail_when (bool_decide (ar_instance_id resolution ≠ instance_id)
             || bool_decide (ar_generation resolution ≠ aq_generation (rst_request state)))
    (Te_ApprovalScopeMismatch request_key) ;;
  match status_in state with
  | Req_AwaitingApproval => mret tt
  | _ => throw (Te_RequestNotAwaitingApproval request_key)
  end ;;
  (if aq_deadline_tick (rst_request state) <=? te_current_tick e then
     timeout_request request_key ;;
     tool_bump_revision ;;
     throw (Te_ApprovalDeadlineElapsed request_key)
   else mret tt) ;;
  let approved := bool_decide (ar_decision resolution = Approval_ApproveOnce) in
  (if approved then ensure_operation_capacity ;; ensure_effect_capacity 1 else mret tt) ;;
  operation_id ← (if approved
                  then operation_id ← tool_allocate_operation; mret (Some operation_id)
                  else mret None);
  let request := rst_request state in
  let subject := subject_for request (sequence_in state) in
  update_request request_key (λ state,
    clear_payload (state <| rst_snapshot ::= λ s, s <| rq_status :=
      match operation_id with
      | Some operation_id => Req_Dispatched operation_id
      | None => Req_ApprovalDenied
      end |> |>)) ;;
  tool_bump_revision ;;
  emit_audit (Some subject) (Audit_ApprovalResolved (ar_decision resolution)) ;;
  match operation_id with
  | Some operation_id =>
      emit_invoke request operation_id ;;
      emit_audit (Some subject) (Audit_InvocationDispatched operation_id)
  | None =>
      push_terminal_completion request (ar_accepted_sequence resolution) None
        Out_ApprovalDenied
  end.

(* tool/engine.rs ToolEngine::apply_authority *)
Definition apply_authority (envelope : ToolAuthorityEnvelope) : ToolM ToolAuthorityOutcome :=
  lift_result Te_Validation (ToolAuthorityEnvelope_validate envelope) ;;
  e ← get_state;
  fail_when (ta_sequence envelope <=? te_last_authority_sequence e)
    (Te_AuthoritySequenceRegressed (te_last_authority_sequence e) (ta_sequence envelope)) ;;
  outcome ← match ta_command envelope with
    | SetGrant grant => set_grant grant ;; mret GrantSet
    | RevokeGrant key => existed ← revoke_grant key; mret (GrantRevoked existed)
    | ResolveApproval resolution =>
        resolved ← attempt (resolve_approval resolution);
        match resolved with
        | Ok _ => mret ApprovalResolved
        | Err (Te_ApprovalDeadlineElapsed _) =>
            mret (ApprovalExpired (ar_request_key resolution)
                    (ar_accepted_sequence resolution))
        | Err error => throw error
        end
    | CloseClient consumer_id actor_id => close_client consumer_id actor_id
    end;
  modify_state (λ e, e <| te_last_authority_sequence := ta_sequence envelope |>) ;;
  mret outcome.

(** ** Time *)

(* tool/engine.rs ToolEngine::advance_time *)
Definition advance_time (tick : N) : ToolM unit :=
  e ← get_state;
  fail_when (tick <? te_current_tick e) (Te_ClockRegressed (te_current_tick e) tick) ;;
  if tick =? te_current_tick e then mret tt
  else
    let expired := active_requests_where (λ _ request, aq_deadline_tick request <=? tick) e in
    modify_state (λ e, e <| te_current_tick := tick |>) ;;
    each timeout_request expired ;;
    tool_bump_revision.

(** ** Observations *)

(* tool/engine.rs ToolEngine::ignore_observation *)
Definition ignore_observation (envelope : CapabilityObservationEnvelope)
    (subject : option ToolAuditSubject) (reason : ToolIgnoredReason)
    : ToolM CapabilityObservationDisposition :=
  tool_bump_revision ;;
  emit_audit subject (Audit_ObservationIgnored (to_operation_id envelope) reason) ;;
  mret (Disposition_Ignored reason).

(** The first of the fences of [apply_observation] that stops an observation of
    a known request, except the deadline. *)
(* tool/engine.rs:819-859 ToolEngine::apply_observation *)
Definition observation_fence (envelope : CapabilityObservationEnvelope) (state : RequestState)
    (e : ToolEngine) : result ToolIgnoredReason ToolOperationId :=
  let request := rst_request state in
  guard_err
    (bool_decide (te_generations e !! aq_instance_id request ≠ Some (to_generation envelope))
     || bool_decide (to_generation envelope ≠ aq_generation request))
    Ignored_StaleGeneration ;;
  guard_err (bool_decide (to_instance_id envelope ≠ aq_instance_id request))
    Ignored_InstanceMismatch ;;
  guard_err (bool_decide (to_provider_id envelope ≠ aq_provider_id request))
    Ignored_ProviderMismatch ;;
  match status_in state with
  | Req_Dispatched operation_id =>
      guard_err (bool_decide (to_operation_id envelope ≠ operation_id))
        Ignored_OperationMismatch ;;
      Ok operation_id
  | _ => Err Ignored_RequestNotDispatched
  end.

(** [state.snapshot.status = status; state.request.payload.clear();]. *)
(* tool/engine.rs:912-921 ToolEngine::apply_observation *)
Definition finish_request (request_key : CapabilityRequestKey)
    (status : CapabilityRequestStatus) : ToolM unit :=
  update_request request_key (λ state,
    clear_payload (state <| rst_snapshot ::= λ s, s <| rq_status := status |> |>)).

(** What an observation within its fences and its deadline does. *)
(* tool/engine.rs:875-959 ToolEngine::apply_observation *)
Definition settle_observation (envelope : CapabilityObservationEnvelope) (state : RequestState)
    (operation_id : ToolOperationId) : ToolM CapabilityObservationDisposition :=
  let request_key := to_request_key envelope in
  let accepted_sequence := sequence_in state in
  let request := rst_request state <| aq_payload := [] |> in
  let subject := subject_for request accepted_sequence in
  if negb (is_ok (CapabilityObservation_validate (to_observation envelope))) then
    let failure := provider_contract_violation in
    finish_request request_key (Req_Failed operation_id failure) ;;
    tool_bump_revision ;;
    emit_audit (Some subject) (Audit_InvocationFailed operation_id (tf_kind failure)) ;;
    push_terminal_completion request accepted_sequence (Some operation_id)
      (Out_Failed failure) ;;
    mret Disposition_Applied
  else
    event ← match to_observation envelope with
      | Observed_Succeeded result =>
          finish_request request_key (Req_Succeeded operation_id (cr_metadata result)) ;;
          push_terminal_completion request accepted_sequence (Some operation_id)
            (Out_Succeeded result) ;;
          mret (Audit_InvocationSucceeded operation_id (rm_byte_len (cr_metadata result))
                  (rm_truncated (cr_metadata result)))
      | Observed_Failed failure =>
          finish_request request_key (Req_Failed operation_id failure) ;;
          push_terminal_completion request accepted_sequence (Some operation_id)
            (Out_Failed failure) ;;
          mret (Audit_InvocationFailed operation_id (tf_kind failure))
      end;
    tool_bump_revision ;;
    emit_audit (Some subject) event ;;
    mret Disposition_Applied.

(* tool/engine.rs ToolEngine::apply_observation *)
Definition tool_apply_observation (envelope : CapabilityObservationEnvelope)
    : ToolM CapabilityObservationDisposition :=
  fail_when (tool_operation_raw (to_operation_id envelope) =? 0)
    (Te_Validation (Tv_ZeroIdentifier (str "tool operation id"))) ;;
  e ← get_state;
  match te_requests e !! to_request_key envelope with
  | None => ignore_observation envelope None Ignored_UnknownRequest
  | Some state =>
      let subject := subject_for (rst_request state) (sequence_in state) in
      match observation_fence envelope state e with
      | Err reason => ignore_observation envelope (Some subject) reason
      | Ok operation_id =>
          if aq_deadline_tick (rst_request state) <=? te_current_tick e then
            timeout_request (to_request_key envelope) ;;
            tool_bump_revision ;;
            emit_audit (Some subject)
              (Audit_ObservationIgnored operation_id Ignored_DeadlineElapsed) ;;
            mret (Disposition_Ignored Ignored_DeadlineElapsed)
          else settle_observation envelope state operation_id
      end
  end.

(** ** Reading and draining *)

(* tool/engine.rs ToolEngine::snapshot *)
Definition tool_snapshot (e : ToolEngine) : ToolEngineSnapshot :=
  {| ts_revision := te_revision e;
     ts_current_tick := te_current_tick e;
     ts_generations := btree_iter (te_generations e);
     ts_instance_states := btree_iter (te_instance_states e);
     ts_providers := btree_values (te_providers e);
     ts_grants := (λ entry, MkPolicyGrant (fst entry) (snd entry)) <$> btree_iter (te_grants e);
     ts_requests := rst_snapshot <$> btree_values (te_requests e);
     ts_audit_events := te_audit_events e;
     ts_dropped_audit_events := te_dropped_audit_events e;
     ts_revision_overflow_count := te_revision_overflow_count e;
     ts_next_completion_sequence := te_next_completion_sequence e;
     ts_dropped_completions := te_dropped_completions e;
     ts_effect_sequence_exhausted := te_effect_sequence_exhausted e;
     ts_completion_sequence_exhausted := te_completion_sequence_exhausted e;
     ts_audit_sequence_exhausted := te_audit_sequence_exhausted e |}.

(* tool/engine.rs ToolEngine::request_snapshot *)
Definition request_snapshot (request_key : CapabilityRequestKey) (e : ToolEngine)
    : option CapabilityRequestSnapshot :=
  rst_snapshot <$> te_requests e !! request_key.

(* tool/engine.rs ToolEngine::instance_ids *)
Definition instance_ids (e : ToolEngine) : list AgentInstanceId :=
  btree_keys (te_generations e).

(* tool/engine.rs ToolEngine::drain_effects *)
Definition tool_drain_effects (e : ToolEngine) : list CapabilityEffectEnvelope * ToolEngine :=
  (te_effects e, e <| te_effects := [] |>).

(* tool/engine.rs ToolEngine::drain_completions *)
Definition drain_completions (e : ToolEngine) : CapabilityCompletionBatch * ToolEngine :=
  ({| ba_completions := te_completions e;
      ba_dropped_since_last_drain := te_dropped_completions_since_drain e;
      ba_total_dropped := te_dropped_completions e;
      ba_next_sequence := te_next_completion_sequence e;
      ba_sequence_exhausted := te_completion_sequence_exhausted e |},
   e <| te_dropped_completions_since_drain := 0 |> <| te_completions := [] |>).
