(* ===== verification/ToolInv.v ===== *)
(** * The invariant of the tool engine

    What a reachable tool engine satisfies, component by component: its
    requests, the grants they rest on, the effects and the completions handed
    to the host, and its bounds. Each component is a predicate of the fields it
    speaks of, with the lemmas for the updates the methods make. *)

From S2P Require Import Prelude RustStr RustOrd Ids ToolTypes ToolEngine.

Local Open Scope N_scope.

Abbreviation requests_map := (gmap CapabilityRequestKey RequestState).
Abbreviation effect_op := cf_operation_id (only parsing).

Definition active (st : RequestState) : bool := negb (is_terminal (status_in st)).

(** The operation of a status, and how its cancellation went. *)
Definition status_operation (s : CapabilityRequestStatus) : option ToolOperationId :=
  match s with
  | Req_Denied _ | Req_AwaitingApproval | Req_ApprovalDenied => None
  | Req_Dispatched op | Req_Succeeded op _ | Req_Failed op _ => Some op
  | Req_GrantRevoked o _ | Req_TimedOut o _ | Req_Superseded o _ _ | Req_InstanceClosed o _
  | Req_ClientClosed o _ | Req_ProviderDetached o _ => o
  end.
Definition status_disposition (s : CapabilityRequestStatus) : option CancellationDisposition :=
  match s with
  | Req_GrantRevoked _ c | Req_TimedOut _ c | Req_Superseded _ c _ | Req_InstanceClosed _ c
  | Req_ClientClosed _ c | Req_ProviderDetached _ c => Some c
  | _ => None
  end.

Lemma dispatched_status s op : dispatched_operation s = Some op → s = Req_Dispatched op.
Proof. destruct s; cbn; congruence. Qed.
Lemma dispatched_active st op :
  dispatched_operation (status_in st) = Some op → active st = true.
Proof. unfold active. by intros ->%dispatched_status. Qed.
Lemma dispatched_none_active s op :
  dispatched_operation s = Some op → status_operation s = Some op.
Proof. by intros ->%dispatched_status. Qed.

(** ** Requests *)

(** The decisions under which a request can have a status. *)
Definition decision_fits (d : PolicyDecision) (s : CapabilityRequestStatus) : Prop :=
  match s with
  | Req_Denied reason => d = Decision_Deny reason
  | Req_AwaitingApproval | Req_ApprovalDenied => d = Decision_RequireApproval
  | _ => d = Decision_RequireApproval ∨ d = Decision_Allow
  end.

(** A snapshot shows the request it was made for. *)
Definition shows (s : CapabilityRequestSnapshot) (r : AcceptedRequest) : Prop :=
  rq_key s = aq_key r ∧ rq_instance_id s = aq_instance_id r
  ∧ rq_generation s = aq_generation r ∧ rq_provider_id s = aq_provider_id r
  ∧ rq_capability_id s = aq_capability_id r
  ∧ rq_resource_scope_id s = aq_resource_scope_id r
  ∧ rq_approval_summary s = aq_approval_summary r
  ∧ rq_deadline_tick s = aq_deadline_tick r.

Record request_wf (nseq nop : N) (k : CapabilityRequestKey) (st : RequestState) : Prop := {
  qw_key : aq_key (rst_request st) = k;
  qw_shows : shows (rst_snapshot st) (rst_request st);
  qw_sequence : 1 <= sequence_in st < nseq;
  qw_operation : ∀ op, status_operation (status_in st) = Some op →
    1 <= tool_operation_raw op < nop;
  qw_payload : status_in st = Req_AwaitingApproval ∨ aq_payload (rst_request st) = [];
  qw_decision : decision_fits (rq_policy_decision (rst_snapshot st)) (status_in st)
}.

Record requests_inv (nseq nop : N) (m : requests_map) : Prop := {
  qi_wf : ∀ k st, m !! k = Some st → request_wf nseq nop k st;
  qi_sequence : ∀ k1 k2 st1 st2, m !! k1 = Some st1 → m !! k2 = Some st2 →
    sequence_in st1 = sequence_in st2 → k1 = k2
}.

Lemma request_wf_mono nseq nseq' nop nop' k st :
  nseq <= nseq' → nop <= nop' → request_wf nseq nop k st → request_wf nseq' nop' k st.
Proof.
  intros H1 H2 [K S Q O P D]. split; try done; [lia|].
  intros op Hop. specialize (O op Hop). lia.
Qed.

Lemma requests_inv_mono nseq nseq' nop nop' m :
  nseq <= nseq' → nop <= nop' → requests_inv nseq nop m → requests_inv nseq' nop' m.
Proof. intros H1 H2 [W Q]. split; [eauto using request_wf_mono|done]. Qed.

Lemma requests_inv_delete nseq nop k m : requests_inv nseq nop m → requests_inv nseq nop (delete k m).
Proof.
  intros [W Q]. split.
  - intros k' st [_ H]%lookup_delete_Some. by apply W.
  - intros k1 k2 st1 st2 [_ H1]%lookup_delete_Some [_ H2]%lookup_delete_Some. by eapply Q.
Qed.

Lemma requests_inv_insert nseq nop k st m :
  requests_inv nseq nop m → request_wf nseq nop k st →
  (∀ k' st', k' ≠ k → m !! k' = Some st' → sequence_in st' ≠ sequence_in st) →
  requests_inv nseq nop (<[k := st]> m).
Proof.
  intros [W Q] Hst Hne. split.
  - intros k' st' [[-> <-]|[_ H]]%lookup_insert_Some; [done|by apply W].
  - intros k1 k2 st1 st2 [[-> <-]|[N1 H1]]%lookup_insert_Some
      [[-> <-]|[N2 H2]]%lookup_insert_Some E; [done| | |by eapply Q].
    + by destruct (Hne k2 st2).
    + by destruct (Hne k1 st1).
Qed.

(** A request that keeps its sequence. *)
Lemma requests_inv_update nseq nop k st st' m :
  requests_inv nseq nop m → m !! k = Some st → request_wf nseq nop k st' →
  sequence_in st' = sequence_in st → requests_inv nseq nop (<[k := st']> m).
Proof.
  intros Hi Hk Hst' E. apply requests_inv_insert; [done..|].
  intros k' st1 Hne H1 E1. apply Hne. eapply Hi; [done..|]. congruence.
Qed.

(** A request with the next sequence. *)
Lemma requests_inv_new nseq nop nop' k st m :
  requests_inv nseq nop m → nop <= nop' → sequence_in st = nseq →
  request_wf (nseq + 1) nop' k st → requests_inv (nseq + 1) nop' (<[k := st]> m).
Proof.
  intros Hi Hle E Hst. apply requests_inv_insert; [|done|].
  - eapply requests_inv_mono; [..|done]; lia.
  - intros k' st' _ H' E'. apply Hi in H'. pose proof (qw_sequence _ _ _ _ H'). lia.
Qed.

(** ** Grants and the requests that rest on them *)

Definition decision_of (mode : GrantMode) : PolicyDecision :=
  match mode with
  | Grant_Allow => Decision_Allow
  | Grant_RequireApproval => Decision_RequireApproval
  end.

(** The policy state a grant needs. *)
Definition grant_wf (gens : gmap AgentInstanceId SessionGeneration)
    (states : gmap AgentInstanceId ToolInstanceState)
    (provs : gmap ToolProviderId CapabilityProviderDescriptor) (key : PolicyKey) : Prop :=
  (∃ p, provs !! pk_provider_id key = Some p
    ∧ has_capability p (pk_capability_id key) = true
    ∧ foreign_owner (pd_owner p) (pk_consumer_id key) = None)
  ∧ gens !! pk_instance_id key = Some (pk_generation key)
  ∧ states !! pk_instance_id key = Some Instance_Active.

Definition grants_inv (gens : gmap AgentInstanceId SessionGeneration)
    (states : gmap AgentInstanceId ToolInstanceState)
    (provs : gmap ToolProviderId CapabilityProviderDescriptor)
    (grants : gmap PolicyKey GrantMode) : Prop :=
  (∀ key, is_Some (grants !! key) → grant_wf gens states provs key)
  ∧ (∀ i, is_Some (gens !! i) ↔ is_Some (states !! i)).

Definition authorized (grants : gmap PolicyKey GrantMode) (tick : N) (st : RequestState) : Prop :=
  decision_of <$> grants !! policy_key (rst_request st)
    = Some (rq_policy_decision (rst_snapshot st))
  ∧ tick < aq_deadline_tick (rst_request st).

(** Every active request is authorized, except those of [ks], which are about
    to be closed. *)
Definition authority_inv (ks : list CapabilityRequestKey) (tick : N)
    (grants : gmap PolicyKey GrantMode) (m : requests_map) : Prop :=
  ∀ k st, m !! k = Some st → active st = true → k ∉ ks → authorized grants tick st.

Definition closing (ks : list CapabilityRequestKey) (m : requests_map) : Prop :=
  NoDup ks ∧ ∀ k, k ∈ ks → ∃ st, m !! k = Some st ∧ active st = true.

Lemma closing_nil m : closing [] m.
Proof. split; [constructor|]. intros k. by rewrite elem_of_nil. Qed.

Lemma closing_tail k ks st m : closing (k :: ks) m → closing ks (<[k := st]> m).
Proof.
  intros [[Hni Hnd]%NoDup_cons H]. split; [done|]. intros k' Hk'.
  destruct (H k') as (st' & ? & ?); [by right|]. exists st'. split; [|done].
  rewrite lookup_insert_ne; [done|]. by intros ->.
Qed.

Lemma authority_close k ks tick grants st m :
  authority_inv (k :: ks) tick grants m → active st = false →
  authority_inv ks tick grants (<[k := st]> m).
Proof.
  intros H Hst k' st' [[-> <-]|[Hne Hk']]%lookup_insert_Some Ha Hni; [congruence|].
  eapply H; [done..|]. rewrite not_elem_of_cons. auto.
Qed.

(** The requests with [p] set aside: the others keep their authority when the
    grants and the clock change for the former only. *)
Lemma authority_set_aside p tick tick' grants grants' m :
  authority_inv [] tick grants m →
  (∀ k st, m !! k = Some st → active st = true → p k (rst_request st) = false →
    authorized grants tick st → authorized grants' tick' st) →
  authority_inv (keys_where (λ k st, p k (rst_request st) && active st) m) tick' grants' m.
Proof.
  intros H Hp k st Hk Ha Hni. destruct (p k (rst_request st)) eqn:E.
  - exfalso. apply Hni. apply elem_of_keys_where. exists st. by rewrite E, Ha.
  - apply (Hp k); [done..|]. apply (H k); [done..|apply not_elem_of_nil].
Qed.

Lemma closing_where p m :
  closing (keys_where (λ k st, p k (rst_request st) && active st) m) m.
Proof.
  split; [apply keys_where_NoDup|]. intros k (st & Hk & [_ Ha]%andb_true_iff)%elem_of_keys_where.
  by exists st.
Qed.

(** ** The policy of an active request *)

Lemma evaluate_policy_granted e request mode :
  grant_wf (te_generations e) (te_instance_states e) (te_providers e) (policy_key request) →
  te_grants e !! policy_key request = Some mode → evaluate_policy e request = decision_of mode.
Proof.
  intros ((p & Hp & Hc & Ho) & Hg & Hs) Hm. cbn in Hp, Hc, Ho, Hg, Hs.
  unfold evaluate_policy, instance_active. rewrite Hg, Hs, Hp, Ho, Hc, Hm.
  rewrite bool_decide_eq_true_2 by done. cbn.
  rewrite bool_decide_eq_false_2 by tauto. cbn. by destruct mode.
Qed.

Lemma evaluate_policy_grant e request :
  (∀ r, evaluate_policy e request ≠ Decision_Deny r) →
  decision_of <$> te_grants e !! policy_key request = Some (evaluate_policy e request).
Proof.
  unfold evaluate_policy. break; intros H; solve [by edestruct H|done].
Qed.

(** ** Effects

    [H] are the effects the host has drained, [l] those still queued. *)

Definition invoke_ops (l : list CapabilityEffectEnvelope) : list ToolOperationId :=
  cf_operation_id <$> List.filter (λ ef, is_invoke (cf_effect ef)) l.
Definition cancel_ops (l : list CapabilityEffectEnvelope) : list ToolOperationId :=
  cf_operation_id <$> List.filter (λ ef, negb (is_invoke (cf_effect ef))) l.
Definition effect_ops (l : list CapabilityEffectEnvelope) : list ToolOperationId :=
  cf_operation_id <$> l.

Lemma invoke_ops_app l l' : invoke_ops (l ++ l') = invoke_ops l ++ invoke_ops l'.
Proof. unfold invoke_ops. by rewrite List.filter_app, fmap_app. Qed.
Lemma cancel_ops_app l l' : cancel_ops (l ++ l') = cancel_ops l ++ cancel_ops l'.
Proof. unfold cancel_ops. by rewrite List.filter_app, fmap_app. Qed.
Lemma effect_ops_app l l' : effect_ops (l ++ l') = effect_ops l ++ effect_ops l'.
Proof. apply fmap_app. Qed.

Lemma invoke_ops_one ef :
  invoke_ops [ef] = if is_invoke (cf_effect ef) then [cf_operation_id ef] else [].
Proof. unfold invoke_ops. cbn. by destruct (is_invoke _). Qed.
Lemma cancel_ops_one ef :
  cancel_ops [ef] = if is_invoke (cf_effect ef) then [] else [cf_operation_id ef].
Proof. unfold cancel_ops. cbn. by destruct (is_invoke _). Qed.

Lemma elem_of_invoke_ops op l :
  op ∈ invoke_ops l ↔ ∃ ef, ef ∈ l ∧ is_invoke (cf_effect ef) = true ∧ cf_operation_id ef = op.
Proof.
  unfold invoke_ops. rewrite list_elem_of_fmap. setoid_rewrite list_elem_of_In at 1.
  setoid_rewrite filter_In. setoid_rewrite <- list_elem_of_In. naive_solver.
Qed.
Lemma elem_of_effect_ops op l : op ∈ effect_ops l ↔ op ∈ invoke_ops l ∨ op ∈ cancel_ops l.
Proof.
  induction l as [|ef l IH]; cbn; [set_solver|]. unfold effect_ops, invoke_ops, cancel_ops in *. cbn.
  destruct (is_invoke _); cbn; rewrite !elem_of_cons, IH; tauto.
Qed.

Lemma list_filter_sublist {A} (p : A → bool) (l l' : list A) :
  sublist l l' → sublist (List.filter p l) (List.filter p l').
Proof. induction 1; cbn; [done|..]; destruct (p _); auto using sublist_skip, sublist_cons. Qed.

Lemma NoDup_fmap_elem {A B} (f : A → B) (l : list A) x y :
  NoDup (f <$> l) → x ∈ l → y ∈ l → f x = f y → x = y.
Proof.
  induction l as [|z l IH]; cbn; [by intros _ ?%elem_of_nil|].
  intros [Hz Hl]%NoDup_cons [->|Hx]%elem_of_cons [->|Hy]%elem_of_cons E; auto.
  - exfalso. apply Hz. rewrite E. by apply list_elem_of_fmap_2.
  - exfalso. apply Hz. rewrite <- E. by apply list_elem_of_fmap_2.
Qed.

Lemma NoDup_snoc {A} (l : list A) x : NoDup l → x ∉ l → NoDup (l ++ [x]).
Proof.
  intros Hl Hx. apply NoDup_app. split_and!; [done| |apply NoDup_singleton].
  intros y Hy ->%list_elem_of_singleton. done.
Qed.

Lemma StronglySorted_sublist {A} (R : relation A) (l l' : list A) :
  sublist l l' → StronglySorted R l' → StronglySorted R l.
Proof.
  induction 1 as [|x l l' Hs IH|x l l' Hs IH]; intros Hl; [done|..];
    apply StronglySorted_inv in Hl as [Hl Hx]; [|by apply IH].
  constructor; [by apply IH|]. rewrite Forall_forall in *. intros y Hy.
  eapply Hx, elem_of_sublist; done.
Qed.

Lemma StronglySorted_snoc {A} (R : relation A) (l : list A) x :
  StronglySorted R l → Forall (λ y, R y x) l → StronglySorted R (l ++ [x]).
Proof.
  induction 1 as [|y l Hl IH Hy]; cbn; [repeat constructor|].
  intros [Hyx Hx]%Forall_cons. constructor; [by apply IH|].
  apply Forall_app. auto.
Qed.

Definition sequence_below (neff : N) (exhausted : bool) (s : N) : Prop :=
  if exhausted then s <= U64_MAX else s < neff.

(** At most one invocation and one cancellation of each operation; only what
    the host has drained is cancelled; sequences increase. *)
Record stream_inv (H l : list CapabilityEffectEnvelope) (nop neff : N) (exhausted : bool)
    : Prop := {
  si_range : ∀ op, op ∈ effect_ops (H ++ l) → 1 <= tool_operation_raw op < nop;
  si_invokes : NoDup (invoke_ops (H ++ l));
  si_cancels : NoDup (cancel_ops (H ++ l));
  si_cancel : ∀ op, op ∈ cancel_ops (H ++ l) → op ∈ invoke_ops H;
  si_sorted : StronglySorted N.lt (cf_sequence <$> H ++ l);
  si_next : Forall (sequence_below neff exhausted) (cf_sequence <$> H ++ l);
  si_neff : 1 <= neff <= U64_MAX
}.

Lemma stream_mono H l nop nop' neff x :
  nop <= nop' → stream_inv H l nop neff x → stream_inv H l nop' neff x.
Proof. intros Hle [R I C K S N B]. split; try done. intros op Hop. specialize (R op Hop). lia. Qed.

Lemma stream_sublist H l l' nop neff x :
  sublist l' l → stream_inv H l nop neff x → stream_inv H l' nop neff x.
Proof.
  intros Hs [R I C K S N B].
  assert (Ha : sublist (H ++ l') (H ++ l)) by (by apply sublist_app).
  assert (Hsub : ∀ {A} (f : CapabilityEffectEnvelope → A) p a,
    a ∈ f <$> List.filter p (H ++ l') → a ∈ f <$> List.filter p (H ++ l)).
  { intros A f p a Hin. eapply elem_of_sublist; [exact Hin|].
    apply fmap_sublist, list_filter_sublist, Ha. }
  split; try done.
  - intros op Hop. apply R. eapply elem_of_sublist; [done|]. by apply fmap_sublist.
  - eapply sublist_NoDup; [exact I|]. apply fmap_sublist, list_filter_sublist, Ha.
  - eapply sublist_NoDup; [exact C|]. apply fmap_sublist, list_filter_sublist, Ha.
  - intros op Hop. apply K. by apply Hsub.
  - eapply StronglySorted_sublist; [|exact S]. by apply fmap_sublist.
  - rewrite Forall_forall in N |- *. intros s Hs'. apply N. eapply elem_of_sublist; [done|].
    by apply fmap_sublist.
Qed.

Lemma stream_drain H l nop neff x :
  stream_inv H l nop neff x → stream_inv (H ++ l) [] nop neff x.
Proof.
  intros [R I C K S N B]. split; rewrite ?app_nil_r; try done.
  intros op Hop%K. rewrite invoke_ops_app. set_solver.
Qed.

(** What [push_effect] does to the counter. *)
Definition bump_sequence (neff : N) (x : bool) : N * bool :=
  if neff =? U64_MAX then (neff, true) else (neff + 1, x).

Lemma stream_push H l nop neff ef :
  stream_inv H l nop neff false → cf_sequence ef = neff →
  1 <= tool_operation_raw (cf_operation_id ef) < nop →
  (if is_invoke (cf_effect ef) then cf_operation_id ef ∉ invoke_ops (H ++ l)
   else cf_operation_id ef ∈ invoke_ops H ∧ cf_operation_id ef ∉ cancel_ops (H ++ l)) →
  stream_inv H (l ++ [ef]) nop (fst (bump_sequence neff false)) (snd (bump_sequence neff false)).
Proof.
  intros [R I C K S N B] Hs Hr Hop. set (y := bump_sequence neff false).
  assert (Hy : 1 <= fst y <= U64_MAX ∧ ∀ s, s <= neff → sequence_below (fst y) (snd y) s).
  { subst y. unfold bump_sequence, sequence_below. destruct (neff =? _) eqn:E; bool_prop; cbn;
      (split; [lia|]; intros s ?; lia). }
  destruct Hy as [Hy1 Hy2].
  split; try done; rewrite ?(app_assoc H l [ef]), ?fmap_app.
  - rewrite effect_ops_app. intros op [H'| ->%list_elem_of_singleton]%elem_of_app; [by apply R|done].
  - rewrite invoke_ops_app, invoke_ops_one.
    destruct (is_invoke _); [by apply NoDup_snoc|by rewrite app_nil_r].
  - rewrite cancel_ops_app, cancel_ops_one.
    destruct (is_invoke _); [by rewrite app_nil_r|by apply NoDup_snoc, Hop].
  - rewrite cancel_ops_app, cancel_ops_one. intros op [H'|H']%elem_of_app; [by apply K|].
    destruct (is_invoke _); [by apply elem_of_nil in H'|].
    apply list_elem_of_singleton in H' as ->. by destruct Hop.
  - rewrite <- fmap_app. apply StronglySorted_snoc; [done|].
    eapply Forall_impl; [exact N|]. cbn. intros s Hs'. rewrite Hs. exact Hs'.
  - apply Forall_app. split; [|apply Forall_singleton; apply Hy2; cbn; lia].
    rewrite <- fmap_app. eapply Forall_impl; [exact N|]. cbn. intros s Hs'. apply Hy2. lia.
Qed.

(** The invocation of [op] for the request [st]. *)
Definition invokes_request (st : RequestState) (op : ToolOperationId)
    (ef : CapabilityEffectEnvelope) : Prop :=
  is_invoke (cf_effect ef) = true ∧ cf_operation_id ef = op
  ∧ cf_request_key ef = aq_key (rst_request st)
  ∧ cf_provider_id ef = aq_provider_id (rst_request st).

(** The invocation of a dispatched request is queued or with the host, and not
    cancelled; one that was removed from the queue never left. *)
Record request_linked (H l : list CapabilityEffectEnvelope) (st : RequestState) : Prop := {
  rl_dispatched : ∀ op, dispatched_operation (status_in st) = Some op →
    (∃ ef, ef ∈ H ++ l ∧ invokes_request st op ef) ∧ op ∉ cancel_ops (H ++ l);
  rl_removed : ∀ op, status_operation (status_in st) = Some op →
    status_disposition (status_in st) = Some QueuedInvokeRemoved → op ∉ effect_ops (H ++ l)
}.

Definition link_inv (H l : list CapabilityEffectEnvelope) (m : requests_map) : Prop :=
  ∀ k st, m !! k = Some st → request_linked H l st.

(** A status that says nothing about effects. *)
Lemma linked_settled H l st :
  dispatched_operation (status_in st) = None →
  status_disposition (status_in st) ≠ Some QueuedInvokeRemoved → request_linked H l st.
Proof. intros H1 H2. split; [by rewrite H1|done]. Qed.

Lemma link_delete H l k m : link_inv H l m → link_inv H l (delete k m).
Proof. intros Hl k' st [_ H']%lookup_delete_Some. by eapply Hl. Qed.

Lemma link_insert H l k st m :
  link_inv H l m → request_linked H l st → link_inv H l (<[k := st]> m).
Proof. intros Hl Hst k' st' [[-> <-]|[_ H']]%lookup_insert_Some; [done|by eapply Hl]. Qed.

Lemma link_drain H l m : link_inv H l m → link_inv (H ++ l) [] m.
Proof. intros Hl k st Hk. destruct (Hl k st Hk). split; by rewrite app_nil_r. Qed.

(** Two invocations of one operation are the same. *)
Lemma invoke_unique l ef1 ef2 :
  NoDup (invoke_ops l) → ef1 ∈ l → ef2 ∈ l → is_invoke (cf_effect ef1) = true →
  is_invoke (cf_effect ef2) = true → cf_operation_id ef1 = cf_operation_id ef2 → ef1 = ef2.
Proof.
  unfold invoke_ops. intros Hnd H1 H2 I1 I2 E.
  apply (NoDup_fmap_elem _ _ _ _ Hnd); [..|done];
    apply list_elem_of_In, filter_In; by rewrite <- list_elem_of_In.
Qed.

(** Dropping from the queue what belongs to [k] or to no dispatched request. *)
Lemma link_shrink H l l' m (keep : RequestState → Prop) :
  link_inv H l m → sublist l' l →
  (∀ k st op ef, m !! k = Some st → keep st → dispatched_operation (status_in st) = Some op →
    invokes_request st op ef → ef ∈ l → ef ∈ l') →
  ∀ k st, m !! k = Some st → keep st → request_linked H l' st.
Proof.
  intros Hl Hs Hkeep k st Hk Hst. destruct (Hl k st Hk) as [D R].
  assert (Hsub : ∀ {A} (f : CapabilityEffectEnvelope → A) p a,
    a ∈ f <$> List.filter p (H ++ l') → a ∈ f <$> List.filter p (H ++ l)).
  { intros A f p a Hin. eapply elem_of_sublist; [exact Hin|].
    apply fmap_sublist, list_filter_sublist. by apply sublist_app. }
  split.
  - intros op Hop. destruct (D op Hop) as [(ef & Hin & Hef) Hc]. split.
    + exists ef. split; [|done]. apply elem_of_app in Hin as [Hi|Hi]; apply elem_of_app; [by left|].
      right. by eapply Hkeep.
    + intros Hin'. apply Hc. by apply Hsub.
  - intros op Hop Hd Hin. apply (R op Hop Hd).
    apply elem_of_effect_ops in Hin as [Hi|Hi]; apply elem_of_effect_ops; [left|right];
      by apply Hsub.
Qed.

(** Queueing an effect whose operation no other request is dispatched under or
    had removed. *)
Lemma link_push H l ef m (keep : RequestState → Prop) :
  link_inv H l m →
  (∀ k st op, m !! k = Some st → keep st → status_operation (status_in st) = Some op →
    (is_invoke (cf_effect ef) = false ∧ dispatched_operation (status_in st) = Some op)
    ∨ status_disposition (status_in st) = Some QueuedInvokeRemoved →
    op ≠ cf_operation_id ef) →
  ∀ k st, m !! k = Some st → keep st → request_linked H (l ++ [ef]) st.
Proof.
  intros Hl Hne k st Hk Hst. destruct (Hl k st Hk) as [D R]. split.
  - intros op Hop. destruct (D op Hop) as [(ef' & Hin & Hef) Hc]. rewrite app_assoc. split.
    + exists ef'. split; [|done]. apply elem_of_app. by left.
    + rewrite cancel_ops_app, cancel_ops_one, not_elem_of_app. split; [done|].
      destruct (is_invoke (cf_effect ef)) eqn:E; [apply not_elem_of_nil|].
      rewrite list_elem_of_singleton. eapply Hne; eauto using dispatched_none_active.
  - intros op Hop Hd. rewrite app_assoc, effect_ops_app, not_elem_of_app. split; [by apply R|].
    unfold effect_ops. cbn. rewrite list_elem_of_singleton. by eapply Hne; eauto.
Qed.

(** ** Completions

    [D] are the completions the host has drained, [l] those still queued;
    [owed] is the sequence of a request that is terminal but whose completion
    has not been pushed yet. *)

Abbreviation completed_sequences l := (co_accepted_sequence <$> l).
Definition active_count (m : requests_map) : N := count (λ _ st, active st) m.
Definition owed_count (owed : option N) : N := match owed with Some _ => 1 | None => 0 end.

Record completions_inv (owed : option N) (D l : list CapabilityCompletionEnvelope)
    (dropped : N) (m : requests_map) (nseq ncomp : N) (exhausted : bool) : Prop := {
  pi_once : NoDup (completed_sequences (D ++ l));
  pi_range : ∀ s, s ∈ completed_sequences (D ++ l) → 1 <= s < nseq;
  pi_active : ∀ k st, m !! k = Some st → active st = true →
    sequence_in st ∉ completed_sequences (D ++ l) ∧ Some (sequence_in st) ≠ owed;
  pi_owed : ∀ s, owed = Some s → 1 <= s < nseq ∧ s ∉ completed_sequences (D ++ l);
  pi_count : len (D ++ l) + dropped + active_count m + owed_count owed + 1 = nseq;
  pi_next : ncomp = len (D ++ l) + dropped + 1;
  pi_exhausted : exhausted = false;
  pi_sorted : StronglySorted N.lt (co_sequence <$> D ++ l);
  pi_below : Forall (λ s, s < ncomp) (co_sequence <$> D ++ l)
}.

Lemma completions_drain D l dropped m nseq ncomp x :
  completions_inv None D l dropped m nseq ncomp x →
  completions_inv None (D ++ l) [] dropped m nseq ncomp x.
Proof. intros []. by split; rewrite ?app_nil_r. Qed.

(** An active request ends: its completion is owed. *)
Lemma completions_close D l dropped k st st' m nseq ncomp x :
  completions_inv None D l dropped m nseq ncomp x →
  (∀ k1 st1, m !! k1 = Some st1 → sequence_in st1 = sequence_in st → k1 = k) →
  m !! k = Some st → active st = true → 1 <= sequence_in st < nseq → active st' = false →
  completions_inv (Some (sequence_in st)) D l dropped (<[k := st']> m) nseq ncomp x.
Proof.
  intros [P R A O C N X S B] Hinj Hk Ha Hs Ha'.
  split; try done.
  - intros k' st1 [[-> <-]|[Hne H']]%lookup_insert_Some Ha1; [congruence|].
    split; [by eapply A|]. intros [= E]. apply Hne. symmetry. by eapply Hinj.
  - intros s [= <-]. split; [done|]. by eapply A.
  - pose proof (count_insert (λ _ st, active st) m k st') as E. rewrite Hk, Ha, Ha' in E.
    unfold active_count in *. cbn in *. lia.
Qed.

(** A new request, active or denied outright. *)
Lemma completions_new D l dropped k st m nseq ncomp x :
  completions_inv None D l dropped m nseq ncomp x →
  (∀ st0, m !! k = Some st0 → active st0 = false) →
  (∀ k' st', m !! k' = Some st' → sequence_in st' < nseq) →
  sequence_in st = nseq → 1 <= nseq →
  completions_inv (if active st then None else Some nseq) D l dropped (<[k := st]> m)
    (nseq + 1) ncomp x.
Proof.
  intros [P R A O C N X S B] Hk Hm Hs Hn.
  assert (Hnew : nseq ∉ completed_sequences (D ++ l)).
  { intros H. apply R in H. lia. }
  split; try done.
  - intros s Hs'. apply R in Hs'. lia.
  - intros k' st' [[-> <-]|[Hne H']]%lookup_insert_Some Ha.
    + rewrite Ha, Hs. done.
    + split; [by eapply A|]. destruct (active st); [done|]. intros [= E]. apply Hm in H'. lia.
  - intros s E. destruct (active st); simplify_eq. split; [lia|done].
  - pose proof (count_insert (λ _ st, active st) m k st) as E. unfold active_count in *.
    destruct (m !! k) as [st0|] eqn:Ek; cbn in E; [rewrite (Hk st0) in E by done|];
      destruct (active st); cbn in *; lia.
Qed.

(** The owed completion is queued, or dropped. *)
Lemma completions_push s D l dropped m nseq ncomp x c :
  completions_inv (Some s) D l dropped m nseq ncomp x →
  co_accepted_sequence c = s → co_sequence c = ncomp →
  completions_inv None D (l ++ [c]) dropped m nseq (ncomp + 1) x.
Proof.
  intros [P R A O C N X S B] Hc Hn. destruct (O s eq_refl) as [Hr Hs].
  assert (El : len (D ++ l ++ [c]) = len (D ++ l) + 1).
  { unfold len. rewrite !length_app. cbn. lia. }
  cbn in C. split; rewrite ?El; try done; try (cbn; lia);
    rewrite ?(app_assoc D l [c]), ?(fmap_app _ (D ++ l) [c]); cbn [fmap list_fmap].
  - apply NoDup_snoc; [done|]. by rewrite Hc.
  - intros s' [H'| ->%list_elem_of_singleton]%elem_of_app; [by apply R|]. by rewrite Hc.
  - intros k st Hk Ha. destruct (A k st Hk Ha) as [H1 H2].
    split; [|done]. rewrite not_elem_of_app, list_elem_of_singleton. split; [done|].
    intros E. apply H2. congruence.
  - apply StronglySorted_snoc; [done|]. eapply Forall_impl; [exact B|]. cbn. by rewrite Hn.
  - apply Forall_app. split; [|apply Forall_singleton; lia].
    eapply Forall_impl; [exact B|]. cbn. lia.
Qed.

Lemma completions_drop s D l dropped m nseq ncomp x :
  completions_inv (Some s) D l dropped m nseq ncomp x →
  completions_inv None D l (dropped + 1) m nseq (ncomp + 1) x.
Proof.
  intros [P R A O C N X S B]. cbn in C. split; try done; [| |lia|].
  - intros k st Hk Ha. split; [|done]. by eapply A.
  - cbn. lia.
  - eapply Forall_impl; [exact B|]. cbn. lia.
Qed.

Lemma completions_delete D l dropped k m nseq ncomp x :
  completions_inv None D l dropped m nseq ncomp x →
  (∀ st, m !! k = Some st → active st = false) →
  completions_inv None D l dropped (delete k m) nseq ncomp x.
Proof.
  intros [P R A O C N X S B] Hk. split; try done.
  - intros k' st [_ H']%lookup_delete_Some Ha. by eapply A.
  - pose proof (count_delete (λ _ st, active st) m k) as E. unfold active_count in *.
    destruct (m !! k) as [st|]; [rewrite (Hk st) in E by done|]; cbn in *; lia.
Qed.

(** An active request stays active under its sequence. *)
Lemma completions_update D l dropped k st st' m nseq ncomp x :
  completions_inv None D l dropped m nseq ncomp x →
  m !! k = Some st → active st = true → active st' = true → sequence_in st' = sequence_in st →
  completions_inv None D l dropped (<[k := st']> m) nseq ncomp x.
Proof.
  intros [P R A O C N X S B] Hk Ha Ha' Hs. split; try done.
  - intros k' st1 [[-> <-]|[Hne H']]%lookup_insert_Some Ha1; [|by eapply A].
    rewrite Hs. by eapply A.
  - pose proof (count_insert (λ _ st, active st) m k st') as E. unfold active_count in *.
    rewrite Hk, Ha, Ha' in E. lia.
Qed.

(** ** Bounds and the audit log *)

Definition client_count (c : ConsumerId) (a : ToolActorId) (m : requests_map) : N :=
  count (λ k st, bool_decide (rk_consumer_id k = c) && bool_decide (rk_actor_id k = a)
                 && active st) m.

Record bounds_inv (e : ToolEngine) : Prop := {
  bi_requests : N.of_nat (size (te_requests e)) <= TOOL_REQUESTS_MAX;
  bi_clients : ∀ c a, client_count c a (te_requests e) <= TOOL_ACTIVE_REQUESTS_PER_CLIENT_MAX;
  bi_effects : len (te_effects e) <= TOOL_EFFECTS_MAX;
  bi_completions : len (te_completions e) <= TOOL_COMPLETIONS_MAX;
  bi_providers : N.of_nat (size (te_providers e)) <= TOOL_PROVIDERS_MAX;
  bi_grants : N.of_nat (size (te_grants e)) <= TOOL_POLICIES_MAX;
  bi_next_request : 1 <= te_next_request_sequence e <= U64_MAX;
  bi_next_operation : 1 <= te_next_operation_id e <= U64_MAX
}.

(** The audit log is the end of a sequence numbered from 1 without gaps; what
    it lost is counted. *)
Definition audit_log (l : list ToolAuditEvent) (dropped next : N) : Prop :=
  dropped + len l + 1 = next
  ∧ ∀ k ev, l !! k = Some ev → ae_sequence ev = dropped + N.of_nat k + 1.

Record audit_inv (e : ToolEngine) : Prop := {
  ai_revision : te_revision e <= U64_MAX;
  ai_length : len (te_audit_events e) <= TOOL_AUDIT_EVENTS_MAX;
  ai_next : 1 <= te_next_audit_sequence e <= U64_MAX;
  ai_log : te_audit_sequence_exhausted e = false →
    audit_log (te_audit_events e) (te_dropped_audit_events e) (te_next_audit_sequence e)
}.

Lemma len_snoc {A} (l : list A) x : len (l ++ [x]) = len l + 1.
Proof. unfold len. rewrite length_app. cbn. lia. Qed.
Lemma audit_log_push l dropped next ev :
  audit_log l dropped next → ae_sequence ev = next → audit_log (l ++ [ev]) dropped (next + 1).
Proof.
  intros [E H] Hev. split; [rewrite len_snoc; lia|].
  intros k ev' [Hk|[Hle Hk]]%lookup_app_Some; [by apply H|].
  apply list_lookup_singleton_Some in Hk as [Hk <-]. unfold len in E. lia.
Qed.

Lemma audit_log_pop l dropped next :
  audit_log l dropped next → l ≠ [] → next <= U64_MAX →
  audit_log (drop 1 l) (saturating_add dropped 1) next.
Proof.
  intros [E H] Hl Hn. destruct l as [|ev l]; [done|]. rewrite len_cons in E.
  unfold saturating_add. rewrite N.min_l by lia. cbn. rewrite drop_0. split; [lia|].
  intros k ev' Hk. specialize (H (S k) ev' Hk). lia.
Qed.

(** Providers are registered under their own id with valid capabilities. *)
Definition providers_inv (provs : gmap ToolProviderId CapabilityProviderDescriptor) : Prop :=
  ∀ i p, provs !! i = Some p → pd_id p = i
    ∧ ∃ p0, CapabilityProviderDescriptor_validate p0 = Ok tt
      ∧ p = p0 <| pd_capabilities ::= sort_by cd_id |>.

(** ** The invariant *)

Record tool_inv (ks : list CapabilityRequestKey) (owed : option N)
    (H : list CapabilityEffectEnvelope) (D : list CapabilityCompletionEnvelope)
    (e : ToolEngine) : Prop := {
  ti_requests :
    requests_inv (te_next_request_sequence e) (te_next_operation_id e) (te_requests e);
  ti_grants :
    grants_inv (te_generations e) (te_instance_states e) (te_providers e) (te_grants e);
  ti_authority : authority_inv ks (te_current_tick e) (te_grants e) (te_requests e);
  ti_closing : closing ks (te_requests e);
  ti_stream : stream_inv H (te_effects e) (te_next_operation_id e) (te_next_effect_sequence e)
                (te_effect_sequence_exhausted e);
  ti_link : link_inv H (te_effects e) (te_requests e);
  ti_completions : completions_inv owed D (te_completions e) (te_dropped_completions e)
    (te_requests e) (te_next_request_sequence e) (te_next_completion_sequence e)
    (te_completion_sequence_exhausted e);
  ti_providers : providers_inv (te_providers e);
  ti_bounds : bounds_inv e;
  ti_audit : audit_inv e
}.

Ltac open_inv H := destruct H as [Iq Ig Ia Icl Is Il Ip Ipr Ib Iau].

(** ** Steps that only touch the revision and the audit log *)

Definition strip (e : ToolEngine) : ToolEngine :=
  e <| te_revision := 0 |> <| te_revision_overflow_count := 0 |> <| te_audit_events := [] |>
    <| te_dropped_audit_events := 0 |> <| te_next_audit_sequence := 0 |>
    <| te_audit_sequence_exhausted := false |>.

Record quiet_step (e e' : ToolEngine) : Prop := {
  qs_strip : strip e' = strip e;
  qs_audit : audit_inv e → audit_inv e'
}.

#[export] Instance quiet_step_preorder : PreOrder quiet_step.
Proof.
  split; [by split|]. intros e1 e2 e3 [E1 A1] [E2 A2]. split; [congruence|auto].
Qed.

Record same_fields (e e' : ToolEngine) : Prop := {
  sf_tick : te_current_tick e' = te_current_tick e;
  sf_generations : te_generations e' = te_generations e;
  sf_states : te_instance_states e' = te_instance_states e;
  sf_providers : te_providers e' = te_providers e;
  sf_grants : te_grants e' = te_grants e;
  sf_requests : te_requests e' = te_requests e;
  sf_effects : te_effects e' = te_effects e;
  sf_completions : te_completions e' = te_completions e;
  sf_dropped : te_dropped_completions e' = te_dropped_completions e;
  sf_authority : te_last_authority_sequence e' = te_last_authority_sequence e;
  sf_effect_exhausted : te_effect_sequence_exhausted e' = te_effect_sequence_exhausted e;
  sf_completion_exhausted :
    te_completion_sequence_exhausted e' = te_completion_sequence_exhausted e;
  sf_next_request : te_next_request_sequence e' = te_next_request_sequence e;
  sf_next_operation : te_next_operation_id e' = te_next_operation_id e;
  sf_next_effect : te_next_effect_sequence e' = te_next_effect_sequence e;
  sf_next_completion : te_next_completion_sequence e' = te_next_completion_sequence e
}.

Lemma quiet_same e e' : quiet_step e e' → same_fields e e'.
Proof. intros [E _]. unfold strip in E. destruct e, e'. cbn in E. by injection E; intros; subst. Qed.

(** [same_rewrite H] replaces the fields of the later state. *)
Ltac same_rewrite H :=
  destruct H; repeat match goal with E : _ = _ |- _ => rewrite E; clear E end.

Lemma same_bounds e e' : same_fields e e' → bounds_inv e → bounds_inv e'.
Proof. intros Hs []. split; by same_rewrite Hs. Qed.

Lemma quiet_inv ks owed H D e e' :
  quiet_step e e' → tool_inv ks owed H D e → tool_inv ks owed H D e'.
Proof.
  intros Hq [Q G A C S L P V B U]. pose proof (quiet_same _ _ Hq) as Hs.
  split; [..|by eapply same_bounds|by apply (qs_audit _ _ Hq)]; by same_rewrite Hs.
Qed.
