(* ===== verification/ToolFacts.v ===== *)
(** * The methods of the tool engine keep its invariant

    The rules of the primitive steps, the closing of a request, and each
    method: none panics, an error leaves the engine as it was, and a success
    keeps [tool_inv] and changes what its specification says. *)

From S2P Require Import Prelude RustStr RustOrd Ids ToolTypes ToolEngine ToolInv.

Local Open Scope N_scope.

(** ** Primitive steps *)

Lemma tool_bump_quiet e : quiet_step e (snd (tool_bump_revision e)).
Proof.
  unfold tool_bump_revision, modify_state. cbn.
  destruct (te_revision e =? U64_MAX) eqn:E; bool_prop.
  - split; [done|]. intros []. by split.
  - split; [done|]. intros []. split; cbn; [lia|done..].
Qed.

(** The log after the oldest event has made room. *)
Definition trimmed (e : ToolEngine) : ToolEngine :=
  if len (te_audit_events e) =? TOOL_AUDIT_EVENTS_MAX
  then e <| te_audit_events ::= drop 1 |>
         <| te_dropped_audit_events ::= λ n, saturating_add n 1 |>
  else e.

Lemma trimmed_quiet e :
  te_audit_sequence_exhausted e = false → quiet_step e (trimmed e) ∧
  (audit_inv (trimmed e) → len (te_audit_events (trimmed e)) < TOOL_AUDIT_EVENTS_MAX).
Proof.
  intros Ex. unfold trimmed. destruct (_ =? _) eqn:E; bool_prop.
  - assert (Hl : len (drop 1 (te_audit_events e)) < TOOL_AUDIT_EVENTS_MAX).
    { unfold len, TOOL_AUDIT_EVENTS_MAX in *. rewrite length_drop. lia. }
    split; [|done]. split; [done|]. intros [R L N G]. split; try done; cbn; [lia|]. intros _.
    apply audit_log_pop; [by apply G| |lia]. intros El. by rewrite El in E.
  - split; [done|]. intros []. lia.
Qed.

Lemma audit_quiet subject event e : quiet_step e (snd (emit_audit subject event e)).
Proof.
  unfold emit_audit, modify_state. cbn [snd].
  destruct (te_audit_sequence_exhausted e) eqn:Ex.
  { split; [done|]. intros [R L N G]. split; try done. cbn. by rewrite Ex. }
  fold (trimmed e). destruct (trimmed_quiet e Ex) as [Hq Hlen].
  assert (Ex' : te_audit_sequence_exhausted (trimmed e) = false)
    by (unfold trimmed; by destruct (_ =? _)).
  etransitivity; [exact Hq|].
  split; [by destruct (_ =? U64_MAX)|].
  intros Hi. pose proof (Hlen Hi) as Hl.
  destruct Hi as [R L N G].
  destruct (_ =? U64_MAX) eqn:En; bool_prop; (split; cbn; rewrite ?len_snoc; try done; try lia).
  intros _. apply audit_log_push; [by apply G|done].
Qed.

Section wp.
Context {F : ToolEngineError → ToolEngine → Prop}.

Lemma wp_tool_bump (Q : unit → ToolEngine → Prop) e :
  (∀ e', quiet_step e e' → Q tt e') → wp tool_bump_revision Q F e.
Proof. intros H. apply (H _ (tool_bump_quiet e)). Qed.

Lemma wp_audit subject event (Q : unit → ToolEngine → Prop) e :
  (∀ e', quiet_step e e' → Q tt e') → wp (emit_audit subject event) Q F e.
Proof. intros H. apply (H _ (audit_quiet subject event e)). Qed.

(** The end of most methods. *)
Lemma wp_bump_audit {A} subject event (a : A) (Q : A → ToolEngine → Prop) e :
  (∀ e', quiet_step e e' → Q a e') →
  wp (tool_bump_revision ;; emit_audit subject event ;; mret a) Q F e.
Proof.
  intros H. apply wp_bind, wp_tool_bump. intros e1 H1. apply wp_bind, wp_audit.
  intros e2 H2. apply wp_ret, H. by etransitivity.
Qed.

Lemma wp_update_request k f (Q : unit → ToolEngine → Prop) e st :
  te_requests e !! k = Some st →
  Q tt (e <| te_requests ::= <[k := f st]> |>) → wp (update_request k f) Q F e.
Proof.
  intros Hk HQ. unfold update_request. apply wp_bind, wp_get, wp_bind, wp_expect; [by rewrite Hk|].
  intros st' E. rewrite Hk in E. injection E as <-. exact HQ.
Qed.
End wp.

(** ** Queueing and removing effects *)

Lemma position_Some {A} (p : A → bool) l i :
  position p l = Some i → ∃ l1 x l2, l = l1 ++ x :: l2 ∧ i = length l1 ∧ p x = true.
Proof.
  revert i. induction l as [|x l IH]; intros i; cbn; [done|].
  destruct (p x) eqn:E; [intros [= <-]; by exists [], x, l|].
  destruct (position p l) as [j|]; cbn; [|done]. intros [= <-].
  destruct (IH j eq_refl) as (l1 & y & l2 & -> & -> & Hy). by exists (x :: l1), y, l2.
Qed.

Lemma position_None {A} (p : A → bool) l : position p l = None ↔ Forall (λ x, p x = false) l.
Proof.
  induction l as [|x l IH]; cbn; [split; auto|]. rewrite Forall_cons.
  destruct (p x) eqn:E; [naive_solver|]. rewrite <- IH.
  destruct (position p l); cbn; naive_solver.
Qed.

Lemma remove_at_middle {A} (l1 l2 : list A) x :
  remove_at (length l1) (l1 ++ x :: l2) = Some (x, l1 ++ l2).
Proof. induction l1 as [|y l1 IH]; cbn; [done|]. by rewrite IH. Qed.

Definition set_effects (l : list CapabilityEffectEnvelope) (s : N * bool) (e : ToolEngine)
    : ToolEngine :=
  e <| te_effects := l |> <| te_next_effect_sequence := fst s |>
    <| te_effect_sequence_exhausted := snd s |>.

Lemma set_effects_same e :
  set_effects (te_effects e) (te_next_effect_sequence e, te_effect_sequence_exhausted e) e = e.
Proof. by destruct e. Qed.

Definition effect_for (r : AcceptedRequest) (op : ToolOperationId) (sequence : N)
    (effect : CapabilityEffect) : CapabilityEffectEnvelope :=
  {| cf_sequence := sequence; cf_operation_id := op; cf_request_key := aq_key r;
     cf_instance_id := aq_instance_id r; cf_generation := aq_generation r;
     cf_provider_id := aq_provider_id r; cf_deadline_tick := aq_deadline_tick r;
     cf_effect := effect |}.

(** The invocation of [op] for [r] is in the queue [l]. *)
Definition queued (r : AcceptedRequest) (op : ToolOperationId)
    (ef : CapabilityEffectEnvelope) : Prop :=
  is_invoke (cf_effect ef) = true ∧ cf_operation_id ef = op ∧ cf_request_key ef = aq_key r.

(** How the cancellation of an operation changes the queue. *)
Inductive cancelled (r : AcceptedRequest) (l : list CapabilityEffectEnvelope) (s : N * bool)
    : option ToolOperationId → CancellationDisposition →
      list CapabilityEffectEnvelope → N * bool → Prop :=
| cancelled_nothing : cancelled r l s None NotRequired l s
| cancelled_removed op l1 ef l2 :
    l = l1 ++ ef :: l2 → queued r op ef →
    cancelled r l s (Some op) QueuedInvokeRemoved (l1 ++ l2) s
| cancelled_unconfirmed op c :
    Forall (λ ef, ¬ queued r op ef) l →
    c = DroppedQueueFull ∨ c = DroppedSequenceExhausted ∨ c = ProviderDetachedUnconfirmed →
    cancelled r l s (Some op) c l s
| cancelled_queued op reason :
    Forall (λ ef, ¬ queued r op ef) l → snd s = false → len l < TOOL_EFFECTS_MAX →
    cancelled r l s (Some op) CancelQueuedUnconfirmed
      (l ++ [effect_for r op (fst s) (Cancel reason)]) (bump_sequence (fst s) false).

Section queue.
Context {F : ToolEngineError → ToolEngine → Prop}.

(** The state in which a method that cancels goes on. *)
Definition after_cancel (r : AcceptedRequest) (o : option ToolOperationId) (e : ToolEngine)
    (Q : CancellationDisposition → ToolEngine → Prop) : Prop :=
  ∀ c l s,
    cancelled r (te_effects e) (te_next_effect_sequence e, te_effect_sequence_exhausted e) o c l s →
    Q c (set_effects l s e).

Lemma queued_invoke_cases r op e :
  (∃ l1 ef l2, te_effects e = l1 ++ ef :: l2 ∧ queued r op ef
    ∧ queued_invoke r op e = Some (length l1))
  ∨ queued_invoke r op e = None ∧ Forall (λ ef, ¬ queued r op ef) (te_effects e).
Proof.
  unfold queued_invoke, queued. destruct (position _ _) as [i|] eqn:E.
  - left. apply position_Some in E as (l1 & ef & l2 & -> & -> & Hp). bool_prop. naive_solver.
  - right. split; [done|]. apply position_None in E. eapply Forall_impl; [exact E|].
    cbn. intros ef Hf (H1 & H2 & H3). rewrite H1, !bool_decide_eq_true_2 in Hf by done. done.
Qed.

Lemma wp_remove_effect l1 ef l2 (Q : unit → ToolEngine → Prop) e :
  te_effects e = l1 ++ ef :: l2 →
  Q tt (set_effects (l1 ++ l2) (te_next_effect_sequence e, te_effect_sequence_exhausted e) e) →
  wp (remove_effect (length l1)) Q F e.
Proof.
  intros El HQ. apply wp_bind, wp_get, wp_bind, wp_expect; rewrite El, remove_at_middle; [done|].
  intros [? ?] [= <- <-]. apply wp_modify. cbn. destruct e. exact HQ.
Qed.

Lemma wp_push_effect r op ef (Q : bool → ToolEngine → Prop) e :
  (te_effect_sequence_exhausted e = true → Q false e) →
  (te_effect_sequence_exhausted e = false →
    Q true (set_effects (te_effects e ++ [effect_for r op (te_next_effect_sequence e) ef])
              (bump_sequence (te_next_effect_sequence e) false) e)) →
  wp (tool_push_effect r op ef) Q F e.
Proof.
  intros H1 H2. apply wp_bind, wp_get. cbn.
  destruct (te_effect_sequence_exhausted e) eqn:E; [by apply wp_ret, H1|].
  apply wp_bind, wp_modify, wp_bind, wp_modify, wp_ret. specialize (H2 eq_refl).
  unfold bump_sequence in H2. destruct e. cbn in *. subst.
  destruct (_ =? U64_MAX); exact H2.
Qed.

Lemma wp_cancel_best_effort r op reason Q e :
  after_cancel r (Some op) e Q → wp (cancel_best_effort r op reason) Q F e.
Proof.
  intros H. apply wp_bind, wp_get. cbn.
  destruct (queued_invoke_cases r op e) as [(l1 & ef & l2 & El & Hq & ->)|[-> Hq]].
  - apply wp_bind. eapply wp_remove_effect; [exact El|]. apply wp_ret, H. by econstructor.
  - destruct (TOOL_EFFECTS_MAX <=? _) eqn:Elen; bool_prop.
    + apply wp_ret. rewrite <- (set_effects_same e). apply H. constructor; auto.
    + apply wp_bind, wp_push_effect; intros Ex; apply wp_ret.
      * rewrite <- (set_effects_same e). apply H. constructor; auto.
      * apply H. by apply (cancelled_queued r _ (_, _)).
Qed.

Lemma wp_cancel_if_dispatched r o reason Q e :
  after_cancel r o e Q → wp (cancel_if_dispatched r o reason) Q F e.
Proof.
  intros H. destruct o as [op|]; [by apply wp_cancel_best_effort|].
  apply wp_ret. rewrite <- (set_effects_same e). apply H. constructor.
Qed.

Lemma wp_cancel_detached r o Q e :
  after_cancel r o e Q → wp (cancel_detached r o) Q F e.
Proof.
  intros H. apply wp_bind, wp_get. destruct o as [op|].
  2: { apply wp_ret. rewrite <- (set_effects_same e). apply H. constructor. }
  destruct (queued_invoke_cases r op e) as [(l1 & ef & l2 & El & Hq & ->)|[-> Hq]].
  - apply wp_bind. eapply wp_remove_effect; [exact El|]. apply wp_ret, H. by econstructor.
  - apply wp_ret. rewrite <- (set_effects_same e). apply H. constructor; auto.
Qed.
End queue.

(** ** Closing one request *)

Section close.
Context (H : list CapabilityEffectEnvelope) (m : requests_map) (nseq nop : N).
Context (k : CapabilityRequestKey) (st st' : RequestState) (c : CancellationDisposition).
Hypothesis Hreq : requests_inv nseq nop m.
Hypothesis Hk : m !! k = Some st.
Hypothesis Hoff : dispatched_operation (status_in st') = None.
Hypothesis Hop : ∀ op, status_operation (status_in st') = Some op →
  dispatched_operation (status_in st) = Some op.
Hypothesis Hc : status_disposition (status_in st') = Some c.

Lemma queued_of_dispatched k1 st1 op ef :
  m !! k1 = Some st1 → invokes_request st1 op ef → cf_request_key ef = k1.
Proof. intros H1 (_ & _ & -> & _). apply (qw_key _ _ _ _ (qi_wf _ _ _ Hreq _ _ H1)). Qed.

Lemma close_removed l1 ef l2 op n x :
  stream_inv H (l1 ++ ef :: l2) nop n x → link_inv H (l1 ++ ef :: l2) m →
  queued (rst_request st) op ef → dispatched_operation (status_in st) = Some op →
  stream_inv H (l1 ++ l2) nop n x ∧ link_inv H (l1 ++ l2) (<[k := st']> m).
Proof using Hreq Hk Hoff Hop.
  intros Hs Hl (Hi & <- & Hkey) Hd.
  assert (Hkk : cf_request_key ef = k).
  { rewrite Hkey. apply (qw_key _ _ _ _ (qi_wf _ _ _ Hreq _ _ Hk)). }
  assert (Hsub : sublist (l1 ++ l2) (l1 ++ ef :: l2)) by (apply sublist_app; [done|by constructor]).
  split; [by eapply stream_sublist|].
  intros k1 st1 [[<- <-]|[Hne H1]]%lookup_insert_Some.
  - split; [by rewrite Hoff|]. intros op E _. apply Hop in E. rewrite Hd in E. injection E as <-.
    assert (Hno : cf_operation_id ef ∉ invoke_ops (H ++ l1 ++ l2)).
    { pose proof (si_invokes _ _ _ _ _ Hs) as Hnd. rewrite app_assoc, invoke_ops_app in Hnd.
      unfold invoke_ops in Hnd at 2. cbn in Hnd. rewrite Hi in Hnd. cbn in Hnd.
      apply NoDup_app in Hnd as (_ & Hdis & [Hni _]%NoDup_cons).
      rewrite app_assoc, invoke_ops_app. intros [Hin|Hin]%elem_of_app; [|done].
      apply (Hdis _ Hin). left. }
    intros [Hin|Hin]%elem_of_effect_ops; [done|].
    eapply (si_cancel _ _ _ _ _ (stream_sublist _ _ _ _ _ _ Hsub Hs)) in Hin.
    apply Hno. rewrite invoke_ops_app. apply elem_of_app. by left.
  - eapply (link_shrink _ _ _ _ (λ st2, aq_key (rst_request st2) ≠ k) Hl Hsub); [|exact H1|].
    + intros k2 st2 op2 ef2 H2 Hne2 _ (_ & _ & E2 & _) Hin.
      apply elem_of_app in Hin as [Hin|Hin]; apply elem_of_app; [by left|].
      apply elem_of_cons in Hin as [->|Hin]; [|by right]. congruence.
    + cbn. rewrite (qw_key _ _ _ _ (qi_wf _ _ _ Hreq _ _ H1)). done.
Qed.

Lemma close_kept l :
  link_inv H l m → c ≠ QueuedInvokeRemoved → link_inv H l (<[k := st']> m).
Proof using Hoff Hc.
  intros Hl Hne. apply link_insert; [done|]. apply linked_settled; [done|]. congruence.
Qed.

Lemma close_queued l op n reason :
  stream_inv H l nop n false → link_inv H l m → c = CancelQueuedUnconfirmed →
  Forall (λ ef, ¬ queued (rst_request st) op ef) l →
  dispatched_operation (status_in st) = Some op →
  let ef := effect_for (rst_request st) op n (Cancel reason) in
  stream_inv H (l ++ [ef]) nop (fst (bump_sequence n false)) (snd (bump_sequence n false))
  ∧ link_inv H (l ++ [ef]) (<[k := st']> m).
Proof using Hreq Hk Hoff Hc.
  intros Hs Hl Ec Hq Hd ef. destruct (Hl k st Hk) as [D _].
  destruct (D op Hd) as [(inv & Hin & Hi & Hop' & Hkey & _) Hncan].
  assert (HinH : inv ∈ H).
  { apply elem_of_app in Hin as [Hin|Hin]; [done|]. rewrite Forall_forall in Hq.
    by destruct (Hq inv Hin). }
  assert (Hrange : 1 <= tool_operation_raw op < nop).
  { apply (qw_operation _ _ _ _ (qi_wf _ _ _ Hreq _ _ Hk)). by apply dispatched_none_active. }
  split.
  - apply stream_push; [done..|]. cbn. split; [|done]. apply elem_of_invoke_ops. by exists inv.
  - intros k1 st1 [[<- <-]|[Hne H1]]%lookup_insert_Some;
      [apply linked_settled; [done|congruence]|].
    eapply (link_push _ _ ef _ (λ st2, aq_key (rst_request st2) ≠ k) Hl); [|exact H1|].
    + intros k2 st2 op2 H2 Hne2 Hop2 Hcase ->. cbn in Hop2. destruct Hcase as [[_ Hd2]|Hd2].
      * destruct (Hl k2 st2 H2) as [D2 _].
        destruct (D2 _ Hd2) as [(inv2 & Hin2 & Hi2 & Hop2' & Hkey2 & _) _].
        assert (inv2 = inv) as -> by (eapply invoke_unique; [apply Hs|done..|]; by rewrite Hop2', Hop').
        apply Hne2. rewrite <- Hkey2, Hkey. apply (qw_key _ _ _ _ (qi_wf _ _ _ Hreq _ _ Hk)).
      * destruct (Hl k2 st2 H2) as [_ R2]. apply (R2 _ Hop2 Hd2).
        apply elem_of_effect_ops. left. apply elem_of_invoke_ops. by exists inv.
    + cbn. rewrite (qw_key _ _ _ _ (qi_wf _ _ _ Hreq _ _ H1)). done.
Qed.

End close.

(** Whatever the cancellation did. *)
Lemma close_effects H m nseq nop k st st' c o l s l' s' :
  requests_inv nseq nop m → m !! k = Some st →
  dispatched_operation (status_in st') = None → status_operation (status_in st') = o →
  status_disposition (status_in st') = Some c → dispatched_operation (status_in st) = o →
  cancelled (rst_request st) l s o c l' s' →
  stream_inv H l nop (fst s) (snd s) → link_inv H l m →
  stream_inv H l' nop (fst s') (snd s') ∧ link_inv H l' (<[k := st']> m).
Proof.
  intros Hreq Hk Hoff Hop Hc Hd Hcan Hs Hl.
  assert (Hop' : ∀ op, status_operation (status_in st') = Some op →
    dispatched_operation (status_in st) = Some op) by congruence.
  destruct Hcan as [|op l1 ef l2 ->|op c Hq [-> | [-> | ->]]|op reason Hq Hx].
  - split; [done|]. by eapply close_kept.
  - by eapply close_removed.
  - split; [done|]. by eapply close_kept.
  - split; [done|]. by eapply close_kept.
  - split; [done|]. by eapply close_kept.
  - rewrite Hx in Hs. by eapply close_queued.
Qed.

Lemma cancelled_bound r l s o c l' s' :
  cancelled r l s o c l' s' → len l <= TOOL_EFFECTS_MAX → len l' <= TOOL_EFFECTS_MAX.
Proof.
  destruct 1; subst; try done.
  - unfold len. rewrite !length_app. cbn. lia.
  - intros _. rewrite len_snoc. lia.
Qed.

(** ** What a method leaves alone *)

Record same_policy (e e' : ToolEngine) : Prop := {
  sp_tick : te_current_tick e' = te_current_tick e;
  sp_generations : te_generations e' = te_generations e;
  sp_states : te_instance_states e' = te_instance_states e;
  sp_providers : te_providers e' = te_providers e;
  sp_grants : te_grants e' = te_grants e;
  sp_authority : te_last_authority_sequence e' = te_last_authority_sequence e;
  sp_next_request : te_next_request_sequence e' = te_next_request_sequence e;
  sp_next_operation : te_next_operation_id e' = te_next_operation_id e
}.
#[export] Instance same_policy_preorder : PreOrder same_policy.
Proof. split; [by split|]. intros e1 e2 e3 [] []. split; congruence. Qed.

Lemma quiet_policy e e' : quiet_step e e' → same_policy e e'.
Proof. intros Hq. destruct (quiet_same _ _ Hq). by split. Qed.

(** ** The completion that is owed *)

Definition completion_for (r : AcceptedRequest) (s : N) (op : option ToolOperationId)
    (out : CapabilityTerminalOutcome) (n : N) : CapabilityCompletionEnvelope :=
  {| co_sequence := n; co_accepted_sequence := s; co_operation_id := op;
     co_request_key := aq_key r; co_instance_id := aq_instance_id r;
     co_generation := aq_generation r; co_provider_id := aq_provider_id r;
     co_outcome := out |}.

(** The completion is queued, or counted as dropped when the queue is full. *)
Definition completed (c : CapabilityCompletionEnvelope) (e e' : ToolEngine) : Prop :=
  te_next_completion_sequence e' = te_next_completion_sequence e + 1
  ∧ if TOOL_COMPLETIONS_MAX <=? len (te_completions e) then
      te_completions e' = te_completions e
      ∧ te_dropped_completions e' = te_dropped_completions e + 1
    else
      te_completions e' = te_completions e ++ [c]
      ∧ te_dropped_completions e' = te_dropped_completions e.

Record pushed (c : CapabilityCompletionEnvelope) (e e' : ToolEngine) : Prop := {
  pu_policy : same_policy e e';
  pu_requests : te_requests e' = te_requests e;
  pu_effects : te_effects e' = te_effects e;
  pu_completed : completed c e e'
}.

(** While a completion is owed, no completion counter is at its limit. *)
Lemma completions_room s D l dropped m nseq ncomp x :
  completions_inv (Some s) D l dropped m nseq ncomp x → nseq <= U64_MAX →
  ncomp < U64_MAX ∧ dropped + 1 <= U64_MAX.
Proof. intros [P R A O C N X S B] Hn. cbn in C. lia. Qed.

Section push.
Context {F : ToolEngineError → ToolEngine → Prop}.

Lemma wp_push_completion ks s H D r op out (Q : unit → ToolEngine → Prop) e :
  tool_inv ks (Some s) H D e →
  (∀ e', tool_inv ks None H D e' →
    pushed (completion_for r s op out (te_next_completion_sequence e)) e e' → Q tt e') →
  wp (push_terminal_completion r s op out) Q F e.
Proof.
  intros Hi HQ. pose proof (ti_completions _ _ _ _ _ Hi) as Hc.
  pose proof (pi_exhausted _ _ _ _ _ _ _ _ Hc) as Hx.
  destruct (completions_room _ _ _ _ _ _ _ _ Hc) as [Hn Hd];
    [apply (bi_next_request _ (ti_bounds _ _ _ _ _ Hi))|].
  apply wp_bind, wp_get. rewrite Hx. apply wp_bind, wp_modify.
  destruct (_ =? U64_MAX) eqn:En; bool_prop; [lia|]. cbn zeta.
  destruct (TOOL_COMPLETIONS_MAX <=? _) eqn:El.
  - apply wp_bind, wp_modify, wp_audit. intros e' Hq. open_inv Hi.
    apply HQ.
    + eapply quiet_inv; [exact Hq|]. split; try done; [|destruct Ib; by split|destruct Iau; by split].
      cbn. unfold saturating_add. rewrite N.min_l by lia. by apply (completions_drop s).
    + pose proof (quiet_same _ _ Hq) as Hs. destruct (quiet_policy _ _ Hq).
      split; [by split| | |]; [by same_rewrite Hs..|]. unfold completed. rewrite El.
      same_rewrite Hs. cbn. unfold saturating_add. rewrite N.min_l by lia. done.
  - apply wp_modify. bool_prop. open_inv Hi. apply HQ.
    + split; try done; [by apply (completions_push s)| |destruct Iau; by split].
      destruct Ib. split; try done. cbn. rewrite len_snoc. lia.
    + split; [by split|done..|]. unfold completed. cbn.
      destruct (_ <=? _) eqn:El'; bool_prop; [lia|done].
Qed.
End push.

(** ** Closing *)

Definition closed_as (mk : option ToolOperationId → CancellationDisposition
    → CapabilityRequestStatus) (c : CancellationDisposition) (st : RequestState) : RequestState :=
  clear_payload st <| rst_snapshot ::= λ s,
    s <| rq_status := mk (dispatched_operation (status_in st)) c |> |>.

(** A status that closes a request says how its cancellation went. *)
Definition closing_status (mk : option ToolOperationId → CancellationDisposition
    → CapabilityRequestStatus) : Prop :=
  ∀ o c, is_terminal (mk o c) = true ∧ status_operation (mk o c) = o
    ∧ status_disposition (mk o c) = Some c
    ∧ ∀ d, d = Decision_RequireApproval ∨ d = Decision_Allow → decision_fits d (mk o c).

Lemma terminal_not_dispatched s : is_terminal s = true → dispatched_operation s = None.
Proof. by destruct s. Qed.

Lemma active_decision nseq nop k st :
  request_wf nseq nop k st → active st = true →
  rq_policy_decision (rst_snapshot st) = Decision_RequireApproval
  ∨ rq_policy_decision (rst_snapshot st) = Decision_Allow.
Proof.
  intros Hw Ha. pose proof (qw_decision _ _ _ _ Hw) as Hd. unfold active in Ha.
  destruct (status_in st); cbn in *; try done. by left.
Qed.

Lemma closed_as_wf mk c nseq nop k st :
  closing_status mk → request_wf nseq nop k st → active st = true →
  request_wf nseq nop k (closed_as mk c st).
Proof.
  intros Hmk Hw Ha. destruct (Hmk (dispatched_operation (status_in st)) c) as (_ & Ho & _ & Hd).
  pose proof (active_decision _ _ _ _ Hw Ha) as Hdec. destruct Hw as [K S Q O P D].
  split; try done.
  - intros op Hop. apply O. cbn in Hop. rewrite Ho in Hop. by apply dispatched_none_active.
  - by right.
  - by apply Hd.
Qed.

Lemma filter_size_update {K V} `{Countable K} (m : gmap K V) k v v' :
  m !! k = Some v → size (<[k := v']> m) = size m.
Proof. intros Hk. by rewrite map_size_insert, Hk. Qed.

Lemma closed_client_count c a k st st' m :
  m !! k = Some st → active st' = false →
  client_count c a (<[k := st']> m) <= client_count c a m.
Proof.
  intros Hk Ha. unfold client_count.
  pose proof (count_insert (λ k st, bool_decide (rk_consumer_id k = c)
    && bool_decide (rk_actor_id k = a) && active st) m k st') as E.
  rewrite Hk, Ha, andb_false_r in E. destruct (_ && active st); lia.
Qed.

(** The state in which the closing of [k] goes on to its completion. *)
Record closing_step (mk : option ToolOperationId → CancellationDisposition
    → CapabilityRequestStatus) (k : CapabilityRequestKey) (st : RequestState)
    (c : CancellationDisposition) (e e' : ToolEngine) : Prop := {
  cs_policy : same_policy e e';
  cs_requests : te_requests e' = <[k := closed_as mk c st]> (te_requests e);
  cs_cancelled : ∃ s', cancelled (rst_request st) (te_effects e)
    (te_next_effect_sequence e, te_effect_sequence_exhausted e)
    (dispatched_operation (status_in st)) c (te_effects e') s';
  cs_completions : te_completions e' = te_completions e;
  cs_dropped : te_dropped_completions e' = te_dropped_completions e;
  cs_next : te_next_completion_sequence e' = te_next_completion_sequence e
}.

Definition closing_state (mk : option ToolOperationId → CancellationDisposition
    → CapabilityRequestStatus) (k : CapabilityRequestKey) (st : RequestState)
    (c : CancellationDisposition) (l : list CapabilityEffectEnvelope) (s : N * bool)
    (e : ToolEngine) : ToolEngine :=
  set_effects l s (e <| te_requests ::= <[k := closed_as mk c st]> |>).

Lemma update_twice l s k x y e :
  set_effects l s (e <| te_requests ::= <[k := x]> |>) <| te_requests ::= <[k := y]> |>
  = set_effects l s (e <| te_requests ::= <[k := y]> |>).
Proof.
  transitivity (set_effects l s (e <| te_requests ::= λ m, <[k := y]> (<[k := x]> m) |>)); [done|].
  unfold set_field at 1. by rewrite insert_insert_eq.
Qed.

Lemma closing_state_inv mk ks H D k st c l s e :
  closing_status mk → tool_inv (k :: ks) None H D e →
  te_requests e !! k = Some st → active st = true →
  cancelled (rst_request st) (te_effects e)
    (te_next_effect_sequence e, te_effect_sequence_exhausted e)
    (dispatched_operation (status_in st)) c l s →
  tool_inv ks (Some (sequence_in st)) H D (closing_state mk k st c l s e).
Proof.
  intros Hmk Hi Hk Ha Hcan. open_inv Hi.
  destruct (Hmk (dispatched_operation (status_in st)) c) as (Ht & Ho & Hd & _).
  pose proof (qi_wf _ _ _ Iq _ _ Hk) as Hw.
  assert (Hoff : active (closed_as mk c st) = false) by (unfold active; cbn; by rewrite Ht).
  destruct (close_effects H (te_requests e) _ _ k st (closed_as mk c st) c _ _ _ _ _ Iq Hk
    (terminal_not_dispatched _ Ht) Ho Hd eq_refl Hcan Is Il) as [Hs Hl].
  split; try done.
  - eapply requests_inv_update; [done..|by apply closed_as_wf|done].
  - by apply authority_close.
  - by apply (closing_tail k).
  - eapply completions_close; [done| |done..| |done]; [|apply Hw].
    intros k1 st1 H1 E. by eapply (qi_sequence _ _ _ Iq).
  - destruct Ib. split; try done; cbn.
    + by rewrite (filter_size_update _ _ _ _ Hk).
    + intros c' a. etransitivity; [by eapply closed_client_count|done].
    + by eapply cancelled_bound.
  - destruct Iau. by split.
Qed.

Section wp_close.
Context {F : ToolEngineError → ToolEngine → Prop}.

Lemma wp_closing ks H D k e cancel mk audit
    (fin : AcceptedRequest → N → option ToolOperationId → CancellationDisposition → ToolM unit)
    (Q : unit → ToolEngine → Prop) :
  tool_inv (k :: ks) None H D e → closing_status mk →
  (∀ r o Q e, after_cancel r o e Q → wp (cancel r o) Q F e) →
  (∀ st c e', te_requests e !! k = Some st → active st = true →
    tool_inv ks (Some (sequence_in st)) H D e' → closing_step mk k st c e e' →
    wp (fin (rst_request st) (sequence_in st) (dispatched_operation (status_in st)) c) Q F e') →
  wp ('(request, subject, accepted_sequence, operation_id) ← take_active_request k;
      cancellation ← cancel request operation_id;
      set_request_status k (mk operation_id cancellation) ;;
      emit_audit (Some subject) (audit operation_id cancellation) ;;
      fin request accepted_sequence operation_id cancellation) Q F e.
Proof.
  intros Hi Hmk Hcancel Hfin.
  destruct (ti_closing _ _ _ _ _ Hi) as [_ Hact]. destruct (Hact k) as (st & Hk & Ha); [left|].
  apply wp_bind. unfold take_active_request.
  apply wp_bind, wp_get, wp_bind, wp_expect; [by rewrite Hk|]. intros st' E.
  rewrite Hk in E. injection E as <-.
  apply wp_bind. eapply wp_update_request; [exact Hk|]. apply wp_ret.
  apply wp_bind, Hcancel. intros c l s Hcan.
  apply wp_bind. unfold set_request_status.
  eapply wp_update_request; [apply lookup_insert_eq|].
  apply wp_bind, wp_audit. intros e' Hq.
  rewrite update_twice in Hq. apply Hfin; [done|done| |].
  - eapply quiet_inv; [exact Hq|]. by apply closing_state_inv.
  - pose proof (quiet_same _ _ Hq) as Hs. split.
    + etransitivity; [|by apply quiet_policy]. by split.
    + by same_rewrite Hs.
    + exists s. same_rewrite Hs. exact Hcan.
    + by same_rewrite Hs.
    + by same_rewrite Hs.
    + by same_rewrite Hs.
Qed.
End wp_close.

Definition closing_mk : Type :=
  option ToolOperationId → CancellationDisposition → CapabilityRequestStatus.

(** Exactly the requests [ks], all active, are closed as [mk] says. *)
Record closed (mk : closing_mk) (ks : list CapabilityRequestKey) (e e' : ToolEngine) : Prop := {
  cl_policy : same_policy e e';
  cl_others : ∀ k, k ∉ ks → te_requests e' !! k = te_requests e !! k;
  cl_closed : ∀ k, k ∈ ks → ∃ st c, te_requests e !! k = Some st ∧ active st = true
    ∧ te_requests e' !! k = Some (closed_as mk c st);
  cl_effects : ∀ ef, ef ∈ te_effects e' → ef ∈ te_effects e ∨ is_invoke (cf_effect ef) = false
}.

Lemma closed_nil mk e : closed mk [] e e.
Proof. split; [done|done| |auto]. intros k. by rewrite elem_of_nil. Qed.

Lemma cancelled_effects r l s o c l' s' ef :
  cancelled r l s o c l' s' → ef ∈ l' → ef ∈ l ∨ is_invoke (cf_effect ef) = false.
Proof.
  destruct 1; subst; auto.
  - rewrite !elem_of_app, elem_of_cons. tauto.
  - intros [?| ->%list_elem_of_singleton]%elem_of_app; [by left|by right].
Qed.

Lemma closed_step mk k st c e e1 e2 c' :
  te_requests e !! k = Some st → active st = true →
  closing_step mk k st c e e1 → pushed c' e1 e2 → closed mk [k] e e2.
Proof.
  intros Hk Ha [P R (s' & C) _ _ _] [P' R' E' _]. split.
  - by etransitivity.
  - intros k'. rewrite list_elem_of_singleton. intros Hne. rewrite R', R.
    by rewrite lookup_insert_ne by done.
  - intros k' ->%list_elem_of_singleton. exists st, c. split_and!; [done..|].
    by rewrite R', R, lookup_insert_eq.
  - intros ef. rewrite E'. by eapply cancelled_effects.
Qed.

Lemma closed_cons mk k ks e e1 e2 :
  k ∉ ks → closed mk [k] e e1 → closed mk ks e1 e2 → closed mk (k :: ks) e e2.
Proof.
  intros Hni [P O C E] [P' O' C' E']. split.
  - by etransitivity.
  - intros k' [Hne Hni']%not_elem_of_cons. rewrite O' by done. apply O. by rewrite list_elem_of_singleton.
  - intros k' [->|Hin]%elem_of_cons.
    + destruct (C k) as (st & c & ? & ? & ?); [by apply list_elem_of_singleton|].
      exists st, c. by rewrite O'.
    + destruct (C' k' Hin) as (st & c & H1 & ? & ?). exists st, c. split_and!; [|done..].
      rewrite <- H1. symmetry. apply O. rewrite list_elem_of_singleton. by intros ->.
  - intros ef Hin. destruct (E' ef Hin) as [H1|H1]; [by apply E|by right].
Qed.

Section closers.
Context {F : ToolEngineError → ToolEngine → Prop}.
Context (H : list CapabilityEffectEnvelope) (D : list CapabilityCompletionEnvelope).

(** A method that closes the request it is called for. *)
Definition closes (mk : closing_mk) (f : CapabilityRequestKey → ToolM unit) : Prop :=
  ∀ k ks e, tool_inv (k :: ks) None H D e →
  wp (f k) (λ _ e', tool_inv ks None H D e' ∧ closed mk [k] e e') F e.

Lemma wp_each_closes mk f ks e :
  closes mk f → tool_inv ks None H D e →
  wp (each f ks) (λ _ e', tool_inv [] None H D e' ∧ closed mk ks e e') F e.
Proof.
  intros Hf. revert e. induction ks as [|k ks IH]; intros e Hi; cbn [each].
  - apply wp_ret. split; [done|apply closed_nil].
  - pose proof (proj1 (ti_closing _ _ _ _ _ Hi)) as [Hni _]%NoDup_cons.
    apply wp_bind. eapply wp_mono; [|by apply Hf]. intros [] e1 [Hi1 H1].
    eapply wp_mono; [|by apply IH]. intros [] e2 [Hi2 H2].
    split; [done|by eapply closed_cons].
Qed.

(** The four methods that end with the completion. *)
Lemma closes_with cancel mk audit out :
  closing_status mk →
  (∀ r o Q e, after_cancel r o e Q → wp (cancel r o) Q F e) →
  closes mk (λ k,
    '(request, subject, accepted_sequence, operation_id) ← take_active_request k;
    cancellation ← cancel request operation_id;
    set_request_status k (mk operation_id cancellation) ;;
    emit_audit (Some subject) (audit operation_id cancellation) ;;
    push_terminal_completion request accepted_sequence operation_id (out cancellation)).
Proof.
  intros Hmk Hcancel k ks e Hi.
  apply (wp_closing ks H D k e cancel mk audit
    (λ request seq op c, push_terminal_completion request seq op (out c))); [done..|].
  intros st c e' Hk Ha Hi' Hs. eapply wp_push_completion; [done|].
  intros e2 Hi2 Hp. split; [done|by eapply closed_step].
Qed.

Ltac solve_closing := intros o c; split_and!; auto.

Lemma detach_closes : closes Req_ProviderDetached detach_request_from_provider.
Proof.
  apply (closes_with cancel_detached Req_ProviderDetached Audit_RequestProviderDetached
    Out_ProviderDetached); [solve_closing|apply wp_cancel_detached].
Qed.

Lemma supersede_closes g :
  closes (λ o c, Req_Superseded o c g) (λ k, supersede_request k g).
Proof.
  apply (closes_with (λ r o, cancel_if_dispatched r o Cancel_GenerationSuperseded)
    (λ o c, Req_Superseded o c g) (λ o c, Audit_RequestSuperseded o c g) (Out_Superseded g));
    [solve_closing|by intros; apply wp_cancel_if_dispatched].
Qed.

Lemma timeout_closes : closes Req_TimedOut timeout_request.
Proof.
  apply (closes_with (λ r o, cancel_if_dispatched r o Cancel_DeadlineElapsed)
    Req_TimedOut Audit_RequestTimedOut Out_TimedOut);
    [solve_closing|by intros; apply wp_cancel_if_dispatched].
Qed.

Definition close_mk (kind : RequestCloseKind) : closing_mk :=
  match kind with Close_Instance => Req_InstanceClosed | Close_Client => Req_ClientClosed end.

Lemma close_closes kind : closes (close_mk kind) (close_request kind).
Proof.
  destruct kind.
  - apply (closes_with (λ r o, cancel_if_dispatched r o Cancel_InstanceClosed)
      Req_InstanceClosed Audit_RequestInstanceClosed Out_InstanceClosed);
      [solve_closing|by intros; apply wp_cancel_if_dispatched].
  - apply (closes_with (λ r o, cancel_if_dispatched r o Cancel_ClientClosed)
      Req_ClientClosed Audit_RequestClientClosed Out_ClientClosed);
      [solve_closing|by intros; apply wp_cancel_if_dispatched].
Qed.

Lemma revoke_closes : closes Req_GrantRevoked revoke_request.
Proof.
  intros k ks e Hi.
  apply (wp_closing ks H D k e (λ r o, cancel_if_dispatched r o Cancel_GrantRevoked)
    Req_GrantRevoked Audit_RequestGrantRevoked
    (λ request _ op c, e ← get_state; state ← expect (te_requests e !! k);
       push_terminal_completion request (sequence_in state) op (Out_GrantRevoked c)));
    [done|solve_closing|by intros; apply wp_cancel_if_dispatched|].
  intros st c e' Hk Ha Hi' Hs.
  apply wp_bind, wp_get, wp_bind, wp_expect; rewrite (cs_requests _ _ _ _ _ _ Hs), lookup_insert_eq;
    [done|]. intros st' [= <-].
  eapply wp_push_completion; [exact Hi'|]. intros e2 Hi2 Hp. split; [done|by eapply closed_step].
Qed.
End closers.
