(* ===== verification/ToolSteps.v ===== *)
(** * The methods of the tool engine

    What each method of the engine does from a state with the invariant: it does
    not panic, an error leaves the state as it was, and a success keeps the
    invariant and changes exactly what its lemma says. *)

From S2P Require Import Prelude RustStr RustOrd Ids ToolTypes ToolEngine ToolInv ToolFacts.

Local Open Scope N_scope.

Abbreviation tinv H D e := (tool_inv [] None H D e).

(** ** Changing the policy *)

Definition set_policy (t : N) (g : gmap AgentInstanceId SessionGeneration)
    (s : gmap AgentInstanceId ToolInstanceState)
    (p : gmap ToolProviderId CapabilityProviderDescriptor) (gr : gmap PolicyKey GrantMode)
    (e : ToolEngine) : ToolEngine :=
  e <| te_current_tick := t |> <| te_generations := g |> <| te_instance_states := s |>
    <| te_providers := p |> <| te_grants := gr |>.

Lemma set_policy_inv ks0 ks H D t g s p gr e e1 :
  tool_inv ks0 None H D e → e1 = set_policy t g s p gr e →
  grants_inv g s p gr → providers_inv p →
  N.of_nat (size p) <= TOOL_PROVIDERS_MAX → N.of_nat (size gr) <= TOOL_POLICIES_MAX →
  authority_inv ks t gr (te_requests e) → closing ks (te_requests e) →
  tool_inv ks None H D e1.
Proof.
  intros Hi -> Hg Hp Hps Hgs Ha Hc. open_inv Hi. split; try done.
  - destruct Ib. by split.
  - destruct Iau. by split.
Qed.

(** The targets of a method are about to be closed. *)
Lemma set_aside p H D e :
  tinv H D e → tool_inv (active_requests_where p e) None H D e.
Proof.
  intros Hi. open_inv Hi. split; try done.
  - by apply authority_set_aside with (tick := te_current_tick e) (grants := te_grants e).
  - apply closing_where.
Qed.

Lemma elem_of_active_where p e k :
  k ∈ active_requests_where p e ↔
  ∃ st, te_requests e !! k = Some st ∧ p k (rst_request st) = true ∧ active st = true.
Proof.
  unfold active_requests_where. rewrite elem_of_keys_where.
  by setoid_rewrite andb_true_iff.
Qed.

(** What is active after closing the targets was active before and no target. *)
Lemma closed_active mk p e e' k st :
  closing_status mk → closed mk (active_requests_where p e) e e' →
  te_requests e' !! k = Some st → active st = true →
  te_requests e !! k = Some st ∧ p k (rst_request st) = false.
Proof.
  intros Hmk Hc Hk Ha. destruct (decide (k ∈ active_requests_where p e)) as [Hin|Hni].
  - exfalso. destruct (cl_closed _ _ _ _ Hc k Hin) as (st0 & c & _ & _ & H').
    rewrite Hk in H'. injection H' as ->. unfold active in Ha. cbn in Ha.
    by rewrite (proj1 (Hmk _ c)) in Ha.
  - rewrite <- (cl_others _ _ _ _ Hc k Hni). split; [done|].
    destruct (p k (rst_request st)) eqn:E; [|done]. exfalso. apply Hni.
    apply elem_of_active_where. exists st. by rewrite <- (cl_others _ _ _ _ Hc k Hni).
Qed.

Lemma request_matches_key_spec r key : request_matches_key r key = true ↔ policy_key r = key.
Proof.
  unfold request_matches_key. rewrite !andb_true_iff, !bool_decide_eq_true.
  destruct key. unfold policy_key. cbn. split; [by intros; destruct_and!; subst|].
  by intros [= <- <- <- <- <- <- <-].
Qed.

Lemma authorized_same gr gr' t st :
  gr' !! policy_key (rst_request st) = gr !! policy_key (rst_request st) →
  authorized gr t st → authorized gr' t st.
Proof. unfold authorized. by intros ->. Qed.

(** *** Purging grants *)

Lemma lookup_foldr_delete {K V} `{Countable K} (m : gmap K V) l k :
  foldr delete m l !! k = if decide (k ∈ l) then None else m !! k.
Proof.
  induction l as [|k' l IH]; cbn [foldr]; [by rewrite decide_False by apply not_elem_of_nil|].
  destruct (decide (k = k')) as [->|Hne].
  - rewrite lookup_delete_eq, decide_True by left. done.
  - rewrite lookup_delete_ne, IH by done. destruct (decide (k ∈ l)) as [Hin|Hni].
    + by rewrite decide_True by (by right).
    + rewrite decide_False; [done|]. by rewrite not_elem_of_cons.
Qed.

Lemma size_foldr_delete {K V} `{Countable K} (m : gmap K V) l :
  (size (foldr delete m l) <= size m)%nat.
Proof.
  induction l as [|k l IH]; cbn [foldr]; [done|]. rewrite map_size_delete.
  destruct (_ !! k); unfold id; lia.
Qed.

(** [gr'] is [gr] without the keys that have [p]. *)
Record purged (p : PolicyKey → bool) (gr gr' : gmap PolicyKey GrantMode) : Prop := {
  pg_lookup : ∀ k, gr' !! k = if p k then None else gr !! k;
  pg_size : (size gr' <= size gr)%nat
}.

Lemma wp_purge_grants F p (Q : N → ToolEngine → Prop) e :
  (∀ gr n, purged p (te_grants e) gr → n = count (λ k _, p k) (te_grants e) →
    Q n (e <| te_grants := gr |>)) → wp (purge_grants p) Q F e.
Proof.
  intros HQ. apply wp_bind, wp_get, wp_bind, wp_modify, wp_ret. cbn zeta.
  apply HQ; [|apply len_keys_where]. split; [|apply size_foldr_delete].
  intros k. rewrite lookup_foldr_delete. destruct (p k) eqn:E.
  - destruct (te_grants e !! k) as [mode|] eqn:Ek.
    + rewrite decide_True; [done|]. apply elem_of_keys_where. by exists mode.
    + by destruct (decide _).
  - rewrite decide_False; [done|]. intros (mode & _ & Hp)%elem_of_keys_where. congruence.
Qed.

Lemma purged_grants p gens states provs gr gr' :
  purged p gr gr' → grants_inv gens states provs gr → grants_inv gens states provs gr'.
Proof.
  intros Hp [G W]. split; [|done]. intros key Hs. apply G.
  rewrite (pg_lookup _ _ _ Hp) in Hs. by destruct (p key); [apply is_Some_None in Hs|].
Qed.

(** [r] depends only on grants that [p] spares. *)
Lemma purged_authority q p gr gr' t m :
  purged p gr gr' → authority_inv [] t gr m →
  (∀ k st, m !! k = Some st → p (policy_key (rst_request st)) = true → q k (rst_request st) = true) →
  authority_inv (keys_where (λ k st, q k (rst_request st) && active st) m) t gr' m.
Proof.
  intros Hp Ha Hq. eapply authority_set_aside; [done|]. intros k st Hk _ Hqk.
  apply authorized_same. rewrite (pg_lookup _ _ _ Hp).
  destruct (p _) eqn:E; [|done]. rewrite (Hq k st Hk E) in Hqk. done.
Qed.

(** ** Registration, grants and instances *)

(** From a state with the invariant [m] does not panic; an error leaves the
    state as it was, a success keeps the invariant and ends with [Q]. *)
Definition tool_ok {A} (H : list CapabilityEffectEnvelope)
    (D : list CapabilityCompletionEnvelope) (m : ToolM A) (Q : A → ToolEngine → Prop)
    (e : ToolEngine) : Prop :=
  wp m (λ a e', tinv H D e' ∧ Q a e') (λ _ e', e' = e) e.

Lemma weaken_failure {A} (m : ToolM A) H D (Q : A → ToolEngine → Prop)
    (F : ToolEngineError → Prop) e :
  wp m (λ a e', tinv H D e' ∧ Q a e') (λ error e', e' = e ∧ F error) e → tool_ok H D m Q e.
Proof. unfold tool_ok, wp. destruct (m e) as [[]]; naive_solver. Qed.

(** [e'] differs from [e1] in the revision and the log, and keeps the invariant. *)
Lemma tool_ok_quiet {A} H D subject event (a : A) (Q : A → ToolEngine → Prop)
    (F : ToolEngineError → ToolEngine → Prop) e1 :
  tinv H D e1 → (∀ e', quiet_step e1 e' → Q a e') →
  wp (tool_bump_revision ;; emit_audit subject event ;; mret a)
    (λ a e', tinv H D e' ∧ Q a e') F e1.
Proof.
  intros Hi HQ. apply wp_bump_audit. intros e' Hq. split; [by eapply quiet_inv|by apply HQ].
Qed.

Lemma tool_ok_quiet_unit H D subject event (Q : unit → ToolEngine → Prop)
    (F : ToolEngineError → ToolEngine → Prop) e1 :
  tinv H D e1 → (∀ e', quiet_step e1 e' → Q tt e') →
  wp (tool_bump_revision ;; emit_audit subject event)
    (λ a e', tinv H D e' ∧ Q a e') F e1.
Proof.
  intros Hi HQ. apply wp_bind, wp_tool_bump. intros e2 H2. apply wp_audit. intros e' H'.
  assert (Hq : quiet_step e1 e') by (by etransitivity).
  split; [by eapply quiet_inv|by apply HQ].
Qed.

Section methods.
Context (H : list CapabilityEffectEnvelope) (D : list CapabilityCompletionEnvelope).
Implicit Types (e : ToolEngine).

Lemma grants_new_provider g s p gr d :
  grants_inv g s p gr → p !! pd_id d = None → grants_inv g s (<[pd_id d := d]> p) gr.
Proof.
  intros [G W] Hd. split; [|done]. intros key Hk. destruct (G key Hk) as ((q & Hq & Hr) & Hs).
  split; [|done]. exists q. split; [|done]. rewrite lookup_insert_ne; [done|]. congruence.
Qed.

(** What registering adds. *)
Record registered (d : CapabilityProviderDescriptor) (e e' : ToolEngine) : Prop := {
  rg_valid : CapabilityProviderDescriptor_validate d = Ok tt;
  rg_new : te_providers e !! pd_id d = None;
  rg_room : N.of_nat (size (te_providers e)) < TOOL_PROVIDERS_MAX;
  rg_same : quiet_step
    (e <| te_providers ::= <[pd_id d := d <| pd_capabilities ::= sort_by cd_id |>]> |>) e'
}.

Lemma register_provider_ok d e :
  tinv H D e → tool_ok H D (register_provider d) (λ _, registered d e) e.
Proof.
  intros Hi. apply wp_bind, wp_lift_result; [done|]. intros [] Hv.
  apply wp_bind, wp_get, wp_bind, wp_fail_when; [done|]. intros Hnew.
  apply wp_bind, wp_fail_when; [done|]. intros Hroom. bool_prop.
  unfold provider_exists in Hnew. bool_prop. apply eq_None_not_Some in Hnew.
  set (d' := d <| pd_capabilities ::= sort_by cd_id |>).
  apply wp_bind, wp_modify, tool_ok_quiet_unit; [|by intros e' Hq].
  eapply (set_policy_inv [] [] H D _ _ _ (<[pd_id d' := d']> (te_providers e)));
    [exact Hi|reflexivity|..]; open_inv Hi.
  - by apply (grants_new_provider _ _ _ _ d').
  - intros i q [[<- <-]|[_ Hq]]%lookup_insert_Some; [|by apply Ipr].
    split; [done|]. by exists d.
  - rewrite map_size_insert_None by done. lia.
  - apply Ib.
  - done.
  - apply closing_nil.
Qed.

(** *** Grants *)

(** The requests that rest on a grant are revoked, all others are kept. *)
Definition revoked (key : PolicyKey) (e e' : ToolEngine) : Prop :=
  closed Req_GrantRevoked (active_requests_for_key key e) e e'.

Lemma revoke_closing : closing_status Req_GrantRevoked.
Proof. intros o c. split_and!; auto. Qed.

Lemma wp_revoke_all key e (F : ToolEngineError → ToolEngine → Prop) :
  tinv H D e →
  wp (each revoke_request (active_requests_for_key key e))
    (λ _ e', tinv H D e' ∧ revoked key e e') F e.
Proof. intros Hi. apply wp_each_closes; [apply revoke_closes|by apply set_aside]. Qed.

(** Every condition of a grant. *)
Definition grantable (grant : PolicyGrant) (e : ToolEngine) : Prop :=
  grant_wf (te_generations e) (te_instance_states e) (te_providers e) (pg_key grant)
  ∧ (te_grants e !! pg_key grant = None → N.of_nat (size (te_grants e)) < TOOL_POLICIES_MAX).

(** A grant of the same mode changes nothing; a new mode revokes what rests on
    the old one. *)
Definition granted (grant : PolicyGrant) (e e' : ToolEngine) : Prop :=
  if bool_decide (te_grants e !! pg_key grant = Some (pg_mode grant)) then e' = e
  else ∃ e1, (if bool_decide (te_grants e !! pg_key grant = None) then e1 = e
              else revoked (pg_key grant) e e1)
         ∧ quiet_step (e1 <| te_grants ::= <[pg_key grant := pg_mode grant]> |>) e'.

Lemma grant_inv grant e :
  tinv H D e → grantable grant e →
  (∀ k st, te_requests e !! k = Some st → active st = true →
    policy_key (rst_request st) ≠ pg_key grant) →
  tinv H D (e <| te_grants ::= <[pg_key grant := pg_mode grant]> |>).
Proof.
  intros Hi [Hwf Hroom] Hne.
  eapply (set_policy_inv [] [] H D _ _ _ _ (<[pg_key grant := pg_mode grant]> (te_grants e)));
    [exact Hi|reflexivity|..]; open_inv Hi.
  - split; [|apply Ig]. intros key [mode [[<- <-]|[_ Hk]]%lookup_insert_Some]; [done|].
    apply Ig. by exists mode.
  - done.
  - apply Ib.
  - rewrite map_size_insert. destruct Ib. destruct (te_grants e !! pg_key grant); [done|].
    specialize (Hroom eq_refl). lia.
  - intros k st Hk Ha Hni. apply (authorized_same (te_grants e)); [|by apply (Ia k)].
    rewrite lookup_insert_ne; [done|]. apply not_eq_sym. by apply (Hne k).
  - apply closing_nil.
Qed.

Lemma no_grant_no_active key e :
  tinv H D e → te_grants e !! key = None →
  ∀ k st, te_requests e !! k = Some st → active st = true → policy_key (rst_request st) ≠ key.
Proof.
  intros Hi Hk k st Hst Ha <-. destruct (ti_authority _ _ _ _ _ Hi k st Hst Ha) as [E _];
    [apply not_elem_of_nil|]. rewrite Hk in E. done.
Qed.

Lemma set_grant_ok grant e :
  tinv H D e →
  wp (set_grant grant) (λ _ e', tinv H D e' ∧ grantable grant e ∧ granted grant e e')
    (λ _ e', e' = e ∧ ¬ grantable grant e) e.
Proof.
  intros Hi. apply wp_bind, wp_get, wp_bind, wp_lift_option; cbn [pg_key].
  { intros Hno. split; [done|]. intros [((p & ? & _) & _) _]. congruence. }
  intros p Hp.
  apply wp_bind, wp_fail_when; intros Hcap; bool_prop.
  { split; [done|]. intros [((q & Hq & ? & _) & _) _]. congruence. }
  apply wp_bind. destruct (foreign_owner _ _) eqn:Hown.
  { split; [done|]. intros [((q & Hq & _ & ?) & _) _]. congruence. }
  apply wp_ret, wp_bind, wp_lift_option.
  { intros Hno. split; [done|]. intros [(_ & ? & _) _]. congruence. }
  intros g Hg. apply wp_bind, wp_fail_when; intros Hact; bool_prop.
  { split; [done|]. intros [(_ & _ & Hs) _]. unfold instance_active in Hact.
    by rewrite Hs in Hact. }
  apply wp_bind, wp_fail_when; intros Hgen; bool_prop.
  { split; [done|]. intros [(_ & ? & _) _]. congruence. }
  apply dec_stable in Hgen. subst g.
  unfold instance_active in Hact. bool_prop. cbn zeta. set (key := pg_key grant) in *.
  assert (Hwf : grant_wf (te_generations e) (te_instance_states e) (te_providers e) key).
  { split; [by exists p|done]. }
  destruct (bool_decide (te_grants e !! key = Some (pg_mode grant))) eqn:Esame.
  { apply wp_ret. bool_prop. split; [done|split].
    - split; [done|]. fold key. congruence.
    - unfold granted. by rewrite bool_decide_eq_true_2. }
  apply wp_bind, wp_fail_when; intros Hroom.
  { split; [done|]. intros [_ Hr].
    apply andb_true_iff in Hroom as [Hnone%bool_decide_eq_true Hfull%N.leb_le].
    specialize (Hr Hnone). lia. }
  assert (Hok : grantable grant e).
  { split; [done|]. intros Hnone. rewrite bool_decide_eq_true_2 in Hroom by done. cbn in Hroom.
    by bool_prop. }
  unfold granted. fold key. rewrite Esame. apply wp_bind.
  destruct (te_grants e !! key) as [mode|] eqn:Eprev.
  - rewrite (bool_decide_eq_true_2 (is_Some _)) by done.
    eapply wp_mono; [|by apply wp_revoke_all]. intros [] e1 [Hi1 Hrev].
    pose proof (cl_policy _ _ _ _ Hrev) as Hpol.
    apply wp_bind, wp_modify, tool_ok_quiet_unit.
    + apply grant_inv; [done| |].
      * split; [by same_rewrite Hpol|]. rewrite (sp_grants _ _ Hpol). fold key. congruence.
      * intros k st Hk Ha. destruct (closed_active _ _ _ _ _ _ revoke_closing Hrev Hk Ha) as [_ Hno].
        fold key. intros E%request_matches_key_spec. congruence.
    + intros e' Hq. split; [done|]. exists e1. by rewrite bool_decide_eq_false_2.
  - rewrite (bool_decide_eq_false_2 (is_Some _)) by (by intros [? ?]).
    apply wp_ret, wp_bind, wp_modify, tool_ok_quiet_unit.
    + apply grant_inv; [done..|]. by apply no_grant_no_active.
    + intros e' Hq. split; [done|]. exists e. by rewrite bool_decide_eq_true_2.
Qed.

Lemma revoke_grant_ok key e :
  tinv H D e →
  tool_ok H D (revoke_grant key) (λ existed e',
    if existed then
      is_Some (te_grants e !! key)
      ∧ ∃ e1, revoked key (e <| te_grants ::= delete key |>) e1 ∧ quiet_step e1 e'
    else te_grants e !! key = None ∧ e' = e) e.
Proof.
  intros Hi. apply wp_bind, wp_get.
  destruct (bool_decide (te_grants e !! key = None)) eqn:Ek; bool_prop; [by apply wp_ret|].
  apply wp_bind, wp_modify. apply wp_bind.
  assert (Hi1 : tool_inv (active_requests_for_key key e) None H D
                  (e <| te_grants ::= delete key |>)).
  { eapply (set_policy_inv [] _ H D _ _ _ _ (delete key (te_grants e)));
      [exact Hi|reflexivity|..]; open_inv Hi.
    - split; [|apply Ig]. intros k [mode [_ Hk]%lookup_delete_Some]. apply Ig. by exists mode.
    - done.
    - apply Ib.
    - rewrite map_size_delete. destruct Ib. destruct (te_grants e !! key); cbn; unfold id; lia.
    - apply authority_set_aside with (tick := te_current_tick e) (grants := te_grants e); [done|].
      intros k st Hk _ Hno. apply authorized_same. rewrite lookup_delete_ne; [done|].
      intros E. symmetry in E. apply request_matches_key_spec in E. congruence.
    - apply closing_where. }
  eapply wp_mono; [|apply wp_each_closes; [apply revoke_closes|exact Hi1]].
  intros [] e1 [Hi2 Hc]. apply tool_ok_quiet; [done|]. intros e' Hq. split; [|by exists e1].
  by apply not_eq_None_Some.
Qed.

(** *** Instances *)

(** [e] with other generations, states and grants. *)
Definition set_instances (g : gmap AgentInstanceId SessionGeneration)
    (s : gmap AgentInstanceId ToolInstanceState) (gr : gmap PolicyKey GrantMode)
    (e : ToolEngine) : ToolEngine :=
  set_policy (te_current_tick e) g s (te_providers e) gr e.

Lemma set_instances_inv ks0 ks g s gr e e1 :
  tool_inv ks0 None H D e → e1 = set_instances g s gr e →
  grants_inv g s (te_providers e) gr →
  (size gr <= size (te_grants e))%nat →
  authority_inv ks (te_current_tick e) gr (te_requests e) → closing ks (te_requests e) →
  tool_inv ks None H D e1.
Proof.
  intros Hi -> Hg Hs Ha Hc. eapply set_policy_inv; [exact Hi|reflexivity|done|..|done|done];
    open_inv Hi; [done|apply Ib|]. destruct Ib. lia.
Qed.

Definition of_instance (i : AgentInstanceId) (key : PolicyKey) : bool :=
  bool_decide (pk_instance_id key = i).

Lemma supersede_closing g : closing_status (λ o c, Req_Superseded o c g).
Proof. intros o c. split_and!; auto. Qed.

Lemma grants_new_generation i g gens states provs gr gr' :
  purged (λ key, of_instance i key && bool_decide (pk_generation key ≠ g)) gr gr' →
  grants_inv gens states provs gr → gens !! i ≠ Some g →
  grants_inv (<[i := g]> gens) (<[i := default Instance_Active (states !! i)]> states) provs gr'.
Proof.
  intros Hp [G W] Hne. split.
  - intros key Hk. rewrite (pg_lookup _ _ _ Hp) in Hk.
    destruct (of_instance i key && _) eqn:E; [by apply is_Some_None in Hk|].
    destruct (G key Hk) as (Hpr & Hg & Hs).
    assert (Hi : i ≠ pk_instance_id key).
    { intros ->. unfold of_instance in E. rewrite bool_decide_eq_true_2 in E by done. cbn in E.
      bool_prop. apply dec_stable in E. congruence. }
    split; [done|]. by rewrite !lookup_insert_ne by done.
  - intros j. rewrite !lookup_insert_is_Some, W. naive_solver.
Qed.

(** The requests of an instance that are not of generation [g]. *)
Definition stale_request (i : AgentInstanceId) (g : SessionGeneration)
    (_ : CapabilityRequestKey) (request : AcceptedRequest) : bool :=
  bool_decide (aq_instance_id request = i) && bool_decide (aq_generation request ≠ g).

Definition superseded (i : AgentInstanceId) (g : SessionGeneration) (e e' : ToolEngine) : Prop :=
  ∃ gr e1,
    purged (λ key, of_instance i key && bool_decide (pk_generation key ≠ g)) (te_grants e) gr
    ∧ closed (λ o c, Req_Superseded o c g)
        (active_requests_where (stale_request i g) e)
        (set_instances (<[i := g]> (te_generations e))
           (<[i := default Instance_Active (te_instance_states e !! i)]> (te_instance_states e))
           gr e) e1
    ∧ quiet_step e1 e'.

Lemma set_generation_ok i g e :
  tinv H D e →
  wp (set_generation i g) (λ _ e', tinv H D e'
      ∧ (∀ current, te_generations e !! i = Some current → generation_raw current <= generation_raw g)
      ∧ if bool_decide (te_generations e !! i = Some g) then e' = e else superseded i g e e')
    (λ _ e', e' = e ∧ ∃ current, te_generations e !! i = Some current
       ∧ generation_raw g < generation_raw current) e.
Proof.
  intros Hi. apply wp_bind, wp_get. cbn zeta. apply wp_bind, wp_fail_when; intros Hreg.
  { split; [done|]. destruct (te_generations e !! i) as [current|]; [|done].
    exists current. by bool_prop. }
  assert (Hle : ∀ current, te_generations e !! i = Some current →
    generation_raw current <= generation_raw g).
  { intros current Hc. rewrite Hc in Hreg. by bool_prop. }
  destruct (bool_decide _) eqn:Esame; [by apply wp_ret|]. bool_prop.
  apply wp_bind, wp_purge_grants. intros gr n Hp ->.
  apply wp_bind, wp_modify, wp_bind, wp_modify, wp_bind.
  eapply wp_mono; [|apply (wp_each_closes H D (λ o c, Req_Superseded o c g));
    [apply supersede_closes|]].
  - intros [] e1 [Hi1 Hc]. apply tool_ok_quiet_unit; [done|]. intros e' Hq. split; [done|].
    exists gr, e1. split_and!; [done|exact Hc|done].
  - eapply (set_instances_inv [] _ (<[i := g]> (te_generations e))
      (<[i := default Instance_Active (te_instance_states e !! i)]> (te_instance_states e)) gr e);
      [exact Hi|reflexivity|..]; open_inv Hi.
    + by eapply grants_new_generation.
    + apply Hp.
    + by apply (purged_authority (stale_request i g) _ _ _ _ _ Hp Ia).
    + apply (closing_where (stale_request i g)).
Qed.

Definition request_of (i : AgentInstanceId) (_ : CapabilityRequestKey)
    (request : AcceptedRequest) : bool := bool_decide (aq_instance_id request = i).

Lemma close_closing kind : closing_status (close_mk kind).
Proof. destruct kind; intros o c; split_and!; auto. Qed.

(** Without grants for an instance its state and generation are free. *)
Lemma grants_without i gens gens' states states' provs gr gr' :
  purged (of_instance i) gr gr' → grants_inv gens states provs gr →
  (∀ j, j ≠ i → gens' !! j = gens !! j ∧ states' !! j = states !! j) →
  (is_Some (gens' !! i) ↔ is_Some (states' !! i)) →
  grants_inv gens' states' provs gr'.
Proof.
  intros Hp [G W] Hj Hi. split.
  - intros key Hk. rewrite (pg_lookup _ _ _ Hp) in Hk.
    destruct (of_instance i key) eqn:E; [by apply is_Some_None in Hk|].
    unfold of_instance in E. bool_prop. destruct (G key Hk) as (Hpr & Hg & Hs).
    split; [done|]. by destruct (Hj _ E) as [-> ->].
  - intros j. destruct (decide (j = i)) as [->|Hne]; [done|]. destruct (Hj j Hne) as [-> ->]. apply W.
Qed.

(** The requests of an instance are closed and its grants purged. *)
Definition instance_closed (i : AgentInstanceId) (g : gmap AgentInstanceId SessionGeneration)
    (s : gmap AgentInstanceId ToolInstanceState) (e e1 : ToolEngine) : Prop :=
  ∃ gr, purged (of_instance i) (te_grants e) gr
    ∧ closed Req_InstanceClosed (active_requests_where (request_of i) e)
        (set_instances g s gr e) e1.

Lemma wp_close_instance i s gr e e0 (F : ToolEngineError → ToolEngine → Prop) :
  tinv H D e → e0 = set_instances (te_generations e) s gr e →
  purged (of_instance i) (te_grants e) gr →
  (∀ j, j ≠ i → s !! j = te_instance_states e !! j) →
  (is_Some (te_generations e !! i) ↔ is_Some (s !! i)) →
  wp (each (close_request Close_Instance) (active_requests_where (request_of i) e))
    (λ _ e1, tinv H D e1 ∧ instance_closed i (te_generations e) s e e1) F e0.
Proof.
  intros Hi -> Hp Hs Hi'. eapply wp_mono;
    [|apply (wp_each_closes H D Req_InstanceClosed); [apply (close_closes _ _ Close_Instance)|]].
  - intros [] e1 [Hi1 Hc]. split; [done|by exists gr].
  - eapply set_instances_inv; [exact Hi|reflexivity|..]; open_inv Hi.
    + eapply grants_without; [done|done| |done]. intros j Hj. split; [done|by apply Hs].
    + apply Hp.
    + by apply (purged_authority (request_of i) _ _ _ _ _ Hp Ia).
    + apply (closing_where (request_of i)).
Qed.

Definition instance_state_set (i : AgentInstanceId) (g : SessionGeneration)
    (state : ToolInstanceState) (e e' : ToolEngine) : Prop :=
  te_generations e !! i = Some g ∧
  if bool_decide (te_instance_states e !! i = Some state) then e' = e
  else
    let states := <[i := state]> (te_instance_states e) in
    ∃ e1, quiet_step e1 e' ∧
      if bool_decide (state = Instance_Inactive) then
        instance_closed i (te_generations e) states e e1
      else e1 = set_instances (te_generations e) states (te_grants e) e.

Lemma set_instance_state_ok i g state e :
  tinv H D e →
  tool_ok H D (set_instance_state i g state) (λ _, instance_state_set i g state e) e.
Proof.
  intros Hi. apply wp_bind, wp_get, wp_bind, wp_lift_option; [done|]. intros g' Hg.
  apply wp_bind, wp_fail_when; [done|]. intros Hgen. bool_prop. apply dec_stable in Hgen. subst g'.
  unfold instance_state_set. destruct (bool_decide (te_instance_states e !! i = _)) eqn:Esame.
  { by apply wp_ret. }
  bool_prop. apply wp_bind.
  destruct (bool_decide (state = Instance_Inactive)) eqn:Ei; bool_prop.
  - apply wp_bind, wp_purge_grants. intros gr n Hp ->. apply wp_bind, wp_modify, wp_bind.
    eapply wp_mono; [|eapply (wp_close_instance i (<[i := state]> (te_instance_states e)) gr e)];
      [|exact Hi|reflexivity|exact Hp| |].
    + intros [] e1 [Hi1 Hc]. apply wp_ret, tool_ok_quiet_unit; [done|].
      intros e' Hq. split; [done|by exists e1].
    + intros j Hj. by rewrite lookup_insert_ne.
    + rewrite lookup_insert_eq, Hg. done.
  - apply wp_bind, wp_modify, wp_ret, tool_ok_quiet_unit.
    + eapply (set_instances_inv [] [] (te_generations e) (<[i := state]> (te_instance_states e))
        (te_grants e) e); [exact Hi|reflexivity|..]; open_inv Hi; [|done|done|apply closing_nil].
      destruct Ig as [G W]. split.
      * intros key Hk. destruct (G key Hk) as (Hpr & Hg' & Hs). split_and!; [done..|].
        rewrite lookup_insert_ne; [done|]. intros ->. destruct state; congruence.
      * intros j. rewrite lookup_insert_is_Some, W. destruct (decide (i = j)) as [->|]; [|naive_solver].
        split; [naive_solver|]. intros _. apply W. by exists g.
    + intros e' Hq. split; [done|]. eexists. split; [exact Hq|done].
Qed.

Lemma remove_instance_ok i e :
  tinv H D e →
  tool_ok H D (remove_instance i) (λ removed e',
    if removed then
      is_Some (te_generations e !! i)
      ∧ ∃ e1, instance_closed i (te_generations e) (te_instance_states e) e e1
        ∧ quiet_step (set_instances (delete i (te_generations e1))
                        (delete i (te_instance_states e1)) (te_grants e1) e1) e'
    else te_generations e !! i = None ∧ e' = e) e.
Proof.
  intros Hi. apply wp_bind, wp_get.
  destruct (te_generations e !! i) as [g|] eqn:Eg; [|by apply wp_ret].
  apply wp_bind, wp_purge_grants. intros gr n Hp ->. apply wp_bind.
  eapply wp_mono;
    [|eapply (wp_close_instance i (te_instance_states e) gr e); [exact Hi|reflexivity|exact Hp|done|]].
  2: { rewrite <- (proj2 (ti_grants _ _ _ _ _ Hi) i). done. }
  intros [] e1 [Hi1 (gr1 & Hp1 & Hc)]. pose proof (cl_policy _ _ _ _ Hc) as Hpol.
  apply wp_bind, wp_modify, wp_bind, wp_modify, tool_ok_quiet.
  - eapply (set_instances_inv [] [] (delete i (te_generations e1))
      (delete i (te_instance_states e1)) (te_grants e1) e1);
      [exact Hi1|reflexivity|..|apply Hi1|apply closing_nil]; [|done].
    same_rewrite Hpol. eapply (grants_without i); [exact Hp1|apply Hi|..].
    + intros j Hj. cbn. by rewrite !lookup_delete_ne by done.
    + cbn. by rewrite !lookup_delete_eq.
  - intros e' Hq. split; [done|]. exists e1. split; [by exists gr1|exact Hq].
Qed.

(** ** Clients, provider runtimes and time *)

Definition request_by (c : ConsumerId) (a : ToolActorId) (key : CapabilityRequestKey)
    (_ : AcceptedRequest) : bool :=
  bool_decide (rk_consumer_id key = c) && bool_decide (rk_actor_id key = a).
Definition grant_to (c : ConsumerId) (a : ToolActorId) (key : PolicyKey) : bool :=
  bool_decide (pk_consumer_id key = c) && bool_decide (pk_actor_id key = a).

(** The grants of a client are purged and its active requests closed. *)
Definition client_closed (c : ConsumerId) (a : ToolActorId) (e e' : ToolEngine) : Prop :=
  ∃ gr e1, purged (grant_to c a) (te_grants e) gr
    ∧ closed Req_ClientClosed (active_requests_where (request_by c a) e)
        (e <| te_grants := gr |>) e1
    ∧ quiet_step e1 e'.

Lemma close_client_ok c a e :
  tinv H D e →
  tool_ok H D (close_client c a) (λ outcome e',
    outcome = ClientClosed (count (λ key _, grant_to c a key) (te_grants e))
                (client_active c a e)
    ∧ client_closed c a e e') e.
Proof.
  intros Hi. apply wp_bind, wp_purge_grants. intros gr n Hp ->. apply wp_bind, wp_get. cbn zeta.
  apply wp_bind. eapply wp_mono; [|apply (wp_each_closes H D Req_ClientClosed);
    [apply (close_closes _ _ Close_Client)|]].
  - intros [] e1 [Hi1 Hc]. apply tool_ok_quiet; [done|]. intros e' Hq. split; [done|].
    by exists gr, e1.
  - eapply (set_policy_inv [] _ H D _ _ _ _ gr e); [exact Hi|reflexivity|..]; open_inv Hi.
    + by eapply purged_grants.
    + done.
    + apply Ib.
    + pose proof (pg_size _ _ _ Hp). destruct Ib. lia.
    + apply (purged_authority (request_by c a) _ _ _ _ _ Hp Ia). intros k st Hk.
      unfold policy_key. cbn. by rewrite (qw_key _ _ _ _ (qi_wf _ _ _ Iq _ _ Hk)).
    + apply (closing_where (request_by c a)).
Qed.

(** *** Provider runtimes *)

Lemma len_sublist {A} (l l' : list A) : sublist l l' → len l <= len l'.
Proof. intros Hs%sublist_length. unfold len. lia. Qed.

(** Dropping queued effects that belong to no dispatched request. *)
Lemma drop_effects_inv p e :
  tinv H D e →
  (∀ k st op ef, te_requests e !! k = Some st → dispatched_operation (status_in st) = Some op →
    invokes_request st op ef → p ef = true) →
  tinv H D (e <| te_effects := retain p (te_effects e) |>).
Proof.
  intros Hi Hp. pose proof (retain_sublist p (te_effects e)) as Hs. open_inv Hi. split; try done.
  - by eapply stream_sublist.
  - intros k st Hk. eapply (link_shrink _ _ _ _ (λ _, True) Il Hs); [|exact Hk|done].
    intros k1 st1 op ef H1 _ Hd Hef Hin. apply elem_of_retain. split; [done|]. by eapply Hp.
  - destruct Ib. split; try done. cbn. etransitivity; [by apply len_sublist|done].
  - destruct Iau. by split.
Qed.

Definition request_at (p : ToolProviderId) (_ : CapabilityRequestKey)
    (request : AcceptedRequest) : bool := bool_decide (aq_provider_id request = p).

Lemma detach_closing : closing_status Req_ProviderDetached.
Proof. intros o c. split_and!; auto. Qed.

Definition detached (p : ToolProviderId) (e e' : ToolEngine) : Prop :=
  ∃ e1, closed Req_ProviderDetached (active_requests_where (request_at p) e) e e1
    ∧ quiet_step (e1 <| te_effects :=
        retain (λ ef, negb (bool_decide (cf_provider_id ef = p))) (te_effects e1) |>) e'.

Lemma detach_ok p e :
  tinv H D e →
  wp (detach_provider_runtime p)
    (λ n e', tinv H D e' ∧ is_Some (te_providers e !! p)
       ∧ n = len (active_requests_where (request_at p) e) ∧ detached p e e')
    (λ _ e', e' = e ∧ te_providers e !! p = None) e.
Proof.
  intros Hi. apply wp_bind, wp_get, wp_bind, wp_fail_when; unfold provider_exists; intros Hp; bool_prop.
  { split; [done|]. by apply eq_None_not_Some. }
  cbn zeta. apply wp_bind.
  eapply wp_mono; [|apply (wp_each_closes H D Req_ProviderDetached);
    [apply detach_closes|by apply (set_aside (request_at p))]].
  intros [] e1 [Hi1 Hc]. apply wp_bind, wp_get. cbn zeta.
  apply wp_bind, wp_modify. set (e2 := e1 <| te_effects := _ |>).
  assert (Hi2 : tinv H D e2).
  { apply drop_effects_inv; [done|]. intros k st op ef Hk Hd (_ & _ & _ & Hpr).
    destruct (closed_active _ _ _ _ _ _ detach_closing Hc Hk (dispatched_active _ _ Hd)) as [_ Hno].
    unfold request_at in Hno. bool_prop. apply negb_true_iff, bool_decide_eq_false. congruence. }
  apply wp_bind. destruct (_ || _).
  - apply wp_tool_bump. intros e' Hq. apply wp_ret. split; [by eapply quiet_inv|].
    split_and!; [done..|by exists e1].
  - apply wp_ret, wp_ret. split; [done|]. split_and!; [done..|by exists e1].
Qed.

(** *** Time *)

Definition expires (tick : N) (_ : CapabilityRequestKey) (request : AcceptedRequest) : bool :=
  aq_deadline_tick request <=? tick.

Lemma timeout_closing : closing_status Req_TimedOut.
Proof. intros o c. split_and!; auto. Qed.

Definition advanced (tick : N) (e e' : ToolEngine) : Prop :=
  ∃ e1, closed Req_TimedOut (active_requests_where (expires tick) e)
          (e <| te_current_tick := tick |>) e1
    ∧ quiet_step e1 e'.

Lemma advance_time_ok tick e :
  tinv H D e →
  wp (advance_time tick)
    (λ _ e', tinv H D e' ∧ te_current_tick e <= tick
       ∧ if tick =? te_current_tick e then e' = e else advanced tick e e')
    (λ _ e', e' = e ∧ tick < te_current_tick e) e.
Proof.
  intros Hi. apply wp_bind, wp_get, wp_bind, wp_fail_when; intros Ht; bool_prop; [done|].
  destruct (tick =? te_current_tick e) eqn:E; [by apply wp_ret|]. cbn zeta.
  apply wp_bind, wp_modify, wp_bind. eapply wp_mono;
    [|apply (wp_each_closes H D Req_TimedOut); [apply timeout_closes|]].
  - intros [] e1 [Hi1 Hc]. apply wp_tool_bump. intros e' Hq.
    split; [by eapply quiet_inv|]. split; [done|]. by exists e1.
  - eapply (set_policy_inv [] _ H D tick _ _ _ _ e); [exact Hi|reflexivity|..]; open_inv Hi;
      [done|done|apply Ib|apply Ib| |apply (closing_where (expires tick))].
    apply (authority_set_aside (expires tick) (te_current_tick e) _ (te_grants e)); [done|].
    intros k st _ _ Hex [Hg _]. unfold expires in Hex. bool_prop. by split.
Qed.
End methods.
