(* ===== verification/ToolRequests.v ===== *)
(** * Requests, approvals and observations of the tool engine

    The methods that accept a request, dispatch it and settle it: each keeps
    the invariant, changes exactly what its lemma says, and fails without a
    change. *)

From S2P Require Import Prelude RustStr RustOrd Ids ToolTypes ToolEngine ToolInv ToolFacts.
From S2P Require Import ToolSteps.

Local Open Scope N_scope.

(** ** Evicting the oldest terminal request *)

Lemma min_by_key_Some {A} (f : A → N) l x :
  min_by_key f l = Some x → x ∈ l ∧ ∀ y, y ∈ l → f x <= f y.
Proof.
  revert x. induction l as [|z l IH]; intros x; cbn; [done|].
  destruct (min_by_key f l) as [y|] eqn:E.
  - destruct (IH y eq_refl) as [Hy Hmin]. destruct (f z <=? f y) eqn:Ez; bool_prop; intros [= <-].
    + split; [left|]. intros w [->|Hw]%elem_of_cons; [done|]. specialize (Hmin w Hw). lia.
    + split; [by right|]. intros w [->|Hw]%elem_of_cons; [lia|by apply Hmin].
  - intros [= <-]. destruct l as [|w l]; [|cbn in E; by repeat case_match].
    split; [left|]. by intros w ->%list_elem_of_singleton.
Qed.

Lemma min_by_key_None {A} (f : A → N) l : min_by_key f l = None → l = [].
Proof. destruct l; cbn; [done|]. by repeat case_match. Qed.

(** [e1] is [e], or [e] without the oldest of its terminal requests when there
    is no room for a new one. *)
Inductive evicted (e : ToolEngine) : ToolEngine → Prop :=
| evicted_none : N.of_nat (size (te_requests e)) < TOOL_REQUESTS_MAX → evicted e e
| evicted_oldest k st :
    TOOL_REQUESTS_MAX <= N.of_nat (size (te_requests e)) →
    te_requests e !! k = Some st → active st = false →
    (∀ k' st', te_requests e !! k' = Some st' → active st' = false →
      sequence_in st <= sequence_in st') →
    evicted e (e <| te_requests ::= delete k |>).

Definition has_room (e : ToolEngine) : Prop :=
  N.of_nat (size (te_requests e)) < TOOL_REQUESTS_MAX
  ∨ ∃ k st, te_requests e !! k = Some st ∧ active st = false.

Lemma elem_of_terminal (m : requests_map) k st :
  (k, st) ∈ List.filter (λ entry, is_terminal (status_in (snd entry))) (btree_iter m)
  ↔ m !! k = Some st ∧ active st = false.
Proof.
  rewrite list_elem_of_In, filter_In, <- list_elem_of_In, elem_of_btree_iter. unfold active. cbn.
  by rewrite negb_false_iff.
Qed.

Lemma wp_ensure_room F (Q : unit → ToolEngine → Prop) e :
  (∀ e1, has_room e → evicted e e1 → Q tt e1) → (∀ error, ¬ has_room e → F error e) →
  wp ensure_request_capacity Q F e.
Proof.
  intros HQ HF. apply wp_bind, wp_get. destruct (_ <? _) eqn:E; bool_prop.
  { apply wp_ret, HQ; [by left|by constructor]. }
  cbn zeta. destruct (min_by_key _ _) as [[k st]|] eqn:Em.
  - apply min_by_key_Some in Em as [Hin Hmin]. apply elem_of_terminal in Hin as [Hk Ha].
    apply wp_modify, HQ; [right; eauto|]. cbn. eapply evicted_oldest; [done..|].
    intros k' st' Hk' Ha'. apply (Hmin (k', st')). by apply elem_of_terminal.
  - apply wp_throw, HF. apply min_by_key_None in Em. intros [H|(k & st & Hk & Ha)]; [lia|].
    assert (Hin : (k, st) ∈ ([] : list (CapabilityRequestKey * RequestState)))
      by (rewrite <- Em; by apply elem_of_terminal). by apply elem_of_nil in Hin.
Qed.

(** ** Admission *)

Definition decision_on (envelope : ConsumerBoundCapabilityRequest) (e : ToolEngine)
    : PolicyDecision := evaluate_policy e (accepted_from envelope).

Record admissible (envelope : ConsumerBoundCapabilityRequest) (e : ToolEngine) : Prop := {
  ad_valid : ConsumerBound_validate envelope (te_current_tick e) = Ok tt;
  ad_key : ∀ st, te_requests e !! ConsumerBound_key envelope = Some st → active st = false;
  ad_sequence : te_next_request_sequence e ≠ U64_MAX;
  ad_allow : decision_on envelope e = Decision_Allow →
    te_next_operation_id e ≠ U64_MAX ∧ te_effect_sequence_exhausted e = false
    ∧ len (te_effects e) < TOOL_EFFECTS_MAX;
  ad_client : (∀ reason, decision_on envelope e ≠ Decision_Deny reason) →
    client_active (cb_consumer_id envelope) (cb_actor_id envelope) e
      < TOOL_ACTIVE_REQUESTS_PER_CLIENT_MAX;
  ad_room : te_requests e !! ConsumerBound_key envelope = None → has_room e
}.

(** The key of a terminal request is reused in place; any other takes room. *)
Definition made_room (key : CapabilityRequestKey) (e e1 : ToolEngine) : Prop :=
  if bool_decide (te_requests e !! key = None) then evicted e e1 else e1 = e.

(** *** The checks, with what they establish *)

Section checks.
Context {F : ToolEngineError → ToolEngine → Prop} (Q : unit → ToolEngine → Prop).
Context (e : ToolEngine).

Lemma wp_ensure_operation :
  (te_next_operation_id e ≠ U64_MAX → Q tt e) →
  (∀ error, (∀ key, error ≠ Te_ApprovalDeadlineElapsed key) → te_next_operation_id e = U64_MAX →
    F error e) →
  wp ensure_operation_capacity Q F e.
Proof.
  intros HQ HF. apply wp_bind, wp_get, wp_fail_when; intros E; bool_prop; [by apply HF|by apply HQ].
Qed.

Lemma wp_ensure_correlation b :
  (te_next_request_sequence e ≠ U64_MAX → (b = true → te_next_operation_id e ≠ U64_MAX) → Q tt e) →
  (∀ error, te_next_request_sequence e = U64_MAX ∨ b = true ∧ te_next_operation_id e = U64_MAX →
    F error e) →
  wp (ensure_correlation_capacity b) Q F e.
Proof.
  intros HQ HF. apply wp_bind, wp_get, wp_bind, wp_fail_when; intros E; bool_prop; [auto|].
  destruct b; [apply wp_ensure_operation; auto|]. by apply wp_ret, HQ.
Qed.

Lemma wp_ensure_effect :
  (te_effect_sequence_exhausted e = false → len (te_effects e) < TOOL_EFFECTS_MAX → Q tt e) →
  (∀ error, (∀ key, error ≠ Te_ApprovalDeadlineElapsed key) →
    te_effect_sequence_exhausted e = true ∨ TOOL_EFFECTS_MAX <= len (te_effects e) → F error e) →
  wp (ensure_effect_capacity 1) Q F e.
Proof.
  intros HQ HF. apply wp_bind, wp_get, wp_bind, wp_fail_when; intros Ex; [auto|].
  apply wp_fail_when; intros E; bool_prop; [apply HF; [done|right]|apply HQ; [done|]]; lia.
Qed.

Lemma wp_ensure_client key :
  (client_active (rk_consumer_id key) (rk_actor_id key) e < TOOL_ACTIVE_REQUESTS_PER_CLIENT_MAX →
    Q tt e) →
  (∀ error,
    TOOL_ACTIVE_REQUESTS_PER_CLIENT_MAX <= client_active (rk_consumer_id key) (rk_actor_id key) e →
    F error e) →
  wp (ensure_client_request_capacity key) Q F e.
Proof.
  intros HQ HF. apply wp_bind, wp_get, wp_fail_when; intros E; bool_prop; auto.
Qed.
End checks.

Lemma terminal_key_spec key e :
  (bool_decide (is_Some (te_requests e !! key)) && negb (terminal_key key e) = false
    ↔ ∀ st, te_requests e !! key = Some st → active st = false)
  ∧ (bool_decide (is_Some (te_requests e !! key)) && negb (terminal_key key e) = false →
     negb (terminal_key key e) = bool_decide (te_requests e !! key = None)).
Proof.
  unfold terminal_key, active. destruct (te_requests e !! key) as [st|]; cbn; split; try done.
  split; [by intros E st' [= <-]|by intros E; apply E].
Qed.

Lemma wp_admit_request (Q : PolicyDecision → ToolEngine → Prop) envelope e :
  (∀ e1, admissible envelope e → made_room (ConsumerBound_key envelope) e e1 →
    Q (decision_on envelope e) e1) →
  wp (admit_request envelope) Q (λ _ e', e' = e ∧ ¬ admissible envelope e) e.
Proof.
  intros HQ. set (F := λ (_ : ToolEngineError) e', e' = e ∧ ¬ admissible envelope e).
  assert (HF : ∀ error, (admissible envelope e → False) → F error e) by done.
  apply wp_bind, wp_get. apply wp_bind, wp_lift_result.
  { intros error E. apply HF. intros A. by rewrite (ad_valid _ _ A) in E. }
  intros [] Hv. cbn zeta. set (key := ConsumerBound_key envelope).
  destruct (terminal_key_spec key e) as [Hiff Hneg].
  apply wp_bind, wp_fail_when; intros Hkey.
  { apply HF. intros A. rewrite (proj2 Hiff (ad_key _ _ A)) in Hkey. done. }
  rewrite (Hneg Hkey). pose proof (proj1 Hiff Hkey) as Hfree. fold (decision_on envelope e).
  apply wp_bind, wp_ensure_correlation.
  2: { intros error [E|[E1 E2]]; apply HF; intros A; [by apply (ad_sequence _ _ A)|].
       bool_prop. by destruct (ad_allow _ _ A E1). }
  intros Hseq Hop. apply wp_bind.
  assert (Hallow : (decision_on envelope e = Decision_Allow → te_effect_sequence_exhausted e = false
      ∧ len (te_effects e) < TOOL_EFFECTS_MAX) →
    wp (match decision_on envelope e with
        | Decision_Deny _ => mret tt
        | _ => ensure_client_request_capacity key
        end ;;
        (if bool_decide (te_requests e !! key = None) then ensure_request_capacity else mret tt) ;;
        mret (decision_on envelope e)) Q F e).
  { intros Heff. apply wp_bind.
    assert (Hclient : ((∀ reason, decision_on envelope e ≠ Decision_Deny reason) →
        client_active (cb_consumer_id envelope) (cb_actor_id envelope) e
          < TOOL_ACTIVE_REQUESTS_PER_CLIENT_MAX) →
      wp ((if bool_decide (te_requests e !! key = None) then ensure_request_capacity
           else mret tt) ;; mret (decision_on envelope e)) Q F e).
    { intros Hcl.
      assert (Hadm : (te_requests e !! key = None → has_room e) → admissible envelope e).
      { intros Hroom. split; try done. intros Ha. rewrite bool_decide_eq_true_2 in Hop by done. auto. }
      unfold made_room in HQ. fold key in HQ. apply wp_bind.
      destruct (bool_decide (te_requests e !! key = None)) eqn:Ek; bool_prop.
      - apply wp_ensure_room; [intros e1 Hr He; apply wp_ret, HQ; [auto|done]|].
        intros error Hno. apply HF. intros A. by apply Hno, (ad_room _ _ A).
      - apply wp_ret, wp_ret, HQ; [by apply Hadm|done]. }
    destruct (decision_on envelope e) eqn:Ed; [apply wp_ret, Hclient; naive_solver|..];
      (apply wp_ensure_client; [intros Hcl; by apply Hclient|]; intros error Hcl; apply HF;
       intros A; pose proof (ad_client _ _ A) as Hc; rewrite Ed in Hc;
       specialize (Hc ltac:(done)); cbn in Hcl; lia). }
  destruct (bool_decide (decision_on envelope e = Decision_Allow)) eqn:Ea; bool_prop.
  - apply wp_ensure_effect; [by intros; apply Hallow|]. intros error _ E. apply HF. intros A.
    destruct (ad_allow _ _ A Ea) as (_ & Hx & Hl). destruct E; [congruence|lia].
  - apply wp_ret, Hallow. done.
Qed.

(** ** The state of a new request *)

Definition status_for (d : PolicyDecision) (op : N) : CapabilityRequestStatus :=
  match d with
  | Decision_Deny reason => Req_Denied reason
  | Decision_RequireApproval => Req_AwaitingApproval
  | Decision_Allow => Req_Dispatched (MkToolOperationId op)
  end.

(** The payload is kept only while an approval is awaited. *)
Definition stored (request : AcceptedRequest) (d : PolicyDecision) : AcceptedRequest :=
  if bool_decide (d = Decision_RequireApproval) then request
  else request <| aq_payload := [] |>.

Definition new_request (request : AcceptedRequest) (d : PolicyDecision) (e : ToolEngine)
    : RequestState :=
  MkRequestState (stored request d)
    (snapshot_of_request request (te_next_request_sequence e) (te_current_tick e) d
       (status_for d (te_next_operation_id e))).

Definition next_operation (d : PolicyDecision) (op : N) : N :=
  match d with Decision_Allow => op + 1 | _ => op end.

Definition with_request (request : AcceptedRequest) (d : PolicyDecision) (e : ToolEngine)
    : ToolEngine :=
  e <| te_next_request_sequence ::= λ n, n + 1 |>
    <| te_next_operation_id ::= next_operation d |>
    <| te_requests ::= <[aq_key request := new_request request d e]> |>.

Lemma stored_same request d :
  policy_key (stored request d) = policy_key request
  ∧ aq_deadline_tick (stored request d) = aq_deadline_tick request.
Proof. unfold stored. by destruct (bool_decide _). Qed.

Lemma new_request_wf request d e :
  1 <= te_next_request_sequence e → 1 <= te_next_operation_id e →
  request_wf (te_next_request_sequence e + 1) (next_operation d (te_next_operation_id e))
    (aq_key request) (new_request request d e).
Proof.
  intros H1 H2. split.
  - cbn. unfold stored. by destruct (bool_decide _).
  - cbn. unfold stored, shows. by destruct (bool_decide _).
  - cbn. lia.
  - cbn. intros op. destruct d; cbn; intros [= <-]. cbn. lia.
  - cbn. unfold stored. destruct d; cbn; [by right|by left|by right].
  - cbn. destruct d; cbn; auto.
Qed.

Lemma new_request_active request d e :
  active (new_request request d e) = match d with Decision_Deny _ => false | _ => true end.
Proof. by destruct d. Qed.

Lemma new_client_count c a request d e m :
  (∀ st, m !! aq_key request = Some st → active st = false) →
  client_count c a (<[aq_key request := new_request request d e]> m)
  = client_count c a m
    + (if bool_decide (rk_consumer_id (aq_key request) = c)
          && bool_decide (rk_actor_id (aq_key request) = a)
          && active (new_request request d e) then 1 else 0).
Proof.
  intros Hk. unfold client_count.
  pose proof (count_insert (λ k st, bool_decide (rk_consumer_id k = c)
    && bool_decide (rk_actor_id k = a) && active st) m (aq_key request) (new_request request d e)) as E.
  destruct (m !! aq_key request) as [st|]; [|lia].
  rewrite (Hk st eq_refl), andb_false_r in E. lia.
Qed.

(** ** Dispatching *)

Section dispatch.
Context (H l : list CapabilityEffectEnvelope) (m : requests_map) (nseq nop n : N).
Context (k : CapabilityRequestKey) (st : RequestState) (r : AcceptedRequest).
Context (effect : CapabilityEffect).
Hypothesis Hreq : requests_inv nseq nop m.
Hypothesis Hst : status_in st = Req_Dispatched (MkToolOperationId nop).
Hypothesis Hkey : aq_key (rst_request st) = aq_key r.
Hypothesis Hprov : aq_provider_id (rst_request st) = aq_provider_id r.
Hypothesis Hinv : is_invoke effect = true.

(** The invocation of a fresh operation, for a request that was not active. *)
Lemma dispatch_effects :
  stream_inv H l nop n false → link_inv H l m → 1 <= nop →
  let ef := effect_for r (MkToolOperationId nop) n effect in
  stream_inv H (l ++ [ef]) (nop + 1) (fst (bump_sequence n false)) (snd (bump_sequence n false))
  ∧ link_inv H (l ++ [ef]) (<[k := st]> m).
Proof using Hreq Hst Hkey Hprov Hinv.
  intros Hs Hl Hn ef.
  assert (Hfresh : MkToolOperationId nop ∉ effect_ops (H ++ l)).
  { intros Hin. apply (si_range _ _ _ _ _ Hs) in Hin. cbn in Hin. lia. }
  rewrite elem_of_effect_ops in Hfresh. split.
  - apply stream_push; [eapply stream_mono; [|exact Hs]; lia|done|cbn; lia|].
    cbn. rewrite Hinv. tauto.
  - intros k1 st1 [[<- <-]|[_ H1]]%lookup_insert_Some.
    + split; [|by rewrite Hst]. intros op. rewrite Hst. intros [= <-]. rewrite app_assoc. split.
      * exists ef. split; [apply elem_of_app; right; by apply list_elem_of_singleton|].
        split_and!; done.
      * rewrite cancel_ops_app, cancel_ops_one. cbn. rewrite Hinv, app_nil_r. tauto.
    + eapply (link_push _ _ ef _ (λ _, True) Hl); [|exact H1|done].
      intros k2 st2 op H2 _ Hop _ ->. cbn in Hop.
      pose proof (qw_operation _ _ _ _ (qi_wf _ _ _ Hreq _ _ H2) _ Hop) as Hr. cbn in Hr. lia.
Qed.
End dispatch.

(** A step that touches only the log commutes with the queue. *)
Lemma quiet_set_effects l s e e' :
  quiet_step e e' → quiet_step (set_effects l s e) (set_effects l s e').
Proof.
  intros [E A]. split.
  - change (strip (set_effects l s e')) with (set_effects l s (strip e')). by rewrite E.
  - intros Hi. assert (Ha : audit_inv e') by (apply A; by destruct Hi). by destruct Ha.
Qed.

(** [effects] after the invocation of operation [op] for [r]. *)
Definition with_invoke (r : AcceptedRequest) (op : ToolOperationId) (e : ToolEngine)
    : ToolEngine :=
  set_effects
    (te_effects e ++ [effect_for r op (te_next_effect_sequence e)
      (Invoke (rk_consumer_id (aq_key r)) (rk_actor_id (aq_key r)) (aq_capability_id r)
         (aq_resource_scope_id r) (aq_payload r))])
    (bump_sequence (te_next_effect_sequence e) false) e.

(** The end of a dispatch: the steps before it touched only the log. *)
Lemma wp_invoke_audit {F : ToolEngineError → ToolEngine → Prop} r op subject event
    (Q : unit → ToolEngine → Prop) e e2 :
  quiet_step e e2 → te_effect_sequence_exhausted e = false →
  (∀ e', quiet_step (with_invoke r op e) e' → Q tt e') →
  wp (emit_invoke r op ;; emit_audit subject event) Q F e2.
Proof.
  intros Hq Hx HQ. pose proof (quiet_same _ _ Hq) as Hs.
  apply wp_bind. unfold emit_invoke. apply wp_bind, wp_push_effect.
  { intros Ex. rewrite (sf_effect_exhausted _ _ Hs) in Ex. congruence. }
  intros _. apply wp_ret, wp_audit. intros e' H'. apply HQ. etransitivity; [|exact H'].
  unfold with_invoke.
  rewrite <- (sf_effects _ _ Hs), <- (sf_next_effect _ _ Hs). by apply quiet_set_effects.
Qed.

(** ** Accepting a request *)

Lemma valid_deadline envelope t :
  ConsumerBound_validate envelope t = Ok tt → t < ri_deadline_tick (cb_request envelope).
Proof.
  unfold ConsumerBound_validate, CapabilityRequestInput_validate.
  intros ([] & _ & ([] & Hd%guard_err_Ok & _)%result_bind_Ok)%result_bind_Ok. bool_prop. lia.
Qed.

(** The engine after room was made: the same but for one terminal request. *)
Record roomy (key : CapabilityRequestKey) (e e1 : ToolEngine) : Prop := {
  ro_inv : ∀ H D, tinv H D e → tinv H D e1;
  ro_same : ∃ m, e1 = e <| te_requests := m |>;
  ro_key : te_requests e1 !! key = te_requests e !! key;
  ro_room : te_requests e !! key = None → N.of_nat (size (te_requests e1)) < TOOL_REQUESTS_MAX;
  ro_clients : ∀ c a,
    client_count c a (te_requests e1) = client_count c a (te_requests e)
}.

Lemma evict_inv k st e :
  te_requests e !! k = Some st → active st = false →
  ∀ H D, tinv H D e → tinv H D (e <| te_requests ::= delete k |>).
Proof.
  intros Hk Ha H D Hi. open_inv Hi. split; try done.
  - by apply requests_inv_delete.
  - intros k' st' [_ Hk']%(lookup_delete_Some (te_requests e)). by apply Ia.
  - apply closing_nil.
  - by apply link_delete.
  - apply completions_delete; [done|]. cbn. intros st' Hst'. congruence.
  - destruct Ib as [B1 B2 B3 B4 B5 B6 B7 B8]. split; try done; cbn.
    + rewrite map_size_delete, Hk. lia.
    + intros c a. etransitivity; [|apply (B2 c a)]. unfold client_count.
      rewrite (count_delete _ (te_requests e) k). lia.
  - destruct Iau. by split.
Qed.

Lemma made_room_roomy key e e1 :
  N.of_nat (size (te_requests e)) <= TOOL_REQUESTS_MAX → made_room key e e1 → roomy key e e1.
Proof.
  intros Hsize. unfold made_room.
  destruct (bool_decide _) eqn:Ek; bool_prop; [|intros ->; split; try done; by exists (te_requests e); destruct e].
  intros [Hlt|k st Hge Hk Ha _]; [split; try done; by exists (te_requests e); destruct e|].
  split.
  - by eapply evict_inv.
  - by eexists.
  - cbn. rewrite lookup_delete_ne; [done|]. congruence.
  - intros _. cbn. rewrite map_size_delete, Hk.
    assert (0 < size (te_requests e))%nat; [|lia]. unfold TOOL_REQUESTS_MAX in Hge. lia.
  - intros c a. unfold client_count. cbn. rewrite (count_delete _ (te_requests e) k), Hk, Ha.
    rewrite andb_false_r. lia.
Qed.

Section accept.
Context (H : list CapabilityEffectEnvelope) (D : list CapabilityCompletionEnvelope).
Context (request : AcceptedRequest) (d : PolicyDecision) (e : ToolEngine).
Hypothesis Hinv : tinv H D e.
Hypothesis Hfree : ∀ st, te_requests e !! aq_key request = Some st → active st = false.
Hypothesis Hroom : te_requests e !! aq_key request = None →
  N.of_nat (size (te_requests e)) < TOOL_REQUESTS_MAX.
Hypothesis Hsequence : te_next_request_sequence e ≠ U64_MAX.
Hypothesis Hoperation : d = Decision_Allow → te_next_operation_id e ≠ U64_MAX.
Hypothesis Hclient : active (new_request request d e) = true →
  client_count (rk_consumer_id (aq_key request)) (rk_actor_id (aq_key request)) (te_requests e)
    < TOOL_ACTIVE_REQUESTS_PER_CLIENT_MAX.
Hypothesis Hgrant : active (new_request request d e) = true →
  decision_of <$> te_grants e !! policy_key request = Some d
  ∧ te_current_tick e < aq_deadline_tick request.

Let st := new_request request d e.
Let e1 := with_request request d e.

Lemma accept_bounds : bounds_inv e1.
Proof using Hinv Hfree Hroom Hsequence Hoperation Hclient Hgrant.
  destruct (ti_bounds _ _ _ _ _ Hinv) as [B1 B2 B3 B4 B5 B6 B7 B8]. split; cbn; try done; try lia.
  - rewrite map_size_insert. destruct (te_requests e !! aq_key request) eqn:Ek; [done|].
    specialize (Hroom eq_refl). lia.
  - intros c a. rewrite new_client_count by done.
    destruct (bool_decide (rk_consumer_id _ = c)) eqn:Ec, (bool_decide (rk_actor_id _ = a)) eqn:Ea,
      (active (new_request request d e)) eqn:Eact; cbn; bool_prop;
      try (rewrite N.add_0_r; apply B2). subst. specialize (Hclient eq_refl). lia.
  - destruct d; cbn; try done. specialize (Hoperation eq_refl). lia.
Qed.

(** Everything but the effects; a denial owes its completion. *)
Lemma accept_core l s :
  stream_inv H l (te_next_operation_id e1) (fst s) (snd s) → link_inv H l (te_requests e1) →
  len l <= TOOL_EFFECTS_MAX →
  tool_inv [] (if active st then None else Some (te_next_request_sequence e)) H D
    (set_effects l s e1).
Proof using Hinv Hfree Hroom Hsequence Hoperation Hclient Hgrant.
  intros Hs Hl Hlen. pose proof accept_bounds as Hb. open_inv Hinv.
  pose proof (bi_next_request _ Ib) as Hseq. pose proof (bi_next_operation _ Ib) as Hop.
  split; try done.
  - cbn. eapply requests_inv_new; [exact Iq| |done|apply new_request_wf; lia].
    destruct d; cbn; lia.
  - intros k st' [[<- <-]|[_ Hk]]%(lookup_insert_Some (te_requests e)) Ha Hni; [|by apply (Ia k)].
    destruct (Hgrant Ha) as [Hg Ht], (stored_same request d) as [E1 E2].
    split; cbn; [by rewrite E1|by rewrite E2].
  - apply closing_nil.
  - apply completions_new; [done|done| |done|lia].
    intros k' st' Hk'. apply (qw_sequence _ _ _ _ (qi_wf _ _ _ Iq _ _ Hk')).
  - destruct Hb. by split.
  - destruct Iau. by split.
Qed.

Lemma set_effects_id : set_effects (te_effects e)
  (te_next_effect_sequence e, te_effect_sequence_exhausted e) e1 = e1.
Proof. done. Qed.

Lemma accept_quiet :
  d ≠ Decision_Allow →
  tool_inv [] (if active st then None else Some (te_next_request_sequence e)) H D e1.
Proof using Hinv Hfree Hroom Hsequence Hoperation Hclient Hgrant.
  intros Hd. rewrite <- set_effects_id. apply accept_core; [..|apply Hinv].
  - replace (te_next_operation_id e1) with (te_next_operation_id e) by (by subst e1; cbn; destruct d).
    apply Hinv.
  - apply link_insert; [apply Hinv|]. apply linked_settled; cbn; by destruct d.
Qed.

Lemma accept_dispatch :
  d = Decision_Allow → te_effect_sequence_exhausted e = false →
  len (te_effects e) < TOOL_EFFECTS_MAX →
  tinv H D (with_invoke request (MkToolOperationId (te_next_operation_id e)) e1).
Proof using Hinv Hfree Hroom Hsequence Hoperation Hclient Hgrant.
  intros Hd Hx Hlen. pose proof (ti_bounds _ _ _ _ _ Hinv) as Hb.
  assert (Ea : active st = true) by (subst st; by rewrite new_request_active, Hd).
  pose proof (dispatch_effects H (te_effects e) (te_requests e) (te_next_request_sequence e)
    (te_next_operation_id e) (te_next_effect_sequence e) (aq_key request) st request
    (Invoke (rk_consumer_id (aq_key request)) (rk_actor_id (aq_key request))
       (aq_capability_id request) (aq_resource_scope_id request) (aq_payload request))
    (ti_requests _ _ _ _ _ Hinv)) as Hdis.
  destruct Hdis as [Hs Hl].
  - subst st. cbn. by rewrite Hd.
  - subst st. cbn. unfold stored. by destruct (bool_decide _).
  - subst st. cbn. unfold stored. by destruct (bool_decide _).
  - done.
  - rewrite <- Hx. apply Hinv.
  - apply Hinv.
  - apply Hb.
  - pose proof accept_core as Hc. rewrite Ea in Hc.
    apply Hc; [|done|rewrite len_snoc; cbn; lia]. subst e1. cbn. by rewrite Hd.
Qed.
End accept.

Lemma client_active_count c a e : client_active c a e = client_count c a (te_requests e).
Proof. unfold client_active, active_requests_where. apply len_keys_where. Qed.

Lemma wp_allocate_request {F : ToolEngineError → ToolEngine → Prop} (Q : N → ToolEngine → Prop) e :
  te_next_request_sequence e < U64_MAX →
  Q (te_next_request_sequence e) (e <| te_next_request_sequence ::= λ n, n + 1 |>) →
  wp allocate_request_sequence Q F e.
Proof.
  intros Hlt HQ. assert (E : checked_add (te_next_request_sequence e) 1
    = Some (te_next_request_sequence e + 1)) by (apply checked_add_Some; lia).
  apply wp_bind, wp_get, wp_bind, wp_expect; rewrite E; [done|]. intros n [= <-].
  apply wp_bind, wp_modify, wp_ret, HQ.
Qed.

Lemma wp_tool_allocate {F : ToolEngineError → ToolEngine → Prop}
    (Q : ToolOperationId → ToolEngine → Prop) e :
  te_next_operation_id e < U64_MAX →
  Q (MkToolOperationId (te_next_operation_id e)) (e <| te_next_operation_id ::= λ n, n + 1 |>) →
  wp tool_allocate_operation Q F e.
Proof.
  intros Hlt HQ. assert (E : checked_add (te_next_operation_id e) 1
    = Some (te_next_operation_id e + 1)) by (apply checked_add_Some; lia).
  apply wp_bind, wp_get, wp_bind, wp_expect; rewrite E; [done|]. intros n [= <-].
  apply wp_bind, wp_modify, wp_ret, HQ.
Qed.

(** What an accepted request leaves: room was made, the request is recorded
    under the decision, and a denial is completed at once. *)
Definition accepted (envelope : ConsumerBoundCapabilityRequest) (e e' : ToolEngine) : Prop :=
  let r := accepted_from envelope in
  let d := decision_on envelope e in
  ∃ e1 e2, made_room (ConsumerBound_key envelope) e e1
    ∧ quiet_step
        (match d with
         | Decision_Allow => with_invoke r (MkToolOperationId (te_next_operation_id e))
                               (with_request r d e1)
         | _ => with_request r d e1
         end) e2
    ∧ match d with
      | Decision_Deny reason =>
          pushed (completion_for r (te_next_request_sequence e) None (Out_PolicyDenied reason)
                    (te_next_completion_sequence e)) e2 e'
      | _ => e' = e2
      end.

Section request.
Context (H : list CapabilityEffectEnvelope) (D : list CapabilityCompletionEnvelope).
Context (envelope : ConsumerBoundCapabilityRequest) (e e1 : ToolEngine).
Hypothesis Hinv : tinv H D e.
Hypothesis Hadm : admissible envelope e.
Hypothesis Hroom : made_room (ConsumerBound_key envelope) e e1.

Let r := accepted_from envelope.
Let d := decision_on envelope e.

(** [e1] meets the premises of [accept_core]. *)
Lemma request_premises :
  tinv H D e1
  ∧ (∀ st, te_requests e1 !! aq_key r = Some st → active st = false)
  ∧ (te_requests e1 !! aq_key r = None → N.of_nat (size (te_requests e1)) < TOOL_REQUESTS_MAX)
  ∧ te_next_request_sequence e1 ≠ U64_MAX
  ∧ (d = Decision_Allow → te_next_operation_id e1 ≠ U64_MAX)
  ∧ (active (new_request r d e1) = true →
     client_count (rk_consumer_id (aq_key r)) (rk_actor_id (aq_key r)) (te_requests e1)
       < TOOL_ACTIVE_REQUESTS_PER_CLIENT_MAX)
  ∧ (active (new_request r d e1) = true →
     decision_of <$> te_grants e1 !! policy_key r = Some d
     ∧ te_current_tick e1 < aq_deadline_tick r).
Proof using Hinv Hadm Hroom.
  destruct (made_room_roomy _ _ _ (bi_requests _ (ti_bounds _ _ _ _ _ Hinv)) Hroom)
    as [Ri (m & Em) Rk Rr Rc].
  change (aq_key r) with (ConsumerBound_key envelope).
  split_and!.
  - by apply Ri.
  - rewrite Rk. apply Hadm.
  - rewrite Rk. exact Rr.
  - subst e1. apply Hadm.
  - intros Hd. subst e1. by apply (ad_allow _ _ Hadm).
  - rewrite new_request_active, Rc, <- client_active_count. intros Ha. apply (ad_client _ _ Hadm).
    fold d. intros reason E. by rewrite E in Ha.
  - rewrite new_request_active. intros Ha. subst e1. split.
    + apply evaluate_policy_grant. intros reason E. change (d = Decision_Deny reason) in E.
      by rewrite E in Ha.
    + apply (valid_deadline _ _ (ad_valid _ _ Hadm)).
Qed.

Lemma request_same :
  te_next_request_sequence e1 = te_next_request_sequence e
  ∧ te_next_operation_id e1 = te_next_operation_id e
  ∧ te_next_completion_sequence e1 = te_next_completion_sequence e
  ∧ te_effects e1 = te_effects e
  ∧ te_effect_sequence_exhausted e1 = te_effect_sequence_exhausted e.
Proof using Hinv Hroom.
  destruct (made_room_roomy _ _ _ (bi_requests _ (ti_bounds _ _ _ _ _ Hinv)) Hroom)
    as [_ (m & ->) _ _ _]. done.
Qed.
End request.

Lemma request_ok H D envelope e :
  tinv H D e →
  wp (request_capability envelope)
    (λ decision e', tinv H D e' ∧ decision = decision_on envelope e
       ∧ admissible envelope e ∧ accepted envelope e e')
    (λ _ e', e' = e ∧ ¬ admissible envelope e) e.
Proof.
  intros Hi. apply wp_bind, wp_admit_request. intros e1 Hadm Hroom.
  destruct (request_premises H D envelope e e1 Hi Hadm Hroom) as (P1 & P2 & P3 & P4 & P5 & P6 & P7).
  destruct (request_same H D envelope e e1 Hi Hroom) as (E1 & E2 & E3 & E4 & E5).
  pose proof (bi_next_request _ (ti_bounds _ _ _ _ _ P1)) as Hns.
  pose proof (bi_next_operation _ (ti_bounds _ _ _ _ _ P1)) as Hno.
  pose proof (accept_quiet H D (accepted_from envelope) (decision_on envelope e) e1) as Hquiet.
  pose proof (accept_dispatch H D (accepted_from envelope) (decision_on envelope e) e1) as Hdisp.
  pose proof (ad_allow _ _ Hadm) as Hallow. unfold accepted.
  cbn zeta. apply wp_bind, wp_allocate_request; [lia|]. apply wp_bind.
  destruct (decision_on envelope e) as [reason| |] eqn:Ed; cbn match.
  - apply wp_ret, wp_bind, wp_ret, wp_bind, wp_get, wp_bind, wp_modify.
    apply wp_bind, wp_tool_bump. intros e2 H2. apply wp_bind, wp_audit. intros e3 H3.
    assert (Hq : quiet_step (with_request (accepted_from envelope) (Decision_Deny reason) e1) e3)
      by (by etransitivity).
    apply wp_bind. eapply wp_push_completion.
    + eapply quiet_inv; [exact Hq|]. by apply Hquiet.
    + intros e' Hi' Hp. apply wp_ret. split_and!; [done..|]. exists e1, e3. split_and!; [done..|].
      rewrite <- E1, <- E3. pose proof (quiet_same _ _ Hq) as Hs.
      by rewrite (sf_next_completion _ _ Hs) in Hp.
  - apply wp_ret, wp_bind, wp_ret, wp_bind, wp_get, wp_bind, wp_modify.
    apply wp_bind, wp_tool_bump. intros e2 H2. apply wp_bind, wp_audit. intros e3 H3.
    assert (Hq : quiet_step (with_request (accepted_from envelope) Decision_RequireApproval e1) e3)
      by (by etransitivity).
    apply wp_bind, wp_ret, wp_ret. split_and!; [|done..|by exists e1, e3].
    eapply quiet_inv; [exact Hq|]. by apply Hquiet.
  - destruct (Hallow eq_refl) as (_ & Hx & Hl).
    apply wp_bind, wp_tool_allocate; [specialize (P5 eq_refl); cbn; lia|]. apply wp_ret, wp_bind.
    apply wp_bind, wp_expect; [done|]. intros op [= <-]. apply wp_ret, wp_bind, wp_get.
    apply wp_bind, wp_modify. cbn zeta.
    apply wp_bind, wp_tool_bump. intros e2 H2. apply wp_bind, wp_audit. intros e3 H3.
    assert (Hq : quiet_step (with_request (accepted_from envelope) Decision_Allow e1) e3)
      by (by etransitivity).
    apply wp_bind. eapply wp_invoke_audit; [exact Hq|by rewrite <- E5 in Hx|]. intros e' H'.
    apply wp_ret. change (te_next_operation_id (e1 <| te_next_request_sequence ::= λ n, n + 1 |>))
      with (te_next_operation_id e1) in H'. rewrite E2 in H'.
    split_and!; [|done..|by exists e1, e'].
    eapply quiet_inv; [exact H'|]. rewrite <- E2. apply Hdisp; try done; congruence.
Qed.

(** ** Settling an active request *)

Definition with_status (s : CapabilityRequestStatus) (st : RequestState) : RequestState :=
  clear_payload (st <| rst_snapshot ::= λ sn, sn <| rq_status := s |> |>).

Lemma with_status_wf s nseq nop k st :
  request_wf nseq nop k st →
  (∀ op, status_operation s = Some op → 1 <= tool_operation_raw op < nop) →
  decision_fits (rq_policy_decision (rst_snapshot st)) s →
  request_wf nseq nop k (with_status s st).
Proof. intros [K S Q O P Dc] Ho Hd. split; try done. by right. Qed.

Lemma authority_update t gr m k st :
  authority_inv [] t gr m → (active st = true → authorized gr t st) →
  authority_inv [] t gr (<[k := st]> m).
Proof.
  intros Ha Hst k' st' [[<- <-]|[_ Hk]]%lookup_insert_Some Hact Hni; [by apply Hst|by eapply Ha].
Qed.

(** A request answered without a cancellation owes its completion. *)
Lemma settle_inv H D k s st e :
  tinv H D e → te_requests e !! k = Some st → active st = true → is_terminal s = true →
  status_disposition s = None →
  (∀ op, status_operation s = Some op → status_operation (status_in st) = Some op) →
  decision_fits (rq_policy_decision (rst_snapshot st)) s →
  tool_inv [] (Some (sequence_in st)) H D (e <| te_requests ::= <[k := with_status s st]> |>).
Proof.
  intros Hi Hk Ha Ht Hd Ho Hf. open_inv Hi. pose proof (qi_wf _ _ _ Iq _ _ Hk) as Hw.
  assert (Hoff : active (with_status s st) = false) by (unfold active; cbn; by rewrite Ht).
  split; try done.
  - eapply requests_inv_update; [done..| |done]. apply with_status_wf; [done| |done].
    intros op Hop. by apply (qw_operation _ _ _ _ Hw), Ho.
  - apply authority_update; [done|]. by rewrite Hoff.
  - apply closing_nil.
  - apply link_insert; [done|]. apply linked_settled; cbn; [by apply terminal_not_dispatched|].
    by rewrite Hd.
  - eapply completions_close; [done| |done..| |done]; [|apply Hw].
    intros k1 st1 H1 E. by eapply (qi_sequence _ _ _ Iq).
  - destruct Ib. split; try done; cbn.
    + by rewrite (filter_size_update _ _ _ _ Hk).
    + intros c' a. etransitivity; [by eapply closed_client_count|done].
  - destruct Iau. by split.
Qed.

(** *** Approvals *)

Record approvable (resolution : ApprovalResolution) (st : RequestState) (e : ToolEngine)
    : Prop := {
  ap_request : te_requests e !! ar_request_key resolution = Some st;
  ap_nonce : ar_accepted_sequence resolution = sequence_in st;
  ap_scope : ar_instance_id resolution = aq_instance_id (rst_request st)
    ∧ ar_generation resolution = aq_generation (rst_request st);
  ap_status : status_in st = Req_AwaitingApproval;
  ap_approve : ar_decision resolution = Approval_ApproveOnce →
    te_next_operation_id e ≠ U64_MAX ∧ te_effect_sequence_exhausted e = false
    ∧ len (te_effects e) < TOOL_EFFECTS_MAX
}.

(** A request that is dispatched after its approval. *)
Definition dispatched (st : RequestState) (e : ToolEngine) : ToolEngine :=
  e <| te_next_operation_id ::= λ n, n + 1 |>
    <| te_requests ::=
         <[aq_key (rst_request st) :=
             with_status (Req_Dispatched (MkToolOperationId (te_next_operation_id e))) st]> |>.

Lemma client_count_update c a k st st' m :
  m !! k = Some st → active st = true → active st' = true →
  client_count c a (<[k := st']> m) = client_count c a m.
Proof.
  intros Hk Ha Ha'. unfold client_count.
  pose proof (count_insert (λ k st, bool_decide (rk_consumer_id k = c)
    && bool_decide (rk_actor_id k = a) && active st) m k st') as E.
  rewrite Hk, Ha, Ha' in E. lia.
Qed.

Lemma approve_inv H D resolution st e :
  tinv H D e → approvable resolution st e → ar_decision resolution = Approval_ApproveOnce →
  tinv H D (with_invoke (rst_request st) (MkToolOperationId (te_next_operation_id e))
              (dispatched st e)).
Proof.
  intros Hi [Hk _ _ Hs Hcap] Hd. destruct (Hcap Hd) as (Hnop & Hx & Hlen).
  pose proof (ti_bounds _ _ _ _ _ Hi) as Hb. pose proof (bi_next_operation _ Hb) as Hop.
  pose proof (qi_wf _ _ _ (ti_requests _ _ _ _ _ Hi) _ _ Hk) as Hw.
  pose proof (qw_key _ _ _ _ Hw) as Hkey. rewrite <- Hkey in Hk.
  set (op := MkToolOperationId (te_next_operation_id e)).
  set (st' := with_status (Req_Dispatched op) st).
  assert (Ha : active st = true) by (unfold active; by rewrite Hs).
  destruct (dispatch_effects H (te_effects e) (te_requests e) (te_next_request_sequence e)
    (te_next_operation_id e) (te_next_effect_sequence e) (aq_key (rst_request st)) st'
    (rst_request st)
    (Invoke (rk_consumer_id (aq_key (rst_request st))) (rk_actor_id (aq_key (rst_request st)))
       (aq_capability_id (rst_request st)) (aq_resource_scope_id (rst_request st))
       (aq_payload (rst_request st))) (ti_requests _ _ _ _ _ Hi)) as [Hst Hl]; try done.
  { rewrite <- Hx. apply Hi. }
  { apply Hi. }
  { apply Hop. }
  open_inv Hi. split; try done.
  - eapply (requests_inv_update _ _ _ st); [|exact Hk| |done].
    + eapply requests_inv_mono; [..|exact Iq]; cbn; lia.
    + apply with_status_wf; [eapply request_wf_mono; [..|rewrite Hkey; exact Hw]; cbn; lia| |].
      * cbn. intros op' [= <-]. cbn. lia.
      * cbn. pose proof (qw_decision _ _ _ _ Hw) as Hdec. rewrite Hs in Hdec. by left.
  - apply authority_update; [done|]. intros _. apply (Ia _ _ Hk Ha), not_elem_of_nil.
  - apply closing_nil.
  - by eapply (completions_update _ _ _ _ st).
  - destruct Hb as [B1 B2 B3 B4 B5 B6 B7 B8]. split; try done; cbn; try lia.
    + by rewrite (filter_size_update _ _ _ _ Hk).
    + intros c a. by rewrite (client_count_update c a _ st) by done.
    + rewrite len_snoc. lia.
  - destruct Iau. by split.
Qed.

(** What an answered approval leaves. *)
Definition answered (resolution : ApprovalResolution) (st : RequestState) (e e' : ToolEngine)
    : Prop :=
  match ar_decision resolution with
  | Approval_ApproveOnce =>
      quiet_step (with_invoke (rst_request st) (MkToolOperationId (te_next_operation_id e))
                    (dispatched st e)) e'
  | Approval_Deny =>
      ∃ e2, quiet_step (e <| te_requests ::=
              <[ar_request_key resolution := with_status Req_ApprovalDenied st]> |>) e2
        ∧ pushed (completion_for (rst_request st) (sequence_in st) None Out_ApprovalDenied
                    (te_next_completion_sequence e)) e2 e'
  end.

(** An active request is current: policy and clock still allow it. *)
Lemma active_current ks owed H D e k st :
  tool_inv ks owed H D e → te_requests e !! k = Some st → active st = true → k ∉ ks →
  te_generations e !! aq_instance_id (rst_request st) = Some (aq_generation (rst_request st))
  ∧ te_instance_states e !! aq_instance_id (rst_request st) = Some Instance_Active
  ∧ evaluate_policy e (rst_request st) = rq_policy_decision (rst_snapshot st)
  ∧ te_current_tick e < aq_deadline_tick (rst_request st).
Proof.
  intros Hi Hk Ha Hni. open_inv Hi. destruct (Ia k st Hk Ha Hni) as [Hg Ht].
  destruct (te_grants e !! policy_key (rst_request st)) as [mode|] eqn:Em; [|done].
  cbn in Hg. injection Hg as Hg. assert (Hwf := proj1 Ig _ (mk_is_Some _ _ Em)).
  split_and!; [apply Hwf|apply Hwf| |done]. rewrite <- Hg. by apply evaluate_policy_granted.
Qed.

Lemma approvable_current H D resolution st e :
  tinv H D e → approvable resolution st e →
  te_generations e !! aq_instance_id (rst_request st) = Some (aq_generation (rst_request st))
  ∧ instance_active (aq_instance_id (rst_request st)) e = true.
Proof.
  intros Hi A. destruct (active_current _ _ _ _ _ _ _ Hi (ap_request _ _ _ A)) as (Hg & Hs & _).
  - unfold active. by rewrite (ap_status _ _ _ A).
  - apply not_elem_of_nil.
  - split; [done|]. unfold instance_active. by rewrite Hs.
Qed.

(** What the checks of [resolve_approval] leave to do. *)
Definition finish_approval (resolution : ApprovalResolution) (st : RequestState) : ToolM unit :=
  let request_key := ar_request_key resolution in
  let approved := bool_decide (ar_decision resolution = Approval_ApproveOnce) in
  (if approved then ensure_operation_capacity ;; ensure_effect_capacity 1 else mret tt) ;;
  operation_id ← (if approved
                  then operation_id ← tool_allocate_operation; mret (Some operation_id)
                  else mret None);
  let request := rst_request st in
  let subject := subject_for request (sequence_in st) in
  update_request request_key (λ state,
    clear_payload (state <| rst_snapshot ::= λ s, s <| rq_status :=
      match operation_id with
      | Some operation_id => Req_Dispatched operation_id
      | None => Req_ApprovalDenied
      end |> |>)) ;;
  tool_bump_revision ;;
  emit_audit (Some subject) (Audit_ApprovalResolved (ar_decision resolution)) ;;
  match operation_id with
  | Some operation_id =>
      emit_invoke request operation_id ;;
      emit_audit (Some subject) (Audit_InvocationDispatched operation_id)
  | None =>
      push_terminal_completion request (ar_accepted_sequence resolution) None
        Out_ApprovalDenied
  end.

Definition approval_failed (resolution : ApprovalResolution) (e : ToolEngine)
    (error : ToolEngineError) (e' : ToolEngine) : Prop :=
  e' = e ∧ (∀ st, ¬ approvable resolution st e)
  ∧ ∀ k, error ≠ Te_ApprovalDeadlineElapsed k.

Lemma finish_approval_ok H D resolution st e :
  tinv H D e → te_requests e !! ar_request_key resolution = Some st →
  ((ar_decision resolution = Approval_ApproveOnce →
      te_next_operation_id e ≠ U64_MAX ∧ te_effect_sequence_exhausted e = false
      ∧ len (te_effects e) < TOOL_EFFECTS_MAX) → approvable resolution st e) →
  status_in st = Req_AwaitingApproval → ar_accepted_sequence resolution = sequence_in st →
  wp (finish_approval resolution st)
    (λ _ e', tinv H D e' ∧ ∃ st, approvable resolution st e ∧ answered resolution st e e')
    (approval_failed resolution e) e.
Proof.
  intros Hi Hk Hok Hs Hnonce. pose proof (qi_wf _ _ _ (ti_requests _ _ _ _ _ Hi) _ _ Hk) as Hw.
  assert (Hkey : aq_key (rst_request st) = ar_request_key resolution) by apply Hw.
  unfold finish_approval, answered. cbn zeta. apply wp_bind.
  destruct (ar_decision resolution) eqn:Ed.
  - rewrite bool_decide_eq_true_2 by done.
    apply wp_bind, wp_ensure_operation.
    2: { intros error Hne E. split_and!; [done| |apply Hne]. intros st' A.
         by destruct (ap_approve _ _ _ A Ed). }
    intros Hnop. apply wp_ensure_effect.
    2: { intros error Hne E. split_and!; [done| |apply Hne]. intros st' A.
         destruct (ap_approve _ _ _ A Ed) as (_ & Hx & Hl). destruct E; [congruence|lia]. }
    intros Hx Hl. assert (A : approvable resolution st e) by (by apply Hok).
    pose proof (bi_next_operation _ (ti_bounds _ _ _ _ _ Hi)) as Hb.
    apply wp_bind, wp_bind, wp_tool_allocate; [lia|]. apply wp_ret, wp_bind.
    eapply wp_update_request; [exact Hk|].
    apply wp_bind, wp_tool_bump. intros e2 H2. apply wp_bind, wp_audit. intros e3 H3.
    assert (Hq : quiet_step (dispatched st e) e3).
    { etransitivity; [|exact H3]. unfold dispatched. by rewrite Hkey. }
    eapply wp_invoke_audit; [exact Hq|done|]. intros e' H'.
    split; [|by exists st]. eapply quiet_inv; [exact H'|]. by eapply approve_inv.
  - rewrite bool_decide_eq_false_2 by done. apply wp_ret, wp_bind, wp_ret, wp_bind.
    eapply wp_update_request; [exact Hk|].
    apply wp_bind, wp_tool_bump. intros e2 H2. apply wp_bind, wp_audit. intros e3 H3.
    assert (Hq : quiet_step (e <| te_requests ::=
      <[ar_request_key resolution := with_status Req_ApprovalDenied st]> |>) e3) by (by etransitivity).
    rewrite Hnonce. eapply wp_push_completion.
    + eapply quiet_inv; [exact Hq|]. apply settle_inv; try done; [unfold active; by rewrite Hs|].
      pose proof (qw_decision _ _ _ _ Hw) as Hd. by rewrite Hs in Hd.
    + intros e' Hi' Hp. split; [done|]. exists st. split; [by apply Hok|].
      exists e3. split; [done|]. by rewrite (sf_next_completion _ _ (quiet_same _ _ Hq)) in Hp.
Qed.

Lemma resolve_approval_ok H D resolution e :
  tinv H D e →
  wp (resolve_approval resolution)
    (λ _ e', tinv H D e' ∧ ∃ st, approvable resolution st e ∧ answered resolution st e e')
    (approval_failed resolution e) e.
Proof.
  intros Hi. apply wp_bind, wp_get. cbn zeta. apply wp_bind, wp_lift_option.
  { intros E. split_and!; [done| |done]. intros st A. by rewrite (ap_request _ _ _ A) in E. }
  intros st Hk.
  assert (HF : ∀ error, (approvable resolution st e → False) →
    (∀ key, error ≠ Te_ApprovalDeadlineElapsed key) → approval_failed resolution e error e).
  { intros error Hno Hne. split_and!; [done| |apply Hne]. intros st' A. apply Hno.
    pose proof (ap_request _ _ _ A). by replace st with st' by congruence. }
  pose proof (approvable_current H D resolution st e Hi) as Hcur.
  apply wp_bind, wp_fail_when; intros Hn; bool_prop.
  { apply HF; [|done]. intros A. by destruct (ap_nonce _ _ _ A). }
  apply wp_bind, wp_lift_option.
  { intros E. apply HF; [|done]. intros A. destruct (Hcur A). congruence. }
  intros current Hg. apply wp_bind, wp_fail_when; intros Hact; bool_prop.
  { apply HF; [|done]. intros A. destruct (Hcur A). congruence. }
  apply wp_bind, wp_fail_when; intros Hgen; bool_prop.
  { apply HF; [|done]. intros A. destruct (Hcur A), (ap_scope _ _ _ A). congruence. }
  apply wp_bind, wp_fail_when; intros Hscope.
  { apply HF; [|done]. intros A. destruct (ap_scope _ _ _ A).
    by rewrite !bool_decide_eq_false_2 in Hscope by tauto. }
  bool_prop. apply dec_stable in H0, H1. apply wp_bind.
  assert (Hs : status_in st = Req_AwaitingApproval ∨ status_in st ≠ Req_AwaitingApproval)
    by (destruct (status_in st); (by left) || (by right)).
  destruct Hs as [Hs|Hs].
  2: { destruct (status_in st) eqn:Es; try done; (apply wp_throw, HF; [|done]; intros A;
         pose proof (ap_status _ _ _ A); congruence). }
  rewrite Hs. apply wp_ret, wp_bind.
  assert (Ha : active st = true) by (unfold active; by rewrite Hs).
  destruct (active_current _ _ _ _ _ _ _ Hi Hk Ha (not_elem_of_nil _)) as (_ & _ & _ & Ht).
  destruct (_ <=? _) eqn:Et; bool_prop; [lia|]. apply wp_ret.
  by apply (finish_approval_ok H D).
Qed.

(** ** Observations *)

Definition observed_status (o : CapabilityObservation) (op : ToolOperationId)
    : CapabilityRequestStatus :=
  if is_ok (CapabilityObservation_validate o) then
    match o with
    | Observed_Succeeded result => Req_Succeeded op (cr_metadata result)
    | Observed_Failed failure => Req_Failed op failure
    end
  else Req_Failed op provider_contract_violation.

Definition observed_outcome (o : CapabilityObservation) : CapabilityTerminalOutcome :=
  if is_ok (CapabilityObservation_validate o) then
    match o with
    | Observed_Succeeded result => Out_Succeeded result
    | Observed_Failed failure => Out_Failed failure
    end
  else Out_Failed provider_contract_violation.

(** The request ends as observed and its completion is pushed. *)
Definition settled (envelope : CapabilityObservationEnvelope) (st : RequestState)
    (op : ToolOperationId) (e e' : ToolEngine) : Prop :=
  ∃ e1 e2,
    quiet_step (e <| te_requests ::= <[to_request_key envelope :=
      with_status (observed_status (to_observation envelope) op) st]> |>) e1
    ∧ pushed (completion_for (rst_request st) (sequence_in st) (Some op)
        (observed_outcome (to_observation envelope)) (te_next_completion_sequence e)) e1 e2
    ∧ quiet_step e2 e'.

Definition observed (envelope : CapabilityObservationEnvelope) (e : ToolEngine)
    (disposition : CapabilityObservationDisposition) (e' : ToolEngine) : Prop :=
  match te_requests e !! to_request_key envelope with
  | None => disposition = Disposition_Ignored Ignored_UnknownRequest ∧ quiet_step e e'
  | Some st =>
      match observation_fence envelope st e with
      | Err reason => disposition = Disposition_Ignored reason ∧ quiet_step e e'
      | Ok op => disposition = Disposition_Applied ∧ settled envelope st op e e'
      end
  end.

Lemma fence_dispatched envelope st e op :
  observation_fence envelope st e = Ok op →
  status_in st = Req_Dispatched op ∧ to_operation_id envelope = op
  ∧ te_generations e !! aq_instance_id (rst_request st) = Some (to_generation envelope)
  ∧ to_generation envelope = aq_generation (rst_request st)
  ∧ to_instance_id envelope = aq_instance_id (rst_request st)
  ∧ to_provider_id envelope = aq_provider_id (rst_request st).
Proof.
  unfold observation_fence.
  intros ([] & H1%guard_err_Ok & ([] & H2%guard_err_Ok & ([] & H3%guard_err_Ok & H4)
    %result_bind_Ok)%result_bind_Ok)%result_bind_Ok.
  destruct (status_in st); try done. apply result_bind_Ok in H4 as ([] & H4%guard_err_Ok & [= <-]).
  bool_prop. repeat match goal with H : ¬ _ ≠ _ |- _ => apply dec_stable in H end. done.
Qed.

Lemma observed_settles o op st :
  status_in st = Req_Dispatched op →
  is_terminal (observed_status o op) = true
  ∧ status_disposition (observed_status o op) = None
  ∧ (∀ op', status_operation (observed_status o op) = Some op' →
      status_operation (status_in st) = Some op').
Proof.
  intros ->. unfold observed_status.
  destruct (is_ok _); [destruct o|]; split_and!; try done; cbn; congruence.
Qed.

(** Ending the request and pushing its completion, the branch of a valid observation. *)
Lemma settle_and_push H D k st s op out (event : ToolAuditEventKind)
    (F : ToolEngineError → ToolEngine → Prop) e :
  te_requests e !! k = Some st →
  tool_inv [] (Some (sequence_in st)) H D (e <| te_requests ::= <[k := with_status s st]> |>) →
  wp (finish_request k s ;;
      push_terminal_completion (rst_request st <| aq_payload := [] |>) (sequence_in st)
        (Some op) out ;; mret event)
    (λ ev e1, ev = event ∧ tinv H D e1 ∧ pushed (completion_for (rst_request st)
       (sequence_in st) (Some op) out (te_next_completion_sequence e))
       (e <| te_requests ::= <[k := with_status s st]> |>) e1) F e.
Proof.
  intros Hk Hi1. apply wp_bind. eapply wp_update_request; [exact Hk|].
  apply wp_bind. eapply wp_push_completion; [exact Hi1|]. intros e1 Hi2 Hp. by apply wp_ret.
Qed.

Lemma settle_observation_ok H D envelope st op (F : ToolEngineError → ToolEngine → Prop) e :
  tinv H D e → te_requests e !! to_request_key envelope = Some st →
  status_in st = Req_Dispatched op →
  wp (settle_observation envelope st op)
    (λ disposition e', tinv H D e' ∧ disposition = Disposition_Applied
       ∧ settled envelope st op e e') F e.
Proof.
  intros Hi Hk Hs. pose proof (qi_wf _ _ _ (ti_requests _ _ _ _ _ Hi) _ _ Hk) as Hw.
  destruct (observed_settles (to_observation envelope) op st Hs) as (Ht & Hd & Ho).
  assert (Hsettle : tool_inv [] (Some (sequence_in st)) H D (e <| te_requests ::=
    <[to_request_key envelope := with_status (observed_status (to_observation envelope) op) st]> |>)).
  { apply settle_inv; try done; [unfold active; by rewrite Hs|].
    pose proof (qw_decision _ _ _ _ Hw) as Hf. rewrite Hs in Hf. cbn in Hf.
    unfold observed_status. destruct (is_ok _); [by destruct (to_observation envelope)|done]. }
  unfold settle_observation, settled, observed_status, observed_outcome in *. cbn zeta.
  destruct (is_ok _); cbn [negb].
  - apply wp_bind. destruct (to_observation envelope) as [result|failure];
      (eapply wp_mono; [|by apply settle_and_push]; intros ev e1 (-> & Hi1 & Hp);
       apply wp_bump_audit; intros e' Hq; split; [by eapply quiet_inv|];
       split; [done|]; eexists _, e1; split; [reflexivity|done]).
  - apply wp_bind. eapply wp_update_request; [exact Hk|].
    apply wp_bind, wp_tool_bump. intros e1 H1. apply wp_bind, wp_audit. intros e2 H2.
    assert (Hq : quiet_step (e <| te_requests ::= <[to_request_key envelope :=
      with_status (Req_Failed op provider_contract_violation) st]> |>) e2) by (by etransitivity).
    apply wp_bind. eapply wp_push_completion; [eapply quiet_inv; [exact Hq|exact Hsettle]|].
    intros e' Hi' Hp. apply wp_ret. split_and!; [done..|]. exists e2, e'. split_and!; [done| |done].
    by rewrite (sf_next_completion _ _ (quiet_same _ _ Hq)) in Hp.
Qed.

Lemma apply_observation_ok H D envelope e :
  tinv H D e →
  wp (tool_apply_observation envelope)
    (λ disposition e', tinv H D e' ∧ observed envelope e disposition e')
    (λ _ e', e' = e ∧ tool_operation_raw (to_operation_id envelope) = 0) e.
Proof.
  intros Hi. apply wp_bind, wp_fail_when; intros Hz; bool_prop; [done|].
  apply wp_bind, wp_get. unfold observed.
  assert (Hignore : ∀ subject reason,
    wp (ignore_observation envelope subject reason)
      (λ disposition e', tinv H D e' ∧ disposition = Disposition_Ignored reason ∧ quiet_step e e')
      (λ _ e', e' = e ∧ tool_operation_raw (to_operation_id envelope) = 0) e).
  { intros subject reason. apply wp_bump_audit. intros e' Hq. split; [by eapply quiet_inv|done]. }
  destruct (te_requests e !! to_request_key envelope) as [st|] eqn:Hk; [|apply Hignore].
  destruct (observation_fence envelope st e) as [op|reason] eqn:Ef; [|apply Hignore].
  destruct (fence_dispatched _ _ _ _ Ef) as (Hs & _).
  assert (Ha : active st = true) by (unfold active; by rewrite Hs).
  destruct (active_current _ _ _ _ _ _ _ Hi Hk Ha (not_elem_of_nil _)) as (_ & _ & _ & Ht).
  destruct (_ <=? _) eqn:Et; bool_prop; [lia|].
  eapply wp_mono; [|by apply (settle_observation_ok H D)]. by intros ? ? (? & -> & ?).
Qed.
