(* ===== verification/ToolReach.v ===== *)
(** * Runs of the tool engine

    The authority entry point, the calls a host makes on the engine with what
    it drains, and the invariant of every state they reach. *)

From S2P Require Import Prelude RustStr RustOrd Ids ToolTypes ToolEngine ToolInv ToolFacts.
From S2P Require Import ToolSteps ToolRequests.

Local Open Scope N_scope.

(** ** Authority commands *)

(** What an accepted command did. *)
Definition commanded (command : ToolAuthorityCommand) (outcome : ToolAuthorityOutcome)
    (e e' : ToolEngine) : Prop :=
  match command with
  | SetGrant grant => outcome = GrantSet ∧ grantable grant e ∧ granted grant e e'
  | RevokeGrant key =>
      (outcome = GrantRevoked true ∧ is_Some (te_grants e !! key)
       ∧ ∃ e1, revoked key (e <| te_grants ::= delete key |>) e1 ∧ quiet_step e1 e')
      ∨ (outcome = GrantRevoked false ∧ te_grants e !! key = None ∧ e' = e)
  | ResolveApproval resolution =>
      outcome = ApprovalResolved
      ∧ ∃ st, approvable resolution st e ∧ answered resolution st e e'
  | CloseClient c a =>
      outcome = ClientClosed (count (λ key _, grant_to c a key) (te_grants e)) (client_active c a e)
      ∧ client_closed c a e e'
  end.

Lemma set_authority_inv H D s e :
  tinv H D e → tinv H D (e <| te_last_authority_sequence := s |>).
Proof.
  intros Hi. open_inv Hi. split; try done; [destruct Ib|destruct Iau]; by split.
Qed.

Lemma attempt_resolution_ok H D resolution e :
  tinv H D e →
  wp (resolved ← attempt (resolve_approval resolution);
      match resolved with
      | Ok _ => mret ApprovalResolved
      | Err (Te_ApprovalDeadlineElapsed _) =>
          mret (ApprovalExpired (ar_request_key resolution) (ar_accepted_sequence resolution))
      | Err error => throw error
      end)
    (λ outcome e', tinv H D e' ∧ commanded (ResolveApproval resolution) outcome e e')
    (λ _ e', e' = e) e.
Proof.
  intros Hi. apply wp_bind. pose proof (resolve_approval_ok H D resolution e Hi) as Hw.
  unfold wp, attempt in *. destruct (resolve_approval resolution e) as [[[]|error|] e'] eqn:E.
  - by destruct Hw.
  - destruct Hw as (-> & _ & Hne). destruct error; try done. by destruct (Hne request_key).
  - done.
Qed.

Lemma commanded_ok H D command e :
  tinv H D e →
  wp (match command with
      | SetGrant grant => set_grant grant ;; mret GrantSet
      | RevokeGrant key => existed ← revoke_grant key; mret (GrantRevoked existed)
      | ResolveApproval resolution =>
          resolved ← attempt (resolve_approval resolution);
          match resolved with
          | Ok _ => mret ApprovalResolved
          | Err (Te_ApprovalDeadlineElapsed _) =>
              mret (ApprovalExpired (ar_request_key resolution) (ar_accepted_sequence resolution))
          | Err error => throw error
          end
      | CloseClient c a => close_client c a
      end)
    (λ outcome e', tinv H D e' ∧ commanded command outcome e e') (λ _ e', e' = e) e.
Proof.
  intros Hi. destruct command as [grant|key|resolution|c a].
  - apply wp_bind. eapply wp_mono; [|eapply weaken_failure, set_grant_ok, Hi].
    intros [] e' (? & ? & ?).
    by apply wp_ret.
  - apply wp_bind. eapply wp_mono; [|by apply revoke_grant_ok]. intros existed e' [? Hr].
    apply wp_ret. split; [done|]. destruct existed; [left|right]; naive_solver.
  - by apply attempt_resolution_ok.
  - eapply wp_mono; [|by apply close_client_ok]. intros outcome e' (? & ? & ?). done.
Qed.

(** An accepted command is the command's own effect, after which its sequence
    is the last one. *)
Definition authorized_by (envelope : ToolAuthorityEnvelope) (outcome : ToolAuthorityOutcome)
    (e e' : ToolEngine) : Prop :=
  te_last_authority_sequence e < ta_sequence envelope
  ∧ ∃ e1, commanded (ta_command envelope) outcome e e1
    ∧ e' = e1 <| te_last_authority_sequence := ta_sequence envelope |>.

Lemma apply_authority_ok H D envelope e :
  tinv H D e → tool_ok H D (apply_authority envelope) (λ outcome, authorized_by envelope outcome e) e.
Proof.
  intros Hi. apply wp_bind, wp_lift_result; [done|]. intros [] _.
  apply wp_bind, wp_get, wp_bind, wp_fail_when; [done|]. intros Hlt. bool_prop.
  apply wp_bind. eapply wp_mono; [|by apply commanded_ok]. intros outcome e1 [Hi1 Hc].
  apply wp_bind, wp_modify, wp_ret. split; [by apply set_authority_inv|].
  split; [done|]. by exists e1.
Qed.

(** ** Draining *)

Lemma tool_drain_effects_inv H D e :
  tinv H D e → tinv (H ++ te_effects e) D (snd (tool_drain_effects e)).
Proof.
  intros Hi. open_inv Hi. split; try done; [by apply stream_drain|by apply link_drain|..].
  - destruct Ib. by split.
  - destruct Iau. by split.
Qed.

Lemma drain_completions_inv H D e :
  tinv H D e → tinv H (D ++ te_completions e) (snd (drain_completions e)).
Proof.
  intros Hi. open_inv Hi. split; try done; [by apply completions_drain|..].
  - destruct Ib. by split.
  - destruct Iau. by split.
Qed.

Lemma tool_new_inv : tinv [] [] tool_engine_new.
Proof.
  split; cbn.
  - split; [by intros k st ?|by intros k1 k2 st1 st2 ?].
  - split; [by intros key [? ?]|]. intros i. by rewrite !lookup_empty.
  - by intros k st ?.
  - apply closing_nil.
  - split; cbn; [by intros op ?%elem_of_nil|apply NoDup_nil_2|apply NoDup_nil_2
      |by intros op ?%elem_of_nil|constructor|constructor|done].
  - by intros k st ?.
  - split; cbn; [apply NoDup_nil_2|by intros s ?%elem_of_nil|by intros k st ?|done..
      |constructor|constructor].
  - by intros i p ?.
  - by split.
  - by split.
Qed.

(** ** Calls and runs *)

Inductive ToolCall :=
| Tc_RegisterProvider (descriptor : CapabilityProviderDescriptor)
| Tc_DetachProviderRuntime (provider_id : ToolProviderId)
| Tc_SetGeneration (instance_id : AgentInstanceId) (generation : SessionGeneration)
| Tc_SetInstanceState (instance_id : AgentInstanceId) (generation : SessionGeneration)
    (state : ToolInstanceState)
| Tc_RemoveInstance (instance_id : AgentInstanceId)
| Tc_ApplyAuthority (envelope : ToolAuthorityEnvelope)
| Tc_Request (envelope : ConsumerBoundCapabilityRequest)
| Tc_AdvanceTime (tick : N)
| Tc_ApplyObservation (envelope : CapabilityObservationEnvelope).

(** What a call answers. *)
Inductive ToolAnswer :=
| Ta_Unit
| Ta_Detached (request_count : N)
| Ta_Removed (existed : bool)
| Ta_Authority (outcome : ToolAuthorityOutcome)
| Ta_Request (decision : PolicyDecision)
| Ta_Observation (disposition : CapabilityObservationDisposition).

Definition answer_of {A} (f : A → ToolAnswer) (m : ToolM A) : ToolM ToolAnswer :=
  a ← m; mret (f a).

Definition tool_call (c : ToolCall) : ToolM ToolAnswer :=
  match c with
  | Tc_RegisterProvider descriptor => answer_of (λ _, Ta_Unit) (register_provider descriptor)
  | Tc_DetachProviderRuntime p => answer_of Ta_Detached (detach_provider_runtime p)
  | Tc_SetGeneration i g => answer_of (λ _, Ta_Unit) (set_generation i g)
  | Tc_SetInstanceState i g s => answer_of (λ _, Ta_Unit) (set_instance_state i g s)
  | Tc_RemoveInstance i => answer_of Ta_Removed (remove_instance i)
  | Tc_ApplyAuthority envelope => answer_of Ta_Authority (apply_authority envelope)
  | Tc_Request envelope => answer_of Ta_Request (request_capability envelope)
  | Tc_AdvanceTime tick => answer_of (λ _, Ta_Unit) (advance_time tick)
  | Tc_ApplyObservation envelope => answer_of Ta_Observation (tool_apply_observation envelope)
  end.

(** The engine with everything the host has drained from it. *)
Record ToolWorld := MkToolWorld {
  tw_engine : ToolEngine;
  tw_effects : list CapabilityEffectEnvelope;
  tw_completions : list CapabilityCompletionEnvelope
}.

Definition tool_world_new : ToolWorld := MkToolWorld tool_engine_new [] [].

Inductive ToolStep :=
| Ts_Call (c : ToolCall)
| Ts_DrainEffects
| Ts_DrainCompletions.

(** A step of the host; [None] is a panic. *)
Definition tool_step (s : ToolStep) (w : ToolWorld) : option ToolWorld :=
  let 'MkToolWorld e H D := w in
  match s with
  | Ts_Call c =>
      match tool_call c e with
      | (Panic, _) => None
      | (_, e') => Some (MkToolWorld e' H D)
      end
  | Ts_DrainEffects =>
      let '(effects, e') := tool_drain_effects e in Some (MkToolWorld e' (H ++ effects) D)
  | Ts_DrainCompletions =>
      let '(batch, e') := drain_completions e in
      Some (MkToolWorld e' H (D ++ ba_completions batch))
  end.

Fixpoint tool_run (ss : list ToolStep) (w : ToolWorld) : option ToolWorld :=
  match ss with
  | [] => Some w
  | s :: ss' => w' ← tool_step s w; tool_run ss' w'
  end.

Definition tool_reachable (w : ToolWorld) : Prop := ∃ ss, tool_run ss tool_world_new = Some w.

Definition world_inv (w : ToolWorld) : Prop :=
  tinv (tw_effects w) (tw_completions w) (tw_engine w).

(** *** Every call keeps the invariant *)

(** No call fails with a changed state, or panics. *)
Lemma answer_ok {A} (f : A → ToolAnswer) (m : ToolM A) H D (Q : A → ToolEngine → Prop) e :
  tool_ok H D m Q e → tool_ok H D (answer_of f m) (λ _ _, True) e.
Proof.
  intros Hm. apply wp_bind. eapply wp_mono; [|exact Hm]. intros a e' [Hi _]. by apply wp_ret.
Qed.

Lemma tool_call_ok H D c e : tinv H D e → tool_ok H D (tool_call c) (λ _ _, True) e.
Proof.
  intros Hi. destruct c; cbn [tool_call]; eapply answer_ok.
  - by apply register_provider_ok.
  - eapply weaken_failure, detach_ok, Hi.
  - eapply weaken_failure, set_generation_ok, Hi.
  - by apply set_instance_state_ok.
  - by apply remove_instance_ok.
  - by apply apply_authority_ok.
  - eapply weaken_failure, request_ok, Hi.
  - eapply weaken_failure, advance_time_ok, Hi.
  - eapply weaken_failure, apply_observation_ok, Hi.
Qed.

Lemma tool_step_inv s w : world_inv w → ∃ w', tool_step s w = Some w' ∧ world_inv w'.
Proof.
  destruct w as [e H D]. unfold world_inv. cbn [tw_effects tw_completions tw_engine]. intros Hi.
  destruct s as [c| |]; unfold tool_step.
  - pose proof (tool_call_ok H D c e Hi) as Hc. unfold tool_ok, wp in Hc.
    destruct (tool_call c e) as [[a|error|] e'].
    + eexists. split; [done|]. apply Hc.
    + eexists. split; [done|]. by subst e'.
    + done.
  - eexists. split; [done|]. by apply tool_drain_effects_inv.
  - eexists. split; [done|]. by apply drain_completions_inv.
Qed.

Lemma tool_run_inv ss w : world_inv w → ∃ w', tool_run ss w = Some w' ∧ world_inv w'.
Proof.
  revert w. induction ss as [|s ss IH]; intros w Hi; cbn [tool_run]; [by exists w|].
  destruct (tool_step_inv s w Hi) as (w1 & -> & Hi1). by apply IH.
Qed.

Lemma tool_reachable_inv w : tool_reachable w → world_inv w.
Proof.
  intros [ss Hrun]. destruct (tool_run_inv ss tool_world_new tool_new_inv) as (w' & E & Hi). congruence.
Qed.
