(* ===== verification/ToolLife.v ===== *)
(** * The life of a capability request

    The abstract life cycle of a request and that every call of the tool engine
    moves each request by at most one of its steps, and queues an invocation
    only for a request that the policy allows or an approval releases. *)

From S2P Require Import Prelude RustStr RustOrd Ids ToolTypes ToolEngine ToolInv ToolFacts.
From S2P Require Import ToolSteps ToolRequests ToolReach.

Local Open Scope N_scope.

(** ** The life cycle *)

(** How a request that is still active is closed without an answer, under the
    operation it was dispatched with. *)
Inductive closing_of (op : option ToolOperationId) (c : CancellationDisposition)
    : CapabilityRequestStatus → Prop :=
| closing_revoked : closing_of op c (Req_GrantRevoked op c)
| closing_timed_out : closing_of op c (Req_TimedOut op c)
| closing_superseded g : closing_of op c (Req_Superseded op c g)
| closing_instance : closing_of op c (Req_InstanceClosed op c)
| closing_client : closing_of op c (Req_ClientClosed op c)
| closing_detached : closing_of op c (Req_ProviderDetached op c).

Inductive status_step : CapabilityRequestStatus → CapabilityRequestStatus → Prop :=
| status_kept s : status_step s s
| status_approved op : status_step Req_AwaitingApproval (Req_Dispatched op)
| status_refused : status_step Req_AwaitingApproval Req_ApprovalDenied
| status_succeeded op m : status_step (Req_Dispatched op) (Req_Succeeded op m)
| status_failed op f : status_step (Req_Dispatched op) (Req_Failed op f)
| status_closed s s' c :
    is_terminal s = false → closing_of (dispatched_operation s) c s' → status_step s s'.

(** A request keeps everything it was accepted with, except that its payload may
    be erased. *)
Record request_step (st st' : RequestState) : Prop := {
  rs_status : status_step (status_in st) (status_in st');
  rs_snapshot : rst_snapshot st' = rst_snapshot st <| rq_status := status_in st' |>;
  rs_request : rst_request st' = rst_request st
             ∨ rst_request st' = rst_request st <| aq_payload := [] |>
}.

#[export] Instance request_step_refl : Reflexive request_step.
Proof. intros [r []]. split; [constructor|done|by left]. Qed.

Lemma closed_request_step mk c st :
  (∀ o c, closing_of o c (mk o c)) → active st = true → request_step st (closed_as mk c st).
Proof.
  intros Hmk Ha. split; [|by destruct st as [r []]|by right].
  apply (status_closed _ _ c); [by apply negb_true_iff|apply Hmk].
Qed.

Lemma settled_request_step s st :
  status_step (status_in st) s → request_step st (with_status s st).
Proof. intros Hs. split; [done|by destruct st as [r []]|by right]. Qed.

(** ** What a call leaves of the requests and the queue *)

(** Requests only move along their life, none appears or goes, and no
    invocation is queued. *)
Record tame (e e' : ToolEngine) : Prop := {
  tm_requests : ∀ k st', te_requests e' !! k = Some st' →
    ∃ st, te_requests e !! k = Some st ∧ request_step st st';
  tm_kept : ∀ k, is_Some (te_requests e !! k) → is_Some (te_requests e' !! k);
  tm_effects : ∀ ef, ef ∈ te_effects e' → is_invoke (cf_effect ef) = true → ef ∈ te_effects e;
  tm_authority : te_last_authority_sequence e' = te_last_authority_sequence e
}.

(** [e'] has the requests of [e1] and no invocation that [e1] has not. *)
Lemma tame_trans_same e e1 e' :
  tame e e1 → te_requests e' = te_requests e1 →
  (∀ ef, ef ∈ te_effects e' → ef ∈ te_effects e1) →
  te_last_authority_sequence e' = te_last_authority_sequence e1 → tame e e'.
Proof.
  intros [R K I A] Er Ee Ea. split; rewrite ?Er, ?Ea; try done. intros ef Hin. by apply I, Ee.
Qed.

#[export] Instance tame_refl : Reflexive tame.
Proof. intros e. split; [|done..]. intros k st Hk. by exists st. Qed.

Lemma tame_quiet e e1 e' : tame e e1 → quiet_step e1 e' → tame e e'.
Proof.
  intros Ht Hq. pose proof (quiet_same _ _ Hq) as Hs. eapply tame_trans_same; [exact Ht|..];
    by same_rewrite Hs.
Qed.

(** Closing [ks], from a state with the requests and the queue of [e]. *)
Lemma tame_closed mk ks e e0 e1 :
  (∀ o c, closing_of o c (mk o c)) → closed mk ks e0 e1 →
  te_requests e0 = te_requests e → te_effects e0 = te_effects e →
  te_last_authority_sequence e0 = te_last_authority_sequence e → tame e e1.
Proof.
  intros Hmk [P O C E] Er Ee Ea. rewrite Er in O, C. rewrite Ee in E. split.
  - intros k st' Hk. destruct (decide (k ∈ ks)) as [Hin|Hni].
    + destruct (C k Hin) as (st & c & Hk0 & Ha & Hk1). exists st. split; [done|].
      rewrite Hk in Hk1. injection Hk1 as ->. by apply closed_request_step.
    + rewrite (O k Hni) in Hk. by exists st'.
  - intros k Hk. destruct (decide (k ∈ ks)) as [Hin|Hni]; [|by rewrite O].
    destruct (C k Hin) as (st & c & _ & _ & Hk1). by exists (closed_as mk c st).
  - intros ef Hin Hinv. destruct (E ef Hin); [done|congruence].
  - by rewrite (sp_authority _ _ P).
Qed.

(** One request moves. *)
Lemma tame_update k st st' e e1 :
  te_requests e !! k = Some st → request_step st st' →
  te_requests e1 = <[k := st']> (te_requests e) → te_effects e1 = te_effects e →
  te_last_authority_sequence e1 = te_last_authority_sequence e → tame e e1.
Proof.
  intros Hk Hst Er Ee Ea. split; rewrite ?Er, ?Ee; [| |done..].
  - intros k' st1 [[<- <-]|[_ H']]%lookup_insert_Some; [by exists st|by exists st1].
  - intros k' Hs. apply lookup_insert_is_Some. destruct (decide (k = k')); auto.
Qed.

(** ** Calls *)

(** The invocation of [r] that [e] would queue next. *)
Definition invocation (r : AcceptedRequest) (e : ToolEngine) : CapabilityEffectEnvelope :=
  effect_for r (MkToolOperationId (te_next_operation_id e)) (te_next_effect_sequence e)
    (Invoke (rk_consumer_id (aq_key r)) (rk_actor_id (aq_key r)) (aq_capability_id r)
       (aq_resource_scope_id r) (aq_payload r)).

(** What may release an invocation: a request the policy allows, or the one
    approval of a request the policy holds back. *)
Inductive releases (e : ToolEngine) : ToolCall → CapabilityEffectEnvelope → Prop :=
| releases_allowed envelope :
    evaluate_policy e (accepted_from envelope) = Decision_Allow →
    te_current_tick e < ri_deadline_tick (cb_request envelope) →
    releases e (Tc_Request envelope) (invocation (accepted_from envelope) e)
| releases_approved sequence resolution st :
    approvable resolution st e → ar_decision resolution = Approval_ApproveOnce →
    evaluate_policy e (rst_request st) = Decision_RequireApproval →
    te_current_tick e < aq_deadline_tick (rst_request st) →
    releases e (Tc_ApplyAuthority (MkAuthorityEnvelope sequence (ResolveApproval resolution)))
      (invocation (rst_request st) e).

(** What a call changes: requests move along their lives; only a request call
    adds one, under the next sequence, in the place of a terminal one if need
    be; only what [releases] says is queued. *)
Record call_changes (c : ToolCall) (e e' : ToolEngine) : Prop := {
  cc_requests : ∀ k st', te_requests e' !! k = Some st' →
    (∃ st, te_requests e !! k = Some st ∧ request_step st st')
    ∨ ∃ envelope, c = Tc_Request envelope ∧ k = ConsumerBound_key envelope
        ∧ admissible envelope e
        ∧ st' = new_request (accepted_from envelope) (decision_on envelope e) e;
  cc_active : ∀ k st, te_requests e !! k = Some st → active st = true →
    ∃ st', te_requests e' !! k = Some st' ∧ request_step st st';
  cc_effects : ∀ ef, ef ∈ te_effects e' → is_invoke (cf_effect ef) = true →
    ef ∈ te_effects e ∨ releases e c ef;
  cc_authority : te_last_authority_sequence e <= te_last_authority_sequence e'
}.

Lemma tame_changes c e e' : tame e e' → call_changes c e e'.
Proof.
  intros [R K I A]. split.
  - intros k st' Hk. left. by apply R.
  - intros k st Hk _. destruct (K k) as [st' Hk']; [done|]. exists st'. split; [done|].
    destruct (R k st' Hk') as (st0 & Hk0 & Hs). congruence.
  - intros ef Hin Hinv. left. by apply I.
  - lia.
Qed.

(** *** Requests *)

Lemma evicted_lookup e e1 k st :
  evicted e e1 → te_requests e !! k = Some st →
  te_requests e1 !! k = Some st ∨ active st = false.
Proof.
  intros He Hk. destruct He as [|k0 st0 _ Hk0 Ha _]; [by left|]. destruct (decide (k0 = k)) as [->|Hne].
  - right. congruence.
  - left. by apply lookup_delete_Some.
Qed.

Lemma evicted_same e e1 :
  evicted e e1 → te_effects e1 = te_effects e ∧ te_next_effect_sequence e1 = te_next_effect_sequence e
  ∧ te_next_operation_id e1 = te_next_operation_id e
  ∧ te_next_request_sequence e1 = te_next_request_sequence e
  ∧ te_current_tick e1 = te_current_tick e
  ∧ te_last_authority_sequence e1 = te_last_authority_sequence e
  ∧ ∀ k st, te_requests e1 !! k = Some st → te_requests e !! k = Some st.
Proof.
  destruct 1; [done|]. split_and!; try done. by intros k' st' [_ ?]%(lookup_delete_Some (te_requests e)).
Qed.

Lemma made_room_lookup key e e1 k st :
  made_room key e e1 → te_requests e !! k = Some st →
  te_requests e1 !! k = Some st ∨ active st = false.
Proof.
  unfold made_room. destruct (bool_decide _); [by apply evicted_lookup|]. intros ->. by left.
Qed.

Lemma made_room_same key e e1 :
  made_room key e e1 → te_effects e1 = te_effects e
  ∧ te_next_effect_sequence e1 = te_next_effect_sequence e
  ∧ te_next_operation_id e1 = te_next_operation_id e
  ∧ te_next_request_sequence e1 = te_next_request_sequence e
  ∧ te_current_tick e1 = te_current_tick e
  ∧ te_last_authority_sequence e1 = te_last_authority_sequence e
  ∧ ∀ k st, te_requests e1 !! k = Some st → te_requests e !! k = Some st.
Proof.
  unfold made_room. destruct (bool_decide _); [by apply evicted_same|]. by intros ->.
Qed.

(** The requests and the queue after an accepted request. *)
Lemma accepted_fields envelope e e' :
  let r := accepted_from envelope in
  let d := decision_on envelope e in
  accepted envelope e e' →
  ∃ e1, made_room (ConsumerBound_key envelope) e e1
    ∧ te_requests e' = <[ConsumerBound_key envelope := new_request r d e]> (te_requests e1)
    ∧ te_effects e' = te_effects e ++ match d with Decision_Allow => [invocation r e] | _ => [] end
    ∧ te_last_authority_sequence e' = te_last_authority_sequence e.
Proof.
  cbn zeta. intros (e1 & e2 & Hroom & Hq & Hend). exists e1. split; [done|].
  destruct (made_room_same _ _ _ Hroom) as (He & Hn & Ho & Hs & Ht & Ha & _).
  pose proof (quiet_same _ _ Hq) as S.
  assert (E : te_requests e' = te_requests e2 ∧ te_effects e' = te_effects e2
              ∧ te_last_authority_sequence e' = te_last_authority_sequence e2).
  { destruct (decision_on envelope e); [|by subst|by subst]. destruct Hend as [P ? ? _].
    split_and!; [done..|apply P]. }
  destruct E as (-> & -> & ->).
  rewrite (sf_requests _ _ S), (sf_effects _ _ S), (sf_authority _ _ S).
  assert (Hnew : new_request (accepted_from envelope) (decision_on envelope e) e1
               = new_request (accepted_from envelope) (decision_on envelope e) e).
  { unfold new_request. by rewrite Hs, Ht, Ho. }
  rewrite <- Hnew. destruct (decision_on envelope e); cbn; by rewrite He, ?Hn, ?Ha, ?app_nil_r.
Qed.

Lemma request_changes envelope e e' :
  admissible envelope e → accepted envelope e e' → call_changes (Tc_Request envelope) e e'.
Proof.
  intros Hadm Hacc. destruct (accepted_fields envelope e e' Hacc) as (e1 & Hroom & Er & Ee & Ea).
  destruct (made_room_same _ _ _ Hroom) as (_ & _ & _ & _ & _ & _ & Hold). split; rewrite ?Er, ?Ee; [..|lia].
  - intros k st' [[<- <-]|[_ Hk]]%lookup_insert_Some; [right|left].
    + by exists envelope.
    + exists st'. split; [by apply Hold|done].
  - intros k st Hk Ha. exists st. split; [|done].
    apply lookup_insert_Some. right. split.
    + intros <-. pose proof (ad_key _ _ Hadm st Hk). congruence.
    + destruct (made_room_lookup _ _ _ _ _ Hroom Hk); [done|congruence].
  - intros ef [Hin|Hin]%elem_of_app Hinv; [by left|right].
    destruct (decision_on envelope e) eqn:Ed; try by apply elem_of_nil in Hin.
    apply list_elem_of_singleton in Hin as ->. constructor; [done|].
    apply (valid_deadline _ _ (ad_valid _ _ Hadm)).
Qed.

(** *** Approvals and observations *)

Lemma approvable_lookup resolution st e H D :
  tinv H D e → approvable resolution st e → aq_key (rst_request st) = ar_request_key resolution.
Proof.
  intros Hi A. apply (qi_wf _ _ _ (ti_requests _ _ _ _ _ Hi) _ _ (ap_request _ _ _ A)).
Qed.

Lemma approval_changes H D resolution s st e e' :
  tinv H D e → approvable resolution st e → answered resolution st e e' →
  call_changes (Tc_ApplyAuthority (MkAuthorityEnvelope s (ResolveApproval resolution))) e e'.
Proof.
  intros Hi A. pose proof (ap_request _ _ _ A) as Hk. pose proof (ap_status _ _ _ A) as Hs.
  pose proof (approvable_lookup _ _ _ _ _ Hi A) as Hkey.
  unfold answered. destruct (ar_decision resolution) eqn:Ed.
  - intros Hq. pose proof (quiet_same _ _ Hq) as S.
    assert (Ht : tame e (dispatched st e)).
    { eapply (tame_update (ar_request_key resolution) st
        (with_status (Req_Dispatched (MkToolOperationId (te_next_operation_id e))) st));
        [done| |by unfold dispatched; rewrite Hkey|done..].
      apply settled_request_step. rewrite Hs. constructor. }
    destruct (tame_changes (Tc_AdvanceTime 0) _ _ Ht) as [R K _ L].
    split; rewrite ?(sf_requests _ _ S), ?(sf_effects _ _ S), ?(sf_authority _ _ S); [..|done].
    + intros k st' H'. destruct (R k st' H') as [?|(? & ? & _)]; [by left|done].
    + exact K.
    + intros ef [Hin|Hin]%elem_of_app _; [by left|right].
      apply list_elem_of_singleton in Hin as ->. destruct (active_current _ _ _ _ _ _ _ Hi Hk)
        as (_ & _ & Hp & Htick); [unfold active; by rewrite Hs|apply not_elem_of_nil|].
      apply (releases_approved e s resolution st); [done..| |done]. rewrite Hp.
      pose proof (qw_decision _ _ _ _ (qi_wf _ _ _ (ti_requests _ _ _ _ _ Hi) _ _ Hk)) as Hd.
      by rewrite Hs in Hd.
  - intros (e2 & Hq & Hp). apply tame_changes. eapply tame_trans_same with (e1 := e2).
    + eapply tame_quiet; [|exact Hq].
      eapply (tame_update (ar_request_key resolution) st (with_status Req_ApprovalDenied st));
        [done| |done..]. apply settled_request_step. rewrite Hs. constructor.
    + apply Hp.
    + by rewrite (pu_effects _ _ _ Hp).
    + apply (pu_policy _ _ _ Hp).
Qed.

Lemma observed_tame H D envelope disposition e e' :
  tinv H D e → observed envelope e disposition e' → tame e e'.
Proof.
  intros Hi. unfold observed.
  destruct (te_requests e !! to_request_key envelope) as [st|] eqn:Hk;
    [|intros [_ Hq]; by eapply tame_quiet].
  destruct (observation_fence envelope st e) as [op|reason] eqn:Ef;
    [|intros [_ Hq]; by eapply tame_quiet].
  destruct (fence_dispatched _ _ _ _ Ef) as (Hs & _).
  intros (_ & e1 & e2 & Hq1 & Hp & Hq2). eapply tame_quiet; [|exact Hq2].
  eapply tame_trans_same with (e1 := e1); [|apply Hp|by rewrite (pu_effects _ _ _ Hp)|apply (pu_policy _ _ _ Hp)].
  eapply tame_quiet; [|exact Hq1].
  eapply (tame_update _ st); [exact Hk| |reflexivity..].
  apply settled_request_step. rewrite Hs. unfold observed_status.
  destruct (is_ok _); [destruct (to_observation envelope)|]; constructor.
Qed.

(** *** The other methods *)

Lemma revoked_tame key e e0 e1 :
  te_requests e0 = te_requests e → te_effects e0 = te_effects e →
  te_last_authority_sequence e0 = te_last_authority_sequence e → revoked key e0 e1 → tame e e1.
Proof. intros Er Ee Ea Hc. eapply tame_closed; [|exact Hc|done..]. constructor. Qed.

Lemma granted_tame grant e e' : granted grant e e' → tame e e'.
Proof.
  unfold granted. destruct (bool_decide _); [by intros ->|]. intros (e1 & Hr & Hq).
  eapply tame_quiet; [|exact Hq]. eapply tame_trans_same with (e1 := e1); [|done..].
  destruct (bool_decide _); [by subst|]. by apply (revoked_tame (pg_key grant) e e).
Qed.

Lemma commanded_changes H D s command outcome e e1 :
  tinv H D e → commanded command outcome e e1 →
  call_changes (Tc_ApplyAuthority (MkAuthorityEnvelope s command)) e e1.
Proof.
  intros Hi. destruct command as [grant|key|resolution|c a]; cbn [commanded].
  - intros (_ & _ & Hg). by eapply tame_changes, granted_tame.
  - intros [(_ & _ & e2 & Hr & Hq)|(_ & _ & ->)]; apply tame_changes; [|done].
    eapply tame_quiet; [|exact Hq]. by eapply (revoked_tame key _ (e <| te_grants ::= delete key |>)).
  - intros (_ & st & A & Hans). by eapply approval_changes.
  - intros (_ & gr & e2 & _ & Hc & Hq). apply tame_changes. eapply tame_quiet; [|exact Hq].
    eapply tame_closed; [|exact Hc|done..]. constructor.
Qed.

Lemma instance_closed_tame i g s e e1 : instance_closed i g s e e1 → tame e e1.
Proof. intros (gr & _ & Hc). eapply tame_closed; [|exact Hc|done..]. constructor. Qed.

Lemma superseded_tame i g e e' : superseded i g e e' → tame e e'.
Proof.
  intros (gr & e1 & _ & Hc & Hq). eapply tame_quiet; [|exact Hq].
  eapply tame_closed; [|exact Hc|done..]. intros o c. apply closing_superseded.
Qed.

Lemma instance_state_tame i g state e e' : instance_state_set i g state e e' → tame e e'.
Proof.
  intros [_ H]. revert H. destruct (bool_decide _); [by intros ->|]. intros (e1 & Hq & H1).
  eapply tame_quiet; [|exact Hq]. destruct (bool_decide _); [by eapply instance_closed_tame|].
  subst e1. eapply (tame_trans_same e e); [done..].
Qed.

Lemma detached_tame p e e' : detached p e e' → tame e e'.
Proof.
  intros (e1 & Hc & Hq). eapply tame_quiet; [|exact Hq]. eapply (tame_trans_same e e1).
  - eapply tame_closed; [|exact Hc|done..]. constructor.
  - done.
  - intros ef. by intros [? _]%elem_of_retain.
  - done.
Qed.

Lemma advanced_tame tick e e' : advanced tick e e' → tame e e'.
Proof.
  intros (e1 & Hc & Hq). eapply tame_quiet; [|exact Hq].
  eapply tame_closed; [|exact Hc|done..]. constructor.
Qed.

(** *** Every call *)

Lemma tool_ok_done {A} H D (m : ToolM A) Q e a e' :
  tool_ok H D m Q e → m e = (Done a, e') → Q a e'.
Proof. unfold tool_ok, wp. intros Hm E. rewrite E in Hm. apply Hm. Qed.

Lemma answer_of_done {A} (f : A → ToolAnswer) (m : ToolM A) e a e' :
  answer_of f m e = (Done a, e') → ∃ b, m e = (Done b, e') ∧ a = f b.
Proof.
  unfold answer_of, mbind, stm_bind. destruct (m e) as [[b|?|] e1]; [|done..].
  intros [= <- <-]. by exists b.
Qed.

Lemma tool_call_changes H D c e a e' :
  tinv H D e → tool_call c e = (Done a, e') → call_changes c e e'.
Proof.
  intros Hi Hc. destruct c; cbn [tool_call] in Hc; apply answer_of_done in Hc as (b & Hc & _).
  - destruct (tool_ok_done _ _ _ _ _ _ _ (register_provider_ok H D _ e Hi) Hc) as [_ _ _ Hq].
    apply tame_changes. eapply tame_quiet; [|exact Hq]. by eapply (tame_trans_same e e).
  - destruct (tool_ok_done _ _ _ _ _ _ _ (weaken_failure _ _ _ _ _ _ (detach_ok H D _ e Hi)) Hc) as (_ & _ & Hd).
    by eapply tame_changes, detached_tame.
  - destruct (tool_ok_done _ _ _ _ _ _ _ (weaken_failure _ _ _ _ _ _ (set_generation_ok H D _ _ e Hi)) Hc) as [_ Hs].
    revert Hs. destruct (bool_decide _); [by intros ->; apply tame_changes|].
    intros Hs. by eapply tame_changes, superseded_tame.
  - by eapply tame_changes, instance_state_tame,
      (tool_ok_done _ _ _ _ _ _ _ (set_instance_state_ok H D _ _ _ e Hi) Hc).
  - pose proof (tool_ok_done _ _ _ _ _ _ _ (remove_instance_ok H D _ e Hi) Hc) as Hr.
    apply tame_changes. cbn beta in Hr. destruct b as [|].
    + destruct Hr as (_ & e1 & Hcl & Hq). eapply tame_quiet; [|exact Hq].
      eapply (tame_trans_same e e1); [|done..]. by eapply instance_closed_tame.
    + by destruct Hr as [_ ->].
  - destruct (tool_ok_done _ _ _ _ _ _ _ (apply_authority_ok H D _ e Hi) Hc)
      as (Hlt & e1 & Hcmd & ->). destruct envelope as [s command].
    destruct (commanded_changes H D s command _ e e1 Hi Hcmd) as [R K I _].
    split; [done..|]. cbn in Hlt |- *. lia.
  - pose proof (request_ok H D envelope e Hi) as Hr. unfold wp in Hr. rewrite Hc in Hr.
    destruct Hr as (_ & _ & Hadm & Hacc). by apply request_changes.
  - destruct (tool_ok_done _ _ _ _ _ _ _ (weaken_failure _ _ _ _ _ _ (advance_time_ok H D _ e Hi)) Hc) as [_ Ha].
    revert Ha. destruct (_ =? _); [by intros ->; apply tame_changes|].
    intros Ha. by eapply tame_changes, advanced_tame.
  - pose proof (apply_observation_ok H D envelope e Hi) as Ho. unfold wp in Ho. rewrite Hc in Ho.
    destruct Ho as [_ Ho]. by eapply tame_changes, observed_tame.
Qed.
