(* ===== verification/ToolDemo.v ===== *)
(** * A run of the tool engine

    One provider, one client and one instance, as the tests of engine.rs set
    them up: the runs on which the properties of the tool engine are shown to
    have instances. *)

From S2P Require Import Prelude RustStr RustOrd Ids ToolTypes ToolEngine ToolInv ToolRequests.
From S2P Require Import ToolReach.

Local Open Scope N_scope.

Definition tool_instance : AgentInstanceId := MkInstance 7.
Definition tool_consumer : ConsumerId := MkConsumerId (str "acme").
Definition tool_actor : ToolActorId := MkToolActorId (str "agent").
Definition tool_provider : ToolProviderId := MkToolProviderId (str "browser-host").
Definition tool_capability : ToolCapabilityId := MkToolCapabilityId (str "browser.page-state").
Definition tool_scope : ResourceScopeId := MkResourceScopeId (str "page").

Definition tool_descriptor : CapabilityProviderDescriptor :=
  MkProviderDescriptor tool_provider (Owner_Consumer tool_consumer)
    [MkCapabilityDescriptor tool_capability Browser (str "Page state")].

Definition tool_key : PolicyKey :=
  MkPolicyKey tool_consumer tool_actor tool_instance (MkGeneration 1) tool_provider
    tool_capability tool_scope.

Definition tool_request (id deadline : N) : ConsumerBoundCapabilityRequest :=
  MkConsumerBound tool_consumer tool_actor
    (MkRequestInput (MkCapabilityRequestId id) tool_instance (MkGeneration 1) tool_provider
       tool_capability tool_scope (str "Read the page") deadline (str "{}")).
Definition tool_request_key (id : N) : CapabilityRequestKey :=
  ConsumerBound_key (tool_request id 0).

Definition tool_authority (sequence : N) (command : ToolAuthorityCommand) : ToolStep :=
  Ts_Call (Tc_ApplyAuthority (MkAuthorityEnvelope sequence command)).
Definition tool_grant (mode : GrantMode) : ToolAuthorityCommand :=
  SetGrant (MkPolicyGrant tool_key mode).
Definition tool_approval (id sequence : N) (decision : ApprovalDecision) : ApprovalResolution :=
  MkApprovalResolution (tool_request_key id) sequence tool_instance (MkGeneration 1) decision.
Definition tool_success (id op : N) : CapabilityObservationEnvelope :=
  MkCapabilityObservation (MkToolOperationId op) (tool_request_key id) tool_instance
    (MkGeneration 1) tool_provider
    (Observed_Succeeded (MkCapabilityResult (MkResultMetadata 2 None false None)
       (Delivery_Inline (str "{}")))).

(** A provider, an instance, and a grant. *)
Definition demo_configured (mode : GrantMode) : list ToolStep :=
  [Ts_Call (Tc_RegisterProvider tool_descriptor);
   Ts_Call (Tc_SetGeneration tool_instance (MkGeneration 1));
   tool_authority 1 (tool_grant mode)].
(** A request that awaits its approval. *)
Definition demo_awaiting : list ToolStep :=
  demo_configured Grant_RequireApproval ++ [Ts_Call (Tc_Request (tool_request 1 10))].
(** An invocation the host has drained, and a second one still queued. *)
Definition demo_dispatched : list ToolStep :=
  demo_configured Grant_Allow
  ++ [Ts_Call (Tc_Request (tool_request 1 10)); Ts_DrainEffects;
      Ts_Call (Tc_Request (tool_request 2 20))].
(** The first succeeded, its completion was drained; the second was revoked. *)
Definition demo_settled : list ToolStep :=
  demo_dispatched
  ++ [Ts_Call (Tc_ApplyObservation (tool_success 1 1)); Ts_DrainCompletions;
      tool_authority 2 (RevokeGrant tool_key)].

(** The world after a run. *)
Definition world_of (ss : list ToolStep) : ToolWorld := default tool_world_new (tool_run ss tool_world_new).
Abbreviation engine_of ss := (tw_engine (world_of ss)).

(** Every run ends, hence every demo world is reachable. *)
Lemma world_reachable ss : tool_reachable (world_of ss).
Proof.
  exists ss. destruct (tool_run_inv ss tool_world_new tool_new_inv) as (w & E & _).
  unfold world_of. by rewrite E.
Qed.

(** The request [id] of the client after a run. *)
Definition tool_state (ss : list ToolStep) (id : N) : RequestState :=
  default (new_request (accepted_from (tool_request id 0)) Decision_Allow tool_engine_new)
    (te_requests (engine_of ss) !! tool_request_key id).
Lemma tool_state_lookup ss id :
  bool_decide (is_Some (te_requests (engine_of ss) !! tool_request_key id)) = true →
  te_requests (engine_of ss) !! tool_request_key id = Some (tool_state ss id).
Proof. unfold tool_state. intros [st ->]%bool_decide_eq_true. done. Qed.

(** The state after a call. *)
Abbreviation called c e := (snd (tool_call c e)).
Lemma done_pair {A} (m : ToolM A) e a : fst (m e) = Done a → m e = (Done a, snd (m e)).
Proof. by destruct (m e) as [? ?]; intros <-. Qed.

(** [tool_demo] evaluates a closed condition on a demo world. *)
Ltac tool_demo :=
  first [apply world_reachable|apply tool_state_lookup|apply done_pair|idtac];
  try (vm_compute; reflexivity).
