(* ===== verification/ToolTheorems.v ===== *)
(** * What the tool engine guarantees

    The properties of every state and every call of the tool engine: its
    invariant, authorization, the protocol of its effects, the account of its
    completions, panics and failures. Each is followed by an instance of it on
    a concrete run. *)

From S2P Require Import Prelude RustStr RustOrd Ids ToolTypes ToolEngine ToolInv ToolFacts.
From S2P Require Import ToolSteps ToolRequests ToolReach ToolLife ToolDemo.

Local Open Scope N_scope.

(** ** States *)

(** The well-formedness of an engine, by component. *)
Record tool_wf (e : ToolEngine) : Prop := {
  tf_requests :
    requests_inv (te_next_request_sequence e) (te_next_operation_id e) (te_requests e);
  tf_grants :
    grants_inv (te_generations e) (te_instance_states e) (te_providers e) (te_grants e);
  tf_providers : providers_inv (te_providers e);
  tf_bounds : bounds_inv e;
  tf_audit : audit_inv e
}.

(** C11: every state of the tool engine that a host can reach is well formed:
    each request is stored under its own key with the snapshot that shows it,
    under a sequence of its own, with a status that fits its policy decision,
    and has kept its payload only while it awaits approval; each grant names a
    registered provider that has the capability and a consumer allowed to use
    it, and a current, active instance; providers are valid and stored under
    their id; every capacity is respected; and the audit log is numbered
    without gaps. *)
Theorem tool_states_well_formed w : tool_reachable w → tool_wf (tw_engine w).
Proof. intros Hw%tool_reachable_inv. open_inv Hw. by split. Qed.

Lemma tool_states_well_formed_witness : tool_wf (engine_of demo_settled).
Proof. apply tool_states_well_formed. tool_demo. Defined.

(** C12: in every reachable state a request that is not terminal is still
    authorized: its instance is active in the generation it was made for, the
    policy evaluates it to the very decision it was accepted under, and its
    deadline lies ahead. *)
Theorem active_requests_stay_authorized w k st :
  tool_reachable w → te_requests (tw_engine w) !! k = Some st →
  is_terminal (status_in st) = false →
  te_generations (tw_engine w) !! aq_instance_id (rst_request st)
    = Some (aq_generation (rst_request st))
  ∧ te_instance_states (tw_engine w) !! aq_instance_id (rst_request st) = Some Instance_Active
  ∧ evaluate_policy (tw_engine w) (rst_request st) = rq_policy_decision (rst_snapshot st)
  ∧ (∀ reason, rq_policy_decision (rst_snapshot st) ≠ Decision_Deny reason)
  ∧ te_current_tick (tw_engine w) < aq_deadline_tick (rst_request st).
Proof.
  intros Hw%tool_reachable_inv Hk Ha.
  assert (Hact : active st = true) by (unfold active; by rewrite Ha).
  destruct (active_current _ _ _ _ _ _ _ Hw Hk Hact (not_elem_of_nil _)) as (? & ? & ? & ?).
  split_and!; try done. intros reason E.
  pose proof (qw_decision _ _ _ _ (qi_wf _ _ _ (ti_requests _ _ _ _ _ Hw) _ _ Hk)) as Hd.
  rewrite E in Hd. destruct (status_in st); cbn in Hd; naive_solver.
Qed.

Lemma active_requests_stay_authorized_witness :
  te_current_tick (engine_of demo_dispatched)
    < aq_deadline_tick (rst_request (tool_state demo_dispatched 2)).
Proof.
  apply (active_requests_stay_authorized (world_of demo_dispatched) (tool_request_key 2)
    (tool_state demo_dispatched 2)); tool_demo.
Defined.

(** ** Effects *)

(** C14: the effects a host is given follow the protocol of an invocation: over
    everything drained and queued, an operation is invoked at most once and
    cancelled at most once, only an invocation the host was already handed is
    cancelled, and the sequences strictly increase; a dispatched request has
    its invocation, with its own key and provider, among them and uncancelled;
    and a request closed while its invocation was queued leaves no trace of
    the operation. *)
Theorem invocations_follow_protocol w :
  tool_reachable w →
  let handed := tw_effects w in
  let all := tw_effects w ++ te_effects (tw_engine w) in
  NoDup (invoke_ops all) ∧ NoDup (cancel_ops all)
  ∧ (∀ op, op ∈ cancel_ops all → op ∈ invoke_ops handed)
  ∧ StronglySorted N.lt (cf_sequence <$> all)
  ∧ (∀ k st op, te_requests (tw_engine w) !! k = Some st → status_in st = Req_Dispatched op →
       (∃ ef, ef ∈ all ∧ is_invoke (cf_effect ef) = true ∧ cf_operation_id ef = op
         ∧ cf_request_key ef = k ∧ cf_provider_id ef = aq_provider_id (rst_request st))
       ∧ op ∉ cancel_ops all)
  ∧ (∀ k st op, te_requests (tw_engine w) !! k = Some st →
       status_operation (status_in st) = Some op →
       status_disposition (status_in st) = Some QueuedInvokeRemoved → op ∉ effect_ops all).
Proof.
  intros Hw%tool_reachable_inv. cbn zeta. open_inv Hw. destruct Is as [_ I C K S _ _].
  split_and!; try done.
  - intros k st op Hk Hs. destruct (Il k st Hk) as [Hd _].
    destruct (Hd op) as [(ef & Hin & ? & ? & Hkey & ?) Hc]; [by rewrite Hs|].
    split; [|done]. exists ef. split_and!; try done. rewrite Hkey. by apply Iq.
  - intros k st op Hk. by apply (Il k st Hk).
Qed.

Lemma invocations_follow_protocol_witness :
  NoDup (invoke_ops (tw_effects (world_of demo_settled) ++ te_effects (engine_of demo_settled))).
Proof. apply (invocations_follow_protocol (world_of demo_settled)). tool_demo. Defined.

(** C13: a call queues an invocation only if it is a request that the policy in
    force allows, or an approval, for once, of a request that waits for it
    under that policy; in both cases before the deadline, and the invocation
    carries that request's own target, operation and payload. *)
Theorem only_authorized_calls_invoke w c a e' ef :
  tool_reachable w → tool_call c (tw_engine w) = (Done a, e') →
  ef ∈ te_effects e' → is_invoke (cf_effect ef) = true →
  ef ∈ te_effects (tw_engine w) ∨ releases (tw_engine w) c ef.
Proof. intros Hw%tool_reachable_inv Hc. apply (tool_call_changes _ _ _ _ _ _ Hw Hc). Qed.

Definition demo_approve : ToolCall :=
  Tc_ApplyAuthority (MkAuthorityEnvelope 2
    (ResolveApproval (tool_approval 1 1 Approval_ApproveOnce))).

Lemma only_authorized_calls_invoke_witness :
  invocation (rst_request (tool_state demo_awaiting 1)) (engine_of demo_awaiting)
    ∈ te_effects (engine_of demo_awaiting)
  ∨ releases (engine_of demo_awaiting) demo_approve
      (invocation (rst_request (tool_state demo_awaiting 1)) (engine_of demo_awaiting)).
Proof.
  apply (only_authorized_calls_invoke (world_of demo_awaiting) demo_approve
    (Ta_Authority ApprovalResolved) (called demo_approve (engine_of demo_awaiting))); tool_demo.
  apply list_elem_of_lookup. exists 0%nat. vm_compute. reflexivity.
Defined.

(** ** Requests *)

(** C15: every call moves every request by at most one step of its life cycle
    (awaiting approval, dispatched, ended in one of ten ways), under which
    everything the request was accepted with stays as it is; only a request
    call adds a request, with the next sequence; and a request that has not
    ended never disappears. *)
Theorem requests_follow_life_cycle w c a e' k :
  tool_reachable w → tool_call c (tw_engine w) = (Done a, e') →
  (∀ st', te_requests e' !! k = Some st' →
     (∃ st, te_requests (tw_engine w) !! k = Some st ∧ request_step st st')
     ∨ ∃ envelope, c = Tc_Request envelope ∧ k = ConsumerBound_key envelope
         ∧ sequence_in st' = te_next_request_sequence (tw_engine w))
  ∧ (∀ st, te_requests (tw_engine w) !! k = Some st → is_terminal (status_in st) = false →
       ∃ st', te_requests e' !! k = Some st' ∧ request_step st st').
Proof.
  intros Hw%tool_reachable_inv Hc. destruct (tool_call_changes _ _ _ _ _ _ Hw Hc) as [R K _].
  split.
  - intros st' Hk. destruct (R k st' Hk) as [?|(envelope & ? & ? & _ & ->)]; [by left|right].
    by exists envelope.
  - intros st Hk Ha. apply K; [done|]. unfold active. by rewrite Ha.
Qed.

Lemma requests_follow_life_cycle_witness :
  ∃ st', te_requests (called (Tc_AdvanceTime 15) (engine_of demo_dispatched))
           !! tool_request_key 1 = Some st'
    ∧ request_step (tool_state demo_dispatched 1) st'.
Proof.
  apply (requests_follow_life_cycle (world_of demo_dispatched) (Tc_AdvanceTime 15) Ta_Unit);
    tool_demo.
Defined.

(** C16: every accepted request is completed exactly once: the completions
    delivered, queued and counted as dropped, with the requests still active,
    are as many as the requests ever accepted; no two completions answer one
    request, none answers a request that is still active or was never
    accepted, and they are numbered in order. *)
Theorem every_request_completes_once w :
  tool_reachable w →
  let all := tw_completions w ++ te_completions (tw_engine w) in
  len all + te_dropped_completions (tw_engine w) + active_count (te_requests (tw_engine w)) + 1
    = te_next_request_sequence (tw_engine w)
  ∧ NoDup (co_accepted_sequence <$> all)
  ∧ (∀ c, c ∈ all → 1 <= co_accepted_sequence c < te_next_request_sequence (tw_engine w))
  ∧ (∀ k st, te_requests (tw_engine w) !! k = Some st → is_terminal (status_in st) = false →
       sequence_in st ∉ co_accepted_sequence <$> all)
  ∧ StronglySorted N.lt (co_sequence <$> all)
  ∧ te_completion_sequence_exhausted (tw_engine w) = false.
Proof.
  intros Hw%tool_reachable_inv. cbn zeta. open_inv Hw. destruct Ip as [O R A _ C _ X S _].
  cbn in C. split_and!; try done; [lia|..].
  - intros c Hc. apply R. by apply list_elem_of_fmap_2.
  - intros k st Hk Ha. eapply A; [done|]. unfold active. by rewrite Ha.
Qed.

Lemma every_request_completes_once_witness :
  len (tw_completions (world_of demo_settled) ++ te_completions (engine_of demo_settled))
    + te_dropped_completions (engine_of demo_settled)
    + active_count (te_requests (engine_of demo_settled)) + 1
  = te_next_request_sequence (engine_of demo_settled).
Proof. apply (every_request_completes_once (world_of demo_settled)). tool_demo. Defined.

(** ** Panics and failures *)

(** C17: a call in a reachable state of the tool engine never panics, and one
    that returns an error leaves the engine exactly as it was. *)
Theorem tool_calls_are_atomic w c :
  tool_reachable w →
  fst (tool_call c (tw_engine w)) ≠ Panic
  ∧ ∀ error e', tool_call c (tw_engine w) = (Fail error, e') → e' = tw_engine w.
Proof.
  intros Hw%tool_reachable_inv. pose proof (tool_call_ok _ _ c _ Hw) as Hc. unfold tool_ok, wp in Hc.
  destruct (tool_call c (tw_engine w)) as [[a|error|] e']; [done| |done].
  split; [done|]. intros ? ? [= <- <-]. exact Hc.
Qed.

Lemma tool_calls_are_atomic_witness :
  fst (tool_call (Tc_Request (tool_request 1 10)) (engine_of demo_dispatched)) ≠ Panic.
Proof. apply (tool_calls_are_atomic (world_of demo_dispatched)). tool_demo. Defined.

