(* ===== verification/ToolSpecs.v ===== *)
(** * What each call of the tool engine does

    The functional behaviour of the calls in a reachable state: exactly when
    they are accepted, what they leave, and what they refuse. *)

From S2P Require Import Prelude RustStr RustOrd Ids ToolTypes ToolEngine ToolInv ToolFacts.
From S2P Require Import ToolSteps ToolRequests ToolReach ToolLife ToolDemo.

Local Open Scope N_scope.

(** From a method's outcome to an equivalence. *)
Lemma wp_done {A} (m : ToolM A) (Q : A → ToolEngine → Prop)
    (F : ToolEngineError → ToolEngine → Prop) e :
  wp m Q F e →
  (∃ a e', m e = (Done a, e') ∧ Q a e') ∨ (∃ error e', m e = (Fail error, e') ∧ F error e').
Proof. unfold wp. destruct (m e) as [[a|error|] e']; [left|right|done]; eauto. Qed.

(** ** Requests *)

(** C25: a request is accepted exactly when it is valid before its deadline, its
    key is new or its former request has ended, and the sequences, the table
    of requests, the client's share of it and, for an allowed request, the
    effect queue have room; it is then answered with the decision of the
    policy in force and leaves what [accepted] says: the request recorded under
    the decision, the invocation queued, or the denial completed. A refused
    request changes nothing. *)
Theorem request_spec w envelope :
  tool_reachable w →
  let e := tw_engine w in
  (admissible envelope e →
     ∃ e', request_capability envelope e = (Done (evaluate_policy e (accepted_from envelope)), e')
       ∧ accepted envelope e e')
  ∧ (¬ admissible envelope e → ∃ error, request_capability envelope e = (Fail error, e)).
Proof.
  intros Hw%tool_reachable_inv. cbn zeta.
  destruct (wp_done _ _ _ _ (request_ok _ _ envelope _ Hw))
    as [(d & e' & E & _ & -> & Hadm & Hacc)|(error & e' & E & -> & Hno)].
  - split; [by exists e'|done].
  - split; [done|by exists error].
Qed.

Lemma admissible_demo : admissible (tool_request 3 30) (engine_of (demo_configured Grant_Allow)).
Proof.
  split; [vm_compute; reflexivity| |vm_compute; discriminate| | |intros _; left; vm_compute; reflexivity].
  - intros st Hk. assert (E : None = Some st) by (rewrite <- Hk; vm_compute; reflexivity). done.
  - intros _. split_and!; [vm_compute; discriminate|vm_compute; reflexivity..].
  - intros _. vm_compute. reflexivity.
Qed.

Lemma request_spec_witness :
  let e := engine_of (demo_configured Grant_Allow) in
  ∃ e', request_capability (tool_request 3 30) e
          = (Done (evaluate_policy e (accepted_from (tool_request 3 30))), e')
    ∧ accepted (tool_request 3 30) e e'.
Proof.
  cbn zeta. apply (request_spec (world_of (demo_configured Grant_Allow))); [tool_demo|].
  apply admissible_demo.
Defined.

(** ** Approvals *)

(** C26: an approval is accepted exactly when it answers, by nonce and scope, a
    request that waits for one, with the operation, sequence and queue an
    approved invocation takes; approved, the request is dispatched with its
    payload; denied, it ends and its completion is queued. The elapsed
    deadline is never reported: a request that waits has not expired. *)
Theorem approval_spec w resolution :
  tool_reachable w →
  let e := tw_engine w in
  (∀ st, approvable resolution st e →
     ∃ e', resolve_approval resolution e = (Done tt, e') ∧ answered resolution st e e')
  ∧ ((∀ st, ¬ approvable resolution st e) →
     ∃ error, resolve_approval resolution e = (Fail error, e)
       ∧ ∀ k, error ≠ Te_ApprovalDeadlineElapsed k).
Proof.
  intros Hw%tool_reachable_inv. cbn zeta.
  destruct (wp_done _ _ _ _ (resolve_approval_ok _ _ resolution _ Hw))
    as [([] & e' & E & _ & st & A & Hans)|(error & e' & E & -> & Hno & Hne)].
  - split; [|intros Hno; by destruct (Hno st)]. intros st' A'. exists e'. split; [done|].
    pose proof (ap_request _ _ _ A). pose proof (ap_request _ _ _ A'). congruence.
  - split; [intros st A; by destruct (Hno st)|]. intros _. by exists error.
Qed.

Lemma approval_spec_witness :
  ∃ e', resolve_approval (tool_approval 1 1 Approval_Deny) (engine_of demo_awaiting) = (Done tt, e')
    ∧ answered (tool_approval 1 1 Approval_Deny) (tool_state demo_awaiting 1)
        (engine_of demo_awaiting) e'.
Proof.
  apply (approval_spec (world_of demo_awaiting)); [tool_demo|].
  split; [apply (tool_state_lookup demo_awaiting 1)| |split| |by intros [=]];
    vm_compute; reflexivity.
Defined.

(** ** Authority *)

Lemma tool_run_authority ss w w' :
  tool_run ss w = Some w' → world_inv w →
  te_last_authority_sequence (tw_engine w) <= te_last_authority_sequence (tw_engine w').
Proof.
  revert w. induction ss as [|s ss IH]; intros w; cbn [tool_run]; [by intros [= ->]|].
  intros (w1 & Hs & Hrun)%bind_Some Hi. destruct (tool_step_inv s w Hi) as (w2 & E & Hi1).
  rewrite Hs in E. injection E as <-. transitivity (te_last_authority_sequence (tw_engine w1));
    [|by apply IH]. destruct w as [e H D]. destruct s as [c| |]; cbn in Hs; [|by simplify_eq..].
  pose proof (tool_call_ok H D c e Hi) as Hok. unfold tool_ok, wp in Hok.
  destruct (tool_call c e) as [[a|error|] e'] eqn:Hc; simplify_eq; cbn; [|done].
  apply (tool_call_changes _ _ _ _ _ _ Hi Hc).
Qed.

(** C27: an authority command takes effect once: it is accepted only under a
    sequence above the last one, does what the command says and never reports
    an expired approval; and from then on, whatever the host does, every
    envelope with that sequence or a lower one is refused and changes nothing. *)
Theorem authority_commands_act_once w envelope outcome e' :
  tool_reachable w → apply_authority envelope (tw_engine w) = (Done outcome, e') →
  te_last_authority_sequence (tw_engine w) < ta_sequence envelope
  ∧ (∃ e1, commanded (ta_command envelope) outcome (tw_engine w) e1
       ∧ e' = e1 <| te_last_authority_sequence := ta_sequence envelope |>)
  ∧ ∀ ss w' again,
      tool_run ss (MkToolWorld e' (tw_effects w) (tw_completions w)) = Some w' →
      ta_sequence again <= ta_sequence envelope →
      ∃ error, apply_authority again (tw_engine w') = (Fail error, tw_engine w').
Proof.
  intros Hw%tool_reachable_inv Ha.
  pose proof (apply_authority_ok _ _ envelope _ Hw) as Hok. unfold tool_ok, wp in Hok.
  rewrite Ha in Hok. destruct Hok as (Hi & Hlt & e1 & Hc & He). split_and!; [done|by exists e1|].
  intros ss w' again Hrun Hle. pose proof (tool_run_authority _ _ _ Hrun Hi) as Hm.
  destruct (tool_run_inv ss (MkToolWorld e' _ _) Hi) as (w2 & E & Hi'). rewrite Hrun in E.
  injection E as <-.
  destruct (wp_done _ _ _ _ (apply_authority_ok _ _ again _ Hi'))
    as [(o & e2 & _ & _ & Hlt2 & _)|(error & e2 & E & ->)]; [|by exists error].
  subst e'. cbn in Hm. lia.
Qed.

Definition demo_revoke : ToolAuthorityEnvelope := MkAuthorityEnvelope 2 (RevokeGrant tool_key).

Lemma authority_commands_act_once_witness :
  let e' := snd (apply_authority demo_revoke (engine_of demo_dispatched)) in
  ∃ error, apply_authority demo_revoke e' = (Fail error, e').
Proof.
  cbn zeta.
  destruct (authority_commands_act_once (world_of demo_dispatched) demo_revoke (GrantRevoked true)
    (snd (apply_authority demo_revoke (engine_of demo_dispatched)))) as (_ & _ & H).
  - tool_demo.
  - tool_demo.
  - exact (H [] _ demo_revoke eq_refl (N.le_refl _)).
Defined.

(** ** Observations *)

(** The envelope answers the operation of the dispatched request [st]. *)
Record answers_operation (envelope : CapabilityObservationEnvelope) (st : RequestState)
    (op : ToolOperationId) (e : ToolEngine) : Prop := {
  an_request : te_requests e !! to_request_key envelope = Some st;
  an_status : status_in st = Req_Dispatched op;
  an_operation : to_operation_id envelope = op;
  an_generation : te_generations e !! aq_instance_id (rst_request st) = Some (to_generation envelope)
    ∧ to_generation envelope = aq_generation (rst_request st);
  an_instance : to_instance_id envelope = aq_instance_id (rst_request st);
  an_provider : to_provider_id envelope = aq_provider_id (rst_request st)
}.

Lemma fence_answers envelope st op e :
  te_requests e !! to_request_key envelope = Some st →
  observation_fence envelope st e = Ok op ↔ answers_operation envelope st op e.
Proof.
  intros Hk. split.
  - intros (? & ? & ? & ? & ? & ?)%fence_dispatched. by split.
  - intros [_ Hs Ho [Hg1 Hg2] Hi Hp]. unfold observation_fence.
    rewrite Hg1, Hg2, Hi, Hp, Hs, Ho, !bool_decide_eq_false_2 by tauto. done.
Qed.

(** C28: an observation is applied exactly when it names a dispatched request
    with its operation, current generation, instance and provider; the request
    then ends as observed (an invalid result or failure counts as a breach of
    the provider's contract) and its one completion is pushed. Any other
    observation changes only the revision and the audit log; only operation
    zero is an error, and changes nothing. *)
Theorem observation_spec w envelope :
  tool_reachable w →
  let e := tw_engine w in
  (tool_operation_raw (to_operation_id envelope) = 0 →
     ∃ error, tool_apply_observation envelope e = (Fail error, e))
  ∧ (tool_operation_raw (to_operation_id envelope) ≠ 0 →
     (∀ st op, answers_operation envelope st op e →
        ∃ e', tool_apply_observation envelope e = (Done Disposition_Applied, e')
          ∧ settled envelope st op e e')
     ∧ ((∀ st op, ¬ answers_operation envelope st op e) →
        ∃ reason e', tool_apply_observation envelope e = (Done (Disposition_Ignored reason), e')
          ∧ quiet_step e e')).
Proof.
  intros Hw%tool_reachable_inv. cbn zeta. split.
  { intros Hz. unfold tool_apply_observation. rewrite Hz. cbn. eauto. }
  intros Hz. destruct (wp_done _ _ _ _ (apply_observation_ok _ _ envelope _ Hw))
    as [(d & e' & E & _ & Ho)|(error & e' & _ & _ & E0)]; [|done].
  unfold observed in Ho. destruct (te_requests _ !! _) as [st|] eqn:Hk.
  - destruct (observation_fence envelope st _) as [op|reason] eqn:Ef; destruct Ho as [-> Ho].
    + apply fence_answers in Ef; [|done]. split; [|intros Hno; by destruct (Hno st op)].
      intros st' op' A. exists e'. split; [done|].
      pose proof (an_request _ _ _ _ A). pose proof (an_status _ _ _ _ A).
      pose proof (an_status _ _ _ _ Ef). replace st' with st by congruence.
      replace op' with op by congruence. done.
    + split; [|by exists reason, e']. intros st' op' A.
      pose proof (an_request _ _ _ _ A). replace st' with st in A by congruence.
      apply fence_answers in A; [congruence|done].
  - split; [|intros _; destruct Ho as [-> ?]; by eexists _, e'].
    intros st' op' A. pose proof (an_request _ _ _ _ A). congruence.
Qed.

Lemma observation_spec_witness :
  ∃ e', tool_apply_observation (tool_success 1 1) (engine_of demo_dispatched)
          = (Done Disposition_Applied, e')
    ∧ settled (tool_success 1 1) (tool_state demo_dispatched 1) (MkToolOperationId 1)
        (engine_of demo_dispatched) e'.
Proof.
  apply (observation_spec (world_of demo_dispatched)); [tool_demo|discriminate|].
  split; [apply (tool_state_lookup demo_dispatched 1)|..]; try split; vm_compute; reflexivity.
Defined.

(** ** Grants, generations, runtimes and time *)

(** C29: a grant is accepted exactly when its provider is registered, has the
    capability and may serve the consumer, its instance is active in the
    grant's generation, and there is room for a new key; a grant of the mode
    in force changes nothing, any other revokes every open request that rests
    on the old mode before it takes its place. A refused grant changes nothing. *)
Theorem grant_spec w grant :
  tool_reachable w →
  let e := tw_engine w in
  (grantable grant e → ∃ e', set_grant grant e = (Done tt, e') ∧ granted grant e e')
  ∧ (¬ grantable grant e → ∃ error, set_grant grant e = (Fail error, e)).
Proof.
  intros Hw%tool_reachable_inv. cbn zeta.
  destruct (wp_done _ _ _ _ (set_grant_ok _ _ grant _ Hw))
    as [([] & e' & E & _ & Hok & Hg)|(error & e' & E & -> & Hno)].
  - split; [by exists e'|done].
  - split; [done|by exists error].
Qed.

Lemma grant_spec_witness :
  ∃ e', set_grant (MkPolicyGrant tool_key Grant_RequireApproval) (engine_of demo_dispatched)
          = (Done tt, e')
    ∧ granted (MkPolicyGrant tool_key Grant_RequireApproval) (engine_of demo_dispatched) e'.
Proof.
  apply (grant_spec (world_of demo_dispatched)); [tool_demo|]. split; [split_and!|].
  - exists tool_descriptor. split_and!; vm_compute; reflexivity.
  - vm_compute. reflexivity.
  - vm_compute. reflexivity.
  - intros _. vm_compute. reflexivity.
Defined.

(** Detaching the runtime of a registered provider closes exactly the
    active requests at that provider, counts them, and leaves no effect for it
    in the queue; every other request, the grants and the registration stay.
    An unknown provider is refused. *)
Theorem detach_spec w p :
  tool_reachable w →
  let e := tw_engine w in
  let targets := active_requests_where (request_at p) e in
  (te_providers e !! p = None → ∃ error, detach_provider_runtime p e = (Fail error, e))
  ∧ (is_Some (te_providers e !! p) →
     ∃ e', detach_provider_runtime p e = (Done (len targets), e')
       ∧ same_policy e e'
       ∧ (∀ k, k ∉ targets → te_requests e' !! k = te_requests e !! k)
       ∧ (∀ k, k ∈ targets → ∃ st c, te_requests e !! k = Some st
            ∧ te_requests e' !! k = Some (closed_as Req_ProviderDetached c st))
       ∧ ∀ ef, ef ∈ te_effects e' → cf_provider_id ef ≠ p).
Proof.
  intros Hw%tool_reachable_inv. cbn zeta.
  destruct (wp_done _ _ _ _ (detach_ok _ _ p _ Hw))
    as [(n & e' & E & _ & Hp & -> & e1 & [P O C _] & Hq)|(error & e' & E & -> & Hp)].
  - split; [intros Hno; rewrite Hno in Hp; by apply is_Some_None in Hp|]. intros _. exists e'.
    pose proof (quiet_same _ _ Hq) as S. pose proof (quiet_policy _ _ Hq) as Hpol.
    split_and!; [done| | | |]; rewrite ?(sf_requests _ _ S), ?(sf_effects _ _ S); cbn.
    + etransitivity; [|exact Hpol]. etransitivity; [exact P|by split].
    + exact O.
    + intros k Hk. destruct (C k Hk) as (st & c & ? & _ & ?). by exists st, c.
    + intros ef [_ Hne]%elem_of_retain. by bool_prop.
  - split; [by exists error|]. intros Hs. rewrite Hp in Hs. by apply is_Some_None in Hs.
Qed.

Lemma detach_spec_witness :
  ∃ e', detach_provider_runtime tool_provider (engine_of demo_dispatched)
          = (Done (len (active_requests_where (request_at tool_provider) (engine_of demo_dispatched))), e').
Proof.
  destruct (detach_spec (world_of demo_dispatched) tool_provider) as [_ H]; [tool_demo|].
  destruct H as (e' & E & _); [|by exists e'].
  apply (bool_decide_eq_true (is_Some _)). vm_compute. reflexivity.
Defined.

(** The clock never goes back. A tick ahead times out exactly the active
    requests whose deadline it reaches, cancelling what was dispatched, and
    keeps every other request, the policy and the grants; the tick in force
    changes nothing and an earlier one is refused. *)
Theorem time_spec w tick :
  tool_reachable w →
  let e := tw_engine w in
  let targets := active_requests_where (expires tick) e in
  (tick < te_current_tick e → ∃ error, advance_time tick e = (Fail error, e))
  ∧ (tick = te_current_tick e → advance_time tick e = (Done tt, e))
  ∧ (te_current_tick e < tick →
     ∃ e', advance_time tick e = (Done tt, e') ∧ te_current_tick e' = tick
       ∧ te_grants e' = te_grants e
       ∧ (∀ k, k ∉ targets → te_requests e' !! k = te_requests e !! k)
       ∧ ∀ k, k ∈ targets → ∃ st c, te_requests e !! k = Some st
           ∧ te_requests e' !! k = Some (closed_as Req_TimedOut c st)).
Proof.
  intros Hw%tool_reachable_inv. cbn zeta.
  destruct (wp_done _ _ _ _ (advance_time_ok _ _ tick _ Hw))
    as [([] & e' & E & _ & Hle & Ha)|(error & e' & E & -> & Hlt)].
  - split_and!; [lia| |].
    + intros ->. rewrite N.eqb_refl in Ha. by subst.
    + intros Hlt. rewrite (proj2 (N.eqb_neq _ _)) in Ha by lia.
      destruct Ha as (e1 & [P O C _] & Hq). exists e'. pose proof (quiet_same _ _ Hq) as S.
      rewrite (sf_tick _ _ S), (sf_grants _ _ S), (sf_requests _ _ S).
      split_and!; [done|apply P|apply P|exact O|].
      intros k Hk. destruct (C k Hk) as (st & c & ? & _ & ?). by exists st, c.
  - split_and!; [by exists error|lia..].
Qed.

Lemma time_spec_witness :
  ∃ e', advance_time 15 (engine_of demo_dispatched) = (Done tt, e') ∧ te_current_tick e' = 15.
Proof.
  destruct (time_spec (world_of demo_dispatched) 15) as (_ & _ & H); [tool_demo|].
  destruct H as (e' & E & Ht & _); [vm_compute; reflexivity|exact (ex_intro _ e' (conj E Ht))].
Defined.

(** The generation of an instance never goes back. A new one purges the
    grants of every other generation of the instance, supersedes exactly its
    active requests of other generations, and keeps everything else. *)
Theorem generation_spec w i g :
  tool_reachable w →
  let e := tw_engine w in
  let targets := active_requests_where (stale_request i g) e in
  ((∃ current, te_generations e !! i = Some current ∧ generation_raw g < generation_raw current) →
     ∃ error, set_generation i g e = (Fail error, e))
  ∧ (te_generations e !! i = Some g → set_generation i g e = (Done tt, e))
  ∧ (te_generations e !! i ≠ Some g →
     (∀ current, te_generations e !! i = Some current → generation_raw current <= generation_raw g) →
     ∃ e', set_generation i g e = (Done tt, e')
       ∧ te_generations e' = <[i := g]> (te_generations e)
       ∧ (∀ key, te_grants e' !! key =
            if bool_decide (pk_instance_id key = i) && bool_decide (pk_generation key ≠ g)
            then None else te_grants e !! key)
       ∧ (∀ k, k ∉ targets → te_requests e' !! k = te_requests e !! k)
       ∧ ∀ k, k ∈ targets → ∃ st c, te_requests e !! k = Some st
           ∧ te_requests e' !! k = Some (closed_as (λ o c, Req_Superseded o c g) c st)).
Proof.
  intros Hw%tool_reachable_inv. cbn zeta.
  destruct (wp_done _ _ _ _ (set_generation_ok _ _ i g _ Hw))
    as [([] & e' & E & _ & Hle & Hs)|(error & e' & E & -> & current & Hc & Hlt)].
  - split_and!.
    + intros (current & Hc & Hlt). specialize (Hle current Hc). lia.
    + intros Hg. rewrite bool_decide_eq_true_2 in Hs by done. by subst.
    + intros Hg _. rewrite bool_decide_eq_false_2 in Hs by done.
      destruct Hs as (gr & e1 & Hp & [P O C _] & Hq). exists e'.
      pose proof (quiet_same _ _ Hq) as S.
      rewrite (sf_generations _ _ S), (sf_grants _ _ S), (sf_requests _ _ S).
      split_and!; [done|apply P| |exact O|].
      * intros key. rewrite (sp_grants _ _ P). apply Hp.
      * intros k Hk. destruct (C k Hk) as (st & c & ? & _ & ?). by exists st, c.
  - split_and!; [by exists error| |].
    + intros Hg. rewrite Hc in Hg. injection Hg as ->. lia.
    + intros _ Hle. specialize (Hle current Hc). lia.
Qed.

Lemma generation_spec_witness :
  ∃ e', set_generation tool_instance (MkGeneration 2) (engine_of demo_dispatched) = (Done tt, e')
    ∧ te_generations e'
      = <[tool_instance := MkGeneration 2]> (te_generations (engine_of demo_dispatched)).
Proof.
  destruct (generation_spec (world_of demo_dispatched) tool_instance (MkGeneration 2))
    as (_ & _ & H); [tool_demo|].
  destruct H as (e' & E & Hg & _); [| |exact (ex_intro _ e' (conj E Hg))].
  - intros E0. assert (E : Some (MkGeneration 1) = Some (MkGeneration 2))
      by (rewrite <- E0; vm_compute; reflexivity). discriminate E.
  - intros current Hc. assert (E : Some (MkGeneration 1) = Some current)
      by (rewrite <- Hc; vm_compute; reflexivity). by injection E as <-.
Defined.
