(* ===== verification/Input.v ===== *)
(** * Terminal input preparation

    crates/gate4agent-types/src/input.rs: the conversion of an input action to
    a bounded sequence of PTY writes, prompt sanitizing, and its errors. *)

From S2P Require Import Prelude RustStr Ids.

Local Open Scope N_scope.

(* types/input.rs TERMINAL_INPUT_CHUNK_MAX_BYTES *)
Definition TERMINAL_INPUT_CHUNK_MAX_BYTES : N := 16 * 1024.
(* types/input.rs TERMINAL_INPUT_MAX_BYTES *)
Definition TERMINAL_INPUT_MAX_BYTES : N := 16 * 1024 * 1024.
(* types/input.rs TERMINAL_BYTES_MAX_BYTES *)
Definition TERMINAL_BYTES_MAX_BYTES : N := 64.
(* types/input.rs TERMINAL_SUBMIT_DELAY_MS *)
Definition TERMINAL_SUBMIT_DELAY_MS : N := 500.
(* types/input.rs SEMANTIC_PROMPT_MAX_BYTES *)
Definition SEMANTIC_PROMPT_MAX_BYTES : N := TERMINAL_INPUT_MAX_BYTES.
(* types/input.rs BRACKETED_PASTE_START *)
Definition BRACKETED_PASTE_START : list N := 0x1b :: str "[200~".
(* types/input.rs BRACKETED_PASTE_END *)
Definition BRACKETED_PASTE_END : list N := 0x1b :: str "[201~".

(* types/input.rs PromptFraming *)
Inductive PromptFraming := BracketedPaste | Literal.

(* types/input.rs PromptPayload *)
Record PromptPayload := MkPromptPayload {
  payload_text : list N;
  payload_framing : PromptFraming
}.

(* types/input.rs AgentCommand *)
Record AgentCommand := MkAgentCommand {
  command_agent_id : AgentId;
  command_name : list N;
  command_arguments : list (list N)
}.

(* types/input.rs ShellCommand *)
Record ShellCommand := MkShellCommand { shell_text : list N }.

(* types/input.rs TerminalText *)
Record TerminalText := MkTerminalText { terminal_text : list N }.

(* types/input.rs TerminalControl *)
Inductive TerminalControl :=
  | TC_Interrupt | TC_EndOfFile | TC_ControlA | TC_ControlB | TC_ControlE
  | TC_ControlF | TC_ControlG | TC_ControlH | TC_ControlI | TC_ControlJ
  | TC_ControlK | TC_ControlL | TC_ControlM | TC_ControlN | TC_ControlO
  | TC_ControlP | TC_ControlQ | TC_ControlR | TC_ControlS | TC_ControlT
  | TC_ControlU | TC_ControlV | TC_ControlW | TC_ControlX | TC_ControlY
  | TC_ControlZ | TC_Enter | TC_LineFeed | TC_Escape | TC_Backspace | TC_Tab
  | TC_BackTab | TC_Insert | TC_Delete | TC_Home | TC_End | TC_PageUp
  | TC_PageDown | TC_ArrowUp | TC_ArrowDown | TC_ArrowRight | TC_ArrowLeft
  | TC_Function1 | TC_Function2 | TC_Function3 | TC_Function4 | TC_Function5
  | TC_Function6 | TC_Function7 | TC_Function8 | TC_Function9 | TC_Function10
  | TC_Function11 | TC_Function12.

(* types/input.rs TerminalControl::bytes *)
Definition TerminalControl_bytes (c : TerminalControl) : list N :=
  match c with
  | TC_Interrupt => [0x03]%N
  | TC_EndOfFile => [0x04]%N
  | TC_ControlA => [0x01]%N
  | TC_ControlB => [0x02]%N
  | TC_ControlE => [0x05]%N
  | TC_ControlF => [0x06]%N
  | TC_ControlG => [0x07]%N
  | TC_ControlH => [0x08]%N
  | TC_ControlI => [0x09]%N
  | TC_ControlJ => [0x0a]%N
  | TC_ControlK => [0x0b]%N
  | TC_ControlL => [0x0c]%N
  | TC_ControlM => [0x0d]%N
  | TC_ControlN => [0x0e]%N
  | TC_ControlO => [0x0f]%N
  | TC_ControlP => [0x10]%N
  | TC_ControlQ => [0x11]%N
  | TC_ControlR => [0x12]%N
  | TC_ControlS => [0x13]%N
  | TC_ControlT => [0x14]%N
  | TC_ControlU => [0x15]%N
  | TC_ControlV => [0x16]%N
  | TC_ControlW => [0x17]%N
  | TC_ControlX => [0x18]%N
  | TC_ControlY => [0x19]%N
  | TC_ControlZ => [0x1a]%N
  | TC_Enter => [0x0d]%N
  | TC_LineFeed => [0x0a]%N
  | TC_Escape => [0x1b]%N
  | TC_Backspace => [0x08]%N
  | TC_Tab => [0x09]%N
  | TC_BackTab => 0x1b%N :: str "[Z"
  | TC_Insert => 0x1b%N :: str "[2~"
  | TC_Delete => 0x1b%N :: str "[3~"
  | TC_Home => 0x1b%N :: str "[H"
  | TC_End => 0x1b%N :: str "[F"
  | TC_PageUp => 0x1b%N :: str "[5~"
  | TC_PageDown => 0x1b%N :: str "[6~"
  | TC_ArrowUp => 0x1b%N :: str "[A"
  | TC_ArrowDown => 0x1b%N :: str "[B"
  | TC_ArrowRight => 0x1b%N :: str "[C"
  | TC_ArrowLeft => 0x1b%N :: str "[D"
  | TC_Function1 => 0x1b%N :: str "OP"
  | TC_Function2 => 0x1b%N :: str "OQ"
  | TC_Function3 => 0x1b%N :: str "OR"
  | TC_Function4 => 0x1b%N :: str "OS"
  | TC_Function5 => 0x1b%N :: str "[15~"
  | TC_Function6 => 0x1b%N :: str "[17~"
  | TC_Function7 => 0x1b%N :: str "[18~"
  | TC_Function8 => 0x1b%N :: str "[19~"
  | TC_Function9 => 0x1b%N :: str "[20~"
  | TC_Function10 => 0x1b%N :: str "[21~"
  | TC_Function11 => 0x1b%N :: str "[23~"
  | TC_Function12 => 0x1b%N :: str "[24~"
  end.

(* types/input.rs InputAction *)
Inductive InputAction :=
| IA_InsertDraft (payload : PromptPayload)
| IA_SubmitPrompt (payload : PromptPayload)
| IA_AgentCommand (command : AgentCommand)
| IA_ShellCommand (command : ShellCommand)
| IA_TerminalText (text : TerminalText)
| IA_TerminalBytes (bytes : list N)
| IA_TerminalControl (control : TerminalControl).

(* types/input.rs PreparedWriteKind *)
Inductive PreparedWriteKind := WK_Framing | WK_Data | WK_Submit | WK_Control.

(* types/input.rs PreparedWrite *)
Record PreparedWrite := MkWrite {
  write_kind : PreparedWriteKind;
  write_bytes : list N;
  write_delay_before_ms : N
}.

(* types/input.rs PreparedInputKind *)
Inductive PreparedInputKind :=
| PK_InsertDraft | PK_SubmitPrompt | PK_AgentCommand | PK_ShellCommand
| PK_TerminalText | PK_TerminalBytes | PK_TerminalControl.

(* types/input.rs PreparedInput *)
Record PreparedInput := MkPreparedInput {
  input_kind : PreparedInputKind;
  input_writes : list PreparedWrite
}.

#[export] Instance PreparedWriteKind_eq : EqDecision PreparedWriteKind.
Proof. solve_decision. Defined.
#[export] Instance PreparedInputKind_eq : EqDecision PreparedInputKind.
Proof. solve_decision. Defined.

(* types/input.rs InputPrepareError *)
Inductive InputPrepareError :=
| ZeroChunkLimit
| InputTooLarge (bytes max : N)
| ChunkLimitTooSmall (bytes max : N)
| EmptyTerminalBytes
| ControlCharacterInTerminalText (index codepoint : N)
| AgentDispatcherRequired
| AgentTargetMismatch (command_agent target_agent : AgentId)
| InvalidAgentCommandName (name : list N)
| InvalidAgentCommandArgument (argument_index : N)
| ShellDispatcherRequired
| EmptyShellCommand
| ControlCharacterInShellCommand (index codepoint : N).

(* types/input.rs InputPrepareError *)
Definition InputPrepareError_to_string (e : InputPrepareError) : list N :=
  match e with
  | ZeroChunkLimit => str "terminal input chunk limit cannot be zero"
  | InputTooLarge bytes max =>
      str "input is " ++ fmt_dec bytes ++ str " bytes; the configured limit is "
        ++ fmt_dec max ++ str " bytes"
  | ChunkLimitTooSmall bytes max =>
      str "a " ++ fmt_dec bytes ++ str "-byte UTF-8 code point does not fit the "
        ++ fmt_dec max ++ str "-byte chunk limit"
  | EmptyTerminalBytes => str "terminal byte sequence cannot be empty"
  | ControlCharacterInTerminalText index codepoint =>
      str "terminal text contains control U+" ++ fmt_hex4 codepoint ++ str " at byte "
        ++ fmt_dec index ++ str "; use TerminalControl"
  | AgentDispatcherRequired =>
      str "agent commands require a provider-specific capability dispatcher"
  | AgentTargetMismatch command_agent target_agent =>
      str "agent command targets '" ++ agent_id_str command_agent
        ++ str "', but foreground dispatcher selected '" ++ agent_id_str target_agent ++ str "'"
  | InvalidAgentCommandName name => str "invalid agent command name '" ++ name ++ str "'"
  | InvalidAgentCommandArgument argument_index =>
      str "agent command argument " ++ fmt_dec argument_index
        ++ str " is empty or contains terminal controls"
  | ShellDispatcherRequired =>
      str "shell commands require a confirmed foreground shell dispatcher"
  | EmptyShellCommand => str "shell command cannot be empty"
  | ControlCharacterInShellCommand index codepoint =>
      str "shell command contains control U+" ++ fmt_hex4 codepoint ++ str " at byte "
        ++ fmt_dec index
  end.

(** ** Sanitizing *)

(** The text one character contributes to the sanitized prompt. *)
Definition sanitize_char (c : N) : list N :=
  if ((c =? 0xa) || (c =? 0xd) || (c =? 0x9))%bool then [c]
  else if c =? 0x1b then str "<ESC>"
  else if c =? 0x9b then str "<CSI>"
  else if c =? 0x9d then str "<OSC>"
  else if is_control c then str "<U+" ++ fmt_hex4 c ++ str ">"
  else [c].

(* types/input.rs sanitize_prompt_text *)
Definition sanitize_prompt_text (text : list N) : list N := text ≫= sanitize_char.

(* types/input.rs normalize_semantic_prompt *)
Definition normalize_semantic_prompt (text : list N) : result InputPrepareError (list N) :=
  guard_err (SEMANTIC_PROMPT_MAX_BYTES <? str_len text)
    (InputTooLarge (str_len text) SEMANTIC_PROMPT_MAX_BYTES) ;;
  Ok (sanitize_prompt_text text).

(** ** Chunking *)

(** [&bytes[a..b]]. *)
Definition slice (bytes : list N) (a b : N) : list N :=
  take (N.to_nat (b - a)) (drop (N.to_nat a) bytes).

(** The loop of [bounded_chunks] over the characters [s] left of a text with
    bytes [bytes]; [index] is the byte index of the first of them. *)
Fixpoint bounded_chunks_loop (bytes : list N) (max_chunk_bytes : N)
    (s : list N) (index start current_bytes : N) (chunks : list (list N))
    : result InputPrepareError (list (list N) * N) :=
  match s with
  | [] => Ok (chunks, start)
  | c :: s' =>
      let character_bytes := len_utf8 c in
      if max_chunk_bytes <? character_bytes then
        Err (ChunkLimitTooSmall character_bytes max_chunk_bytes)
      else if max_chunk_bytes <? current_bytes + character_bytes then
        bounded_chunks_loop bytes max_chunk_bytes s' (index + character_bytes)
          index character_bytes (chunks ++ [slice bytes start index])
      else
        bounded_chunks_loop bytes max_chunk_bytes s' (index + character_bytes)
          start (current_bytes + character_bytes) chunks
  end.

(* types/input.rs bounded_chunks *)
Definition bounded_chunks (text : list N) (max_chunk_bytes max_total_bytes : N)
    : result InputPrepareError (list (list N)) :=
  guard_err (max_total_bytes <? str_len text) (InputTooLarge (str_len text) max_total_bytes) ;;
  if str_is_empty text then Ok []
  else
    '(chunks, start) ← bounded_chunks_loop (as_bytes text) max_chunk_bytes text 0 0 0 [];
    Ok (chunks ++ [slice (as_bytes text) start (str_len text)]).

(** A data write and the delayed Enter that submits. *)
Definition data_write (bytes : list N) : PreparedWrite := MkWrite WK_Data bytes 0.
Definition submit_write : PreparedWrite :=
  MkWrite WK_Submit (TerminalControl_bytes TC_Enter) TERMINAL_SUBMIT_DELAY_MS.

(* types/input.rs prepare_prompt *)
Definition prepare_prompt (payload : PromptPayload) (submit : bool)
    (max_chunk_bytes max_total_bytes : N) : result InputPrepareError PreparedInput :=
  guard_err (max_total_bytes <? str_len (payload_text payload))
    (InputTooLarge (str_len (payload_text payload)) max_total_bytes) ;;
  let sanitized := sanitize_prompt_text (payload_text payload) in
  chunks ← bounded_chunks sanitized max_chunk_bytes max_total_bytes;
  let frame bytes :=
    match payload_framing payload with
    | BracketedPaste => [MkWrite WK_Framing bytes 0]
    | Literal => []
    end in
  Ok (MkPreparedInput
        (if submit then PK_SubmitPrompt else PK_InsertDraft)
        (frame BRACKETED_PASTE_START ++ (data_write <$> chunks)
           ++ frame BRACKETED_PASTE_END ++ (if submit then [submit_write] else []))).

(* types/input.rs prepare_input_with_limits *)
Definition prepare_input_with_limits (action : InputAction)
    (max_chunk_bytes max_total_bytes : N) : result InputPrepareError PreparedInput :=
  guard_err (max_chunk_bytes =? 0) ZeroChunkLimit ;;
  match action with
  | IA_InsertDraft payload => prepare_prompt payload false max_chunk_bytes max_total_bytes
  | IA_SubmitPrompt payload => prepare_prompt payload true max_chunk_bytes max_total_bytes
  | IA_TerminalText text =>
      match find_char is_control (terminal_text text) with
      | Some (index, character) => Err (ControlCharacterInTerminalText index character)
      | None =>
          chunks ← bounded_chunks (terminal_text text) max_chunk_bytes max_total_bytes;
          Ok (MkPreparedInput PK_TerminalText (data_write <$> chunks))
      end
  | IA_TerminalBytes bytes =>
      match bytes with
      | [] => Err EmptyTerminalBytes
      | _ =>
          let max_bytes :=
            N.min (N.min TERMINAL_BYTES_MAX_BYTES max_chunk_bytes) max_total_bytes in
          guard_err (max_bytes <? len bytes) (InputTooLarge (len bytes) max_bytes) ;;
          Ok (MkPreparedInput PK_TerminalBytes [MkWrite WK_Control bytes 0])
      end
  | IA_TerminalControl control =>
      Ok (MkPreparedInput PK_TerminalControl
            [MkWrite WK_Control (TerminalControl_bytes control) 0])
  | IA_AgentCommand _ => Err AgentDispatcherRequired
  | IA_ShellCommand _ => Err ShellDispatcherRequired
  end.

(* types/input.rs prepare_input *)
Definition prepare_input (action : InputAction) : result InputPrepareError PreparedInput :=
  prepare_input_with_limits action TERMINAL_INPUT_CHUNK_MAX_BYTES TERMINAL_INPUT_MAX_BYTES.

(** A character of a command name, and the loop over the arguments. *)
Definition is_command_name_char (c : N) : bool :=
  is_ascii_lowercase c || is_ascii_digit c || (c =? 0x2d) || (c =? 0x5f).
Fixpoint append_arguments (argument_index : N) (arguments : list (list N)) (text : list N)
    : result InputPrepareError (list N) :=
  match arguments with
  | [] => Ok text
  | argument :: rest =>
      guard_err (str_is_empty argument
                 || chars_any (λ c, is_control c || (c =? 0x1b)) argument)
        (InvalidAgentCommandArgument argument_index) ;;
      append_arguments (argument_index + 1) rest (text ++ str " " ++ argument)
  end.

(* types/input.rs prepare_agent_command *)
Definition prepare_agent_command (command : AgentCommand) (target_agent : AgentId)
    : result InputPrepareError PreparedInput :=
  guard_err (negb (bool_decide (command_agent_id command = target_agent)))
    (AgentTargetMismatch (command_agent_id command) target_agent) ;;
  guard_err (str_is_empty (command_name command)
             || (128 <? str_len (command_name command))
             || negb (chars_all is_command_name_char (command_name command)))
    (InvalidAgentCommandName (command_name command)) ;;
  text ← append_arguments 0 (command_arguments command) (str "/" ++ command_name command);
  chunks ← bounded_chunks text TERMINAL_INPUT_CHUNK_MAX_BYTES TERMINAL_INPUT_MAX_BYTES;
  Ok (MkPreparedInput PK_AgentCommand ((data_write <$> chunks) ++ [submit_write])).

(* types/input.rs prepare_shell_command *)
Definition prepare_shell_command (command : ShellCommand)
    : result InputPrepareError PreparedInput :=
  guard_err (str_is_empty (trim (shell_text command))) EmptyShellCommand ;;
  match find_char is_control (shell_text command) with
  | Some (index, character) => Err (ControlCharacterInShellCommand index character)
  | None =>
      chunks ← bounded_chunks (shell_text command)
                 TERMINAL_INPUT_CHUNK_MAX_BYTES TERMINAL_INPUT_MAX_BYTES;
      Ok (MkPreparedInput PK_ShellCommand ((data_write <$> chunks) ++ [submit_write]))
  end.
