(* ===== verification/InputFacts.v ===== *)
(** * Facts about terminal input preparation

    The chunks of a text are its UTF-8 bytes cut at character boundaries; a
    sanitized prompt carries no terminal control; a pasted prompt cannot close
    its own bracket; the writes of every prepared input are bounded. *)

From S2P Require Import Prelude RustStr Ids Input.

Local Open Scope N_scope.

(** ** Chunking *)

Section chunks.
Implicit Types (s t pre cur : list N) (parts : list (list N)).

(** Cutting the bytes of a text at two character boundaries. *)
Lemma slice_between pre cur t :
  slice (as_bytes (pre ++ cur ++ t)) (str_len pre) (str_len (pre ++ cur)) = as_bytes cur.
Proof.
  unfold slice. rewrite !as_bytes_app, str_len_app.
  rewrite <- !as_bytes_length. unfold len.
  rewrite N.add_sub_swap, N.sub_diag, N.add_0_l by lia.
  rewrite !Nat2N.id, drop_app_length, take_app_length. done.
Qed.

(** A chunk that holds whole characters and fits. *)
Definition good_part (max : N) (p : list N) : Prop := p ≠ [] ∧ str_len p <= max.

Lemma bounded_chunks_loop_parts max s :
  ∀ text pre cur parts chunks' start',
    text = pre ++ cur ++ s →
    pre = concat parts →
    Forall (good_part max) parts →
    (parts ≠ [] → cur ≠ []) →
    str_len cur <= max →
    bounded_chunks_loop (as_bytes text) max s (str_len (pre ++ cur)) (str_len pre)
      (str_len cur) (as_bytes <$> parts) = Ok (chunks', start') →
    ∃ parts' last_part, chunks' = as_bytes <$> parts'
      ∧ text = concat parts' ++ last_part ∧ start' = str_len (concat parts')
      ∧ Forall (good_part max) parts' ∧ str_len last_part <= max
      ∧ ((cur ++ s ≠ []) → last_part ≠ []).
Proof.
  induction s as [|c s IH]; intros text pre cur parts chunks' start' Ht Hp HF Hne Hc; cbn.
  - intros [= <- <-]. exists parts, cur. rewrite app_nil_r in *. naive_solver.
  - destruct (max <? len_utf8 c) eqn:H1; [done|]. bool_prop.
    destruct (max <? str_len cur + len_utf8 c) eqn:H2; bool_prop; intros Hl.
    + assert (Hcur : cur ≠ []) by (intros ->; cbn in *; lia).
      subst pre. rewrite Ht, slice_between, <- Ht in Hl.
      edestruct (IH text (concat (parts ++ [cur])) [c] (parts ++ [cur]) chunks' start')
        as (parts' & lp & ? & ? & ? & ? & ? & Hlp); cycle -1.
      { exists parts', lp. split_and!; try done. intros _. by apply Hlp. }
      all: rewrite ?concat_app in *; cbn in *; rewrite ?app_nil_r in *.
      * rewrite Ht. by rewrite <- !app_assoc.
      * done.
      * apply Forall_app; split; [done|]. by repeat constructor.
      * done.
      * lia.
      * rewrite fmap_app. cbn. rewrite !str_len_app in *. cbn.
        rewrite !N.add_0_r. exact Hl.
    + edestruct (IH text pre (cur ++ [c]) parts chunks' start')
        as (parts' & lp & ? & ? & ? & ? & ? & Hlp); cycle -1.
      { exists parts', lp. split_and!; try done. intros _. apply Hlp.
        by destruct cur. }
      * rewrite Ht. by rewrite <- !app_assoc.
      * done.
      * done.
      * by destruct cur.
      * rewrite str_len_app. cbn. lia.
      * rewrite !str_len_app in *. cbn. rewrite !N.add_0_r, !N.add_assoc in *. exact Hl.
Qed.

(** The loop fails only on a character wider than a chunk. *)
Lemma bounded_chunks_loop_error bytes max s :
  ∀ index start current cs e,
    bounded_chunks_loop bytes max s index start current cs = Err e →
    ∃ c, c ∈ s ∧ max < len_utf8 c ∧ e = ChunkLimitTooSmall (len_utf8 c) max.
Proof.
  induction s as [|c s IH]; cbn; [done|].
  intros index start current cs e. destruct (max <? len_utf8 c) eqn:Hc; bool_prop.
  { intros [= <-]. exists c. set_solver. }
  intros Hl. case_match; apply IH in Hl as (d & ? & ? & ?); exists d; set_solver.
Qed.

(** Whatever the loop returns, its chunks are the texts of whole characters. *)
Lemma bounded_chunks_parts text max total chunks :
  bounded_chunks text max total = Ok chunks →
  str_len text <= total ∧
  ∃ parts, chunks = as_bytes <$> parts ∧ concat parts = text
    ∧ Forall (good_part max) parts.
Proof.
  unfold bounded_chunks. destruct (total <? str_len text) eqn:H; [done|]. bool_prop.
  cbn [guard_err mbind result_bind]. destruct (str_is_empty text) eqn:He.
  { intros [= <-]. split; [done|]. exists []. by destruct text. }
  destruct (bounded_chunks_loop _ _ _ _ _ _ _) as [[cs st]|e] eqn:Hl; cbn; [|done].
  intros [= <-]. split; [done|].
  destruct (bounded_chunks_loop_parts max text text [] [] [] cs st)
    as (parts & lp & -> & Ht & -> & HF & Hlp & Hne); try done.
  { cbn. lia. }
  exists (parts ++ [lp]). rewrite fmap_app, concat_app. cbn. rewrite app_nil_r.
  split_and!.
  - do 2 f_equal. rewrite Ht. pose proof (slice_between (concat parts) lp []) as Hs.
    by rewrite app_nil_r in Hs.
  - done.
  - apply Forall_app; split; [done|]. repeat constructor; [|done].
    apply Hne. by destruct text.
Qed.

Lemma concat_as_bytes parts : concat (as_bytes <$> parts) = as_bytes (concat parts).
Proof. induction parts; cbn; [done|]. rewrite as_bytes_app. congruence. Qed.
End chunks.

(** C33: [bounded_chunks] loses nothing and cuts nothing: its chunks are the
    encodings of non-empty runs of whole characters that concatenate to the
    text, none longer than the chunk limit, so the bytes written are exactly
    the bytes of the text. It fails only for the two documented reasons: a text
    over the total limit, or a character that does not fit a chunk. *)
Theorem bounded_chunks_spec text max total :
  match bounded_chunks text max total with
  | Ok chunks =>
      str_len text <= total
      ∧ concat chunks = as_bytes text
      ∧ Forall (λ c, c ≠ [] ∧ len c <= max) chunks
      ∧ ∃ parts, chunks = as_bytes <$> parts ∧ concat parts = text
  | Err e =>
      (e = InputTooLarge (str_len text) total ∧ total < str_len text)
      ∨ ∃ c, c ∈ text ∧ max < len_utf8 c ∧ e = ChunkLimitTooSmall (len_utf8 c) max
  end.
Proof.
  destruct (bounded_chunks text max total) as [cs|e] eqn:H.
  - apply bounded_chunks_parts in H as (Hlen & parts & -> & <- & HF).
    split_and!; [done|apply concat_as_bytes| |by exists parts].
    apply Forall_fmap. eapply Forall_impl; [exact HF|]. intros p [Hp Hm].
    cbn. rewrite as_bytes_length. split; [|done].
    intros E. apply Hp, str_len_nil_inv. rewrite <- as_bytes_length, E. done.
  - unfold bounded_chunks in H. destruct (total <? str_len text) eqn:Ht; bool_prop.
    { left. by injection H as <-. }
    cbn [guard_err mbind result_bind] in H. destruct (str_is_empty text); [done|].
    right. destruct (bounded_chunks_loop _ _ _ _ _ _ _) as [[? ?]|e'] eqn:Hl; [done|].
    injection H as <-. by eapply bounded_chunks_loop_error.
Qed.

(** The text of the examples: a, b, e-acute, a euro sign, c. *)
Example bounded_chunks_example :
  bounded_chunks [97; 98; 0xe9; 0x20ac; 99] 3 100
    = Ok [[97; 98]; [0xc3; 0xa9]; [0xe2; 0x82; 0xac]; [99]]
  ∧ bounded_chunks [97; 0x20ac] 2 100 = Err (ChunkLimitTooSmall 3 2).
Proof. split; vm_compute; reflexivity. Qed.

(** ** Sanitizing *)

Lemma hex_digit_safe d : d <= 15 → is_control (hex_digit d) = false.
Proof.
  intros Hd. unfold hex_digit, is_control.
  destruct (d <? 10) eqn:H; bool_prop;
    rewrite orb_false_iff, andb_false_iff, !N.leb_gt; lia.
Qed.

Lemma land_15 n : N.land n 15 <= 15.
Proof.
  rewrite (N.land_ones n 4 : N.land n 15 = n mod 16).
  pose proof (N.mod_lt n 16 ltac:(done)). lia.
Qed.

Lemma fmt_hex4_safe n : Forall (λ c, is_control c = false) (fmt_hex4 n).
Proof.
  unfold fmt_hex4. repeat case_match; repeat constructor; apply hex_digit_safe, land_15.
Qed.

Lemma sanitize_char_safe c : Forall (λ d, is_unsafe_control d = false) (sanitize_char c).
Proof.
  assert (Hsafe : ∀ l, Forall (λ d, is_control d = false) l →
                       Forall (λ d, is_unsafe_control d = false) l).
  { intros l Hl. eapply Forall_impl; [exact Hl|]. intros d.
    unfold is_unsafe_control. by intros ->. }
  unfold sanitize_char.
  destruct (_ || _ || _)%bool eqn:H0.
  { constructor; [|done]. unfold is_unsafe_control. rewrite H0. by rewrite andb_comm. }
  destruct (c =? 0x1b); [by repeat constructor|].
  destruct (c =? 0x9b); [by repeat constructor|].
  destruct (c =? 0x9d); [by repeat constructor|].
  destruct (is_control c) eqn:Hc.
  - apply Hsafe. repeat (apply Forall_app; split); [by repeat constructor|
      apply fmt_hex4_safe|by repeat constructor].
  - apply Hsafe. by repeat constructor.
Qed.

Lemma sanitize_char_id c : is_unsafe_control c = false → sanitize_char c = [c].
Proof.
  unfold is_unsafe_control, sanitize_char. intros H.
  destruct (_ || _ || _)%bool eqn:H0; [done|].
  rewrite andb_true_r in H.
  destruct (c =? 0x1b) eqn:E1; [bool_prop; by subst|].
  destruct (c =? 0x9b) eqn:E2; [bool_prop; by subst|].
  destruct (c =? 0x9d) eqn:E3; [bool_prop; by subst|].
  by rewrite H.
Qed.

Lemma sanitize_id s :
  Forall (λ c, is_unsafe_control c = false) s → sanitize_prompt_text s = s.
Proof.
  unfold sanitize_prompt_text. induction 1 as [|c s Hc _ IH]; [done|].
  cbn. rewrite IH, sanitize_char_id by done. done.
Qed.

Lemma sanitize_safe s :
  Forall (λ c, is_unsafe_control c = false) (sanitize_prompt_text s).
Proof.
  unfold sanitize_prompt_text. apply Forall_bind, Forall_true. apply sanitize_char_safe.
Qed.

(** A sanitized prompt holds no control character but newline, carriage
    return and tab, and sanitizing is a projection onto such texts: it fixes
    exactly them, so sanitizing twice is sanitizing once. *)
Theorem sanitize_prompt_text_projects s :
  Forall (λ c, is_unsafe_control c = false) (sanitize_prompt_text s)
  ∧ sanitize_prompt_text (sanitize_prompt_text s) = sanitize_prompt_text s
  ∧ (sanitize_prompt_text s = s ↔ Forall (λ c, is_unsafe_control c = false) s).
Proof.
  split_and!.
  - apply sanitize_safe.
  - apply sanitize_id, sanitize_safe.
  - split; [intros <-; apply sanitize_safe|apply sanitize_id].
Qed.

(** ** Prepared prompts *)

Lemma esc_unsafe s : Forall (λ c, is_unsafe_control c = false) s → 0x1b ∉ as_bytes s.
Proof.
  intros HF Hin. apply as_bytes_ascii in Hin; [|lia].
  rewrite Forall_forall in HF. by apply HF in Hin.
Qed.

(** C32: a prompt prepared for bracketed paste is one opening bracket, data
    writes carrying exactly the sanitized prompt, one closing bracket, and for
    a submit one delayed Enter; no data byte is ESC, so nothing in the prompt
    can close the bracket early. *)
Theorem prepare_prompt_bracketed text submit max total p :
  prepare_prompt (MkPromptPayload text BracketedPaste) submit max total = Ok p →
  ∃ chunks,
    input_writes p
      = [MkWrite WK_Framing BRACKETED_PASTE_START 0] ++ (data_write <$> chunks)
        ++ [MkWrite WK_Framing BRACKETED_PASTE_END 0]
        ++ (if submit then [submit_write] else [])
    ∧ concat chunks = as_bytes (sanitize_prompt_text text)
    ∧ 0x1b ∉ concat chunks
    ∧ Forall (λ c, c ≠ [] ∧ len c <= max) chunks
    ∧ len (concat chunks) <= total.
Proof.
  unfold prepare_prompt. cbn [payload_text payload_framing].
  destruct (total <? str_len text); [done|]. cbn [guard_err mbind result_bind].
  destruct (bounded_chunks _ max total) as [chunks|] eqn:Hb; [|done].
  intros [= <-]. exists chunks.
  pose proof (bounded_chunks_parts _ _ _ _ Hb) as (Hlen & parts & -> & Hp & HF).
  cbn [input_writes]. rewrite concat_as_bytes, Hp.
  split_and!.
  - done.
  - done.
  - apply esc_unsafe, sanitize_safe.
  - apply Forall_fmap. eapply Forall_impl; [exact HF|]. intros q [Hq Hm]. cbn.
    rewrite as_bytes_length. split; [|done]. intros E. apply Hq, str_len_nil_inv.
    by rewrite <- as_bytes_length, E.
  - by rewrite as_bytes_length.
Qed.

(** A prompt that tries to close its bracket: a, ESC, b. *)
Example prepare_prompt_bracketed_witness :
  ∃ p, prepare_prompt (MkPromptPayload [97; 0x1b; 98] BracketedPaste) true 4 100 = Ok p
    ∧ ∃ chunks, concat chunks = as_bytes (sanitize_prompt_text [97; 0x1b; 98])
        ∧ 0x1b ∉ concat chunks.
Proof.
  eexists. split; [vm_compute; reflexivity|].
  edestruct (prepare_prompt_bracketed [97; 0x1b; 98] true 4 100) as (chunks & _ & H1 & H2 & _);
    [vm_compute; reflexivity|].
  exists chunks. split; [exact H1|exact H2].
Defined.

(** The kind of a prepared input is the kind of its action. *)
Definition action_kind (action : InputAction) : PreparedInputKind :=
  match action with
  | IA_InsertDraft _ => PK_InsertDraft
  | IA_SubmitPrompt _ => PK_SubmitPrompt
  | IA_AgentCommand _ => PK_AgentCommand
  | IA_ShellCommand _ => PK_ShellCommand
  | IA_TerminalText _ => PK_TerminalText
  | IA_TerminalBytes _ => PK_TerminalBytes
  | IA_TerminalControl _ => PK_TerminalControl
  end.

Lemma prepare_prompt_kind payload submit max total p :
  prepare_prompt payload submit max total = Ok p →
  input_kind p = if submit then PK_SubmitPrompt else PK_InsertDraft.
Proof.
  unfold prepare_prompt. destruct (_ <? _); [done|]. cbn.
  destruct (bounded_chunks _ _ _); [|done]. by intros [= <-].
Qed.

Lemma prepare_input_kind action p :
  prepare_input action = Ok p → input_kind p = action_kind action.
Proof.
  unfold prepare_input, prepare_input_with_limits.
  change (TERMINAL_INPUT_CHUNK_MAX_BYTES =? 0) with false. cbn [guard_err mbind result_bind].
  destruct action as [pl|pl|c|c|t|b|c].
  1,2: apply prepare_prompt_kind.
  1,2: done.
  - destruct (find_char _ _) as [[? ?]|]; [done|].
    destruct (bounded_chunks _ _ _); cbn; [|done]. by intros [= <-].
  - destruct b; [done|]. destruct (_ <? _); cbn; [done|]. by intros [= <-].
  - by intros [= <-].
Qed.

(** [prepare_input] leaves agent and shell commands to their dispatchers. *)
Lemma prepare_input_not_dispatched action p :
  prepare_input action = Ok p →
  input_kind p ≠ PK_AgentCommand ∧ input_kind p ≠ PK_ShellCommand.
Proof.
  intros H. rewrite (prepare_input_kind _ _ H).
  destruct action; cbn; done.
Qed.
