(* ===== verification/SessionTypes.v ===== *)
(** * Session types

    The limits, runtime policy, terminal, screen, foreground and status types
    of crates/gate4agent-types/src/control.rs, with their validators. *)

From S2P Require Import Prelude RustStr Ids.

Local Open Scope N_scope.

(** ** Limits *)

(* types/control.rs CONTROL_SESSIONS_MAX *)
Definition CONTROL_SESSIONS_MAX : N := 512.
(* types/control.rs CONTROL_INSTANCE_IDENTITIES_CAPACITY *)
Definition CONTROL_INSTANCE_IDENTITIES_CAPACITY : N := 4096.
(* types/control.rs CONTROL_INSTANCE_IDENTITIES_MAX *)
Definition CONTROL_INSTANCE_IDENTITIES_MAX : N := CONTROL_INSTANCE_IDENTITIES_CAPACITY.
(* types/control.rs TERMINAL_ROWS_MAX *)
Definition TERMINAL_ROWS_MAX : N := 1000.
(* types/control.rs TERMINAL_COLUMNS_MAX *)
Definition TERMINAL_COLUMNS_MAX : N := 1000.
(* types/control.rs WORKING_DIRECTORY_MAX_BYTES *)
Definition WORKING_DIRECTORY_MAX_BYTES : N := 32768.
(* types/control.rs PROVIDER_INGRESS_EVENTS_MAX *)
Definition PROVIDER_INGRESS_EVENTS_MAX : N := 32.
(* types/control.rs PROVIDER_EVENT_TEXT_MAX_BYTES *)
Definition PROVIDER_EVENT_TEXT_MAX_BYTES : N := 262144.
(* types/control.rs PROVIDER_EVENT_ID_MAX_BYTES *)
Definition PROVIDER_EVENT_ID_MAX_BYTES : N := 512.
(* types/control.rs PROVIDER_EVENT_TOOLS_MAX *)
Definition PROVIDER_EVENT_TOOLS_MAX : N := 256.
(* types/control.rs PROVIDER_INTERACTIONS_MAX *)
Definition PROVIDER_INTERACTIONS_MAX : N := 64.
(* types/control.rs PROVIDER_INTERACTION_RESPONSE_MAX_BYTES *)
Definition PROVIDER_INTERACTION_RESPONSE_MAX_BYTES : N := 32768.
(* types/control.rs PROVIDER_INTERACTION_FAILURE_MAX_BYTES *)
Definition PROVIDER_INTERACTION_FAILURE_MAX_BYTES : N := 4096.
(* types/control.rs PROVIDER_INTERACTION_OPTIONS_MAX *)
Definition PROVIDER_INTERACTION_OPTIONS_MAX : N := 8.
(* types/control.rs PROVIDER_SUBAGENTS_MAX *)
Definition PROVIDER_SUBAGENTS_MAX : N := 64.
(* types/control.rs PROVIDER_SESSION_LOCATOR_MAX_BYTES *)
Definition PROVIDER_SESSION_LOCATOR_MAX_BYTES : N := 32768.
(* types/control.rs PROVIDER_PLAN_STEPS_MAX *)
Definition PROVIDER_PLAN_STEPS_MAX : N := 256.
(* types/control.rs PROVIDER_AVAILABLE_COMMANDS_MAX *)
Definition PROVIDER_AVAILABLE_COMMANDS_MAX : N := 256.
(* types/control.rs PROVIDER_CONFIG_OPTIONS_MAX *)
Definition PROVIDER_CONFIG_OPTIONS_MAX : N := 256.
(* types/control.rs PROVIDER_CONFIG_OPTION_CHOICES_MAX *)
Definition PROVIDER_CONFIG_OPTION_CHOICES_MAX : N := 256.
(* types/control.rs PROVIDER_MODE_CATALOG_MAX *)
Definition PROVIDER_MODE_CATALOG_MAX : N := 256.
(* types/control.rs FOREGROUND_PROCESS_NAME_MAX_BYTES *)
Definition FOREGROUND_PROCESS_NAME_MAX_BYTES : N := 512.
(* types/control.rs PTY_SCREEN_GATE_NAME_MAX_BYTES *)
Definition PTY_SCREEN_GATE_NAME_MAX_BYTES : N := 128.
(* types/control.rs OPERATOR_GATE_OPTIONS_MAX *)
Definition OPERATOR_GATE_OPTIONS_MAX : N := 8.
(* types/control.rs OPERATOR_GATE_OPTION_TEXT_MAX_BYTES *)
Definition OPERATOR_GATE_OPTION_TEXT_MAX_BYTES : N := 128.
(* types/control.rs OPERATOR_GATE_PATH_MAX_BYTES *)
Definition OPERATOR_GATE_PATH_MAX_BYTES : N := 32768.

(** ** Launch and transport *)

(* types/control.rs ApprovalLevel *)
Inductive ApprovalLevel := FullAuto | Moderate | ReadOnly | Unmanaged.

(* types/control.rs TransportKind *)
Inductive TransportKind := Pty | Pipe | Acp.
#[export] Instance TransportKind_eq : EqDecision TransportKind.
Proof. solve_decision. Defined.

(** ** Provider runtime policy *)

(* types/control.rs ProviderRuntimePolicy *)
Record ProviderRuntimePolicy := MkPolicy {
  raw_pty_lifecycle : bool;
  semantic_readiness : bool;
  structured_prompt : bool;
  provider_session_identity : bool;
  semantic_resume : bool;
  hook_semantics : bool
}.

(* types/control.rs ProviderRuntimePolicyError *)
Inductive ProviderRuntimePolicyError :=
| SemanticCapabilityRequiresRawPty
| StructuredPromptRequiresReadiness
| ResumeRequiresSessionIdentity.

(* types/control.rs ProviderRuntimeCapability *)
Inductive ProviderRuntimeCapability :=
| RawPtyLifecycle | SemanticReadiness | StructuredPrompt
| ProviderSessionIdentityCap | SemanticResume | HookSemantics.
#[export] Instance ProviderRuntimeCapability_eq : EqDecision ProviderRuntimeCapability.
Proof. solve_decision. Defined.

(* types/control.rs ProviderRuntimePolicy::raw_pty *)
Definition policy_raw_pty : ProviderRuntimePolicy :=
  MkPolicy true false false false false false.

(* types/control.rs ProviderRuntimePolicy::none *)
Definition policy_none : ProviderRuntimePolicy :=
  MkPolicy false false false false false false.

(* types/control.rs ProviderRuntimePolicy::validate *)
Definition policy_validate (p : ProviderRuntimePolicy) : result ProviderRuntimePolicyError unit :=
  guard_err ((semantic_resume p || hook_semantics p) && negb (raw_pty_lifecycle p))
    SemanticCapabilityRequiresRawPty ;;
  guard_err (structured_prompt p && negb (semantic_readiness p))
    StructuredPromptRequiresReadiness ;;
  guard_err (semantic_resume p && negb (provider_session_identity p))
    ResumeRequiresSessionIdentity ;;
  Ok tt.

(* types/control.rs ProviderRuntimePolicy::new *)
Definition policy_new (a b c d e f : bool)
    : result ProviderRuntimePolicyError ProviderRuntimePolicy :=
  let policy := MkPolicy a b c d e f in
  policy_validate policy ;;
  Ok policy.

(* types/control.rs ProviderRuntimePolicy::admits *)
Definition admits (p : ProviderRuntimePolicy) (c : ProviderRuntimeCapability) : bool :=
  match c with
  | RawPtyLifecycle => raw_pty_lifecycle p
  | SemanticReadiness => semantic_readiness p
  | StructuredPrompt => structured_prompt p
  | ProviderSessionIdentityCap => provider_session_identity p
  | SemanticResume => semantic_resume p
  | HookSemantics => hook_semantics p
  end.

(** ** Terminal *)

(* types/control.rs TerminalSize *)
Record TerminalSize := MkTerminalSize { size_rows : N; size_columns : N }.
#[export] Instance TerminalSize_eq : EqDecision TerminalSize.
Proof. solve_decision. Defined.

(* types/control.rs TerminalSize::is_valid *)
Definition TerminalSize_is_valid (s : TerminalSize) : bool :=
  (1 <=? size_rows s) && (size_rows s <=? TERMINAL_ROWS_MAX)
  && ((1 <=? size_columns s) && (size_columns s <=? TERMINAL_COLUMNS_MAX)).

(* types/control.rs TerminalMouseProtocolEncoding *)
Inductive TerminalMouseProtocolEncoding := MouseDefault | MouseUtf8 | MouseSgr.

(** ** Operator gates *)

(* types/control.rs OperatorGateKind *)
Inductive OperatorGateKind :=
| WorkspaceTrust | HookTrust | Authentication | VendorUpdate | Onboarding
| TerminalAppearance | ConfigurationMigration.

(* types/control.rs OperatorGateKind::label *)
Definition OperatorGateKind_label (k : OperatorGateKind) : list N :=
  match k with
  | WorkspaceTrust => str "workspace trust"
  | HookTrust => str "hook trust review"
  | Authentication => str "authentication"
  | VendorUpdate => str "vendor update"
  | Onboarding => str "onboarding"
  | TerminalAppearance => str "terminal appearance setup"
  | ConfigurationMigration => str "configuration migration"
  end.

(* types/control.rs OperatorGateSubject *)
Inductive OperatorGateSubject :=
| SubjectDirectory (path : option (list N))
| SubjectHooks (count : option N)
| SubjectMcpServers | SubjectAccount | SubjectApiKey | SubjectAppearance | SubjectUnknown.

(* types/control.rs OperatorGateInput *)
Inductive OperatorGateInput :=
| NumberedList | ArrowList | PressEnter | TextEntry | GateInputUnknown.

(* types/control.rs OperatorGateOptionSemantics *)
Inductive OperatorGateOptionSemantics :=
| OptionAccept | OptionDecline | OptionInspect | OptionExit | OptionUnknown.

(* types/control.rs OperatorGateOption *)
Record OperatorGateOption := MkGateOption {
  option_text : list N;
  option_semantics : OperatorGateOptionSemantics;
  option_selected : bool
}.

(** A non-blank, control-free text of at most [max] bytes. *)
Definition is_label (max : N) (s : list N) : bool :=
  negb (str_is_empty (trim s)) && (str_len s <=? max) && negb (chars_any is_control s).

(* types/control.rs OperatorGateOption::is_valid *)
Definition OperatorGateOption_is_valid (o : OperatorGateOption) : bool :=
  is_label OPERATOR_GATE_OPTION_TEXT_MAX_BYTES (option_text o).

(* types/control.rs OperatorGateState *)
Record OperatorGateState := MkGateState {
  gate_kind : OperatorGateKind;
  gate_subject : OperatorGateSubject;
  gate_input : OperatorGateInput;
  gate_options : list OperatorGateOption
}.

(* types/control.rs OperatorGateState::new *)
Definition OperatorGateState_new (kind : OperatorGateKind) : OperatorGateState :=
  MkGateState kind SubjectUnknown GateInputUnknown [].

(* types/control.rs OperatorGateState::with_subject *)
Definition OperatorGateState_with_subject (g : OperatorGateState)
    (subject : OperatorGateSubject) : OperatorGateState :=
  MkGateState (gate_kind g) subject (gate_input g) (gate_options g).

(* types/control.rs OperatorGateState::with_options *)
Definition OperatorGateState_with_options (g : OperatorGateState)
    (input : OperatorGateInput) (options : list OperatorGateOption) : OperatorGateState :=
  MkGateState (gate_kind g) (gate_subject g) input options.

(* types/control.rs OperatorGateState::is_valid *)
Definition OperatorGateState_is_valid (g : OperatorGateState) : bool :=
  (match gate_subject g with
   | SubjectDirectory (Some path) => is_label OPERATOR_GATE_PATH_MAX_BYTES path
   | SubjectDirectory None | SubjectHooks _ | SubjectMcpServers | SubjectAccount
   | SubjectApiKey | SubjectAppearance | SubjectUnknown => true
   end)
  && (len (gate_options g) <=? OPERATOR_GATE_OPTIONS_MAX)
  && forallb OperatorGateOption_is_valid (gate_options g).

(** [Vec::join]. *)
Fixpoint str_join (sep : list N) (l : list (list N)) : list N :=
  match l with
  | [] => []
  | [s] => s
  | s :: l' => s ++ sep ++ str_join sep l'
  end.

(* types/control.rs OperatorGateState::describe *)
Definition OperatorGateState_describe (g : OperatorGateState) : list N :=
  match gate_options g with
  | [] => OperatorGateKind_label (gate_kind g)
  | options =>
      let rendered :=
        (λ o, if option_selected o then str "*" ++ option_text o else option_text o)
          <$> options in
      OperatorGateKind_label (gate_kind g) ++ str " ["
        ++ str_join (str ", ") rendered ++ str "]"
  end.

(** ** Screen *)

(* types/control.rs PtyScreenState *)
Inductive PtyScreenState :=
| ScreenUnknown
| ScreenNotAgent (observed_process : list N)
| ScreenOperatorGate (gate : OperatorGateState)
| ScreenFailing (reason : list N)
| ScreenReady.

(* types/control.rs PtyScreenState::admits_blind_write *)
Definition admits_blind_write (s : PtyScreenState) : bool :=
  negb match s with
       | ScreenOperatorGate _ | ScreenNotAgent _ | ScreenFailing _ => true
       | _ => false
       end.

(* types/control.rs PtyScreenState::is_valid *)
Definition PtyScreenState_is_valid (s : PtyScreenState) : bool :=
  match s with
  | ScreenUnknown | ScreenReady => true
  | ScreenNotAgent observed_process =>
      is_label FOREGROUND_PROCESS_NAME_MAX_BYTES observed_process
  | ScreenOperatorGate gate => OperatorGateState_is_valid gate
  | ScreenFailing reason => is_label PTY_SCREEN_GATE_NAME_MAX_BYTES reason
  end.

(* types/control.rs TerminalFrame *)
Record TerminalFrame := MkTerminalFrame {
  frame_sequence : N;
  frame_size : TerminalSize;
  frame_cursor_row : N;
  frame_cursor_column : N;
  frame_contents : list N;
  frame_formatted : list N;
  frame_scrollback_formatted : list (list N);
  frame_alternate_screen : bool;
  frame_mouse_protocol_enabled : bool;
  frame_mouse_protocol_encoding : TerminalMouseProtocolEncoding;
  frame_produced_at_unix_ms : N;
  frame_screen_state : PtyScreenState;
  frame_bracketed_paste : option bool
}.

(** ** Foreground process *)

(* types/control.rs ForegroundProcessKind *)
Inductive ForegroundProcessKind :=
| ForegroundAgent (agent_id : AgentId)
| ForegroundShell
| ForegroundOther.

(* types/control.rs ForegroundProcess *)
Record ForegroundProcess := MkForegroundProcess {
  fg_root_process_id : N;
  fg_process_id : N;
  fg_process_name : list N;
  fg_kind : ForegroundProcessKind
}.

(* types/control.rs ForegroundProcess::is_valid_for *)
Definition ForegroundProcess_is_valid_for (p : ForegroundProcess)
    (session_agent_id : AgentId) : bool :=
  (0 <? fg_root_process_id p)
  && (0 <? fg_process_id p)
  && is_label FOREGROUND_PROCESS_NAME_MAX_BYTES (fg_process_name p)
  && match fg_kind p with
     | ForegroundAgent agent_id => bool_decide (agent_id = session_agent_id)
     | ForegroundShell | ForegroundOther => true
     end.

(* types/control.rs ForegroundAuthority *)
Inductive ForegroundAuthority := AuthorityUnknown | AuthorityConfirmed | AuthorityStale.

(* types/control.rs ForegroundSnapshot *)
Record ForegroundSnapshot := MkForegroundSnapshot {
  fs_authority : ForegroundAuthority;
  fs_process : option ForegroundProcess;
  fs_stale_reason : option (list N)
}.
#[export] Instance ForegroundSnapshot_fields : Fields ForegroundSnapshot :=
  fields_of MkForegroundSnapshot <fs_authority; fs_process; fs_stale_reason>.
Definition ForegroundSnapshot_default : ForegroundSnapshot :=
  MkForegroundSnapshot AuthorityUnknown None None.

(** ** Session status *)

(* types/control.rs SessionStatus *)
Inductive SessionStatus :=
| Registered
| Starting
| Running
| Stopping
| Exited (exit_code : option Z)
| Failed (message : list N).
#[export] Instance SessionStatus_eq : EqDecision SessionStatus.
Proof. solve_decision. Defined.

(* types/control.rs SessionStatus::allows_remove *)
Definition allows_remove (s : SessionStatus) : bool :=
  match s with
  | Starting | Running | Stopping => false
  | Registered | Exited _ | Failed _ => true
  end.

(** ** Properties of the policy *)

(** A policy validates exactly when every semantic capability it grants
    rests on the one it needs: resume and hooks on the raw PTY lifecycle,
    structured prompts on readiness, resume on the session identity. *)
Theorem policy_validate_spec p :
  policy_validate p = Ok tt ↔
    (admits p SemanticResume = true → admits p RawPtyLifecycle = true
                                    ∧ admits p ProviderSessionIdentityCap = true)
    ∧ (admits p HookSemantics = true → admits p RawPtyLifecycle = true)
    ∧ (admits p StructuredPrompt = true → admits p SemanticReadiness = true).
Proof.
  destruct p as [a b c d e f]. destruct a, b, c, d, e, f; vm_compute; naive_solver.
Qed.
