(* ===== verification/RecordTypes.v ===== *)
(** * Session options, capability probes and history records

    session_options.rs, capability.rs and history.rs of
    crates/gate4agent-types/src: the data and its validators. *)

From S2P Require Import Prelude RustStr RustOrd Ids SessionTypes.

Local Open Scope N_scope.

(** ** Session options *)

(* types/session_options.rs SESSION_OPTION_ID_MAX_BYTES *)
Definition SESSION_OPTION_ID_MAX_BYTES : N := 128.
(* types/session_options.rs SESSION_OPTION_VALUE_MAX_BYTES *)
Definition SESSION_OPTION_VALUE_MAX_BYTES : N := 512.
(* types/session_options.rs SESSION_OPTION_VALUES_MAX *)
Definition SESSION_OPTION_VALUES_MAX : N := 64.

(* types/session_options.rs SessionOptionValue *)
Inductive SessionOptionValue :=
| OptionString (value : list N)
| OptionBoolean (value : bool).

(* types/session_options.rs SessionOptionSelection *)
Record SessionOptionSelection := MkSelection {
  selection_model : list N;
  selection_values : gmap (list N) SessionOptionValue
}.

(* types/session_options.rs SessionOptionSelection::new *)
Definition SessionOptionSelection_new (model : list N) : SessionOptionSelection :=
  MkSelection model ∅.

(* types/session_options.rs SessionOptionSelection::with_value *)
Definition SessionOptionSelection_with_value (s : SessionOptionSelection)
    (id : list N) (value : SessionOptionValue) : SessionOptionSelection :=
  MkSelection (selection_model s) (<[id := value]> (selection_values s)).

(* types/session_options.rs SessionOptionValidationError *)
Inductive SessionOptionValidationError :=
| OptionInvalidValue (field : list N)
| OptionInvalidOptionId
| OptionReservedModelOption
| OptionTooManyValues (count max : N).

(* types/session_options.rs SessionOptionValidationError *)
Definition SessionOptionValidationError_to_string (e : SessionOptionValidationError) : list N :=
  match e with
  | OptionInvalidValue field =>
      str "session-option " ++ field ++ str " is empty, contains controls, or exceeds its bound"
  | OptionInvalidOptionId =>
      str "session-option ID is empty, contains controls, or exceeds its bound"
  | OptionReservedModelOption =>
      str "session-option selection cannot store a second model field"
  | OptionTooManyValues count max =>
      str "session-option selection has " ++ fmt_dec count ++ str " values; the limit is "
        ++ fmt_dec max
  end.

(* types/session_options.rs validate_value *)
Definition option_validate_value (field value : list N)
    : result SessionOptionValidationError unit :=
  guard_err (str_is_empty (trim value)
             || (SESSION_OPTION_VALUE_MAX_BYTES <? str_len value)
             || chars_any is_control value)
    (OptionInvalidValue field).

(* types/session_options.rs SessionOptionSelection::validate *)
Definition SessionOptionSelection_validate (s : SessionOptionSelection)
    : result SessionOptionValidationError unit :=
  option_validate_value (str "model") (selection_model s) ;;
  guard_err (SESSION_OPTION_VALUES_MAX <? N.of_nat (size (selection_values s)))
    (OptionTooManyValues (N.of_nat (size (selection_values s))) SESSION_OPTION_VALUES_MAX) ;;
  for_each (λ entry : list N * SessionOptionValue,
    let '(id, value) := entry in
    guard_err (bool_decide (id = str "model")) OptionReservedModelOption ;;
    guard_err (str_is_empty id || (SESSION_OPTION_ID_MAX_BYTES <? str_len id)
               || chars_any is_control id)
      OptionInvalidOptionId ;;
    match value with
    | OptionString text => option_validate_value (str "option value") text
    | OptionBoolean _ => Ok tt
    end) (btree_iter (selection_values s)).

(** ** Capability probes *)

(* types/capability.rs CAPABILITY_MODELS_MAX *)
Definition CAPABILITY_MODELS_MAX : N := 512.
(* types/capability.rs CAPABILITY_MODEL_ID_MAX_BYTES *)
Definition CAPABILITY_MODEL_ID_MAX_BYTES : N := 512.
(* types/capability.rs CAPABILITY_MODEL_LABEL_MAX_BYTES *)
Definition CAPABILITY_MODEL_LABEL_MAX_BYTES : N := 1024.

(* types/capability.rs CapabilityValidationError *)
Inductive CapabilityValidationError :=
| CapInvalidWorkingDirectory | CapInvalidModelId | CapInvalidModelLabel
| CapTooManyModels | CapDuplicateModelId.

(* types/capability.rs CapabilityValidationError *)
Definition CapabilityValidationError_to_string (e : CapabilityValidationError) : list N :=
  match e with
  | CapInvalidWorkingDirectory =>
      str "capability probe working directory is empty, too large, or contains a NUL byte"
  | CapInvalidModelId =>
      str "capability model ID is empty, too large, or contains whitespace or controls"
  | CapInvalidModelLabel =>
      str "capability model label is empty, too large, or contains controls"
  | CapTooManyModels => str "capability model result exceeds its count bound"
  | CapDuplicateModelId => str "capability model result contains duplicate IDs"
  end.

(* types/capability.rs CapabilityProbeRequest *)
Record CapabilityProbeRequest := MkProbeRequest { probe_working_directory : list N }.

(* types/capability.rs CapabilityProbeRequest::validate *)
Definition CapabilityProbeRequest_validate (r : CapabilityProbeRequest)
    : result CapabilityValidationError unit :=
  guard_err (str_is_empty (probe_working_directory r)
             || (WORKING_DIRECTORY_MAX_BYTES <? str_len (probe_working_directory r))
             || chars_any (λ c, c =? 0) (probe_working_directory r))
    CapInvalidWorkingDirectory.

(* types/capability.rs CapabilityModelSummary *)
Record CapabilityModelSummary := MkModel { model_id : list N; model_label : list N }.

(* types/capability.rs CapabilityModelSummary::validate *)
Definition CapabilityModelSummary_validate (m : CapabilityModelSummary)
    : result CapabilityValidationError unit :=
  guard_err (str_is_empty (model_id m)
             || (CAPABILITY_MODEL_ID_MAX_BYTES <? str_len (model_id m))
             || chars_any is_whitespace (model_id m)
             || chars_any is_control (model_id m))
    CapInvalidModelId ;;
  guard_err (str_is_empty (trim (model_label m))
             || (CAPABILITY_MODEL_LABEL_MAX_BYTES <? str_len (model_label m))
             || chars_any is_control (model_label m))
    CapInvalidModelLabel ;;
  Ok tt.

(** The loop of [validate_capability_models] with the ids [seen] so far. *)
Fixpoint validate_models_from (seen : list (list N)) (models : list CapabilityModelSummary)
    : result CapabilityValidationError unit :=
  match models with
  | [] => Ok tt
  | model :: rest =>
      CapabilityModelSummary_validate model ;;
      guard_err (bool_decide (model_id model ∈ seen)) CapDuplicateModelId ;;
      validate_models_from (model_id model :: seen) rest
  end.

(* types/capability.rs validate_capability_models *)
Definition validate_capability_models (models : list CapabilityModelSummary)
    : result CapabilityValidationError unit :=
  guard_err (CAPABILITY_MODELS_MAX <? len models) CapTooManyModels ;;
  validate_models_from [] models.

(* types/capability.rs CapabilityProbeFailure *)
Inductive CapabilityProbeFailure :=
| ExecutorUnavailable | SpawnUnavailable | TimedOut | OutputLimitExceeded
| NonZeroExit (exit_code : option Z)
| AuthorityRejected.

(* types/capability.rs PendingCapabilityProbe *)
Record PendingCapabilityProbe := MkPendingProbe {
  pcp_operation_id : OperationId;
  pcp_generation : SessionGeneration;
  pcp_request : CapabilityProbeRequest
}.

(* types/capability.rs CapabilitySnapshot *)
Record CapabilitySnapshot := MkCapabilitySnapshot {
  cap_pending : option PendingCapabilityProbe;
  cap_settled : bool;
  cap_session_option_models : list CapabilityModelSummary;
  cap_last_failure : option CapabilityProbeFailure
}.
#[export] Instance CapabilitySnapshot_fields : Fields CapabilitySnapshot :=
  fields_of MkCapabilitySnapshot
    <cap_pending; cap_settled; cap_session_option_models; cap_last_failure>.
Definition CapabilitySnapshot_default : CapabilitySnapshot :=
  MkCapabilitySnapshot None false [] None.

(** ** History *)

(* types/history.rs HISTORY_DISCOVERY_LIMIT_MAX *)
Definition HISTORY_DISCOVERY_LIMIT_MAX : N := 256.
(* types/history.rs HISTORY_CANDIDATE_ID_MAX_BYTES *)
Definition HISTORY_CANDIDATE_ID_MAX_BYTES : N := 1024.
(* types/history.rs HISTORY_SESSION_ID_MAX_BYTES *)
Definition HISTORY_SESSION_ID_MAX_BYTES : N := 512.
(* types/history.rs HISTORY_TITLE_MAX_BYTES *)
Definition HISTORY_TITLE_MAX_BYTES : N := 512.
(* types/history.rs HISTORY_MODEL_MAX_BYTES *)
Definition HISTORY_MODEL_MAX_BYTES : N := 512.
(* types/history.rs HISTORY_MESSAGES_MAX *)
Definition HISTORY_MESSAGES_MAX : N := 256.
(* types/history.rs HISTORY_MESSAGE_MAX_BYTES *)
Definition HISTORY_MESSAGE_MAX_BYTES : N := 16384.
(* types/history.rs HISTORY_ERROR_MAX_BYTES *)
Definition HISTORY_ERROR_MAX_BYTES : N := 4096.
(* types/history.rs NATIVE_SESSION_CATALOG_LIMIT_MAX *)
Definition NATIVE_SESSION_CATALOG_LIMIT_MAX : N := 64.
(* types/history.rs NATIVE_SESSION_PREVIEW_MESSAGE_LIMIT_MAX *)
Definition NATIVE_SESSION_PREVIEW_MESSAGE_LIMIT_MAX : N := 24.
(* types/history.rs NATIVE_SESSION_PREVIEW_TEXT_MAX_BYTES *)
Definition NATIVE_SESSION_PREVIEW_TEXT_MAX_BYTES : N := 4096.
(* types/history.rs NATIVE_SESSION_EXTERNAL_GROUP_ID_MAX_BYTES *)
Definition NATIVE_SESSION_EXTERNAL_GROUP_ID_MAX_BYTES : N := 128.
(* types/history.rs NATIVE_SESSION_EXTERNAL_GROUP_LABEL_MAX_BYTES *)
Definition NATIVE_SESSION_EXTERNAL_GROUP_LABEL_MAX_BYTES : N := 256.

(* types/history.rs HistoryValidationError *)
Inductive HistoryValidationError :=
| HistInvalidLimit | HistInvalidWorkingDirectory | HistInvalidCandidateId
| HistInvalidField (field : list N)
| HistTooManyMessages.

(* types/history.rs HistoryValidationError *)
Definition HistoryValidationError_to_string (e : HistoryValidationError) : list N :=
  match e with
  | HistInvalidLimit => str "history discovery limit is outside the supported bounded range"
  | HistInvalidWorkingDirectory =>
      str "history working directory is empty, too large, or contains controls"
  | HistInvalidCandidateId => str "history candidate ID is not a bounded opaque ASCII token"
  | HistInvalidField field =>
      str "history " ++ field ++ str " is empty, too large, or contains controls"
  | HistTooManyMessages => str "history result contains too many retained messages"
  end.

(** A byte of an opaque token. *)
Definition is_token_byte (b : N) : bool :=
  is_ascii_alphanumeric b || (b =? 0x2d) || (b =? 0x5f) || (b =? 0x2e).

(* types/history.rs validate_candidate_id *)
Definition validate_candidate_id (value : list N) : result HistoryValidationError unit :=
  guard_err (str_is_empty (trim value)
             || (HISTORY_CANDIDATE_ID_MAX_BYTES <? str_len value)
             || negb (forallb is_token_byte (as_bytes value)))
    HistInvalidCandidateId.

(* types/history.rs validate_required_identifier *)
Definition hist_required_identifier (value : list N) (max : N) (field : list N)
    : result HistoryValidationError unit :=
  guard_err (str_is_empty (trim value) || (max <? str_len value) || chars_any is_control value)
    (HistInvalidField field).

(* types/history.rs validate_text *)
Definition hist_validate_text (value : list N) (max : N) (field : list N)
    : result HistoryValidationError unit :=
  guard_err ((max <? str_len value) || chars_any is_unsafe_control value)
    (HistInvalidField field).

(* types/history.rs validate_required_text *)
Definition hist_required_text (value : list N) (max : N) (field : list N)
    : result HistoryValidationError unit :=
  guard_err (str_is_empty (trim value)) (HistInvalidField field) ;;
  hist_validate_text value max field.

(* types/history.rs validate_optional_identifier *)
Definition hist_optional_identifier (value : option (list N)) (max : N) (field : list N)
    : result HistoryValidationError unit :=
  opt_each (λ v, hist_required_identifier v max field) value.

(* types/history.rs validate_optional_single_line_text *)
Definition hist_optional_single_line_text (value : option (list N)) (max : N) (field : list N)
    : result HistoryValidationError unit :=
  opt_each (λ v, guard_err ((max <? str_len v) || chars_any is_control v)
                   (HistInvalidField field)) value.

(* types/history.rs validate_optional_text *)
Definition hist_optional_text (value : option (list N)) (max : N) (field : list N)
    : result HistoryValidationError unit :=
  opt_each (λ v, hist_validate_text v max field) value.

(* types/history.rs validate_native_session_id *)
Definition validate_native_session_id (value : list N) : result HistoryValidationError unit :=
  hist_required_identifier value HISTORY_SESSION_ID_MAX_BYTES (str "session id").

(* types/history.rs validate_history_error *)
Definition validate_history_error (message : list N) : result HistoryValidationError unit :=
  hist_required_text message HISTORY_ERROR_MAX_BYTES (str "error").

(* types/history.rs HistoryQuery *)
Record HistoryQuery := MkHistoryQuery {
  query_working_directory : option (list N);
  query_limit : N
}.

(* types/history.rs HistoryQuery::validate *)
Definition HistoryQuery_validate (q : HistoryQuery) : result HistoryValidationError unit :=
  guard_err (negb ((1 <=? query_limit q) && (query_limit q <=? HISTORY_DISCOVERY_LIMIT_MAX)))
    HistInvalidLimit ;;
  opt_each (λ d, guard_err (str_is_empty (trim d)
                            || (WORKING_DIRECTORY_MAX_BYTES <? str_len d)
                            || chars_any is_control d)
                   HistInvalidWorkingDirectory) (query_working_directory q).

(* types/history.rs HistoryCandidateSummary *)
Record HistoryCandidateSummary := MkCandidate {
  candidate_id : list N;
  candidate_session_id_hint : list N;
  candidate_modified_at_unix_ms : option N
}.

(* types/history.rs HistoryCandidateSummary::validate *)
Definition HistoryCandidateSummary_validate (c : HistoryCandidateSummary)
    : result HistoryValidationError unit :=
  validate_candidate_id (candidate_id c) ;;
  hist_required_identifier (candidate_session_id_hint c) HISTORY_SESSION_ID_MAX_BYTES
    (str "session id").

(* types/history.rs HistoryMessageRole *)
Inductive HistoryMessageRole := RoleUser | RoleAssistant.

(* types/history.rs HistoryMessageRecord *)
Record HistoryMessageRecord := MkHistoryMessage {
  message_role : HistoryMessageRole;
  message_text : list N
}.

(* types/history.rs HistorySessionRecord *)
Record HistorySessionRecord := MkHistorySession {
  hs_session_id : list N;
  hs_title : option (list N);
  hs_cwd : option (list N);
  hs_model : option (list N);
  hs_message_count : N;
  hs_completed_turn_count : option N;
  hs_total_tokens : N;
  hs_messages : list HistoryMessageRecord
}.

(* types/history.rs HistorySessionRecord::validate *)
Definition HistorySessionRecord_validate (h : HistorySessionRecord)
    : result HistoryValidationError unit :=
  hist_required_identifier (hs_session_id h) HISTORY_SESSION_ID_MAX_BYTES (str "session id") ;;
  hist_optional_text (hs_title h) HISTORY_TITLE_MAX_BYTES (str "title") ;;
  hist_optional_identifier (hs_cwd h) WORKING_DIRECTORY_MAX_BYTES (str "working directory") ;;
  hist_optional_identifier (hs_model h) HISTORY_MODEL_MAX_BYTES (str "model") ;;
  guard_err (HISTORY_MESSAGES_MAX <? len (hs_messages h)) HistTooManyMessages ;;
  for_each (λ m, hist_validate_text (message_text m) HISTORY_MESSAGE_MAX_BYTES (str "message"))
    (hs_messages h).

(* types/history.rs HistoryOperation *)
Inductive HistoryOperation :=
| HistoryDiscoverOp (query : HistoryQuery)
| HistoryLoadOp (candidate_id : list N).

(* types/history.rs PendingHistoryOperation *)
Record PendingHistoryOperation := MkPendingHistory {
  pho_operation_id : OperationId;
  pho_operation : HistoryOperation
}.

(* types/history.rs HistorySnapshot *)
Record HistorySnapshot := MkHistorySnapshot {
  hist_pending : option PendingHistoryOperation;
  hist_candidates : list HistoryCandidateSummary;
  hist_loaded_candidate_id : option (list N);
  hist_loaded : option HistorySessionRecord;
  hist_last_error : option (list N)
}.
#[export] Instance HistorySnapshot_fields : Fields HistorySnapshot :=
  fields_of MkHistorySnapshot
    <hist_pending; hist_candidates; hist_loaded_candidate_id; hist_loaded; hist_last_error>.
Definition HistorySnapshot_default : HistorySnapshot :=
  MkHistorySnapshot None [] None None None.

(* types/history.rs HistorySnapshot::candidate *)
Definition HistorySnapshot_candidate (h : HistorySnapshot) (id : list N)
    : option HistoryCandidateSummary :=
  List.find (λ c, bool_decide (candidate_id c = id)) (hist_candidates h).

(** ** Native session catalog *)

(* types/history.rs NativeSessionCatalogScope *)
Inductive NativeSessionCatalogScope := ScopeWorkspace | ScopeUnregistered.

(* types/history.rs NativeSessionExternalGroupKind *)
Inductive NativeSessionExternalGroupKind := GroupProject | GroupGlobal.

(* types/history.rs NativeSessionExternalGroup *)
Record NativeSessionExternalGroup := MkExternalGroup {
  group_id : list N;
  group_kind : NativeSessionExternalGroupKind;
  group_display_name : list N
}.

(* types/history.rs NativeSessionExternalGroup::validate *)
Definition NativeSessionExternalGroup_validate (g : NativeSessionExternalGroup)
    : result HistoryValidationError unit :=
  let name := group_display_name g in
  guard_err (str_is_empty (trim (group_id g))
             || (NATIVE_SESSION_EXTERNAL_GROUP_ID_MAX_BYTES <? str_len (group_id g))
             || negb (forallb is_token_byte (as_bytes (group_id g))))
    (HistInvalidField (str "native session external group id")) ;;
  hist_required_identifier name NATIVE_SESSION_EXTERNAL_GROUP_LABEL_MAX_BYTES
    (str "native session external group display name") ;;
  guard_err (bool_decide (name = str ".") || bool_decide (name = str "..")
             || chars_any (λ c, c =? 0x2f) name || chars_any (λ c, c =? 0x5c) name
             || chars_any (λ c, c =? 0x3a) name)
    (HistInvalidField (str "native session external group display name")) ;;
  Ok tt.

(* types/history.rs NativeSessionCatalogEntry *)
Record NativeSessionCatalogEntry := MkCatalogEntry {
  entry_selection_id : list N;
  entry_session_id : list N;
  entry_title : option (list N);
  entry_modified_at_unix_ms : option N;
  entry_model : option (list N);
  entry_message_count : N;
  entry_completed_turn_count : option N
}.

(* types/history.rs NativeSessionCatalogEntry::validate *)
Definition NativeSessionCatalogEntry_validate (e : NativeSessionCatalogEntry)
    : result HistoryValidationError unit :=
  validate_candidate_id (entry_selection_id e) ;;
  hist_required_identifier (entry_session_id e) HISTORY_SESSION_ID_MAX_BYTES (str "session id") ;;
  hist_optional_single_line_text (entry_title e) HISTORY_TITLE_MAX_BYTES (str "title") ;;
  hist_optional_identifier (entry_model e) HISTORY_MODEL_MAX_BYTES (str "model").

(* types/history.rs NativeSessionCatalogWindow *)
Inductive NativeSessionCatalogWindow := WindowRecent | WindowOlder.

(* types/history.rs validate_catalog_cursor_presence *)
Definition validate_catalog_cursor_presence (cursor : option (list N)) (has_more : bool)
    : result HistoryValidationError unit :=
  opt_each validate_candidate_id cursor ;;
  guard_err (negb (eqb has_more (bool_decide (is_Some cursor))))
    (HistInvalidField (str "catalog cursor")) ;;
  Ok tt.

(* types/history.rs validate_catalog_cursor *)
Definition validate_catalog_cursor (cursor : option (list N)) (has_more : bool)
    (remaining_count : N) : result HistoryValidationError unit :=
  validate_catalog_cursor_presence cursor has_more ;;
  guard_err (negb (eqb has_more (0 <? remaining_count)))
    (HistInvalidField (str "catalog cursor")) ;;
  Ok tt.

(* types/history.rs NativeSessionCatalogSummary *)
Record NativeSessionCatalogSummary := MkCatalogSummary {
  summary_catalog_revision : N;
  summary_recent_cutoff_unix_ms : N;
  summary_recent_total_count : N;
  summary_older_total_count : N;
  summary_recent_next_after_selection_id : option (list N);
  summary_recent_has_more : bool
}.

(* types/history.rs NativeSessionCatalogSummary::validate *)
Definition NativeSessionCatalogSummary_validate (s : NativeSessionCatalogSummary)
    : result HistoryValidationError unit :=
  validate_catalog_cursor_presence (summary_recent_next_after_selection_id s)
    (summary_recent_has_more s).

(* types/history.rs NativeSessionCatalogSummary::validate_initial_entries *)
Definition NativeSessionCatalogSummary_validate_initial_entries
    (s : NativeSessionCatalogSummary) (entry_count : N) : result HistoryValidationError unit :=
  NativeSessionCatalogSummary_validate s ;;
  guard_err (U32_MAX <? entry_count) (HistInvalidField (str "catalog summary")) ;;
  guard_err ((summary_recent_total_count s <? entry_count)
             || negb (eqb (summary_recent_has_more s)
                        (entry_count <? summary_recent_total_count s)))
    (HistInvalidField (str "catalog summary")) ;;
  Ok tt.

(* types/history.rs NativeSessionCatalogPage *)
Record NativeSessionCatalogPage := MkCatalogPage {
  page_window : NativeSessionCatalogWindow;
  page_revision : N;
  page_entries : list NativeSessionCatalogEntry;
  page_next_after_selection_id : option (list N);
  page_remaining_count : N;
  page_has_more : bool
}.

(** The loop over the entries, with the entries before the current one. *)
Fixpoint validate_page_entries (before entries : list NativeSessionCatalogEntry)
    : result HistoryValidationError unit :=
  match entries with
  | [] => Ok tt
  | entry :: rest =>
      NativeSessionCatalogEntry_validate entry ;;
      guard_err (existsb (λ existing, bool_decide (entry_session_id existing
                                                   = entry_session_id entry)) before)
        (HistInvalidField (str "catalog entries")) ;;
      validate_page_entries (before ++ [entry]) rest
  end.

(* types/history.rs NativeSessionCatalogPage::validate *)
Definition NativeSessionCatalogPage_validate (p : NativeSessionCatalogPage)
    : result HistoryValidationError unit :=
  guard_err (NATIVE_SESSION_CATALOG_LIMIT_MAX <? len (page_entries p)) HistTooManyMessages ;;
  validate_page_entries [] (page_entries p) ;;
  validate_catalog_cursor (page_next_after_selection_id p) (page_has_more p)
    (page_remaining_count p).

(* types/history.rs NativeSessionPreviewMessage *)
Record NativeSessionPreviewMessage := MkPreviewMessage {
  preview_role : HistoryMessageRole;
  preview_text : list N
}.

(* types/history.rs NativeSessionPreviewMessage::validate *)
Definition NativeSessionPreviewMessage_validate (m : NativeSessionPreviewMessage)
    : result HistoryValidationError unit :=
  hist_validate_text (preview_text m) NATIVE_SESSION_PREVIEW_TEXT_MAX_BYTES
    (str "preview message").

(* types/history.rs SessionRecordPreview *)
Record SessionRecordPreview := MkRecordPreview {
  rp_title : option (list N);
  rp_modified_at_unix_ms : option N;
  rp_model : option (list N);
  rp_message_count : N;
  rp_message_count_exact : bool;
  rp_completed_turn_count : option N;
  rp_total_tokens : option N;
  rp_truncated : bool;
  rp_messages : list NativeSessionPreviewMessage
}.

(* types/history.rs SessionRecordPreview::validate *)
Definition SessionRecordPreview_validate (p : SessionRecordPreview)
    : result HistoryValidationError unit :=
  hist_optional_single_line_text (rp_title p) HISTORY_TITLE_MAX_BYTES (str "title") ;;
  hist_optional_identifier (rp_model p) HISTORY_MODEL_MAX_BYTES (str "model") ;;
  guard_err (NATIVE_SESSION_PREVIEW_MESSAGE_LIMIT_MAX <? len (rp_messages p))
    HistTooManyMessages ;;
  for_each NativeSessionPreviewMessage_validate (rp_messages p).

(* types/history.rs NativeSessionPreview *)
Record NativeSessionPreview := MkNativePreview {
  np_session_id : list N;
  np_title : option (list N);
  np_modified_at_unix_ms : option N;
  np_model : option (list N);
  np_message_count : N;
  np_message_count_exact : bool;
  np_completed_turn_count : option N;
  np_total_tokens : option N;
  np_truncated : bool;
  np_messages : list NativeSessionPreviewMessage
}.

(* types/history.rs NativeSessionPreview::validate *)
Definition NativeSessionPreview_validate (p : NativeSessionPreview)
    : result HistoryValidationError unit :=
  hist_required_identifier (np_session_id p) HISTORY_SESSION_ID_MAX_BYTES (str "session id") ;;
  hist_optional_single_line_text (np_title p) HISTORY_TITLE_MAX_BYTES (str "title") ;;
  hist_optional_identifier (np_model p) HISTORY_MODEL_MAX_BYTES (str "model") ;;
  guard_err (NATIVE_SESSION_PREVIEW_MESSAGE_LIMIT_MAX <? len (np_messages p))
    HistTooManyMessages ;;
  for_each NativeSessionPreviewMessage_validate (np_messages p).

(* types/history.rs From@SessionRecordPreview::from *)
Definition SessionRecordPreview_from (p : NativeSessionPreview) : SessionRecordPreview :=
  {| rp_title := np_title p;
     rp_modified_at_unix_ms := np_modified_at_unix_ms p;
     rp_model := np_model p;
     rp_message_count := np_message_count p;
     rp_message_count_exact := np_message_count_exact p;
     rp_completed_turn_count := np_completed_turn_count p;
     rp_total_tokens := np_total_tokens p;
     rp_truncated := np_truncated p;
     rp_messages := np_messages p |}.

(** ** Properties *)

(** An accepted model list has distinct ids. *)
Lemma validate_models_from_Ok models : ∀ seen,
  validate_models_from seen models = Ok tt →
  NoDup (model_id <$> models) ∧ Forall (λ m, model_id m ∉ seen) models
  ∧ Forall (λ m, CapabilityModelSummary_validate m = Ok tt) models.
Proof.
  induction models as [|m ms IH]; intros seen; cbn.
  { intros _. split_and!; constructor. }
  destruct (CapabilityModelSummary_validate m) as [[]|] eqn:Hv; cbn; [|done].
  case_bool_decide as Hin; cbn; [done|].
  intros (Hnd & Hs & HF)%IH. split_and!.
  - constructor; [|done]. rewrite list_elem_of_fmap. intros (m' & E & Hm').
    rewrite Forall_forall in Hs. apply (Hs m' Hm'). rewrite <- E. by constructor.
  - constructor; [done|]. eapply Forall_impl; [exact Hs|]. intros m' H1 H2.
    apply H1. by right.
  - by constructor.
Qed.

(** A page the catalog validator accepts has at most 64 entries with
    distinct session ids, and its cursor, its [has_more] flag and its remaining
    count agree. *)
Theorem catalog_page_valid p :
  NativeSessionCatalogPage_validate p = Ok tt →
  len (page_entries p) <= NATIVE_SESSION_CATALOG_LIMIT_MAX
  ∧ NoDup (entry_session_id <$> page_entries p)
  ∧ (page_has_more p = true ↔ is_Some (page_next_after_selection_id p))
  ∧ (page_has_more p = true ↔ 0 < page_remaining_count p).
Proof.
  assert (Hloop : ∀ entries before, NoDup (entry_session_id <$> before) →
    validate_page_entries before entries = Ok tt →
    NoDup (entry_session_id <$> (before ++ entries))).
  { intros entries. induction entries as [|e es IH]; intros before Hnd; cbn.
    { by rewrite app_nil_r. }
    destruct (NativeSessionCatalogEntry_validate e) as [[]|]; cbn; [|done].
    destruct (existsb _ before) eqn:He; cbn; [done|]. intros Hv.
    replace (before ++ e :: es) with ((before ++ [e]) ++ es) by by rewrite <- app_assoc.
    apply IH; [|done]. rewrite fmap_app. apply NoDup_app. split_and!; [done| |].
    - intros x (y & -> & Hy)%list_elem_of_fmap Hx. apply list_elem_of_singleton in Hx.
      rewrite <- not_true_iff_false, existsb_exists in He. apply He.
      exists y. rewrite <- list_elem_of_In. by rewrite bool_decide_eq_true.
    - apply NoDup_singleton. }
  unfold NativeSessionCatalogPage_validate.
  destruct (_ <? _) eqn:Hl; cbn; [done|]. bool_prop.
  destruct (validate_page_entries _ _) as [[]|] eqn:Hv; cbn; [|done].
  apply Hloop in Hv; [|constructor]. cbn in Hv.
  unfold validate_catalog_cursor, validate_catalog_cursor_presence.
  destruct (opt_each _ _) as [[]|]; cbn; [|done].
  destruct (eqb (page_has_more p) (bool_decide _)) eqn:H1; cbn; [|done].
  destruct (eqb (page_has_more p) (0 <? _)) eqn:H2; cbn; [|done].
  apply eqb_prop in H1, H2. intros _. split_and!; [done|done| |].
  - by rewrite H1, bool_decide_eq_true.
  - by rewrite H2, N.ltb_lt.
Qed.
