(* ===== verification/ProviderTypes.v ===== *)
(** * Provider events

    The provider event vocabulary of crates/gate4agent-types/src/control.rs:
    events, interactions, sources and the validators of what a provider may
    send. *)

From S2P Require Import Prelude RustStr Ids SessionTypes.

Local Open Scope N_scope.

(** ** Interactions *)

(* types/control.rs ProviderInteractionKind *)
Inductive ProviderInteractionKind := Approval | Question.

(* types/control.rs ProviderRateLimitKind *)
Inductive ProviderRateLimitKind := LimitSession | LimitDaily | LimitWeekly | LimitUnknown.

(* types/control.rs ProviderInteractionOutcome *)
Inductive ProviderInteractionOutcome :=
| Approved | Answered | Denied | Interrupted | TurnEnded | Superseded.

(* types/control.rs ProviderInteractionResponseKind *)
Inductive ProviderInteractionResponseKind := RK_ApproveOnce | RK_Deny | RK_Answer.

(* types/control.rs ProviderInteractionResponse *)
Inductive ProviderInteractionResponse :=
| ApproveOnce
| Deny
| Answer (text : list N).

#[export] Instance ProviderInteractionKind_eq : EqDecision ProviderInteractionKind.
Proof. solve_decision. Defined.
#[export] Instance ProviderInteractionOutcome_eq : EqDecision ProviderInteractionOutcome.
Proof. solve_decision. Defined.
#[export] Instance ProviderInteractionResponseKind_eq :
  EqDecision ProviderInteractionResponseKind.
Proof. solve_decision. Defined.

(* types/control.rs ProviderInteractionResponse::kind *)
Definition response_kind (r : ProviderInteractionResponse) : ProviderInteractionResponseKind :=
  match r with
  | ApproveOnce => RK_ApproveOnce
  | Deny => RK_Deny
  | Answer _ => RK_Answer
  end.

(* types/control.rs ProviderInteractionResponse::outcome *)
Definition response_outcome (r : ProviderInteractionResponse) : ProviderInteractionOutcome :=
  match r with
  | ApproveOnce => Approved
  | Deny => Denied
  | Answer _ => Answered
  end.

(* types/control.rs ProviderInteractionResponseError *)
Inductive ProviderInteractionResponseError :=
| EmptyAnswer
| InvalidAnswer (max : N)
| AnswerRequiresQuestion
| ApprovalRequiresApproval.

(* types/control.rs ProviderInteractionResponseError *)
Definition ProviderInteractionResponseError_to_string
    (e : ProviderInteractionResponseError) : list N :=
  match e with
  | EmptyAnswer => str "interaction answer is required"
  | InvalidAnswer max =>
      str "interaction answer contains controls or exceeds " ++ fmt_dec max ++ str " bytes"
  | AnswerRequiresQuestion => str "an answer response requires a question interaction"
  | ApprovalRequiresApproval =>
      str "an approve-once response requires an approval interaction"
  end.

(* types/control.rs ProviderInteractionResponse::validate_for *)
Definition response_validate_for (r : ProviderInteractionResponse)
    (interaction_kind : ProviderInteractionKind)
    : result ProviderInteractionResponseError unit :=
  match interaction_kind, r with
  | Approval, ApproveOnce | Approval, Deny | Question, Deny => Ok tt
  | Question, Answer text =>
      guard_err (str_is_empty (trim text)) EmptyAnswer ;;
      guard_err ((PROVIDER_INTERACTION_RESPONSE_MAX_BYTES <? str_len text)
                 || chars_any is_unsafe_control text)
        (InvalidAnswer PROVIDER_INTERACTION_RESPONSE_MAX_BYTES) ;;
      Ok tt
  | Approval, Answer _ => Err AnswerRequiresQuestion
  | Question, ApproveOnce => Err ApprovalRequiresApproval
  end.

(** ** Field validation *)

(* types/control.rs ProviderEventValidationError *)
Inductive ProviderEventValidationError :=
| PV_Empty (field : list N)
| PV_InvalidField (field : list N) (max : N)
| PV_TooManyTools (count max : N)
| PV_InvalidInteractionResolutionOutcome (outcome : ProviderInteractionOutcome)
| PV_ZeroContextWindowCapacity
| PV_ContextWindowSegmentsOverflow
| PV_ContextWindowSegmentsMismatch (segment_sum used_tokens : N)
| PV_TooManyPlanSteps (count max : N)
| PV_TooManyAvailableCommands (count max : N)
| PV_TooManyConfigOptions (count max : N)
| PV_TooManyConfigOptionChoices (count max : N)
| PV_TooManyModes (count max : N)
| PV_TooManyInteractionOptions (count max : N).

(** The derived [Debug] of an outcome. *)
Definition outcome_debug (o : ProviderInteractionOutcome) : list N :=
  match o with
  | Approved => str "Approved" | Answered => str "Answered" | Denied => str "Denied"
  | Interrupted => str "Interrupted" | TurnEnded => str "TurnEnded"
  | Superseded => str "Superseded"
  end.

(** ["provider {what} count {count} exceeds {max}"]. *)
Definition fmt_count (what : list N) (count max : N) : list N :=
  str "provider " ++ what ++ str " count " ++ fmt_dec count ++ str " exceeds " ++ fmt_dec max.

(* types/control.rs ProviderEventValidationError *)
Definition ProviderEventValidationError_to_string (e : ProviderEventValidationError) : list N :=
  match e with
  | PV_Empty field => str "provider event field '" ++ field ++ str "' is required"
  | PV_InvalidField field max =>
      str "provider event field '" ++ field ++ str "' contains controls or exceeds "
        ++ fmt_dec max ++ str " bytes"
  | PV_TooManyTools count max => fmt_count (str "event tool") count max
  | PV_InvalidInteractionResolutionOutcome outcome =>
      str "provider interaction resolution outcome " ++ outcome_debug outcome
        ++ str " is not exact"
  | PV_ZeroContextWindowCapacity => str "context-window capacity must be non-zero"
  | PV_ContextWindowSegmentsOverflow => str "context-window token segments overflow u64"
  | PV_ContextWindowSegmentsMismatch segment_sum used_tokens =>
      str "context-window token segments sum to " ++ fmt_dec segment_sum
        ++ str ", not used_tokens " ++ fmt_dec used_tokens
  | PV_TooManyPlanSteps count max => fmt_count (str "plan step") count max
  | PV_TooManyAvailableCommands count max => fmt_count (str "available command") count max
  | PV_TooManyConfigOptions count max => fmt_count (str "config option") count max
  | PV_TooManyConfigOptionChoices count max => fmt_count (str "config option choice") count max
  | PV_TooManyModes count max => fmt_count (str "mode catalog") count max
  | PV_TooManyInteractionOptions count max => fmt_count (str "interaction option") count max
  end.

Abbreviation validation := (result ProviderEventValidationError unit).

(* types/control.rs validate_identifier *)
Definition validate_identifier (field value : list N) (max : N) : validation :=
  guard_err ((max <? str_len value) || chars_any is_control value)
    (PV_InvalidField field max) ;;
  Ok tt.

(* types/control.rs validate_required *)
Definition validate_required (field value : list N) (max : N) : validation :=
  guard_err (str_is_empty (trim value)) (PV_Empty field) ;;
  validate_identifier field value max.

(* types/control.rs validate_text *)
Definition validate_text (field value : list N) (max : N) : validation :=
  guard_err ((max <? str_len value) || chars_any is_unsafe_control value)
    (PV_InvalidField field max) ;;
  Ok tt.

(* types/control.rs validate_required_text *)
Definition validate_required_text (field value : list N) (max : N) : validation :=
  guard_err (str_is_empty (trim value)) (PV_Empty field) ;;
  validate_text field value max.

(* types/control.rs validate_optional_agent_id *)
Definition validate_optional_agent_id (agent_id : option (list N)) : validation :=
  opt_each (λ a, validate_required (str "provider agent id") a PROVIDER_EVENT_ID_MAX_BYTES)
    agent_id ;;
  Ok tt.

(* types/control.rs validate_session_control_id *)
Definition validate_session_control_id (field value : list N) : validation :=
  validate_required field value PROVIDER_EVENT_ID_MAX_BYTES.

(* types/control.rs validate_session_config_value_json *)
Definition validate_session_config_value_json (value : list N) : validation :=
  validate_required_text (str "session config option value") value
    PROVIDER_EVENT_TEXT_MAX_BYTES.

(** ** Usage and identity *)

(* types/control.rs TokenUsage *)
Record TokenUsage := MkTokenUsage {
  input_tokens : N;
  output_tokens : N;
  cache_read_tokens : N;
  cache_write_tokens : N;
  reasoning_tokens : N;
  context_window : option N
}.
Definition TokenUsage_default : TokenUsage := MkTokenUsage 0 0 0 0 0 None.

(* types/control.rs ContextWindowUsage *)
Record ContextWindowUsage := MkContextWindowUsage {
  cw_uncached_input_tokens : N;
  cw_cache_read_tokens : N;
  cw_cache_write_tokens : N;
  cw_output_tokens : N;
  cw_unattributed_tokens : N;
  cw_used_tokens : N;
  cw_capacity_tokens : N
}.

(* types/control.rs ContextWindowUsage::validate *)
Definition ContextWindowUsage_validate (u : ContextWindowUsage) : validation :=
  guard_err (cw_capacity_tokens u =? 0) PV_ZeroContextWindowCapacity ;;
  match
    (sum ← checked_add (cw_uncached_input_tokens u) (cw_cache_read_tokens u);
     sum ← checked_add sum (cw_cache_write_tokens u);
     sum ← checked_add sum (cw_output_tokens u);
     checked_add sum (cw_unattributed_tokens u))
  with
  | None => Err PV_ContextWindowSegmentsOverflow
  | Some segment_sum =>
      guard_err (negb (segment_sum =? cw_used_tokens u))
        (PV_ContextWindowSegmentsMismatch segment_sum (cw_used_tokens u)) ;;
      Ok tt
  end.

(* types/control.rs ProviderSessionKey *)
Inductive ProviderSessionKey := KeySessionId | KeyConversationId.
#[export] Instance ProviderSessionKey_eq : EqDecision ProviderSessionKey.
Proof. solve_decision. Defined.

(* types/control.rs ProviderSessionIdentity *)
Record ProviderSessionIdentity := MkIdentity {
  identity_key : ProviderSessionKey;
  identity_id : list N;
  identity_transcript_path : option (list N)
}.
#[export] Instance ProviderSessionIdentity_eq : EqDecision ProviderSessionIdentity.
Proof. solve_decision. Defined.

(* types/control.rs ProviderSessionIdentity::validate *)
Definition ProviderSessionIdentity_validate (i : ProviderSessionIdentity) : validation :=
  validate_required (str "provider session id") (identity_id i) PROVIDER_EVENT_ID_MAX_BYTES ;;
  guard_err (starts_with (identity_id i) 0x2d)
    (PV_InvalidField (str "provider session id") PROVIDER_EVENT_ID_MAX_BYTES) ;;
  opt_each (λ path, validate_required (str "provider transcript path") path
                      PROVIDER_SESSION_LOCATOR_MAX_BYTES) (identity_transcript_path i) ;;
  Ok tt.

(** ** Parts of events *)

(* types/control.rs ProviderPlanPriority *)
Inductive ProviderPlanPriority := PriorityHigh | PriorityMedium | PriorityLow.
(* types/control.rs ProviderPlanStatus *)
Inductive ProviderPlanStatus := PlanPending | PlanInProgress | PlanCompleted.
(* types/control.rs ProviderPlanStep *)
Record ProviderPlanStep := MkPlanStep {
  step_content : list N;
  step_priority : ProviderPlanPriority;
  step_status : ProviderPlanStatus
}.
(* types/control.rs ProviderAvailableCommand *)
Record ProviderAvailableCommand := MkAvailableCommand {
  avail_name : list N;
  avail_description : list N;
  avail_input_hint : option (list N)
}.
(* types/control.rs ProviderModeInfo *)
Record ProviderModeInfo := MkModeInfo {
  mode_id : list N;
  mode_name : list N;
  mode_description : option (list N)
}.
(* types/control.rs ProviderConfigOptionKind *)
Inductive ProviderConfigOptionKind := ConfigSelect | ConfigBoolean | ConfigUnknown.
(* types/control.rs ProviderConfigChoice *)
Record ProviderConfigChoice := MkConfigChoice {
  choice_value_json : list N;
  choice_label : option (list N)
}.
(* types/control.rs ProviderConfigOption *)
Record ProviderConfigOption := MkConfigOption {
  config_id : list N;
  config_name : list N;
  config_description : option (list N);
  config_category : option (list N);
  config_kind : ProviderConfigOptionKind;
  config_value_json : list N;
  config_choices : list ProviderConfigChoice
}.
(* types/control.rs HostDecisionAuthority *)
Inductive HostDecisionAuthority := ByGate | ByPolicy | ByOperator | ByDeadlinePolicy.
(* types/control.rs HostRequestDecision *)
Inductive HostRequestDecision :=
| HostGranted (by_ : HostDecisionAuthority)
| HostDenied (by_ : HostDecisionAuthority)
| HostDeferred.
(* types/control.rs HostRequestOutcome *)
Inductive HostRequestOutcome := HostExecuted | HostFailed (error : list N).
(* types/control.rs ProviderInteractionOption *)
Record ProviderInteractionOption := MkInteractionOption {
  io_option_id : list N;
  io_name : list N;
  io_kind : list N
}.

(* types/control.rs ProviderStopReason *)
Inductive ProviderStopReason :=
| StopEndTurn | StopMaxTokens | StopMaxTurnRequests | StopRefusal | StopCancelled
| StopOther (value : list N)
| StopProviderError (code : Z) (message : list N) (vendor_code : option (list N)).

(* types/control.rs ProviderStopReason::validate_ingress *)
Definition ProviderStopReason_validate_ingress (r : ProviderStopReason) : validation :=
  match r with
  | StopEndTurn | StopMaxTokens | StopMaxTurnRequests | StopRefusal | StopCancelled => Ok tt
  | StopOther value => validate_text (str "stop reason") value PROVIDER_EVENT_ID_MAX_BYTES
  | StopProviderError _ message vendor_code =>
      validate_text (str "provider error message") message PROVIDER_EVENT_TEXT_MAX_BYTES ;;
      opt_each (λ code, validate_text (str "provider error vendor code") code
                          PROVIDER_EVENT_ID_MAX_BYTES) vendor_code ;;
      Ok tt
  end.

(** ** Events *)

(* types/control.rs ProviderEvent *)
Inductive ProviderEvent :=
| PE_SessionStarted (session_id model : list N) (tools : list (list N))
| PE_SessionIdentityObserved (identity : ProviderSessionIdentity)
| PE_TurnStarted (prompt : option (list N))
| PE_WorkingObserved
| PE_Text (text : list N) (is_delta : bool)
| PE_Thinking (text : list N)
| PE_ToolStarted (id name input_json : list N) (agent_id : option (list N))
| PE_ToolCompleted (id output : list N) (is_error : bool) (duration_ms : option N)
    (agent_id : option (list N)) (non_execution_kind : option (list N))
| PE_TurnCompleted (usage : TokenUsage) (is_cumulative : bool)
| PE_ContextWindowUsage (usage : ContextWindowUsage)
| PE_TurnInterrupted
| PE_SessionEnded (result : list N) (cost_usd : option (list N)) (is_error : bool)
    (stop_reason : option ProviderStopReason)
| PE_Error (message : list N)
| PE_Ready
| PE_InteractionRequested (request_id : option (list N))
    (interaction_kind : ProviderInteractionKind) (tool_name : list N)
    (title : option (list N)) (prompt : list N)
    (options : list ProviderInteractionOption) (agent_id : option (list N))
| PE_InteractionResolved (request_id : list N) (outcome : ProviderInteractionOutcome)
| PE_SubagentStarted (agent_id : list N) (agent_type description : option (list N))
| PE_SubagentStopped (agent_id : list N)
| PE_RateLimited (limit_type : ProviderRateLimitKind)
    (resets_at usage_percent : option (list N)) (raw_message : list N)
| PE_HostRequestObserved (method params_json : list N) (decision : HostRequestDecision)
    (outcome : HostRequestOutcome) (reason : option (list N))
| PE_UnrecognizedNotification (method payload_json : list N)
| PE_UserMessage (text : list N) (is_delta : bool)
| PE_Plan (steps : list ProviderPlanStep)
| PE_AvailableCommandsUpdated (commands : list ProviderAvailableCommand)
| PE_ModeChanged (mode_id : list N) (available : list ProviderModeInfo)
| PE_SessionInfoUpdated (title : option (list N))
| PE_UsageUpdated (used_tokens context_window : option N)
    (cost_amount cost_currency : option (list N))
| PE_ConfigOptionsUpdated (options : list ProviderConfigOption).

(** ** Ingress validation, one definition per arm of [validate_ingress] *)

(* types/control.rs:1891-1907 ProviderEvent::validate_ingress *)
Definition validate_session_started (session_id model : list N) (tools : list (list N))
    : validation :=
  validate_required (str "session_id") session_id PROVIDER_EVENT_ID_MAX_BYTES ;;
  validate_identifier (str "model") model PROVIDER_EVENT_ID_MAX_BYTES ;;
  guard_err (PROVIDER_EVENT_TOOLS_MAX <? len tools)
    (PV_TooManyTools (len tools) PROVIDER_EVENT_TOOLS_MAX) ;;
  for_each (λ tool, validate_required (str "tool") tool PROVIDER_EVENT_ID_MAX_BYTES) tools.

(* types/control.rs:1919-1929 ProviderEvent::validate_ingress *)
Definition validate_tool_started (id name input_json : list N) (agent_id : option (list N))
    : validation :=
  validate_required (str "tool id") id PROVIDER_EVENT_ID_MAX_BYTES ;;
  validate_required (str "tool name") name PROVIDER_EVENT_ID_MAX_BYTES ;;
  validate_text (str "tool input") input_json PROVIDER_EVENT_TEXT_MAX_BYTES ;;
  validate_optional_agent_id agent_id.

(* types/control.rs:1930-1943 ProviderEvent::validate_ingress *)
Definition validate_tool_completed (id output : list N)
    (agent_id non_execution_kind : option (list N)) : validation :=
  validate_required (str "tool id") id PROVIDER_EVENT_ID_MAX_BYTES ;;
  validate_text (str "tool output") output PROVIDER_EVENT_TEXT_MAX_BYTES ;;
  validate_optional_agent_id agent_id ;;
  opt_each (λ kind, validate_text (str "tool non-execution kind") kind
                      PROVIDER_EVENT_ID_MAX_BYTES) non_execution_kind.

(* types/control.rs:1944-1957 ProviderEvent::validate_ingress *)
Definition validate_session_ended (res : list N) (cost_usd : option (list N))
    (stop_reason : option ProviderStopReason) : validation :=
  validate_text (str "session result") res PROVIDER_EVENT_TEXT_MAX_BYTES ;;
  opt_each (λ cost, validate_identifier (str "cost") cost PROVIDER_EVENT_ID_MAX_BYTES)
    cost_usd ;;
  opt_each ProviderStopReason_validate_ingress stop_reason.

(* types/control.rs:1961-2014 ProviderEvent::validate_ingress *)
Definition validate_interaction_requested (request_id : option (list N))
    (interaction_kind : ProviderInteractionKind) (tool_name : list N)
    (title : option (list N)) (prompt : list N)
    (options : list ProviderInteractionOption) (agent_id : option (list N)) : validation :=
  opt_each (λ r, validate_required (str "interaction request id") r
                   PROVIDER_EVENT_ID_MAX_BYTES) request_id ;;
  validate_required (str "interaction tool") tool_name PROVIDER_EVENT_ID_MAX_BYTES ;;
  opt_each (λ t, validate_text (str "interaction title") t PROVIDER_EVENT_TEXT_MAX_BYTES)
    title ;;
  (if bool_decide (interaction_kind = Question) then
     validate_required_text (str "interaction prompt") prompt PROVIDER_EVENT_TEXT_MAX_BYTES
   else validate_text (str "interaction prompt") prompt PROVIDER_EVENT_TEXT_MAX_BYTES) ;;
  guard_err (PROVIDER_INTERACTION_OPTIONS_MAX <? len options)
    (PV_TooManyInteractionOptions (len options) PROVIDER_INTERACTION_OPTIONS_MAX) ;;
  for_each (λ o,
    validate_required (str "interaction option id") (io_option_id o)
      PROVIDER_EVENT_ID_MAX_BYTES ;;
    validate_required (str "interaction option name") (io_name o)
      PROVIDER_EVENT_ID_MAX_BYTES ;;
    validate_required (str "interaction option kind") (io_kind o)
      PROVIDER_EVENT_ID_MAX_BYTES) options ;;
  validate_optional_agent_id agent_id.

(* types/control.rs:2015-2034 ProviderEvent::validate_ingress *)
Definition validate_interaction_resolved (request_id : list N)
    (outcome : ProviderInteractionOutcome) : validation :=
  validate_required (str "interaction request id") request_id PROVIDER_EVENT_ID_MAX_BYTES ;;
  guard_err (negb match outcome with Approved | Denied => true | _ => false end)
    (PV_InvalidInteractionResolutionOutcome outcome).

(* types/control.rs:2035-2051 ProviderEvent::validate_ingress *)
Definition validate_subagent_started (agent_id : list N)
    (agent_type description : option (list N)) : validation :=
  validate_required (str "subagent id") agent_id PROVIDER_EVENT_ID_MAX_BYTES ;;
  opt_each (λ t, validate_identifier (str "subagent type") t PROVIDER_EVENT_ID_MAX_BYTES)
    agent_type ;;
  opt_each (λ d, validate_text (str "subagent description") d PROVIDER_EVENT_TEXT_MAX_BYTES)
    description.

(* types/control.rs:2055-2076 ProviderEvent::validate_ingress *)
Definition validate_rate_limited (resets_at usage_percent : option (list N))
    (raw_message : list N) : validation :=
  for_each (λ fv : list N * option (list N),
    opt_each (λ value, validate_identifier (fst fv) value PROVIDER_EVENT_ID_MAX_BYTES) (snd fv))
    [(str "reset time", resets_at); (str "usage percent", usage_percent)] ;;
  validate_text (str "rate limit message") raw_message PROVIDER_EVENT_TEXT_MAX_BYTES.

(* types/control.rs:2077-2100 ProviderEvent::validate_ingress *)
Definition validate_host_request (method params_json : list N) (reason : option (list N))
    (outcome : HostRequestOutcome) : validation :=
  validate_required (str "host request method") method PROVIDER_EVENT_ID_MAX_BYTES ;;
  validate_text (str "host request params") params_json PROVIDER_EVENT_TEXT_MAX_BYTES ;;
  opt_each (λ r, validate_text (str "host request reason") r PROVIDER_EVENT_TEXT_MAX_BYTES)
    reason ;;
  match outcome with
  | HostFailed error =>
      validate_text (str "host request outcome error") error PROVIDER_EVENT_TEXT_MAX_BYTES
  | HostExecuted => Ok tt
  end.

(* types/control.rs:2119-2133 ProviderEvent::validate_ingress *)
Definition validate_plan (steps : list ProviderPlanStep) : validation :=
  guard_err (PROVIDER_PLAN_STEPS_MAX <? len steps)
    (PV_TooManyPlanSteps (len steps) PROVIDER_PLAN_STEPS_MAX) ;;
  for_each (λ step, validate_required_text (str "plan step content") (step_content step)
                      PROVIDER_EVENT_TEXT_MAX_BYTES) steps.

(* types/control.rs:2134-2152 ProviderEvent::validate_ingress *)
Definition validate_available_commands (commands : list ProviderAvailableCommand)
    : validation :=
  guard_err (PROVIDER_AVAILABLE_COMMANDS_MAX <? len commands)
    (PV_TooManyAvailableCommands (len commands) PROVIDER_AVAILABLE_COMMANDS_MAX) ;;
  for_each (λ c,
    validate_required (str "command name") (avail_name c) PROVIDER_EVENT_ID_MAX_BYTES ;;
    validate_text (str "command description") (avail_description c)
      PROVIDER_EVENT_TEXT_MAX_BYTES ;;
    opt_each (λ hint, validate_text (str "command input hint") hint
                        PROVIDER_EVENT_TEXT_MAX_BYTES) (avail_input_hint c)) commands.

(* types/control.rs:2153-2176 ProviderEvent::validate_ingress *)
Definition validate_mode_changed (mode : list N) (available : list ProviderModeInfo)
    : validation :=
  validate_required (str "mode id") mode PROVIDER_EVENT_ID_MAX_BYTES ;;
  guard_err (PROVIDER_MODE_CATALOG_MAX <? len available)
    (PV_TooManyModes (len available) PROVIDER_MODE_CATALOG_MAX) ;;
  for_each (λ m,
    validate_required (str "available mode id") (mode_id m) PROVIDER_EVENT_ID_MAX_BYTES ;;
    validate_required (str "available mode name") (mode_name m) PROVIDER_EVENT_ID_MAX_BYTES ;;
    opt_each (λ d, validate_text (str "available mode description") d
                     PROVIDER_EVENT_TEXT_MAX_BYTES) (mode_description m)) available.

(* types/control.rs:2182-2197 ProviderEvent::validate_ingress *)
Definition validate_usage_updated (cost_amount cost_currency : option (list N)) : validation :=
  opt_each (λ a, validate_identifier (str "usage cost amount") a PROVIDER_EVENT_ID_MAX_BYTES)
    cost_amount ;;
  opt_each (λ c, validate_identifier (str "usage cost currency") c
                   PROVIDER_EVENT_ID_MAX_BYTES) cost_currency.

(* types/control.rs:2198-2252 ProviderEvent::validate_ingress *)
Definition validate_config_options (options : list ProviderConfigOption) : validation :=
  guard_err (PROVIDER_CONFIG_OPTIONS_MAX <? len options)
    (PV_TooManyConfigOptions (len options) PROVIDER_CONFIG_OPTIONS_MAX) ;;
  for_each (λ o,
    validate_required (str "config option id") (config_id o) PROVIDER_EVENT_ID_MAX_BYTES ;;
    validate_required (str "config option name") (config_name o)
      PROVIDER_EVENT_ID_MAX_BYTES ;;
    opt_each (λ d, validate_text (str "config option description") d
                     PROVIDER_EVENT_TEXT_MAX_BYTES) (config_description o) ;;
    opt_each (λ c, validate_identifier (str "config option category") c
                     PROVIDER_EVENT_ID_MAX_BYTES) (config_category o) ;;
    validate_text (str "config option value") (config_value_json o)
      PROVIDER_EVENT_TEXT_MAX_BYTES ;;
    guard_err (PROVIDER_CONFIG_OPTION_CHOICES_MAX <? len (config_choices o))
      (PV_TooManyConfigOptionChoices (len (config_choices o))
         PROVIDER_CONFIG_OPTION_CHOICES_MAX) ;;
    for_each (λ ch,
      validate_text (str "config option choice value") (choice_value_json ch)
        PROVIDER_EVENT_TEXT_MAX_BYTES ;;
      opt_each (λ l, validate_text (str "config option choice label") l
                       PROVIDER_EVENT_TEXT_MAX_BYTES) (choice_label ch)) (config_choices o))
    options.

(* types/control.rs ProviderEvent::validate_ingress *)
Definition validate_ingress (e : ProviderEvent) : validation :=
  match e with
  | PE_SessionStarted session_id model tools => validate_session_started session_id model tools
  | PE_SessionIdentityObserved identity => ProviderSessionIdentity_validate identity
  | PE_TurnStarted prompt =>
      opt_each (λ p, validate_text (str "prompt") p PROVIDER_EVENT_TEXT_MAX_BYTES) prompt
  | PE_Text text _ | PE_Thinking text =>
      validate_text (str "text") text PROVIDER_EVENT_TEXT_MAX_BYTES
  | PE_ToolStarted id name input_json agent_id =>
      validate_tool_started id name input_json agent_id
  | PE_ToolCompleted id output _ _ agent_id non_execution_kind =>
      validate_tool_completed id output agent_id non_execution_kind
  | PE_SessionEnded res cost_usd _ stop_reason => validate_session_ended res cost_usd stop_reason
  | PE_Error message =>
      validate_required_text (str "error") message PROVIDER_EVENT_TEXT_MAX_BYTES
  | PE_InteractionRequested request_id kind tool_name title prompt options agent_id =>
      validate_interaction_requested request_id kind tool_name title prompt options agent_id
  | PE_InteractionResolved request_id outcome => validate_interaction_resolved request_id outcome
  | PE_SubagentStarted agent_id agent_type description =>
      validate_subagent_started agent_id agent_type description
  | PE_SubagentStopped agent_id =>
      validate_required (str "subagent id") agent_id PROVIDER_EVENT_ID_MAX_BYTES
  | PE_RateLimited _ resets_at usage_percent raw_message =>
      validate_rate_limited resets_at usage_percent raw_message
  | PE_HostRequestObserved method params_json _ outcome reason =>
      validate_host_request method params_json reason outcome
  | PE_UnrecognizedNotification method payload_json =>
      validate_required (str "unrecognized notification method") method
        PROVIDER_EVENT_ID_MAX_BYTES ;;
      validate_text (str "unrecognized notification payload") payload_json
        PROVIDER_EVENT_TEXT_MAX_BYTES
  | PE_UserMessage text _ => validate_text (str "text") text PROVIDER_EVENT_TEXT_MAX_BYTES
  | PE_Plan steps => validate_plan steps
  | PE_AvailableCommandsUpdated commands => validate_available_commands commands
  | PE_ModeChanged mode available => validate_mode_changed mode available
  | PE_SessionInfoUpdated title =>
      opt_each (λ t, validate_text (str "session title") t PROVIDER_EVENT_TEXT_MAX_BYTES) title
  | PE_UsageUpdated _ _ cost_amount cost_currency =>
      validate_usage_updated cost_amount cost_currency
  | PE_ConfigOptionsUpdated options => validate_config_options options
  | PE_WorkingObserved | PE_TurnCompleted _ _ | PE_TurnInterrupted | PE_Ready => Ok tt
  | PE_ContextWindowUsage usage => ContextWindowUsage_validate usage
  end.

(** ** Sources, interactions and the provider snapshot *)

(* types/control.rs ProviderSource *)
Record ProviderSource := MkSource {
  source_family : AdapterFamily;
  source_binding : AdapterBinding
}.
#[export] Instance ProviderSource_eq : EqDecision ProviderSource.
Proof. solve_decision. Defined.

(* types/control.rs ProviderSourceCursor *)
Record ProviderSourceCursor := MkCursor {
  cursor_source : ProviderSource;
  cursor_sequence : N;
  cursor_gap_count : N;
  cursor_stale : bool
}.
#[export] Instance ProviderSourceCursor_fields : Fields ProviderSourceCursor :=
  fields_of MkCursor <cursor_source; cursor_sequence; cursor_gap_count; cursor_stale>.

(* types/control.rs ProviderSubagent *)
Record ProviderSubagent := MkSubagent {
  sub_source : ProviderSource;
  sub_provider_agent_id : list N;
  sub_agent_type : option (list N);
  sub_description : option (list N)
}.
#[export] Instance ProviderSubagent_fields : Fields ProviderSubagent :=
  fields_of MkSubagent <sub_source; sub_provider_agent_id; sub_agent_type; sub_description>.

(* types/control.rs ProviderInteractionTarget *)
Record ProviderInteractionTarget := MkInteractionTarget {
  target_interaction_id : ProviderInteractionId;
  target_source : ProviderSource;
  target_provider_request_id : option (list N);
  target_interaction_kind : ProviderInteractionKind;
  target_tool_name : list N;
  target_agent_id : option (list N)
}.

(* types/control.rs ProviderInteractionStatus *)
Inductive ProviderInteractionStatus :=
| InteractionPending
| InteractionResolving (operation_id : OperationId) (kind : ProviderInteractionResponseKind)
| InteractionResolvedAs (outcome : ProviderInteractionOutcome).

(* types/control.rs ProviderActivity *)
Inductive ProviderActivity := Idle | Working | WaitingForInput | Blocked.
#[export] Instance ProviderActivity_eq : EqDecision ProviderActivity.
Proof. solve_decision. Defined.

(* types/control.rs ProviderInteraction *)
Record ProviderInteraction := MkProviderInteraction {
  pi_id : ProviderInteractionId;
  pi_source : ProviderSource;
  pi_provider_request_id : option (list N);
  pi_interaction_kind : ProviderInteractionKind;
  pi_tool_name : list N;
  pi_prompt : list N;
  pi_agent_id : option (list N);
  pi_resume_lead_activity : option ProviderActivity;
  pi_status : ProviderInteractionStatus
}.
#[export] Instance ProviderInteraction_fields : Fields ProviderInteraction :=
  fields_of MkProviderInteraction
    <pi_id; pi_source; pi_provider_request_id; pi_interaction_kind; pi_tool_name; pi_prompt;
     pi_agent_id; pi_resume_lead_activity; pi_status>.

(* types/control.rs ActiveProviderTool *)
Record ActiveProviderTool := MkActiveTool {
  tool_id : list N;
  tool_name : list N;
  tool_input_json : list N
}.

(* types/control.rs ProviderSnapshot *)
Record ProviderSnapshot := MkProviderSnapshot {
  ps_sequence : N;
  ps_session : option ProviderSessionIdentity;
  ps_model : option (list N);
  ps_tools : list (list N);
  ps_completed_turns : N;
  ps_usage : TokenUsage;
  ps_lead_activity : ProviderActivity;
  ps_activity : ProviderActivity;
  ps_current_prompt : option (list N);
  ps_active_tools : list ActiveProviderTool;
  ps_interactions : list ProviderInteraction;
  ps_subagents : list ProviderSubagent;
  ps_sources : list ProviderSourceCursor;
  ps_last_event : option ProviderEvent;
  ps_gap_count : N;
  ps_stale : bool
}.
#[export] Instance ProviderSnapshot_fields : Fields ProviderSnapshot :=
  fields_of MkProviderSnapshot
    <ps_sequence; ps_session; ps_model; ps_tools; ps_completed_turns; ps_usage;
     ps_lead_activity; ps_activity; ps_current_prompt; ps_active_tools; ps_interactions;
     ps_subagents; ps_sources; ps_last_event; ps_gap_count; ps_stale>.

(** [ProviderSnapshot::default()]. *)
Definition ProviderSnapshot_default : ProviderSnapshot :=
  {| ps_sequence := 0; ps_session := None; ps_model := None; ps_tools := [];
     ps_completed_turns := 0; ps_usage := TokenUsage_default; ps_lead_activity := Idle;
     ps_activity := Idle; ps_current_prompt := None; ps_active_tools := [];
     ps_interactions := []; ps_subagents := []; ps_sources := []; ps_last_event := None;
     ps_gap_count := 0; ps_stale := false |}.
