(* ===== verification/Control.v ===== *)
(** * Control plane messages

    resume.rs and the command, effect, observation, event, error and snapshot
    types of control.rs (crates/gate4agent-types/src). *)

From S2P Require Import Prelude RustStr Ids Input SessionTypes RecordTypes ProviderTypes.

Local Open Scope N_scope.

(** ** Resume (resume.rs) *)

(* types/resume.rs RESUME_ERROR_MAX_BYTES *)
Definition RESUME_ERROR_MAX_BYTES : N := 4096.

(* types/resume.rs ResumeLaunchRequest *)
Record ResumeLaunchRequest := MkResumeRequest {
  resume_working_directory : list N;
  resume_terminal_size : TerminalSize;
  resume_initial_prompt : option (list N)
}.

(* types/resume.rs ResumeValidationError *)
Inductive ResumeValidationError :=
| ResumeInvalidWorkingDirectory
| ResumeInvalidTerminalSize
| ResumeInvalidInitialPrompt (message : list N)
| ResumeInvalidHistoryCandidate (error : HistoryValidationError)
| ResumeInvalidProviderSession (message : list N)
| ResumeInvalidError.

(* types/resume.rs ResumeValidationError *)
Definition ResumeValidationError_to_string (e : ResumeValidationError) : list N :=
  match e with
  | ResumeInvalidWorkingDirectory =>
      str "resume working directory is empty, too large, or contains controls"
  | ResumeInvalidTerminalSize =>
      str "resume terminal size is outside the supported bounded range"
  | ResumeInvalidInitialPrompt message =>
      str "resume initial prompt is invalid: " ++ message
  | ResumeInvalidHistoryCandidate error =>
      str "resume history candidate is invalid: " ++ HistoryValidationError_to_string error
  | ResumeInvalidProviderSession message =>
      str "resume provider session is invalid: " ++ message
  | ResumeInvalidError => str "resume error is empty, too large, or contains unsafe controls"
  end.

(* types/resume.rs ResumeLaunchRequest::validate *)
Definition ResumeLaunchRequest_validate (r : ResumeLaunchRequest)
    : result ResumeValidationError unit :=
  guard_err (str_is_empty (trim (resume_working_directory r))
             || (WORKING_DIRECTORY_MAX_BYTES <? str_len (resume_working_directory r))
             || chars_any is_control (resume_working_directory r))
    ResumeInvalidWorkingDirectory ;;
  guard_err (negb (TerminalSize_is_valid (resume_terminal_size r))) ResumeInvalidTerminalSize ;;
  opt_each (λ prompt,
    map_err (λ error, ResumeInvalidInitialPrompt (InputPrepareError_to_string error))
      (normalize_semantic_prompt prompt) ;; Ok tt) (resume_initial_prompt r) ;;
  Ok tt.

(* types/resume.rs ResumeTarget *)
Inductive ResumeTarget :=
| TargetCurrentProvider
| TargetProviderSession (identity : ProviderSessionIdentity)
| TargetHistoryCandidate (candidate_id : list N).

(* types/resume.rs ResumeTarget::validate *)
Definition ResumeTarget_validate (t : ResumeTarget) : result ResumeValidationError unit :=
  match t with
  | TargetCurrentProvider => Ok tt
  | TargetProviderSession identity =>
      map_err (λ error, ResumeInvalidProviderSession (ProviderEventValidationError_to_string error))
        (ProviderSessionIdentity_validate identity)
  | TargetHistoryCandidate candidate_id =>
      map_err ResumeInvalidHistoryCandidate (validate_candidate_id candidate_id)
  end.

(* types/resume.rs ResumeAuthorityTarget *)
Inductive ResumeAuthorityTarget :=
| AuthorityProviderSession (identity : ProviderSessionIdentity)
| AuthorityHistoryCandidate (candidate_id : list N).

(* types/resume.rs ResumePhase *)
Inductive ResumePhase := Authorizing | Spawning.
#[export] Instance ResumePhase_eq : EqDecision ResumePhase.
Proof. solve_decision. Defined.

(* types/resume.rs PendingResumeOperation *)
Record PendingResumeOperation := MkPendingResume {
  pro_operation_id : OperationId;
  pro_target : ResumeTarget;
  pro_request : ResumeLaunchRequest;
  pro_phase : ResumePhase
}.
#[export] Instance PendingResumeOperation_fields : Fields PendingResumeOperation :=
  fields_of MkPendingResume <pro_operation_id; pro_target; pro_request; pro_phase>.

(* types/resume.rs ResumeSessionSummary *)
Record ResumeSessionSummary := MkResumeSummary {
  rss_key : ProviderSessionKey;
  rss_id : list N
}.

(* types/resume.rs From@ResumeSessionSummary::from *)
Definition ResumeSessionSummary_from (i : ProviderSessionIdentity) : ResumeSessionSummary :=
  MkResumeSummary (identity_key i) (identity_id i).

(* types/resume.rs ResumeSnapshot *)
Record ResumeSnapshot := MkResumeSnapshot {
  rs_pending : option PendingResumeOperation;
  rs_last_session : option ResumeSessionSummary;
  rs_last_error : option (list N)
}.
#[export] Instance ResumeSnapshot_fields : Fields ResumeSnapshot :=
  fields_of MkResumeSnapshot <rs_pending; rs_last_session; rs_last_error>.
Definition ResumeSnapshot_default : ResumeSnapshot := MkResumeSnapshot None None None.

(* types/resume.rs validate_resume_error *)
Definition validate_resume_error (message : list N) : result ResumeValidationError unit :=
  guard_err (str_is_empty (trim message)
             || (RESUME_ERROR_MAX_BYTES <? str_len message)
             || chars_any is_unsafe_control message)
    ResumeInvalidError ;;
  Ok tt.

(** ** Commands *)

(* types/control.rs StartRequest *)
Record StartRequest := MkStartRequest {
  start_working_directory : list N;
  start_terminal_size : TerminalSize;
  start_initial_prompt : option (list N);
  start_session_options : option SessionOptionSelection;
  start_approval_level : ApprovalLevel
}.
#[export] Instance StartRequest_fields : Fields StartRequest :=
  fields_of MkStartRequest
    <start_working_directory; start_terminal_size; start_initial_prompt;
     start_session_options; start_approval_level>.
#[export] Instance ResumeLaunchRequest_fields : Fields ResumeLaunchRequest :=
  fields_of MkResumeRequest
    <resume_working_directory; resume_terminal_size; resume_initial_prompt>.

(* types/control.rs ControlCommand *)
Inductive ControlCommand :=
| Cmd_Register (instance_id : AgentInstanceId) (agent_id : AgentId) (transport : TransportKind)
| Cmd_Start (instance_id : AgentInstanceId) (runtime_policy : ProviderRuntimePolicy)
    (request : StartRequest)
| Cmd_Stop (instance_id : AgentInstanceId) (force : bool)
| Cmd_SendInput (instance_id : AgentInstanceId) (action : InputAction)
| Cmd_Resize (instance_id : AgentInstanceId) (size : TerminalSize)
| Cmd_RefreshForeground (instance_id : AgentInstanceId)
| Cmd_ProbeCapabilities (instance_id : AgentInstanceId) (request : CapabilityProbeRequest)
| Cmd_DiscoverHistory (instance_id : AgentInstanceId) (query : HistoryQuery)
| Cmd_LoadHistory (instance_id : AgentInstanceId) (candidate_id : list N)
| Cmd_Resume (instance_id : AgentInstanceId) (target : ResumeTarget)
    (runtime_policy : ProviderRuntimePolicy) (request : ResumeLaunchRequest)
| Cmd_ResolveInteraction (instance_id : AgentInstanceId) (generation : SessionGeneration)
    (interaction_id : ProviderInteractionId) (response : ProviderInteractionResponse)
| Cmd_SetSessionMode (instance_id : AgentInstanceId) (mode_id : list N)
| Cmd_SetSessionConfigOption (instance_id : AgentInstanceId) (option_id value_json : list N)
| Cmd_SetSessionModel (instance_id : AgentInstanceId) (model_id : list N)
| Cmd_IngestProvider (instance_id : AgentInstanceId) (generation : SessionGeneration)
    (source : ProviderSource) (source_sequence : N) (events : list ProviderEvent)
| Cmd_Remove (instance_id : AgentInstanceId).

(* types/control.rs ControlCommand::instance_id *)
Definition command_instance_id (c : ControlCommand) : AgentInstanceId :=
  match c with
  | Cmd_Register i _ _ | Cmd_Start i _ _ | Cmd_Stop i _ | Cmd_SendInput i _ | Cmd_Resize i _
  | Cmd_RefreshForeground i | Cmd_ProbeCapabilities i _ | Cmd_DiscoverHistory i _
  | Cmd_LoadHistory i _ | Cmd_Resume i _ _ _ | Cmd_ResolveInteraction i _ _ _
  | Cmd_SetSessionMode i _ | Cmd_SetSessionConfigOption i _ _ | Cmd_SetSessionModel i _
  | Cmd_IngestProvider i _ _ _ _ | Cmd_Remove i => i
  end.

(* types/control.rs CommandEnvelope *)
Record CommandEnvelope := MkCommandEnvelope {
  ce_id : CommandId;
  ce_command : ControlCommand
}.

(** ** Effects *)

(* types/control.rs ForegroundRequirement *)
Inductive ForegroundRequirement :=
| RequireAny
| RequireAgent (agent_id : AgentId)
| RequireShell.

(* types/control.rs ControlEffect *)
Inductive ControlEffect :=
| Eff_Spawn (agent_id : AgentId) (transport : TransportKind)
    (runtime_policy : ProviderRuntimePolicy) (request : StartRequest)
| Eff_Stop (force : bool)
| Eff_WriteInput (input : PreparedInput) (required_foreground : ForegroundRequirement)
| Eff_SubmitPrompt (prompt : list N)
| Eff_Interrupt
| Eff_Resize (size : TerminalSize)
| Eff_ObserveForeground
| Eff_ProbeCapabilities (agent_id : AgentId) (request : CapabilityProbeRequest)
| Eff_DiscoverHistory (agent_id : AgentId) (query : HistoryQuery)
| Eff_LoadHistory (agent_id : AgentId) (candidate_id : list N)
| Eff_AuthorizeResume (agent_id : AgentId) (target : ResumeAuthorityTarget)
    (request : ResumeLaunchRequest)
| Eff_SpawnResume (agent_id : AgentId) (transport : TransportKind)
    (provider_session : ProviderSessionIdentity) (runtime_policy : ProviderRuntimePolicy)
    (request : ResumeLaunchRequest)
| Eff_ResolveInteraction (target : ProviderInteractionTarget)
    (response : ProviderInteractionResponse)
| Eff_SetSessionMode (mode_id : list N)
| Eff_SetSessionConfigOption (option_id value_json : list N)
| Eff_SetSessionModel (model_id : list N).

(* types/control.rs EffectEnvelope *)
Record EffectEnvelope := MkEffect {
  ee_operation_id : OperationId;
  ee_instance_id : AgentInstanceId;
  ee_generation : SessionGeneration;
  ee_effect : ControlEffect
}.

(** ** Observations *)

(* types/control.rs ControlObservation *)
Inductive ControlObservation :=
| Obs_Spawned (process_id : option N)
| Obs_SpawnFailed (message : list N)
| Obs_ProcessExited (exit_code : option Z) (final_terminal : option TerminalFrame)
| Obs_StopCompleted (forced : bool) (exit_code : option Z)
    (final_terminal : option TerminalFrame)
| Obs_StopFailed (message : list N)
| Obs_InputCompleted
| Obs_InputFailed (message : list N)
| Obs_ResizeCompleted (size : TerminalSize)
| Obs_ResizeFailed (message : list N)
| Obs_ForegroundObserved (process : ForegroundProcess)
| Obs_ForegroundFailed (message : list N)
| Obs_CapabilitiesProbed (session_option_models : list CapabilityModelSummary)
| Obs_CapabilityProbeFailed (failure : CapabilityProbeFailure)
| Obs_HistoryDiscovered (candidates : list HistoryCandidateSummary)
| Obs_HistoryLoaded (session : HistorySessionRecord)
| Obs_HistoryFailed (message : list N)
| Obs_ResumeAuthorized (provider_session : ProviderSessionIdentity)
| Obs_ResumeDenied (reason : list N)
| Obs_ResumeFailed (message : list N)
| Obs_InteractionResolutionCompleted (interaction_id : ProviderInteractionId)
| Obs_InteractionResolutionFailed (interaction_id : ProviderInteractionId) (message : list N)
| Obs_SessionModeSet (mode_id : list N)
| Obs_SessionModeSetFailed (message : list N)
| Obs_SessionConfigOptionSet (option_id : list N)
| Obs_SessionConfigOptionSetFailed (message : list N)
| Obs_SessionModelSet (model_id : list N)
| Obs_SessionModelSetFailed (message : list N)
| Obs_TerminalFrame (frame : TerminalFrame)
| Obs_TerminalStale (message : list N)
| Obs_ScreenState (state : PtyScreenState)
| Obs_ProviderEvent (source : ProviderSource) (sequence : N) (event : ProviderEvent)
| Obs_ProviderGap (source : ProviderSource) (source_sequence missed : N).

(* types/control.rs ControlObservation::requires_operation_id *)
Definition requires_operation_id (o : ControlObservation) : bool :=
  negb match o with
       | Obs_ProcessExited _ _ | Obs_TerminalFrame _ | Obs_TerminalStale _ | Obs_ScreenState _
       | Obs_ProviderEvent _ _ _ | Obs_ProviderGap _ _ _ => true
       | _ => false
       end.

(* types/control.rs ObservationEnvelope *)
Record ObservationEnvelope := MkObservationEnvelope {
  oe_operation_id : option OperationId;
  oe_instance_id : AgentInstanceId;
  oe_generation : SessionGeneration;
  oe_observation : ControlObservation
}.

(** ** Snapshots *)

(* types/control.rs SessionSnapshot *)
Record SessionSnapshot := MkSessionSnapshot {
  ss_instance_id : AgentInstanceId;
  ss_agent_id : AgentId;
  ss_transport : TransportKind;
  ss_generation : SessionGeneration;
  ss_status : SessionStatus;
  ss_pending_operation : option OperationId;
  ss_pending_input : option PreparedInputKind;
  ss_process_id : option N;
  ss_terminal_size : option TerminalSize;
  ss_terminal_frame : option TerminalFrame;
  ss_terminal_stale : option (list N);
  ss_session_options : option SessionOptionSelection;
  ss_capabilities : CapabilitySnapshot;
  ss_history : HistorySnapshot;
  ss_resume : ResumeSnapshot;
  ss_foreground : ForegroundSnapshot;
  ss_provider : ProviderSnapshot;
  ss_screen_state : PtyScreenState
}.
#[export] Instance SessionSnapshot_fields : Fields SessionSnapshot :=
  fields_of MkSessionSnapshot
    <ss_instance_id; ss_agent_id; ss_transport; ss_generation; ss_status;
     ss_pending_operation; ss_pending_input; ss_process_id; ss_terminal_size;
     ss_terminal_frame; ss_terminal_stale; ss_session_options; ss_capabilities;
     ss_history; ss_resume; ss_foreground; ss_provider; ss_screen_state>.

(* types/control.rs ControlHealth *)
Record ControlHealth := MkControlHealth {
  operation_id_exhausted : bool;
  event_sequence_exhausted : bool;
  revision_exhausted : bool;
  provider_sequence_exhausted_sessions : N;
  retained_instance_identities : N;
  retained_instance_identity_capacity : N
}.

(* types/control.rs Default@ControlHealth::default *)
Definition ControlHealth_default : ControlHealth :=
  MkControlHealth false false false 0 0 CONTROL_INSTANCE_IDENTITIES_CAPACITY.

(* types/control.rs ControlSnapshot *)
Record ControlSnapshot := MkControlSnapshot {
  cs_revision : N;
  cs_health : ControlHealth;
  cs_sessions : list SessionSnapshot
}.

(* types/control.rs Default@ControlSnapshot::default *)
Definition ControlSnapshot_default : ControlSnapshot :=
  MkControlSnapshot 0 ControlHealth_default [].

(** ** Events *)

(* types/control.rs ObservationIgnoredReason *)
Inductive ObservationIgnoredReason :=
| UnknownInstanceIgnored | StaleGeneration | GenerationExhaustedIgnored | MissingOperation
| OperationMismatch | InvalidState | StaleTerminalFrame | StaleProviderEvent
| InvalidForegroundObservation | InvalidCapabilityObservation | InvalidHistoryObservation
| InvalidResumeObservation | InvalidInteractionObservation
| PolicyDeniedIgnored (capability : ProviderRuntimeCapability).

(* types/control.rs ControlEventKind *)
Inductive ControlEventKind :=
| Ev_CommandRejected (message : list N)
| Ev_Registered
| Ev_StartRequested (operation_id : OperationId)
| Ev_Running (process_id : option N)
| Ev_StopRequested (operation_id : OperationId) (force : bool)
| Ev_InputRequested (operation_id : OperationId) (input_kind : PreparedInputKind)
| Ev_InputCompleted (input_kind : PreparedInputKind)
| Ev_InputFailed (input_kind : PreparedInputKind) (message : list N)
| Ev_ResizeRequested (operation_id : OperationId) (size : TerminalSize)
| Ev_Resized (size : TerminalSize)
| Ev_ResizeFailed (message : list N)
| Ev_ForegroundRefreshRequested (operation_id : OperationId)
| Ev_ForegroundObserved (process : ForegroundProcess)
| Ev_ForegroundFailed (message : list N)
| Ev_CapabilityProbeRequested (operation_id : OperationId)
| Ev_CapabilitiesProbed (count : N)
| Ev_CapabilityProbeFailed (failure : CapabilityProbeFailure)
| Ev_HistoryRequested (operation_id : OperationId) (operation : HistoryOperation)
| Ev_HistoryDiscovered (count : N)
| Ev_HistoryLoaded (session_id : list N)
| Ev_HistoryFailed (message : list N)
| Ev_ResumeRequested (operation_id : OperationId) (target : ResumeTarget)
| Ev_ResumeAuthorized (session : ResumeSessionSummary)
| Ev_Resumed (session : ResumeSessionSummary) (process_id : option N)
| Ev_ResumeDenied (reason : list N)
| Ev_ResumeFailed (message : list N)
| Ev_TerminalStale (message : list N)
| Ev_ProviderEvent (sequence : N) (source : ProviderSource) (source_sequence : N)
    (event : ProviderEvent)
| Ev_ProviderGap (sequence : N) (source : ProviderSource) (source_sequence missed : N)
| Ev_InteractionRequested (interaction : ProviderInteraction)
| Ev_InteractionResolutionRequested (operation_id : OperationId)
    (interaction_id : ProviderInteractionId) (kind : ProviderInteractionResponseKind)
| Ev_InteractionResolutionFailed (interaction_id : ProviderInteractionId) (message : list N)
| Ev_InteractionResolved (interaction_id : ProviderInteractionId)
    (outcome : ProviderInteractionOutcome)
| Ev_SessionModeSetRequested (operation_id : OperationId) (mode_id : list N)
| Ev_SessionModeSet (mode_id : list N)
| Ev_SessionModeSetFailed (message : list N)
| Ev_SessionConfigOptionSetRequested (operation_id : OperationId) (option_id : list N)
| Ev_SessionConfigOptionSet (option_id : list N)
| Ev_SessionConfigOptionSetFailed (message : list N)
| Ev_SessionModelSetRequested (operation_id : OperationId) (model_id : list N)
| Ev_SessionModelSet (model_id : list N)
| Ev_SessionModelSetFailed (message : list N)
| Ev_Exited (exit_code : option Z) (forced : bool)
| Ev_Failed (message : list N)
| Ev_Removed
| Ev_ObservationIgnored (reason : ObservationIgnoredReason).

(* types/control.rs ControlEvent *)
Record ControlEvent := MkControlEvent {
  ev_sequence : N;
  ev_command_id : option CommandId;
  ev_instance_id : AgentInstanceId;
  ev_generation : SessionGeneration;
  ev_event : ControlEventKind
}.

(** ** Errors *)

(* types/control.rs ControlError *)
Inductive ControlError :=
| DuplicateInstance (instance_id : AgentInstanceId)
| SessionCapacityExceeded (instance_id : AgentInstanceId) (max : N)
| InstanceIdentityCapacityExceeded (instance_id : AgentInstanceId) (max : N)
| UnknownInstance (instance_id : AgentInstanceId)
| GenerationExhausted (instance_id : AgentInstanceId) (generation : SessionGeneration)
| OperationIdExhausted
| EventSequenceExhausted
| RevisionExhausted
| ProviderSequenceExhausted (instance_id : AgentInstanceId) (generation : SessionGeneration)
| ProviderSourceSequenceExhausted (instance_id : AgentInstanceId)
    (generation : SessionGeneration) (provider_source : ProviderSource)
| OperationPending (instance_id : AgentInstanceId) (operation_id : OperationId)
| InputRejected (error : InputPrepareError)
| InvalidProviderRuntimePolicy (error : ProviderRuntimePolicyError)
| ProviderRuntimePolicyDenied (capability : ProviderRuntimeCapability)
| InvalidTerminalSize
| InvalidWorkingDirectory
| MissingInitialPrompt
| InvalidSessionOptions (message : list N)
| InvalidCapabilityProbeRequest (message : list N)
| CapabilityProbeOperationPending (operation_id : OperationId)
| CapabilityProbeSettled
| InvalidHistoryRequest (message : list N)
| HistoryOperationPending (operation_id : OperationId)
| UnknownHistoryCandidate
| InvalidResumeRequest (message : list N)
| MissingProviderSession
| HistoryCandidateNotLoaded
| UnsupportedTransportOperation (transport : TransportKind) (action : list N)
| InvalidTransition (instance_id : AgentInstanceId) (action : list N) (status : SessionStatus)
| StaleProviderGeneration (expected actual : SessionGeneration)
| StaleProviderSequence
| InvalidProviderBatch (max : N)
| InvalidProviderEvent (message : list N)
| StaleProviderInteractionGeneration (expected actual : SessionGeneration)
| UnknownProviderInteraction (interaction_id : ProviderInteractionId)
| ProviderInteractionNotPending (interaction_id : ProviderInteractionId)
| InvalidProviderInteractionResponse (message : list N)
| InvalidSessionModeRequest (message : list N)
| InvalidSessionConfigOptionRequest (message : list N)
| InvalidSessionModelRequest (message : list N).
