(* ===== verification/TypesTheorems.v ===== *)
(** * What the validators guarantee

    The identifiers, token counts, answers and prompts that the validators of
    crates/gate4agent-types accept. *)

From S2P Require Import Prelude RustStr Ids Input InputFacts SessionTypes RecordTypes.
From S2P Require Import ProviderTypes Control.

Local Open Scope N_scope.

(** An agent id is accepted exactly when it is a slug of 1 to 64 lowercase
    letters, digits, dashes and underscores that neither begins nor ends with
    one of the last two, an adapter id exactly when it is such a slug of at most
    96; an accepted id is the text given. *)
Theorem identifiers_are_slugs s :
  (is_slug MAX_AGENT_ID_LEN s ↔ AgentId_new s = Ok (MkAgentId s))
  ∧ (is_slug MAX_ADAPTER_ID_LEN s ↔ AdapterId_new s = Ok (MkAdapterId s)).
Proof.
  split; rewrite <- slug_test_spec; [rewrite <- agent_id_validate_test; unfold AgentId_new
    |rewrite <- adapter_validate_id_test; unfold AdapterId_new].
  - by destruct (agent_id_validate s) as [[]|].
  - by destruct (adapter_validate_id s) as [[]|].
Qed.

(** A context-window report is accepted exactly when its capacity is not
    zero and its five segments add up, without leaving 64 bits, to the tokens
    used. *)
Theorem context_window_spec u :
  let sum := cw_uncached_input_tokens u + cw_cache_read_tokens u + cw_cache_write_tokens u
             + cw_output_tokens u + cw_unattributed_tokens u in
  ContextWindowUsage_validate u = Ok tt ↔
  cw_capacity_tokens u ≠ 0 ∧ sum = cw_used_tokens u ∧ sum <= U64_MAX.
Proof.
  cbn zeta. unfold ContextWindowUsage_validate.
  destruct (cw_capacity_tokens u =? 0) eqn:Hc; bool_prop; [split; [done|tauto]|].
  cbn [guard_err mbind result_bind].
  destruct (_ ≫= _) as [x|] eqn:E.
  - apply bind_Some in E as (a & [-> Ha]%checked_add_Some & E).
    apply bind_Some in E as (b & [-> Hb]%checked_add_Some & E).
    apply bind_Some in E as (d & [-> Hd]%checked_add_Some & [-> Hx]%checked_add_Some).
    destruct (_ =? cw_used_tokens u) eqn:Hu; bool_prop; cbn; naive_solver.
  - split; [done|]. intros (_ & _ & Hle). exfalso. revert E. unfold checked_add.
    repeat (rewrite (proj2 (N.leb_le _ _)) by lia; cbn [mbind option_bind]). done.
Qed.

(** An answer is fit for an interaction exactly when it approves an
    approval, denies either kind, or answers a question with a text that is not
    blank, of at most 32768 bytes, and free of unsafe controls. *)
Theorem response_validate_spec r kind :
  response_validate_for r kind = Ok tt ↔
  match r with
  | ApproveOnce => kind = Approval
  | Deny => True
  | Answer text => kind = Question ∧ trim text ≠ []
      ∧ str_len text <= PROVIDER_INTERACTION_RESPONSE_MAX_BYTES
      ∧ Forall (λ c, is_unsafe_control c = false) text
  end.
Proof.
  destruct r as [| |text], kind; cbn; try (split; [done|naive_solver]); try done.
  destruct (trim text) as [|c t] eqn:Et; cbn; [split; [done|tauto]|].
  destruct (_ <? str_len text) eqn:Hl; cbn; bool_prop; [split; [done|lia]|].
  destruct (chars_any is_unsafe_control text) eqn:Hu; cbn.
  - split; [done|]. intros (_ & _ & _ & HF). exfalso. unfold chars_any in Hu.
    apply existsb_exists in Hu as (x & Hx & Hx'). rewrite <- list_elem_of_In in Hx.
    rewrite Forall_forall in HF. by rewrite (HF x Hx) in Hx'.
  - split; [|done]. intros _. split_and!; [done|done|done|]. rewrite Forall_forall. intros x Hx.
    apply not_true_iff_false. intros Hx'. rewrite <- not_true_iff_false in Hu. apply Hu.
    apply existsb_exists. exists x. by rewrite <- list_elem_of_In.
Qed.

(** ** Prompts *)

Lemma hex_digit_len d : d <= 15 → len_utf8 (hex_digit d) = 1.
Proof.
  intros Hd. unfold hex_digit, len_utf8. destruct (d <? 10) eqn:H; bool_prop;
    by rewrite (proj2 (N.ltb_lt _ _)) by lia.
Qed.

Lemma sanitize_char_len c : str_len (sanitize_char c) <= 8 * len_utf8 c.
Proof.
  pose proof (len_utf8_range c). unfold sanitize_char.
  destruct (_ || _); [cbn [str_len]; lia|].
  destruct (c =? 0x1b); [change (str_len (str "<ESC>")) with 5; lia|].
  destruct (c =? 0x9b); [change (str_len (str "<CSI>")) with 5; lia|].
  destruct (c =? 0x9d); [change (str_len (str "<OSC>")) with 5; lia|].
  destruct (is_control c) eqn:Hc; [|cbn [str_len]; lia].
  assert (Hlt : c < 0x10000) by (unfold is_control in Hc; bool_prop; destruct Hc; bool_prop; lia).
  unfold fmt_hex4. rewrite (proj2 (N.ltb_lt _ _) Hlt), !str_len_app.
  change (str_len (str "<U+")) with 3. change (str_len (str ">")) with 1. cbn [str_len].
  rewrite !hex_digit_len by apply land_15. lia.
Qed.

Lemma sanitize_len s : str_len (sanitize_prompt_text s) <= 8 * str_len s.
Proof.
  unfold sanitize_prompt_text. induction s as [|c s IH]; [done|]. cbn [mbind list_bind str_len].
  rewrite str_len_app. pose proof (sanitize_char_len c). lia.
Qed.

Lemma sanitize_escapes n :
  str_len (sanitize_prompt_text (replicate n 0x1b)) = 5 * N.of_nat n.
Proof.
  induction n as [|n IH]; [done|]. cbn [replicate]. unfold sanitize_prompt_text in *.
  cbn [mbind list_bind]. rewrite str_len_app, IH. change (str_len (sanitize_char 0x1b)) with 5. lia.
Qed.

Lemma str_len_replicate n c : str_len (replicate n c) = len_utf8 c * N.of_nat n.
Proof. induction n as [|n IH]; cbn [replicate str_len]; [lia|]. rewrite IH. lia. Qed.

(** The limit on semantic prompts is checked before their controls are
    spelled out, so it bounds what is sent only up to a factor: a normalized
    prompt has at most eight times the bytes it was given, and prompts within
    the limit exist whose normalized text, which is what an effect carries, is
    over the limit, and would be refused if it were normalized again. *)
Theorem normalized_prompt_growth :
  (∀ text, match normalize_semantic_prompt text with
           | Ok s => str_len s <= 8 * str_len text
           | Err _ => SEMANTIC_PROMPT_MAX_BYTES < str_len text
           end)
  ∧ ∃ text s, normalize_semantic_prompt text = Ok s
      ∧ SEMANTIC_PROMPT_MAX_BYTES < str_len s
      ∧ is_ok (normalize_semantic_prompt s) = false.
Proof.
  split.
  - intros text. unfold normalize_semantic_prompt.
    destruct (_ <? _) eqn:H; cbn; bool_prop; [done|apply sanitize_len].
  - set (n := N.to_nat SEMANTIC_PROMPT_MAX_BYTES).
    assert (Hn : N.of_nat n = SEMANTIC_PROMPT_MAX_BYTES) by (unfold n; apply N2Nat.id).
    assert (Hpos : 0 < SEMANTIC_PROMPT_MAX_BYTES) by (vm_compute; reflexivity).
    clearbody n. exists (replicate n 0x1b), (sanitize_prompt_text (replicate n 0x1b)).
    assert (Hs : SEMANTIC_PROMPT_MAX_BYTES < str_len (sanitize_prompt_text (replicate n 0x1b)))
      by (rewrite sanitize_escapes; lia).
    unfold normalize_semantic_prompt. split_and!; [|done|].
    + rewrite str_len_replicate. change (len_utf8 0x1b) with 1.
      rewrite (proj2 (N.ltb_ge _ _)) by lia. done.
    + by rewrite (proj2 (N.ltb_lt _ _) Hs).
Qed.

(** ** Catalog pages *)

Definition example_entry (n : list N) : NativeSessionCatalogEntry :=
  MkCatalogEntry n n None None None 3 None.
Definition example_page : NativeSessionCatalogPage :=
  MkCatalogPage WindowRecent 1 [example_entry (str "s1"); example_entry (str "s2")] None 0 false.

Lemma catalog_page_valid_witness :
  len (page_entries example_page) <= NATIVE_SESSION_CATALOG_LIMIT_MAX
  ∧ NoDup (entry_session_id <$> page_entries example_page)
  ∧ (page_has_more example_page = true ↔ is_Some (page_next_after_selection_id example_page))
  ∧ (page_has_more example_page = true ↔ 0 < page_remaining_count example_page).
Proof. apply catalog_page_valid. vm_compute. reflexivity. Defined.
