(* ===== verification/SpecTypes.v ===== *)
(** * Agent specifications

    What a catalog says of an agent: crates/gate4agent-types/src/spec.rs,
    readiness.rs and executable.rs, with the normalization of executable names
    and the matching of processes. *)

From S2P Require Import Prelude RustStr Ids.

Local Open Scope N_scope.

(** ** Platforms and executables *)

(* types/spec.rs RuntimePlatform *)
Inductive RuntimePlatform := Windows | MacOs | Linux | Wsl.
#[export] Instance RuntimePlatform_eq : EqDecision RuntimePlatform.
Proof. solve_decision. Defined.

(** [s.rsplit(p).next().unwrap_or_default()]. *)
Definition last_piece (p : N → bool) (s : list N) : list N := default [] (last (split_on p s)).

(** The characters ['/'] and ['\\']. *)
Definition is_slash (c : N) : bool := (c =? 0x2f) || (c =? 0x5c).

(* types/executable.rs:21-21 normalize_executable_name *)
Definition windows_suffixes : list (list N) := [str ".exe"; str ".cmd"; str ".bat"; str ".ps1"].

(* types/executable.rs:20-26 normalize_executable_name *)
Definition strip_windows_suffix (lowercase : list N) : list N :=
  match omap (strip_suffix lowercase) windows_suffixes with
  | stripped :: _ => stripped
  | [] => lowercase
  end.

(* types/executable.rs normalize_executable_name *)
Definition normalize_executable_name (command_or_path : list N) (platform : RuntimePlatform)
    : list N :=
  let basename := last_piece is_slash (trim command_or_path) in
  if bool_decide (platform = Windows) then strip_windows_suffix (to_ascii_lowercase basename)
  else basename.

(* types/spec.rs DetectionSpec *)
Record DetectionSpec := MkDetectionSpec {
  dt_command : list N;
  dt_aliases : list (list N);
  dt_required_commands : list (list N);
  dt_unsupported_platforms : list RuntimePlatform
}.

(* types/spec.rs LaunchSpec *)
Record LaunchSpec := MkLaunchSpec {
  ls_program : list N;
  ls_fixed_args : list (list N)
}.

(* types/spec.rs ProcessMatcher *)
Inductive ProcessMatcher :=
| Matcher_Exact (name : list N)
| Matcher_Prefix (prefix : list N).

(* types/spec.rs ProcessMatcher::matches *)
Definition matcher_matches (matcher : ProcessMatcher) (process_or_path : list N)
    (platform : RuntimePlatform) : bool :=
  let process := normalize_executable_name process_or_path platform in
  match matcher with
  | Matcher_Exact name => bool_decide (process = normalize_executable_name name platform)
  | Matcher_Prefix prefix =>
      let expected := if bool_decide (platform = Windows) then to_ascii_lowercase prefix
                      else prefix in
      starts_with_str process expected
  end.

(** ** Prompts and readiness *)

(* types/spec.rs InitialPromptMode *)
Inductive InitialPromptMode :=
| Prompt_None
| Prompt_Positional (option_terminator : bool)
| Prompt_Flag (flag : list N)
| Prompt_InteractiveFlag (flag : list N)
| Prompt_AgentNativeQuery
| Prompt_AfterReady.

(* types/spec.rs NativeDraftMode *)
Inductive NativeDraftMode := Draft_Flag (flag : list N).

(* types/spec.rs PromptSpec *)
Record PromptSpec := MkPromptSpec {
  ps_initial : InitialPromptMode;
  ps_native_draft : option NativeDraftMode
}.

(* types/readiness.rs DraftReadySignal *)
Inductive DraftReadySignal :=
| Signal_BracketedPaste
| Signal_ClaudeComposerPrompt
| Signal_QuietAfterBracketedPaste
| Signal_CodexComposerPrompt
| Signal_CursorAfterBracketedPaste.

(* types/readiness.rs AgentReadinessSpec *)
Record AgentReadinessSpec := MkReadinessSpec {
  rd_timeout_ms : N;
  rd_poll_interval_ms : N;
  rd_wrapper_child_fallback_after_polls : option N;
  rd_allow_title_idle : bool;
  rd_followup_requires_terminal : bool;
  rd_draft_signal : DraftReadySignal;
  rd_draft_quiet_ms : N
}.

(* types/readiness.rs Default@AgentReadinessSpec::default *)
Definition AgentReadinessSpec_default : AgentReadinessSpec :=
  {| rd_timeout_ms := 5000; rd_poll_interval_ms := 150;
     rd_wrapper_child_fallback_after_polls := Some 4; rd_allow_title_idle := true;
     rd_followup_requires_terminal := false;
     rd_draft_signal := Signal_QuietAfterBracketedPaste; rd_draft_quiet_ms := 1500 |}.

(** ** Capabilities *)

(* types/spec.rs AgentCommandMode *)
Inductive AgentCommandMode := SlashLine.

(* types/spec.rs AgentAdapterCapabilities *)
Record AgentAdapterCapabilities := MkAdapterCapabilities {
  ac_pty_sidecar : option AdapterBinding;
  ac_hook : option AdapterBinding;
  ac_managed_hook : option AdapterBinding;
  ac_one_shot : option AdapterBinding;
  ac_history : option AdapterBinding;
  ac_resume : option AdapterBinding;
  ac_session_options : option AdapterBinding;
  ac_capability_probe : option AdapterBinding
}.

(* types/spec.rs PipePromptDelivery *)
Inductive PipePromptDelivery := Delivery_None | Delivery_StdinClose | Delivery_Positional.

(* types/spec.rs PipeProtocol *)
Inductive PipeProtocol := SemanticNdjson | StructuredJsonl | OneShotText.
#[export] Instance PipeProtocol_eq : EqDecision PipeProtocol.
Proof. solve_decision. Defined.

(* types/spec.rs PipeTransportSpec *)
Record PipeTransportSpec := MkPipeTransport {
  pt_adapter : AdapterBinding;
  pt_protocol : PipeProtocol;
  pt_launch_override : option LaunchSpec;
  pt_prompt_delivery : PipePromptDelivery
}.

(* types/spec.rs AcpTransportSpec *)
Record AcpTransportSpec := MkAcpTransport {
  at_adapter : AdapterBinding;
  at_launch_override : option LaunchSpec
}.

(* types/spec.rs AgentTransportCapabilities *)
Record AgentTransportCapabilities := MkTransportCapabilities {
  tr_pty : bool;
  tr_pty_adapter : option AdapterBinding;
  tr_pipe : option PipeTransportSpec;
  tr_acp : option AcpTransportSpec
}.

(* types/spec.rs Default@AgentTransportCapabilities::default *)
Definition AgentTransportCapabilities_default : AgentTransportCapabilities :=
  MkTransportCapabilities true None None None.

(* types/spec.rs AgentCapabilities *)
Record AgentCapabilities := MkAgentCapabilities {
  ag_agent_commands : option AgentCommandMode;
  ag_transports : AgentTransportCapabilities;
  ag_adapters : AgentAdapterCapabilities
}.

(** [#[derive(Default)]] on the two capability structs. *)
(* types/spec.rs:112-112 AgentAdapterCapabilities *)
Definition AgentAdapterCapabilities_default : AgentAdapterCapabilities :=
  MkAdapterCapabilities None None None None None None None None.
(* types/spec.rs:102-102 AgentCapabilities *)
Definition AgentCapabilities_default : AgentCapabilities :=
  MkAgentCapabilities None AgentTransportCapabilities_default AgentAdapterCapabilities_default.

(* types/spec.rs SpecVerification *)
Inductive SpecVerification := Spec_Gate4AgentVerified | Spec_Reference.

(* types/spec.rs AgentSpec *)
Record AgentSpec := MkAgentSpec {
  sp_id : AgentId;
  sp_revision : list N;
  sp_display_name : list N;
  sp_detection : DetectionSpec;
  sp_launch : LaunchSpec;
  sp_expected_processes : list ProcessMatcher;
  sp_prompt : PromptSpec;
  sp_readiness : AgentReadinessSpec;
  sp_capabilities : AgentCapabilities;
  sp_verification : SpecVerification
}.
Abbreviation sp_transports spec := (ag_transports (sp_capabilities spec)).
Abbreviation sp_adapters spec := (ag_adapters (sp_capabilities spec)).

(* types/spec.rs AgentSpec::supports_platform *)
Definition supports_platform (spec : AgentSpec) (platform : RuntimePlatform) : bool :=
  negb (bool_decide (platform ∈ dt_unsupported_platforms (sp_detection spec))).
