(* ===== verification/OneShot.v ===== *)
(** * One-shot launches

    crates/gate4agent-adapters/src/one_shot.rs: the agents that can answer one
    prompt and exit, the selection of their model and effort, and the command
    line of such a run. *)

From S2P Require Import Prelude RustStr RustOrd Ids SessionTypes RecordTypes ProviderTypes SpecTypes.

Local Open Scope N_scope.

(* adapters/one_shot.rs ONE_SHOT_REVISION *)
Definition ONE_SHOT_REVISION : list N := str "gate4agent-one-shot/orca-d8629c4/v2".
(* adapters/one_shot.rs CLAUDE_CODE_INLINE_REVISION *)
Definition CLAUDE_CODE_INLINE_REVISION : list N := str "gate4agent-inline/claude-code-2.1/v1".
(* adapters/one_shot.rs CODEX_CLI_INLINE_REVISION *)
Definition CODEX_CLI_INLINE_REVISION : list N := str "gate4agent-inline/codex-cli-0.144/v1".
(* adapters/one_shot.rs KIMI_CODE_INLINE_REVISION *)
Definition KIMI_CODE_INLINE_REVISION : list N := str "gate4agent-inline/kimi-code-0.31/v1".
(* adapters/one_shot.rs ONE_SHOT_THINKING_OPTION_ID *)
Definition ONE_SHOT_THINKING_OPTION_ID : list N := str "thinking-level".

(** ** Data *)

(* adapters/one_shot.rs OneShotPromptDelivery *)
Inductive OneShotPromptDelivery := OneShot_StdinClose | OneShot_Positional.
#[export] Instance OneShotPromptDelivery_eq : EqDecision OneShotPromptDelivery.
Proof. solve_decision. Defined.
(* adapters/one_shot.rs OneShotModelSource *)
Inductive OneShotModelSource := StaticModels | DynamicModels.
#[export] Instance OneShotModelSource_eq : EqDecision OneShotModelSource.
Proof. solve_decision. Defined.
(* adapters/one_shot.rs OneShotSessionPersistence *)
Inductive OneShotSessionPersistence := Ephemeral | Persist.
#[export] Instance OneShotSessionPersistence_eq : EqDecision OneShotSessionPersistence.
Proof. solve_decision. Defined.

(* adapters/one_shot.rs OneShotThinkingLevel *)
Record OneShotThinkingLevel := MkThinkingLevel { tl_id : list N; tl_label : list N }.
(* adapters/one_shot.rs OneShotModelSpec *)
Record OneShotModelSpec := MkOneShotModel {
  om_id : list N;
  om_label : list N;
  om_thinking_levels : list OneShotThinkingLevel;
  om_default_thinking_level : option (list N)
}.
(* adapters/one_shot.rs OneShotAdapterSpec *)
Record OneShotAdapterSpec := MkOneShotAdapter {
  oa_adapter_id : AdapterId;
  oa_label : list N;
  oa_prompt_delivery : OneShotPromptDelivery;
  oa_model_source : OneShotModelSource;
  oa_models : list OneShotModelSpec;
  oa_default_model_id : list N
}.
(* adapters/one_shot.rs OneShotPlan *)
Record OneShotPlan := MkOneShotPlan {
  op_program : list N;
  op_args : list (list N);
  op_stdin_payload : option (list N);
  op_label : list N;
  op_applied : SessionOptionSelection
}.

(* adapters/one_shot.rs OneShotAdapterError *)
Inductive OneShotAdapterError :=
| Os_UnsupportedAdapter (id : list N)
| Os_InvalidPrompt
| Os_InvalidLaunch
| Os_InvalidSelection
| Os_UnknownOption
| Os_UnknownModel (model : list N)
| Os_ThinkingUnsupported (model : list N)
| Os_UnknownThinkingLevel (level : list N)
| Os_PersistentSessionsUnsupported (id : list N).

(** ** The adapters *)

(* adapters/one_shot.rs model *)
Definition one_shot_model (id label : list N) (thinking : list (list N * list N))
    (default_thinking : option (list N)) : OneShotModelSpec :=
  {| om_id := id; om_label := label;
     om_thinking_levels := (λ level, MkThinkingLevel (fst level) (snd level)) <$> thinking;
     om_default_thinking_level := default_thinking |}.

(* adapters/one_shot.rs openai_thinking *)
Definition openai_thinking : list (list N * list N) :=
  [(str "low", str "Low"); (str "medium", str "Medium"); (str "high", str "High");
   (str "xhigh", str "Extra High")].
(* adapters/one_shot.rs claude_thinking *)
Definition claude_thinking : list (list N * list N) :=
  [(str "low", str "Low"); (str "medium", str "Medium"); (str "high", str "High");
   (str "xhigh", str "Extra High"); (str "max", str "Max")].

(* adapters/one_shot.rs supports_openai_thinking *)
Definition supports_openai_thinking (id : list N) : bool :=
  let id := to_ascii_lowercase id in
  str_contains id (str "gpt-5") || str_contains id (str "codex").

(** The adapter id is the looked-up one, which is a valid slug in each branch
    ([specs_have_valid_ids]). *)
(* adapters/one_shot.rs spec_for *)
Definition spec_for (id : list N) : result OneShotAdapterError OneShotAdapterSpec :=
  if bool_decide (id = str "claude") then
    Ok (MkOneShotAdapter (MkAdapterId id) (str "Claude") OneShot_StdinClose StaticModels
          [one_shot_model (str "haiku") (str "Haiku") [] None;
           one_shot_model (str "sonnet") (str "Sonnet") claude_thinking (Some (str "low"));
           one_shot_model (str "opus") (str "Opus") claude_thinking (Some (str "low"))]
          (str "sonnet"))
  else if bool_decide (id = str "codex") then
    Ok (MkOneShotAdapter (MkAdapterId id) (str "Codex") OneShot_StdinClose DynamicModels
          ((λ id, one_shot_model id id openai_thinking (Some (str "low"))) <$>
           [str "gpt-5.5"; str "gpt-5.4"; str "gpt-5.4-mini"; str "gpt-5.3-codex";
            str "gpt-5.3-codex-spark"; str "gpt-5.2"])
          (str "gpt-5.5"))
  else if bool_decide (id = str "kimi") then
    Ok (MkOneShotAdapter (MkAdapterId id) (str "Kimi Code") OneShot_Positional StaticModels
          [one_shot_model (str "default") (str "Provider default") [] None]
          (str "default"))
  else Err (Os_UnsupportedAdapter id).

(* adapters/one_shot.rs one_shot_spec *)
Definition one_shot_spec (adapter_id : AdapterId)
    : result OneShotAdapterError OneShotAdapterSpec := spec_for (adapter_id_str adapter_id).

(* adapters/one_shot.rs one_shot_specs *)
Definition one_shot_specs : outcome OneShotAdapterError (list OneShotAdapterSpec) :=
  match mapM spec_for [str "claude"; str "codex"; str "kimi"] with
  | Ok specs => Done specs
  | Err _ => Panic
  end.

(** ** Selections *)

(** [selection.values.get(ONE_SHOT_THINKING_OPTION_ID)], which must be a string. *)
(* adapters/one_shot.rs:196-202 resolve_selection *)
Definition requested_thinking (selection : option SessionOptionSelection)
    : result OneShotAdapterError (option (list N)) :=
  match (selection ← selection; selection_values selection !! ONE_SHOT_THINKING_OPTION_ID) with
  | None => Ok None
  | Some (OptionString value) => Ok (Some value)
  | Some (OptionBoolean _) => Err Os_InvalidSelection
  end.

(* adapters/one_shot.rs:203-210 resolve_selection *)
Definition default_thinking (spec : OneShotAdapterSpec) (known : option OneShotModelSpec)
    (model_id : list N) : option (list N) :=
  match known ≫= om_default_thinking_level with
  | Some level => Some level
  | None =>
      if bool_decide (oa_model_source spec = DynamicModels) && supports_openai_thinking model_id
      then Some (str "low") else None
  end.

(* adapters/one_shot.rs:211-223 resolve_selection *)
Definition check_thinking (spec : OneShotAdapterSpec) (known : option OneShotModelSpec)
    (thinking : option (list N)) : result OneShotAdapterError unit :=
  match known, thinking with
  | Some model, Some thinking =>
      let levels := tl_id <$> om_thinking_levels model in
      guard_err (negb (bool_decide (levels = [])) && negb (bool_decide (thinking ∈ levels)))
        (Os_UnknownThinkingLevel thinking) ;;
      guard_err (bool_decide (levels = []) && bool_decide (oa_model_source spec = StaticModels))
        (Os_ThinkingUnsupported (om_id model))
  | _, _ => Ok tt
  end.

(* adapters/one_shot.rs resolve_selection *)
Definition resolve_selection (spec : OneShotAdapterSpec)
    (selection : option SessionOptionSelection)
    : result OneShotAdapterError (list N * option (list N)) :=
  opt_each (λ selection,
    map_err (λ _, Os_InvalidSelection) (SessionOptionSelection_validate selection) ;;
    guard_err (existsb (λ key, negb (bool_decide (key = ONE_SHOT_THINKING_OPTION_ID)))
                 (btree_keys (selection_values selection))) Os_UnknownOption) selection ;;
  let model_id := from_option selection_model (oa_default_model_id spec) selection in
  let known := List.find (λ model, bool_decide (om_id model = model_id)) (oa_models spec) in
  guard_err (bool_decide (known = None) && bool_decide (oa_model_source spec = StaticModels))
    (Os_UnknownModel model_id) ;;
  requested ← requested_thinking selection;
  let thinking := match requested with
                  | Some level => Some level
                  | None => default_thinking spec known model_id
                  end in
  check_thinking spec known thinking ;;
  Ok (model_id, thinking).

(** ** Plans *)

(* adapters/one_shot.rs:120-155 resolve_one_shot_plan_with_persistence *)
Definition one_shot_args (id : list N) (fixed_args : list (list N)) (prompt model : list N)
    (thinking : option (list N)) (persistence : OneShotSessionPersistence)
    : result OneShotAdapterError (list (list N)) :=
  if bool_decide (id = str "claude") then
    Ok (fixed_args
        ++ [str "-p"; str "--output-format"; str "text"; str "--model"; model;
            str "--permission-mode"; str "plan"]
        ++ from_option (λ thinking, [str "--effort"; thinking]) [] thinking)
  else if bool_decide (id = str "codex") then
    Ok (fixed_args ++ [str "exec"]
        ++ (if bool_decide (persistence = Ephemeral) then [str "--ephemeral"] else [])
        ++ [str "--skip-git-repo-check"; str "-s"; str "read-only"; str "--model"; model]
        ++ from_option (λ thinking, [str "-c"; str "model_reasoning_effort=" ++ thinking]) []
             thinking)
  else if bool_decide (id = str "kimi") then
    Ok (fixed_args ++ [str "-p"; prompt; str "--output-format"; str "text"])
  else Err (Os_UnsupportedAdapter id).

(* adapters/one_shot.rs:157-162 resolve_one_shot_plan_with_persistence *)
Definition applied_selection (model : list N) (thinking : option (list N))
    : SessionOptionSelection :=
  match thinking with
  | Some thinking =>
      SessionOptionSelection_with_value (SessionOptionSelection_new model)
        ONE_SHOT_THINKING_OPTION_ID (OptionString thinking)
  | None => SessionOptionSelection_new model
  end.

(** [value.contains('\0')]. *)
Definition contains_nul (value : list N) : bool := chars_any (N.eqb 0) value.

(* adapters/one_shot.rs resolve_one_shot_plan_with_persistence *)
Definition resolve_one_shot_plan_with_persistence (adapter_id : AdapterId) (launch : LaunchSpec)
    (prompt : list N) (selection : option SessionOptionSelection)
    (persistence : OneShotSessionPersistence) : result OneShotAdapterError OneShotPlan :=
  let id := adapter_id_str adapter_id in
  guard_err (str_is_empty (trim prompt) || (PROVIDER_EVENT_TEXT_MAX_BYTES <? str_len prompt)
             || contains_nul prompt) Os_InvalidPrompt ;;
  guard_err (str_is_empty (trim (ls_program launch)) || contains_nul (ls_program launch))
    Os_InvalidLaunch ;;
  guard_err (existsb contains_nul (ls_fixed_args launch)) Os_InvalidLaunch ;;
  spec ← one_shot_spec adapter_id;
  guard_err (bool_decide (persistence = Persist) && negb (bool_decide (id = str "codex")))
    (Os_PersistentSessionsUnsupported id) ;;
  resolved ← resolve_selection spec selection;
  let (model, thinking) := resolved : list N * option (list N) in
  args ← one_shot_args id (ls_fixed_args launch) prompt model thinking persistence;
  Ok {| op_program := ls_program launch;
        op_args := args;
        op_stdin_payload :=
          if bool_decide (oa_prompt_delivery spec = OneShot_StdinClose) then Some prompt else None;
        op_label := oa_label spec;
        op_applied := applied_selection model thinking |}.

(* adapters/one_shot.rs resolve_one_shot_plan *)
Definition resolve_one_shot_plan (adapter_id : AdapterId) (launch : LaunchSpec)
    (prompt : list N) (selection : option SessionOptionSelection)
    : result OneShotAdapterError OneShotPlan :=
  resolve_one_shot_plan_with_persistence adapter_id launch prompt selection Ephemeral.
