(* ===== verification/OneShotFacts.v ===== *)
(** * What a one-shot plan guarantees

    Valid session-option selections, and the command line of a one-shot run. *)

From S2P Require Import Prelude RustStr RustOrd Ids SessionTypes RecordTypes ProviderTypes.
From S2P Require Import SpecTypes OneShot.

Local Open Scope N_scope.

(** ** Valid selections *)

(** A text an option may carry. *)
Definition option_text (value : list N) : Prop :=
  trim value ≠ [] ∧ str_len value <= SESSION_OPTION_VALUE_MAX_BYTES
  ∧ Forall (λ c, is_control c = false) value.
Definition option_id (id : list N) : Prop :=
  id ≠ [] ∧ str_len id <= SESSION_OPTION_ID_MAX_BYTES ∧ Forall (λ c, is_control c = false) id.
Definition option_value (value : SessionOptionValue) : Prop :=
  match value with
  | OptionString text => option_text text
  | OptionBoolean _ => True
  end.

Lemma option_validate_value_Ok field value :
  option_validate_value field value = Ok tt ↔ option_text value.
Proof.
  unfold option_validate_value, option_text. rewrite guard_err_Ok, !orb_false_iff, chars_any_false.
  rewrite N.ltb_ge. destruct (trim value); cbn; naive_solver.
Qed.

Definition selection_valid (s : SessionOptionSelection) : Prop :=
  option_text (selection_model s)
  ∧ N.of_nat (size (selection_values s)) <= SESSION_OPTION_VALUES_MAX
  ∧ ∀ id value, selection_values s !! id = Some value →
      id ≠ str "model" ∧ option_id id ∧ option_value value.

Lemma selection_validate_Ok s : SessionOptionSelection_validate s = Ok tt ↔ selection_valid s.
Proof.
  unfold SessionOptionSelection_validate, selection_valid.
  rewrite !seq_Ok, option_validate_value_Ok, guard_err_Ok, N.ltb_ge, for_each_Ok, Forall_forall.
  apply and_iff_compat_l, and_iff_compat_l.
  assert (H : ∀ id value,
    (guard_err (bool_decide (id = str "model")) OptionReservedModelOption ;;
     guard_err (str_is_empty id || (SESSION_OPTION_ID_MAX_BYTES <? str_len id)
                || chars_any is_control id) OptionInvalidOptionId ;;
     match value with
     | OptionString text => option_validate_value (str "option value") text
     | OptionBoolean _ => Ok tt
     end) = Ok tt ↔ id ≠ str "model" ∧ option_id id ∧ option_value value).
  { intros id value. rewrite !seq_Ok, !guard_err_Ok, bool_decide_eq_false, !orb_false_iff.
    rewrite N.ltb_ge, chars_any_false. apply and_iff_compat_l. unfold option_id.
    destruct value; cbn [option_value]; [rewrite option_validate_value_Ok|];
      destruct id; cbn; naive_solver. }
  split; intros Hall.
  - intros id value Hid. apply H. by apply (Hall (id, value)), elem_of_btree_iter.
  - intros [id value] Hin%elem_of_btree_iter. by apply H, Hall.
Qed.

(** ** The selection of a model *)

Lemma specs_have_valid_ids :
  Forall (λ id, AdapterId_new id = Ok (MkAdapterId id)) [str "claude"; str "codex"; str "kimi"].
Proof. repeat constructor. Qed.

Lemma spec_for_cases id spec :
  spec_for id = Ok spec → id = str "claude" ∨ id = str "codex" ∨ id = str "kimi".
Proof. unfold spec_for. repeat case_bool_decide; eauto; done. Qed.

Lemma spec_for_delivery id spec :
  spec_for id = Ok spec →
  oa_prompt_delivery spec
  = if bool_decide (id = str "kimi") then OneShot_Positional else OneShot_StdinClose.
Proof.
  unfold spec_for. intros H.
  repeat (case_bool_decide; [injection H as <-; subst; reflexivity|]). discriminate.
Qed.

(** Every default of every adapter is a text an option may carry. *)
Definition defaults_ok (spec : OneShotAdapterSpec) : Prop :=
  option_text (oa_default_model_id spec)
  ∧ Forall (λ model, from_option option_text True (om_default_thinking_level model))
      (oa_models spec).

Ltac by_text := (split_and!; [discriminate|vm_compute; discriminate|repeat constructor]).

Lemma spec_defaults_ok id spec : spec_for id = Ok spec → defaults_ok spec.
Proof.
  intros H. unfold spec_for in H.
  repeat case_bool_decide; try discriminate; injection H as <-; unfold defaults_ok;
    (split; [by_text|]); cbn [oa_models]; unfold fmap; cbn [list_fmap];
    repeat first [apply Forall_nil_2 | apply Forall_cons_2]; cbn; try done; by_text.
Qed.

Lemma resolve_selection_valid id spec selection model thinking :
  spec_for id = Ok spec → resolve_selection spec selection = Ok (model, thinking) →
  selection_valid (applied_selection model thinking).
Proof.
  intros [Hm Hl]%spec_defaults_ok H. unfold resolve_selection in H.
  apply seq_Ok in H as [Hs H]. cbn zeta in H. apply seq_Ok in H as [_ H].
  apply result_bind_Ok in H as (requested & Hr & H). cbn zeta in H.
  apply seq_Ok in H as [_ [= <- <-]]. set (model := from_option _ _ _) in *.
  assert (Hv : ∀ s, selection = Some s → selection_valid s).
  { intros s ->. cbn in Hs. apply seq_Ok in Hs as [Hs _]. apply selection_validate_Ok.
    by destruct (SessionOptionSelection_validate s) as [[]|]. }
  assert (Hmodel : option_text model).
  { destruct selection as [s|]; cbn in model; subst model; [by apply Hv|done]. }
  assert (Hthinking : from_option option_text True
    (match requested with Some level => Some level
     | None => default_thinking spec (List.find (λ m, bool_decide (om_id m = model))
                                        (oa_models spec)) model end)).
  { destruct requested as [level|].
    - unfold requested_thinking in Hr. destruct selection as [s|]; [|done]. cbn in Hr.
      destruct (selection_values s !! _) as [[text|]|] eqn:E; try done. injection Hr as ->.
      destruct (Hv s eq_refl) as (_ & _ & Hvals). by apply Hvals in E as (_ & _ & ?).
    - unfold default_thinking. destruct (List.find _ _) as [m|] eqn:E; cbn.
      + apply find_some in E as [E%list_elem_of_In _]. rewrite Forall_forall in Hl.
        specialize (Hl m E). destruct (om_default_thinking_level m); cbn in *; [done|].
        destruct (_ && _); [by_text|done].
      + destruct (_ && _); [by_text|done]. }
  destruct (match requested with Some level => _ | None => _ end) as [level|]; cbn in *.
  - unfold applied_selection, selection_valid. cbn. split_and!; [done| |].
    + rewrite map_size_insert_None by done. vm_compute. discriminate.
    + intros i v [[<- <-]|[_ E]]%lookup_insert_Some; [|done].
      split_and!; [discriminate|by_text|done].
  - split_and!; [done|vm_compute; discriminate|]. intros i v E. done.
Qed.

(** Selecting what was applied selects the same. *)
Lemma resolve_selection_again id spec selection model thinking :
  spec_for id = Ok spec → resolve_selection spec selection = Ok (model, thinking) →
  resolve_selection spec (Some (applied_selection model thinking)) = Ok (model, thinking).
Proof.
  intros Hspec H. pose proof (resolve_selection_valid _ _ _ _ _ Hspec H) as Hv.
  apply selection_validate_Ok in Hv. unfold resolve_selection in *.
  apply seq_Ok in H as [_ H]. cbn zeta in *. apply seq_Ok in H as [Hk H].
  apply result_bind_Ok in H as (requested & _ & H). cbn zeta in H.
  apply seq_Ok in H as [Hc [= Em Et]]. rewrite Em in *. rewrite Et in Hc.
  assert (Hkeys : existsb (λ key, negb (bool_decide (key = ONE_SHOT_THINKING_OPTION_ID)))
      (btree_keys (selection_values (applied_selection model thinking))) = false).
  { apply not_true_is_false. intros (k & Hin & Hk')%existsb_exists. bool_prop. apply Hk'.
    apply list_elem_of_In, list_elem_of_fmap in Hin as ([k' v] & -> & Hin%elem_of_btree_iter).
    destruct thinking as [level|]; [|done].
    cbn [applied_selection SessionOptionSelection_with_value selection_values] in Hin.
    by apply lookup_insert_Some in Hin as [[<- _]|[_ ?]]. }
  cbn [opt_each]. rewrite Hv, Hkeys. cbn [map_err mbind result_bind guard_err from_option].
  replace (selection_model (applied_selection model thinking)) with model by (by destruct thinking).
  rewrite Hk. cbn [mbind result_bind]. clear Hkeys Hv Hk. unfold requested_thinking.
  destruct thinking as [level|]; cbn [applied_selection mbind option_bind].
  - cbn [selection_values SessionOptionSelection_with_value]. rewrite lookup_insert_eq.
    cbn [mbind result_bind]. by rewrite Hc.
  - replace (selection_values (SessionOptionSelection_new model) !! ONE_SHOT_THINKING_OPTION_ID)
      with (@None SessionOptionValue) by done.
    cbn [mbind result_bind]. destruct requested as [level|]; [done|]. by rewrite Et, Hc.
Qed.

(** ** Plans *)

Lemma option_text_nul value : option_text value → contains_nul value = false.
Proof.
  intros (_ & _ & H). unfold contains_nul. apply chars_any_false. eapply Forall_impl; [exact H|].
  intros c Hc. apply N.eqb_neq. by intros <-.
Qed.

Lemma contains_nul_app a b : contains_nul (a ++ b) = contains_nul a || contains_nul b.
Proof. apply existsb_app. Qed.

(** The selected model and effort carry no NUL. *)
Lemma applied_nul model thinking :
  selection_valid (applied_selection model thinking) →
  contains_nul model = false ∧ from_option contains_nul false thinking = false.
Proof.
  intros (Hm & _ & Hv). split; [apply option_text_nul; by destruct thinking|].
  destruct thinking as [level|]; [|done]. cbn. apply option_text_nul.
  destruct (Hv ONE_SHOT_THINKING_OPTION_ID (OptionString level)) as (_ & _ & ?); [|done].
  by apply lookup_insert_eq.
Qed.

Definition nul_free (args : list (list N)) : Prop := Forall (λ arg, contains_nul arg = false) args.

Ltac nul_free :=
  repeat first [assumption | apply Forall_nil_2 | apply Forall_cons_2
               | (apply Forall_app; split) | progress cbn [from_option]
               | (rewrite contains_nul_app, orb_false_iff; split) | (vm_compute; reflexivity)].

Lemma one_shot_args_safe id fixed prompt model thinking persistence args :
  one_shot_args id fixed prompt model thinking persistence = Ok args →
  nul_free fixed → contains_nul prompt = false →
  selection_valid (applied_selection model thinking) →
  nul_free args ∧ fixed `prefix_of` args ∧ (id = str "kimi" → prompt ∈ args).
Proof.
  intros H Hf Hp [Hm Ht]%applied_nul. unfold one_shot_args in H. unfold nul_free in *.
  repeat case_bool_decide; try discriminate; injection H as <-;
    (split_and!; [|by eexists|intros ->; first [discriminate | apply elem_of_app; right; right; left]]);
    destruct thinking as [level|]; cbn [from_option] in Ht; nul_free.
Qed.


