(* ===== verification/SessionOptions.v ===== *)
(** * The session options of the agents

    crates/gate4agent-adapters/src/session_options.rs: the catalogs of models
    and options, the command line of a selection, the plans that change an
    option of a running session, and the parsing of model lists. *)

From S2P Require Import Prelude RustStr RustOrd Ids RecordTypes SpecTypes.

Local Open Scope N_scope.

(* adapters/session_options.rs SESSION_OPTION_CATALOG_REVISION *)
Definition SESSION_OPTION_CATALOG_REVISION : list N :=
  str "gate4agent-session-options/orca-d8629c4/v1".
(* adapters/session_options.rs SESSION_OPTION_MODELS_MAX *)
Definition SESSION_OPTION_MODELS_MAX : N := 512.
(* adapters/session_options.rs SESSION_OPTION_MODEL_LIST_MAX_BYTES *)
Definition SESSION_OPTION_MODEL_LIST_MAX_BYTES : N := 1048576.

(** ** Data *)

(* adapters/session_options.rs SessionOptionCategory *)
Inductive SessionOptionCategory :=
| Category_Model | Category_ThoughtLevel | Category_ModelConfig | Category_Mode.

(* adapters/session_options.rs SessionOptionChoice *)
Record SessionOptionChoice := MkChoice {
  sc_value : list N;
  sc_label : list N;
  sc_description : option (list N)
}.

(* adapters/session_options.rs SessionOptionKind *)
Inductive SessionOptionKind :=
| Kind_Select (choices : list SessionOptionChoice) (default_value : list N)
| Kind_Boolean (default_value : bool).

(* adapters/session_options.rs SessionOptionKind::default_value *)
Definition kind_default (kind : SessionOptionKind) : SessionOptionValue :=
  match kind with
  | Kind_Select _ default_value => OptionString default_value
  | Kind_Boolean default_value => OptionBoolean default_value
  end.

(* adapters/session_options.rs SessionOptionKind::accepts *)
Definition kind_accepts (kind : SessionOptionKind) (value : SessionOptionValue) : bool :=
  match kind, value with
  | Kind_Select _ _, OptionString _ | Kind_Boolean _, OptionBoolean _ => true
  | _, _ => false
  end.

(* adapters/session_options.rs SessionOptionLaunchApplication *)
Inductive SessionOptionLaunchApplication :=
| Launch_Flag (flag : list N)
| Launch_Config (flag key : list N).

(* adapters/session_options.rs SessionOptionArgumentOverride *)
Inductive SessionOptionArgumentOverride :=
| Override_Flags (flags : list (list N))
| Override_CodexReasoningEffort.

(* adapters/session_options.rs SessionOptionInteractionDetection *)
Inductive SessionOptionInteractionDetection := ClaudeModelSwitchConfirmation.

(* adapters/session_options.rs SessionOptionMidSessionApplication *)
Inductive SessionOptionMidSessionApplication :=
| Mid_Command (command : list N) (picker_command : option (list N))
    (interaction_detection : option SessionOptionInteractionDetection)
| Mid_ToggleCommand (command : list N)
| Mid_AgentPicker (command : list N)
| Mid_Unsupported.

(* adapters/session_options.rs SessionOptionApply *)
Record SessionOptionApply := MkApply {
  ap_launch : option SessionOptionLaunchApplication;
  ap_argument_override : option SessionOptionArgumentOverride;
  ap_composed_into_model : bool;
  ap_mid_session : SessionOptionMidSessionApplication
}.

(* adapters/session_options.rs SessionOption *)
Record SessionOption := MkOption {
  so_id : list N;
  so_label : list N;
  so_description : option (list N);
  so_category : option SessionOptionCategory;
  so_kind : SessionOptionKind;
  so_apply : SessionOptionApply
}.

(* adapters/session_options.rs SessionOptionModel *)
Record SessionOptionModel := MkOptionModel {
  sm_id : list N;
  sm_label : list N;
  sm_description : option (list N);
  sm_is_default : option bool;
  sm_options : list SessionOption
}.

(* adapters/session_options.rs SessionOptionModelListSpec *)
Record SessionOptionModelListSpec := MkModelList {
  ml_program : list N;
  ml_args : list (list N)
}.

(* adapters/session_options.rs AgentSessionOptionCatalog *)
Record AgentSessionOptionCatalog := MkOptionCatalog {
  oc_adapter_id : AdapterId;
  oc_revision : list N;
  oc_models : list SessionOptionModel;
  oc_model_apply : SessionOptionApply;
  oc_model_list : option SessionOptionModelListSpec
}.

(* adapters/session_options.rs ResolvedSessionOptionLaunch *)
Record ResolvedSessionOptionLaunch := MkResolvedLaunch {
  rl_args : list (list N);
  rl_applied : option SessionOptionSelection
}.

(* adapters/session_options.rs SessionOptionMidSessionPlan *)
Inductive SessionOptionMidSessionPlan :=
| Plan_Noop
| Plan_Command (command : list N) (target : option SessionOptionValue)
    (interaction_detection : option SessionOptionInteractionDetection)
    (expected_choice_label : option (list N))
| Plan_AgentPicker (command : list N).

(* adapters/session_options.rs SessionOptionAdapterError *)
Inductive SessionOptionAdapterError :=
| Sa_UnsupportedAdapter (id : list N)
| Sa_InvalidValue
| Sa_InvalidOptionId
| Sa_ReservedModelOption
| Sa_TooManyValues
| Sa_InvalidValueType (option_id : list N)
| Sa_UnknownModel (model_id : list N)
| Sa_UnknownOption (option_id : list N)
| Sa_UnsafeCommandValue
| Sa_UnknownToggleBaseline (option_id : list N)
| Sa_MidSessionUnsupported (option_id : list N)
| Sa_ActionUnavailable (option_id : list N)
| Sa_ModelListUnsupported (id : list N)
| Sa_ModelListTooLarge.

(** ** The catalogs *)

(* adapters/session_options.rs choice *)
Definition option_choice (value label : list N) : SessionOptionChoice := MkChoice value label None.

(* adapters/session_options.rs select_option *)
Definition select_option (id label : list N) (category : SessionOptionCategory)
    (choices : list (list N * list N)) (default_value : list N) (apply : SessionOptionApply)
    : SessionOption :=
  {| so_id := id; so_label := label; so_description := None; so_category := Some category;
     so_kind := Kind_Select ((λ c, option_choice (fst c) (snd c)) <$> choices) default_value;
     so_apply := apply |}.

(* adapters/session_options.rs boolean_option *)
Definition boolean_option (id label : list N) (category : SessionOptionCategory)
    (default_value : bool) (apply : SessionOptionApply) : SessionOption :=
  {| so_id := id; so_label := label; so_description := None; so_category := Some category;
     so_kind := Kind_Boolean default_value; so_apply := apply |}.

(* adapters/session_options.rs model *)
Definition option_model (id label : list N) (is_default : bool) (options : list SessionOption)
    : SessionOptionModel :=
  {| sm_id := id; sm_label := label; sm_description := None;
     sm_is_default := if is_default then Some true else None; sm_options := options |}.

(* adapters/session_options.rs command_apply *)
Definition command_apply (command : list N) : SessionOptionMidSessionApplication :=
  Mid_Command command None None.

(* adapters/session_options.rs claude_effort *)
Definition claude_effort (extended : bool) : SessionOption :=
  select_option (str "effort") (str "Effort") Category_ThoughtLevel
    ([(str "low", str "Low"); (str "medium", str "Medium"); (str "high", str "High")]
     ++ (if extended then [(str "xhigh", str "Extra high"); (str "max", str "Max")] else []))
    (str "high")
    {| ap_launch := Some (Launch_Flag (str "--effort"));
       ap_argument_override := Some (Override_Flags [str "--effort"]);
       ap_composed_into_model := false;
       ap_mid_session := command_apply (str "/effort") |}.

(* adapters/session_options.rs:761-776 claude_catalog *)
Definition claude_fast_mode : SessionOption :=
  boolean_option (str "fastMode") (str "Fast mode") Category_Mode false
    {| ap_launch := None; ap_argument_override := None; ap_composed_into_model := false;
       ap_mid_session := Mid_ToggleCommand (str "/fast") |}.

(* adapters/session_options.rs claude_catalog *)
Definition claude_catalog (adapter_id : AdapterId) : AgentSessionOptionCatalog :=
  {| oc_adapter_id := adapter_id;
     oc_revision := SESSION_OPTION_CATALOG_REVISION;
     oc_models :=
       [option_model (str "fable") (str "Fable 5") false [claude_effort true];
        option_model (str "opus") (str "Opus 4.8") false [claude_effort true; claude_fast_mode];
        option_model (str "sonnet") (str "Sonnet 5") true [claude_effort true];
        option_model (str "haiku") (str "Haiku") false []];
     oc_model_apply :=
       {| ap_launch := Some (Launch_Flag (str "--model"));
          ap_argument_override := Some (Override_Flags [str "--model"]);
          ap_composed_into_model := false;
          ap_mid_session := Mid_Command (str "/model") (Some (str "/model"))
                              (Some ClaudeModelSwitchConfirmation) |};
     oc_model_list := None |}.

(* adapters/session_options.rs codex_effort *)
Definition codex_effort (include_extra_high : bool) : SessionOption :=
  select_option (str "effort") (str "Reasoning effort") Category_ThoughtLevel
    ([(str "minimal", str "Minimal"); (str "low", str "Low"); (str "medium", str "Medium");
      (str "high", str "High")]
     ++ (if include_extra_high then [(str "xhigh", str "Extra high")] else []))
    (str "medium")
    {| ap_launch := Some (Launch_Config (str "-c") (str "model_reasoning_effort"));
       ap_argument_override := Some Override_CodexReasoningEffort;
       ap_composed_into_model := false;
       ap_mid_session := Mid_AgentPicker (str "/model") |}.

(* adapters/session_options.rs codex_catalog *)
Definition codex_catalog (adapter_id : AdapterId) : AgentSessionOptionCatalog :=
  {| oc_adapter_id := adapter_id;
     oc_revision := SESSION_OPTION_CATALOG_REVISION;
     oc_models :=
       [option_model (str "gpt-5.6-sol") (str "GPT-5.6 Sol") false [codex_effort true];
        option_model (str "gpt-5.6-terra") (str "GPT-5.6 Terra") false [codex_effort true];
        option_model (str "gpt-5.6-luna") (str "GPT-5.6 Luna") false [codex_effort false];
        option_model (str "gpt-5.5") (str "GPT-5.5") false [codex_effort true];
        option_model (str "gpt-5.2-codex") (str "GPT-5.2 Codex") false [codex_effort true]];
     oc_model_apply :=
       {| ap_launch := Some (Launch_Flag (str "-m"));
          ap_argument_override := Some (Override_Flags [str "-m"; str "--model"]);
          ap_composed_into_model := false;
          ap_mid_session := Mid_AgentPicker (str "/model") |};
     oc_model_list := None |}.

(* adapters/session_options.rs grok_effort *)
Definition grok_effort : SessionOption :=
  select_option (str "effort") (str "Reasoning effort") Category_ThoughtLevel
    [(str "low", str "Low"); (str "medium", str "Medium"); (str "high", str "High")]
    (str "high")
    {| ap_launch := Some (Launch_Flag (str "--reasoning-effort"));
       ap_argument_override := Some (Override_Flags [str "--reasoning-effort"; str "--effort"]);
       ap_composed_into_model := false;
       ap_mid_session := Mid_Unsupported |}.

(* adapters/session_options.rs grok_catalog *)
Definition grok_catalog (adapter_id : AdapterId) : AgentSessionOptionCatalog :=
  {| oc_adapter_id := adapter_id;
     oc_revision := SESSION_OPTION_CATALOG_REVISION;
     oc_models := [];
     oc_model_apply :=
       {| ap_launch := Some (Launch_Flag (str "--model"));
          ap_argument_override := Some (Override_Flags [str "-m"; str "--model"]);
          ap_composed_into_model := false;
          ap_mid_session := command_apply (str "/model") |};
     oc_model_list := None |}.

(* adapters/session_options.rs kimi_catalog *)
Definition kimi_catalog (adapter_id : AdapterId) : AgentSessionOptionCatalog :=
  {| oc_adapter_id := adapter_id;
     oc_revision := SESSION_OPTION_CATALOG_REVISION;
     oc_models := [];
     oc_model_apply :=
       {| ap_launch := Some (Launch_Flag (str "--model"));
          ap_argument_override := Some (Override_Flags [str "-m"; str "--model"]);
          ap_composed_into_model := false;
          ap_mid_session := command_apply (str "/model") |};
     oc_model_list := None |}.

(** The application of an option of Cursor: part of the name of the model. *)
(* adapters/session_options.rs:960-965 cursor_catalog *)
Definition composed_apply : SessionOptionApply :=
  {| ap_launch := None; ap_argument_override := None; ap_composed_into_model := true;
     ap_mid_session := Mid_Unsupported |}.

(* adapters/session_options.rs:953-967 cursor_catalog *)
Definition cursor_effort : SessionOption :=
  select_option (str "effort") (str "Effort") Category_ThoughtLevel
    [(str "low", str "Low"); (str "medium", str "Medium"); (str "high", str "High")]
    (str "high") composed_apply.

(* adapters/session_options.rs cursor_catalog *)
Definition cursor_catalog (adapter_id : AdapterId) : AgentSessionOptionCatalog :=
  {| oc_adapter_id := adapter_id;
     oc_revision := SESSION_OPTION_CATALOG_REVISION;
     oc_models :=
       [option_model (str "auto") (str "Auto") true [];
        option_model (str "gpt-5.3-codex") (str "GPT-5.3 Codex") false
          [cursor_effort;
           boolean_option (str "fastMode") (str "Fast mode") Category_Mode false composed_apply];
        option_model (str "claude-opus-4-8") (str "Claude Opus 4.8") false
          [boolean_option (str "thinking") (str "Thinking") Category_ModelConfig true
             composed_apply;
           cursor_effort]];
     oc_model_apply :=
       {| ap_launch := Some (Launch_Flag (str "--model"));
          ap_argument_override := Some (Override_Flags [str "-m"; str "--model"]);
          ap_composed_into_model := false;
          ap_mid_session := command_apply (str "/model") |};
     oc_model_list := Some (MkModelList (str "cursor-agent") [str "models"]) |}.

(* adapters/session_options.rs session_option_catalog *)
Definition session_option_catalog (adapter_id : AdapterId)
    : result SessionOptionAdapterError AgentSessionOptionCatalog :=
  let id := adapter_id_str adapter_id in
  if bool_decide (id = str "claude-code") then Ok (claude_catalog adapter_id)
  else if bool_decide (id = str "codex") then Ok (codex_catalog adapter_id)
  else if bool_decide (id = str "cursor") then Ok (cursor_catalog adapter_id)
  else if bool_decide (id = str "grok") then Ok (grok_catalog adapter_id)
  else if bool_decide (id = str "kimi") then Ok (kimi_catalog adapter_id)
  else Err (Sa_UnsupportedAdapter id).

(* adapters/session_options.rs unlisted_model_options *)
Definition unlisted_model_options (adapter_id : AdapterId) : list SessionOption :=
  let id := adapter_id_str adapter_id in
  if bool_decide (id = str "claude-code") then [claude_effort true]
  else if bool_decide (id = str "codex") then [codex_effort true]
  else if bool_decide (id = str "grok") then [grok_effort]
  else [].

(** ** Values *)

(* adapters/session_options.rs normalize_value *)
Definition normalize_value (value : list N) : result SessionOptionAdapterError (list N) :=
  let value := trim value in
  guard_err (str_is_empty value || (SESSION_OPTION_VALUE_MAX_BYTES <? str_len value)
             || chars_any is_control value) Sa_InvalidValue ;;
  Ok value.

(* adapters/session_options.rs validate_option_id *)
Definition validate_option_id (value : list N) : result SessionOptionAdapterError unit :=
  guard_err (str_is_empty value || (SESSION_OPTION_ID_MAX_BYTES <? str_len value)
             || chars_any is_control value) Sa_InvalidOptionId.

(* adapters/session_options.rs:507-518 normalize_selection *)
Definition normalize_entry (entry : list N * SessionOptionValue)
    : result SessionOptionAdapterError (list N * SessionOptionValue) :=
  let (id, value) := entry in
  validate_option_id id ;;
  guard_err (bool_decide (id = str "model")) Sa_ReservedModelOption ;;
  match value with
  | OptionString text => text ← normalize_value text; Ok (id, OptionString text)
  | OptionBoolean flag => Ok (id, OptionBoolean flag)
  end.

(* adapters/session_options.rs normalize_selection *)
Definition normalize_selection (selection : SessionOptionSelection)
    : result SessionOptionAdapterError SessionOptionSelection :=
  model ← normalize_value (selection_model selection);
  guard_err (SESSION_OPTION_VALUES_MAX <? N.of_nat (size (selection_values selection)))
    Sa_TooManyValues ;;
  values ← mapM normalize_entry (btree_iter (selection_values selection));
  Ok (MkSelection model (list_to_map values)).

(** [SessionOptionValue::as_str] and [as_bool]. *)
(* types/session_options.rs SessionOptionValue::as_str *)
Definition value_as_str (value : SessionOptionValue) : option (list N) :=
  match value with OptionString text => Some text | OptionBoolean _ => None end.
(* types/session_options.rs SessionOptionValue::as_bool *)
Definition value_as_bool (value : SessionOptionValue) : option bool :=
  match value with OptionString _ => None | OptionBoolean flag => Some flag end.

(* adapters/session_options.rs value_as_argument *)
Definition value_as_argument (value : SessionOptionValue)
    : result SessionOptionAdapterError (list N) :=
  match value_as_str value with
  | Some text => Ok text
  | None => Err Sa_InvalidValue
  end.

(* adapters/session_options.rs value_as_command_atom *)
Definition value_as_command_atom (value : SessionOptionValue)
    : result SessionOptionAdapterError (list N) :=
  value ← value_as_argument value;
  guard_err (chars_any is_whitespace value) Sa_UnsafeCommandValue ;;
  Ok value.

(* adapters/session_options.rs:561-575 resolved_model_values *)
Fixpoint insert_option_values (options : list SessionOption) (selection : SessionOptionSelection)
    (values : gmap (list N) SessionOptionValue)
    : result SessionOptionAdapterError (gmap (list N) SessionOptionValue) :=
  match options with
  | [] => Ok values
  | option :: rest =>
      let value := default (kind_default (so_kind option))
                     (selection_values selection !! so_id option) in
      guard_err (negb (kind_accepts (so_kind option) value)) (Sa_InvalidValueType (so_id option)) ;;
      insert_option_values rest selection (<[so_id option := value]> values)
  end.

(* adapters/session_options.rs resolved_model_values *)
Definition resolved_model_values (model : SessionOptionModel) (selection : SessionOptionSelection)
    : result SessionOptionAdapterError (gmap (list N) SessionOptionValue) :=
  insert_option_values (sm_options model) selection ∅.

(** ** Command lines *)

(* adapters/session_options.rs launch_args *)
Definition launch_args (apply : SessionOptionApply) (value : list N) : option (list (list N)) :=
  match ap_launch apply with
  | Some (Launch_Flag flag) => Some [flag; value]
  | Some (Launch_Config flag key) => Some [flag; key ++ str "=" ++ value]
  | None => None
  end.

(* adapters/session_options.rs has_flag *)
Definition has_flag (tokens flags : list (list N)) : bool :=
  existsb (λ token, existsb (λ flag,
    bool_decide (token = flag)
    || starts_with_str token (flag ++ str "=")
    || (starts_with_str flag (str "-") && negb (starts_with_str flag (str "--"))
        && starts_with_str token flag)) flags) tokens.

(* adapters/session_options.rs:592-599 is_overridden *)
Fixpoint any_effort_token (previous : option (list N)) (tokens : list (list N)) : bool :=
  match tokens with
  | [] => false
  | token :: rest =>
      (starts_with_str token (str "model_reasoning_effort=")
       && bool_decide (previous = Some (str "-c") ∨ previous = Some (str "--config")))
      || starts_with_str token (str "-cmodel_reasoning_effort=")
      || starts_with_str token (str "-c=model_reasoning_effort=")
      || starts_with_str token (str "--config=model_reasoning_effort=")
      || any_effort_token (Some token) rest
  end.

(* adapters/session_options.rs is_overridden *)
Definition is_overridden (apply : SessionOptionApply) (tokens : list (list N)) : bool :=
  match ap_argument_override apply with
  | Some (Override_Flags flags) => has_flag tokens flags
  | Some Override_CodexReasoningEffort =>
      has_flag tokens [str "--reasoning-effort"] || any_effort_token None tokens
  | None => false
  end.

(* adapters/session_options.rs find_model *)
Definition find_model (catalog : AgentSessionOptionCatalog) (model_id : list N)
    : option SessionOptionModel :=
  List.find (λ model, bool_decide (sm_id model = model_id)) (oc_models catalog).

(* adapters/session_options.rs compose_cursor_model *)
Definition compose_cursor_model (model_id : list N) (values : gmap (list N) SessionOptionValue)
    : list N :=
  let effort := from_option (λ value, str "-" ++ value) []
                  (values !! str "effort" ≫= value_as_str) in
  if bool_decide (model_id = str "auto") then model_id
  else if starts_with_str model_id (str "claude-") then
    let thinking := if bool_decide (values !! str "thinking" ≫= value_as_bool = Some true)
                    then str "-thinking" else [] in
    model_id ++ thinking ++ effort
  else
    let fast := if bool_decide (values !! str "fastMode" ≫= value_as_bool = Some true)
                then str "-fast" else [] in
    model_id ++ effort ++ fast.

(* adapters/session_options.rs valid_dynamic_model_id *)
Definition valid_dynamic_model_id (value : list N) : bool :=
  let bytes := as_bytes value in
  match bytes with
  | [] => false
  | first :: _ => is_ascii_alphanumeric first
  end
  && forallb (λ byte, is_ascii_alphanumeric byte || (byte =? 0x2e) || (byte =? 0x5f)
                      || (byte =? 0x2d)) bytes
  && (str_len value <=? SESSION_OPTION_VALUE_MAX_BYTES).

(** [applied.values.insert(..)] behind [if let Some(applied) = &mut applied]. *)
Definition record_value (id : list N) (value : SessionOptionValue)
    (applied : option SessionOptionSelection) : option SessionOptionSelection :=
  (λ applied, SessionOptionSelection_with_value applied id value) <$> applied.

(* adapters/session_options.rs:211-233 resolve_session_option_launch *)
Fixpoint apply_options (options : list SessionOption)
    (values : gmap (list N) SessionOptionValue) (model_overridden : bool)
    (trailing : list (list N)) (launch : ResolvedSessionOptionLaunch)
    : outcome SessionOptionAdapterError ResolvedSessionOptionLaunch :=
  match options with
  | [] => Done launch
  | option :: rest =>
      value ← expect_some (values !! so_id option);
      let apply := so_apply option in
      let recorded := record_value (so_id option) value (rl_applied launch) in
      if ap_composed_into_model apply then
        apply_options rest values model_overridden trailing
          (MkResolvedLaunch (rl_args launch) recorded)
      else if bool_decide (ap_launch apply = None) then
        apply_options rest values model_overridden trailing launch
      else
        argument ← checked (value_as_argument value);
        option_args ← expect_some (launch_args apply argument);
        let applied := if negb model_overridden && negb (is_overridden apply trailing)
                       then recorded else rl_applied launch in
        apply_options rest values model_overridden trailing
          (MkResolvedLaunch (rl_args launch ++ option_args) applied)
  end.

(** The model of a selection: of the catalog, or one the catalog does not list. *)
(* adapters/session_options.rs:182-194 resolve_session_option_launch *)
Definition selected_model (catalog : AgentSessionOptionCatalog) (adapter_id : AdapterId)
    (selection : SessionOptionSelection) : option SessionOptionModel :=
  match find_model catalog (selection_model selection) with
  | Some model => Some model
  | None =>
      if valid_dynamic_model_id (selection_model selection) then
        let options := List.filter (λ option,
                         bool_decide (is_Some (selection_values selection !! so_id option)))
                         (unlisted_model_options adapter_id) in
        Some (option_model (selection_model selection) (selection_model selection) false options)
      else None
  end.

(* adapters/session_options.rs resolve_session_option_launch *)
Definition resolve_session_option_launch (adapter_id : AdapterId)
    (selection : SessionOptionSelection) (trailing_agent_args : list (list N))
    : outcome SessionOptionAdapterError ResolvedSessionOptionLaunch :=
  catalog ← checked (session_option_catalog adapter_id);
  selection ← checked (normalize_selection selection);
  let model := selected_model catalog adapter_id selection in
  values ← match model with
           | Some model => checked (resolved_model_values model selection)
           | None => Done ∅
           end;
  let model_value :=
    if bool_decide (adapter_id_str adapter_id = str "cursor")
    then compose_cursor_model (selection_model selection) values
    else selection_model selection in
  let model_overridden := is_overridden (oc_model_apply catalog) trailing_agent_args in
  let args := default [] (launch_args (oc_model_apply catalog) model_value) in
  let applied := if model_overridden then None
                 else Some (SessionOptionSelection_new (selection_model selection)) in
  match model with
  | None => Done (MkResolvedLaunch args applied)
  | Some model =>
      apply_options (sm_options model) values model_overridden trailing_agent_args
        (MkResolvedLaunch args applied)
  end.

(** ** Changing an option of a running session *)

(* adapters/session_options.rs:245-280 plan_mid_session_option *)
Definition mid_session_target (catalog : AgentSessionOptionCatalog)
    (current : SessionOptionSelection) (option_id : list N) (target : SessionOptionValue)
    : result SessionOptionAdapterError (SessionOptionApply * list N * option (list N)) :=
  if bool_decide (option_id = str "model") then
    match value_as_str target with
    | None => Err (Sa_InvalidValueType option_id)
    | Some target_model =>
        Ok (oc_model_apply catalog, target_model,
            Some (from_option sm_label target_model (find_model catalog target_model)))
    end
  else
    match find_model catalog (selection_model current) with
    | None => Err (Sa_UnknownModel (selection_model current))
    | Some model =>
        match List.find (λ option, bool_decide (so_id option = option_id)) (sm_options model) with
        | None => Err (Sa_UnknownOption option_id)
        | Some option =>
            guard_err (negb (kind_accepts (so_kind option) target))
              (Sa_InvalidValueType option_id) ;;
            Ok (so_apply option, selection_model current, None)
        end
    end.

(* adapters/session_options.rs:296-319 plan_mid_session_option *)
Definition plan_toggle (command : list N) (current : SessionOptionSelection) (option_id : list N)
    (target : SessionOptionValue)
    : result SessionOptionAdapterError SessionOptionMidSessionPlan :=
  match value_as_bool target with
  | None => Err (Sa_InvalidValueType option_id)
  | Some target_value =>
      match selection_values current !! option_id ≫= value_as_bool with
      | Some value =>
          if bool_decide (value = target_value) then Ok Plan_Noop
          else Ok (Plan_Command command (Some target) None None)
      | None => Err (Sa_UnknownToggleBaseline option_id)
      end
  end.

(* adapters/session_options.rs:325-351 plan_mid_session_option *)
Definition plan_composed (catalog : AgentSessionOptionCatalog) (current : SessionOptionSelection)
    (model_id option_id : list N) (target : SessionOptionValue)
    : result SessionOptionAdapterError SessionOptionMidSessionPlan :=
  match find_model catalog model_id with
  | None => Err (Sa_UnknownModel model_id)
  | Some model =>
      values ← resolved_model_values model current;
      let composed := compose_cursor_model model_id (<[option_id := target]> values) in
      match ap_mid_session (oc_model_apply catalog) with
      | Mid_Command command _ interaction_detection =>
          value ← value_as_command_atom (OptionString composed);
          Ok (Plan_Command (command ++ str " " ++ value) (Some target) interaction_detection None)
      | _ => Err (Sa_MidSessionUnsupported option_id)
      end
  end.

(* adapters/session_options.rs plan_mid_session_option *)
Definition plan_mid_session_option (adapter_id : AdapterId) (current : SessionOptionSelection)
    (option_id : list N) (target : SessionOptionValue)
    : result SessionOptionAdapterError SessionOptionMidSessionPlan :=
  catalog ← session_option_catalog adapter_id;
  current ← normalize_selection current;
  validate_option_id option_id ;;
  resolved ← mid_session_target catalog current option_id target;
  let '(apply, model_id, expected_choice_label) := resolved in
  match ap_mid_session apply with
  | Mid_Command command _ interaction_detection =>
      value ← value_as_command_atom target;
      Ok (Plan_Command (command ++ str " " ++ value) (Some target) interaction_detection
            expected_choice_label)
  | Mid_ToggleCommand command => plan_toggle command current option_id target
  | Mid_AgentPicker command => Ok (Plan_AgentPicker command)
  | Mid_Unsupported =>
      if ap_composed_into_model apply then plan_composed catalog current model_id option_id target
      else Err (Sa_MidSessionUnsupported option_id)
  end.

(* adapters/session_options.rs plan_mid_session_action *)
Definition plan_mid_session_action (adapter_id : AdapterId) (current : SessionOptionSelection)
    (option_id : list N) : result SessionOptionAdapterError SessionOptionMidSessionPlan :=
  catalog ← session_option_catalog adapter_id;
  current ← normalize_selection current;
  validate_option_id option_id ;;
  apply ← (if bool_decide (option_id = str "model") then Ok (oc_model_apply catalog)
           else match find_model catalog (selection_model current) with
                | None => Err (Sa_UnknownModel (selection_model current))
                | Some model =>
                    match List.find (λ option, bool_decide (so_id option = option_id))
                            (sm_options model) with
                    | None => Err (Sa_UnknownOption option_id)
                    | Some option => Ok (so_apply option)
                    end
                end);
  match ap_mid_session apply with
  | Mid_AgentPicker command => Ok (Plan_AgentPicker command)
  | Mid_ToggleCommand command =>
      if bool_decide (is_Some (selection_values current !! option_id))
      then Err (Sa_ActionUnavailable option_id)
      else Ok (Plan_Command command None None None)
  | _ => Err (Sa_ActionUnavailable option_id)
  end.

(** ** Model lists *)

(* adapters/session_options.rs:423-434 parse_session_option_models *)
Definition model_candidate (line : list N) : list N :=
  let candidate := trim line in
  let candidate := match strip_prefix candidate (str "- ") with
                   | Some rest => trim rest
                   | None => from_option trim candidate (strip_prefix candidate (str "* "))
                   end in
  match before_str candidate (str " (") with
  | Some before => if ends_with_str candidate (str ")") then before else candidate
  | None => candidate
  end.

(* adapters/session_options.rs:441-451 parse_session_option_models *)
Definition listed_model (candidate : list N) : SessionOptionModel :=
  {| sm_id := candidate;
     sm_label := if bool_decide (candidate = str "auto") then str "Auto" else candidate;
     sm_description := None; sm_is_default := None; sm_options := [] |}.

(** The loop over the lines, with the models found so far; their ids are the
    set [seen]. It stops at the bound. *)
(* adapters/session_options.rs:420-456 parse_session_option_models *)
Fixpoint collect_models (ls : list (list N)) (models : list SessionOptionModel)
    : list SessionOptionModel :=
  match ls with
  | [] => models
  | line :: rest =>
      let candidate := model_candidate line in
      if negb (valid_dynamic_model_id candidate)
         || eq_ignore_ascii_case candidate (str "models")
         || bool_decide (candidate ∈ sm_id <$> models)
      then collect_models rest models
      else
        let models := models ++ [listed_model candidate] in
        if len models =? SESSION_OPTION_MODELS_MAX then models else collect_models rest models
  end.

(* adapters/session_options.rs parse_session_option_models *)
Definition parse_session_option_models (adapter_id : AdapterId) (stdout : list N)
    : result SessionOptionAdapterError (list SessionOptionModel) :=
  catalog ← session_option_catalog adapter_id;
  guard_err (SESSION_OPTION_MODEL_LIST_MAX_BYTES <? str_len stdout) Sa_ModelListTooLarge ;;
  guard_err (bool_decide (oc_model_list catalog = None))
    (Sa_ModelListUnsupported (adapter_id_str adapter_id)) ;;
  Ok (collect_models (lines stdout) []).

(** [.map(|model| (model.id, model)).collect::<BTreeMap<_, _>>()]: the last
    model with an id stays. *)
(* adapters/session_options.rs:463-467 merge_session_option_models *)
Definition models_by_id (models : list SessionOptionModel)
    : gmap (list N) SessionOptionModel :=
  foldl (λ m model, <[sm_id model := model]> m) ∅ models.

(* adapters/session_options.rs:473-487 merge_session_option_models *)
Definition merge_model (discovered : gmap (list N) SessionOptionModel)
    (model : SessionOptionModel) : SessionOptionModel :=
  match discovered !! sm_id model with
  | None => model
  | Some live =>
      {| sm_id := sm_id model; sm_label := sm_label live;
         sm_description := match sm_description live with
                           | Some text => Some text | None => sm_description model end;
         sm_is_default := match sm_is_default live with
                          | Some b => Some b | None => sm_is_default model end;
         sm_options := sm_options model |}
  end.

(* adapters/session_options.rs:489-496 merge_session_option_models *)
Fixpoint append_discovered (discovered : list SessionOptionModel)
    (by_id : gmap (list N) SessionOptionModel) (seed_ids appended : list (list N))
    : list SessionOptionModel :=
  match discovered with
  | [] => []
  | model :: rest =>
      if bool_decide (sm_id model ∉ seed_ids) && bool_decide (sm_id model ∉ appended) then
        option_list (by_id !! sm_id model)
        ++ append_discovered rest by_id seed_ids (sm_id model :: appended)
      else append_discovered rest by_id seed_ids appended
  end.

(* adapters/session_options.rs merge_session_option_models *)
Definition merge_session_option_models (seed discovered : list SessionOptionModel)
    : list SessionOptionModel :=
  let by_id := models_by_id discovered in
  (merge_model by_id <$> seed) ++ append_discovered discovered by_id (sm_id <$> seed) [].
