(* ===== verification/SessionOptionFacts.v ===== *)
(** * What the session options guarantee

    The command line of a selection, the selection it reports as applied, and
    the commands that change an option of a running session. *)

From S2P Require Import Prelude RustStr RustOrd Ids SessionTypes RecordTypes SpecTypes.
From S2P Require Import OneShotFacts SessionOptions.

Local Open Scope N_scope.

(** ** The catalogs *)

#[export] Instance option_text_dec value : Decision (option_text value).
Proof. unfold option_text. apply _. Defined.
#[export] Instance option_id_dec id : Decision (option_id id).
Proof. unfold option_id. apply _. Defined.

(** An option takes effect on the command line, or in the name of the model. *)
Definition effective (o : SessionOption) : bool :=
  ap_composed_into_model (so_apply o) || negb (bool_decide (ap_launch (so_apply o) = None)).

(** A default that normalization keeps; a launched option has a text. *)
Definition kind_ok (kind : SessionOptionKind) (launched : bool) : bool :=
  match kind with
  | Kind_Select _ text => bool_decide (option_text text) && bool_decide (trim text = text)
  | Kind_Boolean _ => negb launched
  end.

Definition option_ok (o : SessionOption) : bool :=
  bool_decide (option_id (so_id o)) && negb (bool_decide (so_id o = str "model"))
  && kind_ok (so_kind o) (negb (bool_decide (ap_launch (so_apply o) = None))).

Definition options_ok (options : list SessionOption) : bool :=
  forallb option_ok options && bool_decide (NoDup (so_id <$> options))
  && (len options <=? SESSION_OPTION_VALUES_MAX).

(** The models of a catalog, and what an unlisted model may have: its options
    take effect. *)
Definition catalog_ok (id : AdapterId) (c : AgentSessionOptionCatalog) : bool :=
  forallb (λ model, options_ok (sm_options model)
                    && (negb (bool_decide (adapter_id_str id = str "cursor"))
                        || forallb effective (sm_options model))) (oc_models c)
  && options_ok (unlisted_model_options id) && forallb effective (unlisted_model_options id)
  && negb (bool_decide (ap_launch (oc_model_apply c) = None)).

Lemma catalogs_ok id c : session_option_catalog id = Ok c → catalog_ok id c = true.
Proof.
  destruct id as [id]. unfold session_option_catalog. cbn [adapter_id_str]. intros H.
  repeat (case_bool_decide; [injection H as <-; subst id; vm_compute; reflexivity|]).
  discriminate.
Qed.

(** ** Normalization *)

Definition normal_value (value : SessionOptionValue) : Prop :=
  match value with
  | OptionString text => option_text text ∧ trim text = text
  | OptionBoolean _ => True
  end.

Lemma normalize_value_Ok value text :
  normalize_value value = Ok text → option_text text ∧ trim text = text.
Proof.
  unfold normalize_value. intros [H [= <-]]%seq_Ok.
  rewrite guard_err_Ok, !orb_false_iff, N.ltb_ge, chars_any_false in H.
  destruct H as [[He Hl] Hc]. rewrite trim_idem. split; [|done].
  split_and!; [|done|done]. rewrite trim_idem. by intros E; rewrite E in He.
Qed.

Lemma normalize_normal text :
  option_text text → trim text = text → normalize_value text = Ok text.
Proof.
  intros (Hne & Hl & Hc) E. unfold normalize_value. rewrite E in *. apply seq_Ok. split; [|done].
  apply guard_err_Ok. rewrite !orb_false_iff, N.ltb_ge, chars_any_false.
  split_and!; [by destruct text|done|done].
Qed.

(** What every normalized selection is. *)
Definition selection_normal (s : SessionOptionSelection) : Prop :=
  (option_text (selection_model s) ∧ trim (selection_model s) = selection_model s)
  ∧ N.of_nat (size (selection_values s)) <= SESSION_OPTION_VALUES_MAX
  ∧ ∀ id value, selection_values s !! id = Some value →
      id ≠ str "model" ∧ option_id id ∧ normal_value value.

Lemma validate_option_id_Ok id : validate_option_id id = Ok tt ↔ option_id id.
Proof.
  unfold validate_option_id, option_id. rewrite guard_err_Ok, !orb_false_iff, N.ltb_ge.
  rewrite chars_any_false. destruct id; cbn; naive_solver.
Qed.

Lemma normalize_entry_Ok entry entry' :
  normalize_entry entry = Ok entry' →
  fst entry' = fst entry ∧ fst entry ≠ str "model" ∧ option_id (fst entry)
  ∧ normal_value (snd entry').
Proof.
  destruct entry as [id value]. unfold normalize_entry. intros [Hi H]%seq_Ok.
  apply validate_option_id_Ok in Hi. apply seq_Ok in H as [Hm H]. rewrite guard_err_Ok in Hm.
  bool_prop. destruct value as [text|flag].
  - apply result_bind_Ok in H as (text' & Ht & [= <-]).
    split_and!; [done|done|done|]. by apply normalize_value_Ok in Ht.
  - injection H as <-. by split_and!.
Qed.

Lemma normalize_entry_normal id value :
  id ≠ str "model" → option_id id → normal_value value →
  normalize_entry (id, value) = Ok (id, value).
Proof.
  intros Hm Hi Hv. unfold normalize_entry. apply validate_option_id_Ok in Hi. rewrite Hi.
  rewrite bool_decide_eq_false_2 by done. cbn [guard_err mbind result_bind].
  destruct value as [text|flag]; [|done]. destruct Hv as [Ht E].
  by rewrite (normalize_normal text Ht E).
Qed.

Lemma mapM_normalize l l' :
  mapM normalize_entry l = Ok l' →
  l'.*1 = l.*1 ∧ ∀ id value, (id, value) ∈ l' →
    id ≠ str "model" ∧ option_id id ∧ normal_value value.
Proof.
  revert l'. induction l as [|entry l IH]; intros l'; cbn.
  { intros [= <-]. split; [done|]. by intros id value ?%elem_of_nil. }
  intros (entry' & He & (rest & Hr & [= <-])%result_bind_Ok)%result_bind_Ok.
  apply normalize_entry_Ok in He as (E & Hm & Hi & Hv). destruct (IH rest Hr) as [Ef Hall].
  cbn. rewrite E, Ef. split; [done|]. intros id value [<-|Hin]%elem_of_cons; [|by apply Hall].
  cbn [fst snd] in *. by subst.
Qed.

Lemma normalize_selection_normal selection s :
  normalize_selection selection = Ok s → selection_normal s.
Proof.
  unfold normalize_selection. intros (model & Hm & H)%result_bind_Ok.
  apply seq_Ok in H as [Hsize H]. apply result_bind_Ok in H as (values & Hv & [= <-]).
  rewrite guard_err_Ok, N.ltb_ge in Hsize. apply mapM_normalize in Hv as [E Hall].
  assert (Hnd : NoDup values.*1) by (rewrite E; exact (btree_keys_NoDup (selection_values selection))).
  split; [by apply normalize_value_Ok in Hm|split; cbn [selection_values]].
  - rewrite <- length_map_to_list, map_to_list_to_map by done.
    rewrite <- (length_fmap fst), E, length_fmap, btree_iter_length. done.
  - intros id value Hin%elem_of_list_to_map_2. by apply Hall.
Qed.

Lemma mapM_normal l :
  (∀ id value, (id, value) ∈ l → id ≠ str "model" ∧ option_id id ∧ normal_value value) →
  mapM normalize_entry l = Ok l.
Proof.
  induction l as [|[id value] l IH]; intros Hall; [done|]. cbn [mapM].
  destruct (Hall id value) as (Hm & Hi & Hv); [by left|].
  rewrite (normalize_entry_normal id value Hm Hi Hv). cbn [mbind result_bind].
  rewrite IH; [done|]. intros id' value' Hin. apply Hall. by right.
Qed.

(** Normalizing a normalized selection changes nothing. *)
Lemma normalize_selection_idem s : selection_normal s → normalize_selection s = Ok s.
Proof.
  intros ([Ht Et] & Hsize & Hv). unfold normalize_selection.
  rewrite (normalize_normal _ Ht Et). cbn [mbind result_bind].
  rewrite (proj2 (N.ltb_ge _ _)) by done. cbn [guard_err mbind result_bind].
  rewrite mapM_normal.
  - cbn [mbind result_bind]. destruct s as [model values]. cbn. do 2 f_equal.
    apply map_eq. intros id. unfold btree_iter. apply option_eq. intros value.
    rewrite <- elem_of_list_to_map, <- elem_of_btree_iter; [done|]. apply btree_keys_NoDup.
  - intros id value Hin%elem_of_btree_iter. by apply Hv.
Qed.

Lemma normal_valid s : selection_normal s → selection_valid s.
Proof.
  intros ([Ht _] & Hsize & Hv). split_and!; [done|done|]. intros id value Hin.
  destruct (Hv id value Hin) as (Hm & Hi & Hval). split_and!; [done|done|].
  destruct value; cbn in *; [apply Hval|done].
Qed.

(** ** The values of the options of a model *)

Definition value_of (s : SessionOptionSelection) (o : SessionOption) : SessionOptionValue :=
  default (kind_default (so_kind o)) (selection_values s !! so_id o).
Definition accepts_all (options : list SessionOption) (s : SessionOptionSelection) : Prop :=
  Forall (λ o, kind_accepts (so_kind o) (value_of s o) = true) options.

Fixpoint assign_values (s : SessionOptionSelection) (options : list SessionOption)
    (values : gmap (list N) SessionOptionValue) : gmap (list N) SessionOptionValue :=
  match options with
  | [] => values
  | o :: rest => assign_values s rest (<[so_id o := value_of s o]> values)
  end.

Lemma insert_option_values_Ok options s acc values :
  insert_option_values options s acc = Ok values ↔
  accepts_all options s ∧ values = assign_values s options acc.
Proof.
  unfold accepts_all. revert acc. induction options as [|o options IH]; intros acc; cbn [insert_option_values].
  { split; [intros [= <-]; split; [constructor|done]|by intros [_ ->]]. }
  fold (value_of s o). rewrite seq_Ok, guard_err_Ok, negb_false_iff, IH, Forall_cons. tauto.
Qed.

Lemma lookup_values_notin options s acc k :
  k ∉ so_id <$> options →
  assign_values s options acc !! k = acc !! k.
Proof.
  revert acc. induction options as [|o options IH]; intros acc Hk; [done|]. cbn [assign_values foldl fmap list_fmap] in *.
  apply not_elem_of_cons in Hk as [Hne Hk]. rewrite IH by done. by rewrite lookup_insert_ne.
Qed.

Lemma lookup_values options s acc o :
  NoDup (so_id <$> options) → o ∈ options →
  assign_values s options acc !! so_id o = Some (value_of s o).
Proof.
  revert acc. induction options as [|o' options IH]; intros acc Hnd Hin; [by apply elem_of_nil in Hin|].
  cbn [assign_values foldl fmap list_fmap] in *. apply NoDup_cons in Hnd as [Hni Hnd].
  apply elem_of_cons in Hin as [->|Hin]; [|by apply IH].
  rewrite lookup_values_notin by done. apply lookup_insert_eq.
Qed.

(** [values] gives each option an accepted value. *)
Definition values_for (options : list SessionOption) (values : gmap (list N) SessionOptionValue)
    : Prop :=
  Forall (λ o, ∃ v, values !! so_id o = Some v ∧ kind_accepts (so_kind o) v = true) options.

Lemma resolved_values_for model s values :
  options_ok (sm_options model) = true → resolved_model_values model s = Ok values →
  values_for (sm_options model) values
  ∧ ∀ o, o ∈ sm_options model → values !! so_id o = Some (value_of s o).
Proof.
  unfold options_ok. intros Hok [Hacc ->]%insert_option_values_Ok. bool_prop.
  assert (Hl : ∀ o, o ∈ sm_options model → assign_values s (sm_options model) ∅ !! so_id o = Some (value_of s o)) by (intros o Hin; by apply lookup_values).
  split; [|done]. unfold accepts_all, values_for in *. rewrite Forall_forall in *. intros o Hin.
  eauto.
Qed.

(** ** The command line of a model *)

(** The arguments of an option. *)
Definition option_args (values : gmap (list N) SessionOptionValue) (o : SessionOption)
    : list (list N) :=
  match values !! so_id o ≫= value_as_str with
  | Some text => if ap_composed_into_model (so_apply o) then []
                 else default [] (launch_args (so_apply o) text)
  | None => []
  end.

(** Whether the value of an option is reported as applied. *)
Definition reported (overridden : bool) (trailing : list (list N)) (o : SessionOption) : bool :=
  ap_composed_into_model (so_apply o)
  || (negb (bool_decide (ap_launch (so_apply o) = None)) && negb overridden
      && negb (is_overridden (so_apply o) trailing)).

Definition record_all (values : gmap (list N) SessionOptionValue) (options : list SessionOption)
    (s : SessionOptionSelection) : SessionOptionSelection :=
  foldl (λ s o, from_option (SessionOptionSelection_with_value s (so_id o)) s
                  (values !! so_id o)) s options.

Lemma option_ok_inv o :
  option_ok o = true →
  option_id (so_id o) ∧ so_id o ≠ str "model"
  ∧ kind_ok (so_kind o) (negb (bool_decide (ap_launch (so_apply o) = None))) = true.
Proof. unfold option_ok. intros H. bool_prop. done. Qed.

(** A launched option has a text. *)
Lemma launched_text o v :
  option_ok o = true → ap_launch (so_apply o) ≠ None → kind_accepts (so_kind o) v = true →
  ∃ text, v = OptionString text.
Proof.
  intros (_ & _ & Hk)%option_ok_inv Hl Hv. rewrite bool_decide_eq_false_2 in Hk by done.
  destruct (so_kind o), v; try done. by eexists.
Qed.

Lemma apply_options_Done options values overridden trailing launch :
  Forall (λ o, option_ok o = true) options → values_for options values →
  apply_options options values overridden trailing launch
  = Done (MkResolvedLaunch (rl_args launch ++ (options ≫= option_args values))
            (record_all values (retain (reported overridden trailing) options)
             <$> rl_applied launch)).
Proof.
  intros Hok. revert launch. induction Hok as [|o options Ho _ IH]; intros [args applied] Hv.
  { cbn. rewrite app_nil_r. by destruct applied. }
  apply Forall_cons in Hv as [(v & Hv & Ha) Hrest].
  cbn [apply_options retain mbind list_bind rl_args rl_applied]. rewrite Hv.
  cbn [expect_some mbind outcome_bind]. unfold option_args at 1, reported at 1.
  rewrite Hv. cbn [mbind option_bind]. destruct (ap_composed_into_model (so_apply o)) eqn:Hc.
  { rewrite IH by done. cbn [rl_args rl_applied orb]. do 2 f_equal.
    - by destruct (value_as_str v).
    - destruct applied; [|done]. cbn. by rewrite Hv. }
  destruct (bool_decide_reflect (ap_launch (so_apply o) = None)) as [Hl|Hl].
  { rewrite IH by done. cbn [orb andb negb rl_args rl_applied]. do 2 f_equal.
    unfold launch_args. rewrite Hl. by destruct (value_as_str v). }
  destruct (launched_text o v Ho Hl Ha) as [text ->]. unfold value_as_argument.
  cbn [value_as_str checked mbind outcome_bind orb andb negb].
  destruct (launch_args (so_apply o) text) as [more|] eqn:Em.
  2: { unfold launch_args in Em. destruct (ap_launch (so_apply o)) as [[]|]; done. }
  cbn [expect_some mbind outcome_bind default from_option]. rewrite IH by done.
  cbn [rl_args rl_applied]. rewrite <- app_assoc. do 2 f_equal.
  destruct (negb overridden && negb (is_overridden (so_apply o) trailing)); [|done].
  destruct applied; [|done]. cbn. by rewrite Hv.
Qed.

(** ** What is reported as applied *)

Lemma lookup_record_all values options s k :
  selection_values (record_all values options s) !! k
  = if bool_decide (k ∈ so_id <$> options ∧ is_Some (values !! k)) then values !! k
    else selection_values s !! k.
Proof.
  revert s. induction options as [|o options IH]; intros s.
  { cbn. rewrite bool_decide_eq_false_2; [done|]. by intros [?%elem_of_nil _]. }
  unfold record_all. cbn [foldl]. fold (record_all values options).
  change (foldl _ ?x options) with (record_all values options x). rewrite IH.
  cbn [fmap list_fmap]. case_bool_decide as H1.
  { rewrite bool_decide_eq_true_2; [done|]. destruct H1. split; [by right|done]. }
  destruct (values !! so_id o) as [v|] eqn:Ev; cbn [from_option].
  - cbn [SessionOptionSelection_with_value selection_values].
    destruct (decide (so_id o = k)) as [<-|Hne].
    + rewrite lookup_insert_eq, bool_decide_eq_true_2; [done|]. split; [left|by eexists].
    + rewrite lookup_insert_ne by done. rewrite bool_decide_eq_false_2; [done|].
      intros [[->|Hin]%elem_of_cons Hs]; [done|]. by apply H1.
  - rewrite bool_decide_eq_false_2; [done|]. intros [[->|Hin]%elem_of_cons Hs].
    + rewrite Ev in Hs. by destruct Hs.
    + by apply H1.
Qed.

Lemma record_all_model values options s :
  selection_model (record_all values options s) = selection_model s.
Proof.
  revert s. induction options as [|o options IH]; intros s; [done|].
  unfold record_all in *. cbn [foldl]. rewrite IH. by destruct (values !! so_id o).
Qed.

Lemma record_all_size values options s :
  (size (selection_values (record_all values options s))
   <= size (selection_values s) + length options)%nat.
Proof.
  revert s. induction options as [|o options IH]; intros s; [cbn; lia|].
  unfold record_all in *. cbn [foldl length]. etransitivity; [apply IH|].
  destruct (values !! so_id o) as [v|]; cbn [from_option]; [|lia].
  cbn [SessionOptionSelection_with_value selection_values].
  destruct (selection_values s !! so_id o) eqn:E.
  - rewrite map_size_insert_Some by (by eexists). lia.
  - rewrite map_size_insert_None by done. lia.
Qed.

Lemma normal_default o launched :
  kind_ok (so_kind o) launched = true → normal_value (kind_default (so_kind o)).
Proof. unfold kind_ok. destruct (so_kind o); cbn; [intros H; bool_prop; done|done]. Qed.

Lemma value_of_normal s o :
  selection_normal s → option_ok o = true → normal_value (value_of s o).
Proof.
  intros (_ & _ & Hs) (_ & _ & Hk)%option_ok_inv. unfold value_of.
  destruct (selection_values s !! so_id o) as [v|] eqn:E; cbn.
  - by destruct (Hs _ _ E) as (_ & _ & ?).
  - by eapply normal_default.
Qed.

(** The values recorded for a model are normal. *)
Lemma record_all_normal s options values p :
  selection_normal s → options_ok options = true →
  (∀ o, o ∈ options → values !! so_id o = Some (value_of s o)) →
  selection_normal
    (record_all values (retain p options) (SessionOptionSelection_new (selection_model s))).
Proof.
  intros Hs Hok Hv. unfold options_ok in Hok. bool_prop. rename H into Ho, H1 into Hnd, H0 into Hlen.
  rewrite forallb_forall in Ho. split; [|split].
  - rewrite record_all_model. apply Hs.
  - pose proof (record_all_size values (retain p options)
      (SessionOptionSelection_new (selection_model s))) as H.
    pose proof (sublist_length _ _ (retain_sublist p options)). cbn [SessionOptionSelection_new selection_values] in H.
    rewrite map_size_empty in H. unfold len in Hlen. lia.
  - intros id value. rewrite lookup_record_all. case_bool_decide as H; [|done].
    destruct H as [(o & -> & [Hin _]%elem_of_retain)%list_elem_of_fmap _].
    intros E. rewrite (Hv o Hin) in E. injection E as <-.
    specialize (Ho o (proj1 (list_elem_of_In _ _) Hin)).
    destruct (option_ok_inv o Ho) as (Hi & Hm & _). split_and!; [done|done|].
    by apply value_of_normal.
Qed.

Lemma unique_option options o o' :
  NoDup (so_id <$> options) → o ∈ options → o' ∈ options → so_id o = so_id o' → o = o'.
Proof.
  intros Hnd [i Hi]%list_elem_of_lookup [j Hj]%list_elem_of_lookup E.
  assert (i = j) as ->; [|congruence]. eapply NoDup_lookup; [exact Hnd| |].
  - rewrite list_lookup_fmap, Hi. reflexivity.
  - rewrite list_lookup_fmap, Hj. cbn. by rewrite E.
Qed.

(** The value an option has in what was recorded. *)
Lemma value_of_recorded s options values o :
  options_ok options = true →
  (∀ o, o ∈ options → values !! so_id o = Some (value_of s o)) → o ∈ options →
  value_of (record_all values (retain effective options)
              (SessionOptionSelection_new (selection_model s))) o
  = if effective o then value_of s o else kind_default (so_kind o).
Proof.
  intros Hok Hv Hin. unfold options_ok in Hok. bool_prop. rename H1 into Hnd.
  unfold value_of at 1. rewrite lookup_record_all. destruct (effective o) eqn:He.
  - rewrite bool_decide_eq_true_2; [by rewrite (Hv o Hin)|].
    split; [|rewrite (Hv o Hin); by eexists]. apply list_elem_of_fmap. exists o. split; [done|].
    by apply elem_of_retain.
  - rewrite bool_decide_eq_false_2; [done|].
    intros [(o' & E & [Hin' He']%elem_of_retain)%list_elem_of_fmap _].
    assert (o = o') as <- by (by apply (unique_option options)). congruence.
Qed.

(** ** The resolution *)

Section resolution.
Context (id : AdapterId) (catalog : AgentSessionOptionCatalog).
Hypothesis Hcatalog : session_option_catalog id = Ok catalog.

Definition model_ok (model : SessionOptionModel) : Prop :=
  options_ok (sm_options model) = true
  ∧ (adapter_id_str id = str "cursor" → forallb effective (sm_options model) = true).

Lemma options_ok_filter p options :
  options_ok options = true → options_ok (List.filter p options) = true.
Proof.
  unfold options_ok. intros H. bool_prop. rewrite !andb_true_iff, bool_decide_eq_true.
  split_and!.
  - rewrite forallb_forall in *. intros o [Hin _]%filter_In. auto.
  - eapply sublist_NoDup; [exact H1|]. apply fmap_sublist.
    clear. induction options as [|o options IH]; cbn; [constructor|].
    destruct (p o); by constructor.
  - apply N.leb_le. etransitivity; [|exact H0]. unfold len.
    pose proof (List.filter_length_le p options). lia.
Qed.

Lemma selected_model_ok s model : selected_model catalog id s = Some model → model_ok model.
Proof using Hcatalog.
  pose proof (catalogs_ok id catalog Hcatalog) as H. unfold catalog_ok in H. bool_prop.
  rename H into Hm, H2 into Hu, H1 into He. unfold selected_model, find_model.
  destruct (List.find _ _) as [m|] eqn:E.
  - intros [= <-]. apply find_some in E as [Hin _]. rewrite forallb_forall in Hm.
    specialize (Hm m Hin). bool_prop. split; [done|]. intros Hid.
    destruct H1 as [Hne|?]; [|done]. by bool_prop.
  - destruct (valid_dynamic_model_id _); [|done]. intros [= <-].
    split; [by apply options_ok_filter|]. intros _. cbn [sm_options option_model].
    rewrite forallb_forall in *. intros o [Hin _]%filter_In. auto.
Qed.

(** What is recorded for the selected model selects it again. *)
Lemma selected_model_again s model values :
  selected_model catalog id s = Some model →
  (∀ o, o ∈ sm_options model → values !! so_id o = Some (value_of s o)) →
  selected_model catalog id
    (record_all values (retain effective (sm_options model))
       (SessionOptionSelection_new (selection_model s))) = Some model.
Proof using Hcatalog.
  intros Hs Hv. set (s' := record_all _ _ _). pose proof (selected_model_ok s model Hs) as [Hok _].
  assert (Em : selection_model s' = selection_model s) by (unfold s'; by rewrite record_all_model).
  unfold selected_model in *. rewrite Em. destruct (find_model _ _) as [m|]; [done|].
  destruct (valid_dynamic_model_id _); [|done]. injection Hs as <-. do 2 f_equal.
  cbn [sm_options option_model] in *.
  pose proof (catalogs_ok id catalog Hcatalog) as H. unfold catalog_ok in H. bool_prop.
  rename H2 into Hu, H1 into He. apply List.filter_ext_in. intros o Hin.
  rewrite forallb_forall in He. specialize (He o Hin). apply bool_decide_ext.
  unfold s'. rewrite lookup_record_all.
  match goal with |- context [bool_decide ?P] => destruct (bool_decide_reflect P) as [Hrec|Hrec] end.
  - destruct Hrec as [(o' & E & [Hin' _]%elem_of_retain)%list_elem_of_fmap Hsome].
    split; [intros _|done]. apply list_elem_of_In, filter_In in Hin' as [_ Hin'].
    bool_prop. by rewrite E.
  - split; [by intros [? ?]|]. intros Hsome. exfalso. apply Hrec.
    assert (Hin' : o ∈ List.filter (λ option,
      bool_decide (is_Some (selection_values s !! so_id option))) (unlisted_model_options id)).
    { apply list_elem_of_In, filter_In. split; [done|]. by apply bool_decide_eq_true_2. }
    split; [|rewrite (Hv o Hin'); by eexists]. apply list_elem_of_fmap. exists o.
    split; [done|]. by apply elem_of_retain.
Qed.

Lemma accepts_default kind : kind_accepts kind (kind_default kind) = true.
Proof. by destruct kind. Qed.

Lemma resolved_again s model values :
  model_ok model → resolved_model_values model s = Ok values →
  ∃ values', resolved_model_values model
      (record_all values (retain effective (sm_options model))
         (SessionOptionSelection_new (selection_model s))) = Ok values'
    ∧ (∀ o, o ∈ sm_options model → effective o = true → values' !! so_id o = values !! so_id o)
    ∧ values_for (sm_options model) values'
    ∧ (adapter_id_str id = str "cursor" → values' = values).
Proof.
  intros [Hok Hcur] Hr. destruct (resolved_values_for model s values Hok Hr) as [_ Hv].
  unfold resolved_model_values in Hr. apply insert_option_values_Ok in Hr as [Hacc ->].
  set (values := assign_values s (sm_options model) ∅) in *. set (s' := record_all _ _ _).
  assert (Hval : ∀ o, o ∈ sm_options model → value_of s' o
    = if effective o then value_of s o else kind_default (so_kind o))
    by (intros o Hin; by apply value_of_recorded).
  assert (Hacc' : accepts_all (sm_options model) s').
  { unfold accepts_all in *. rewrite Forall_forall in *. intros o Hin. rewrite Hval by done.
    destruct (effective o); [by apply Hacc|apply accepts_default]. }
  assert (Hr' : resolved_model_values model s' = Ok (assign_values s' (sm_options model) ∅))
    by (by apply insert_option_values_Ok).
  exists (assign_values s' (sm_options model) ∅).
  destruct (resolved_values_for model s' _ Hok Hr') as [Hfor Hv']. split_and!; [done| |done|].
  - intros o Hin He. by rewrite Hv', Hv, Hval, He.
  - intros Hid. apply map_eq. intros k. destruct (decide (k ∈ so_id <$> sm_options model)) as [Hin|Hni].
    + apply list_elem_of_fmap in Hin as (o & -> & Hin). specialize (Hcur Hid).
      rewrite forallb_forall in Hcur. specialize (Hcur o (proj1 (list_elem_of_In _ _) Hin)).
      by rewrite Hv', Hv, Hval, Hcur.
    + unfold values. by rewrite !lookup_values_notin.
Qed.
End resolution.

(** The command line of the model itself. *)
Definition model_args (id : AdapterId) (catalog : AgentSessionOptionCatalog)
    (model : list N) (values : gmap (list N) SessionOptionValue) : list (list N) :=
  default [] (launch_args (oc_model_apply catalog)
    (if bool_decide (adapter_id_str id = str "cursor") then compose_cursor_model model values
     else model)).

(** The launch that belongs to the options and values of a selection. *)
Definition launch_of (id : AdapterId) (catalog : AgentSessionOptionCatalog)
    (model : list N) (options : list SessionOption) (values : gmap (list N) SessionOptionValue)
    (trailing : list (list N)) : ResolvedSessionOptionLaunch :=
  let overridden := is_overridden (oc_model_apply catalog) trailing in
  MkResolvedLaunch
    (model_args id catalog model values ++ (options ≫= option_args values))
    (if overridden then None
     else Some (record_all values (retain (reported overridden trailing) options)
                  (SessionOptionSelection_new model))).

Definition options_of (model : option SessionOptionModel) : list SessionOption :=
  from_option sm_options [] model.

Lemma resolve_launch_eq id catalog selection trailing s :
  session_option_catalog id = Ok catalog → normalize_selection selection = Ok s →
  resolve_session_option_launch id selection trailing =
  match (match selected_model catalog id s with
         | Some model => resolved_model_values model s
         | None => Ok ∅
         end) with
  | Err e => Fail e
  | Ok values => Done (launch_of id catalog (selection_model s)
                         (options_of (selected_model catalog id s)) values trailing)
  end.
Proof.
  intros Hc Hn. unfold resolve_session_option_launch, launch_of, model_args. rewrite Hc, Hn.
  cbn [checked mbind outcome_bind]. destruct (selected_model catalog id s) as [model|] eqn:Em.
  - destruct (resolved_model_values model s) as [values|e] eqn:Er; [|done].
    cbn [checked mbind outcome_bind options_of from_option].
    destruct (selected_model_ok id catalog Hc s model Em) as [Hok _].
    destruct (resolved_values_for model s values Hok Er) as [Hfor _].
    unfold options_ok in Hok. bool_prop. rewrite apply_options_Done; [| |done].
    2: { apply Forall_forall. rewrite forallb_forall in H. intros o Hin. by apply H, list_elem_of_In. }
    cbn [rl_args rl_applied]. by destruct (is_overridden _ _).
  - cbn. rewrite app_nil_r. by destruct (is_overridden _ _).
Qed.

Lemma not_overridden apply : is_overridden apply [] = false.
Proof. unfold is_overridden. by destruct (ap_argument_override apply) as [[]|]. Qed.

Lemma reported_all options : retain (reported false []) options = retain effective options.
Proof.
  induction options as [|o options IH]; cbn; [done|]. rewrite IH. unfold reported, effective.
  rewrite not_overridden. cbn [negb]. by rewrite !andb_true_r.
Qed.

Lemma option_args_effective values values' o :
  (effective o = true → values' !! so_id o = values !! so_id o) →
  option_args values' o = option_args values o.
Proof.
  intros H. unfold option_args. destruct (effective o) eqn:He; [by rewrite H|].
  unfold effective in He. apply orb_false_iff in He as [-> Hl]. bool_prop.
  unfold launch_args. rewrite Hl. by do 2 case_match.
Qed.

Lemma record_all_ext values values' options s :
  (∀ o, o ∈ options → values' !! so_id o = values !! so_id o) →
  record_all values' options s = record_all values options s.
Proof.
  revert s. induction options as [|o options IH]; intros s H; [done|]. unfold record_all in *.
  cbn [foldl]. rewrite (H o) by left. apply IH. intros o' Hin. apply H. by right.
Qed.

(** The values resolved for the selected model, none when there is no model. *)
Definition resolved_values (id : AdapterId) (catalog : AgentSessionOptionCatalog)
    (s : SessionOptionSelection)
    : result SessionOptionAdapterError (gmap (list N) SessionOptionValue) :=
  match selected_model catalog id s with
  | Some model => resolved_model_values model s
  | None => Ok ∅
  end.

Lemma applied_normal id catalog s values p :
  session_option_catalog id = Ok catalog → selection_normal s →
  resolved_values id catalog s = Ok values →
  selection_normal (record_all values (retain p (options_of (selected_model catalog id s)))
                      (SessionOptionSelection_new (selection_model s))).
Proof.
  unfold resolved_values. intros Hc Hs Hv.
  destruct (selected_model catalog id s) as [model|] eqn:Em.
  - destruct (selected_model_ok id catalog Hc s model Em) as [Hok _].
    destruct (resolved_values_for model s values Hok Hv) as [_ Hval]. by apply record_all_normal.
  - split; [apply Hs|]. split; [vm_compute; discriminate|]. by intros i v E.
Qed.

(** What is applied without trailing arguments is a fixed point. *)
Lemma launch_again id catalog s values :
  session_option_catalog id = Ok catalog → selection_normal s →
  resolved_values id catalog s = Ok values →
  let launch := launch_of id catalog (selection_model s)
                  (options_of (selected_model catalog id s)) values [] in
  ∃ s', rl_applied launch = Some s' ∧ resolve_session_option_launch id s' [] = Done launch.
Proof.
  intros Hc Hs Hv launch. pose proof (applied_normal _ _ _ _ effective Hc Hs Hv) as Hnormal.
  subst launch. unfold launch_of. rewrite not_overridden. eexists. split; [done|].
  rewrite reported_all.
  rewrite (resolve_launch_eq id catalog _ [] _ Hc (normalize_selection_idem _ Hnormal)).
  rewrite record_all_model. cbn [SessionOptionSelection_new selection_model].
  unfold resolved_values in Hv.
  destruct (selected_model catalog id s) as [model|] eqn:Em; cbn [options_of from_option] in *.
  - pose proof (selected_model_ok id catalog Hc s model Em) as Hok.
    destruct (resolved_values_for model s values (proj1 Hok) Hv) as [_ Hval].
    rewrite (selected_model_again id catalog Hc s model values Em Hval).
    cbn [options_of from_option].
    destruct (resolved_again id s model values Hok Hv) as (values' & -> & Heff & _ & Hcur).
    unfold launch_of, model_args. rewrite not_overridden, reported_all. do 2 f_equal.
    + f_equal; [by case_bool_decide as Hid; [rewrite (Hcur Hid)|]|].
      apply Forall_bind_ext, Forall_forall. intros o Hin. apply option_args_effective. by apply Heff.
    + f_equal. apply record_all_ext. intros o [Hin He]%elem_of_retain. by apply Heff.
  - change (record_all values (retain effective []) ?x) with x.
    assert (selected_model catalog id (SessionOptionSelection_new (selection_model s)) = None) as ->.
    { revert Em. unfold selected_model. cbn [SessionOptionSelection_new selection_model].
      destruct (find_model _ _); [done|]. by destruct (valid_dynamic_model_id _). }
    injection Hv as <-. unfold launch_of. by rewrite not_overridden.
Qed.


Definition demo_selection : SessionOptionSelection :=
  SessionOptionSelection_with_value (SessionOptionSelection_new (str " gpt-5.5 "))
    (str "effort") (OptionString (str "high")).

