(* ===== verification/Catalog.v ===== *)
(** * The agent catalog

    Adapter registries, crates/gate4agent-adapters/src/lib.rs, and the registry
    of agent specifications, crates/gate4agent-catalog/src/registry.rs: the
    validation of a specification and the three indexes of the registry. *)

From S2P Require Import Prelude RustStr RustOrd Ids SpecTypes.

Local Open Scope N_scope.

(** ** Adapter registries *)

Definition family_code (f : AdapterFamily) : N :=
  match f with
  | PtySemantic => 0 | FamilyPipe => 1 | OneShot => 2 | FamilyAcp => 3 | Hook => 4
  | ManagedHook => 5 | FamilyHistory => 6 | FamilyResume => 7 | SessionOptions => 8
  | CapabilityProbe => 9
  end.
Definition family_of_code (n : N) : AdapterFamily :=
  match n with
  | 0 => PtySemantic | 1 => FamilyPipe | 2 => OneShot | 3 => FamilyAcp | 4 => Hook
  | 5 => ManagedHook | 6 => FamilyHistory | 7 => FamilyResume | 8 => SessionOptions
  | _ => CapabilityProbe
  end.
#[export] Instance AdapterFamily_countable : Countable AdapterFamily.
Proof. by apply (inj_countable' family_code family_of_code); intros []. Defined.
#[export] Instance AdapterId_countable : Countable AdapterId.
Proof. by apply (inj_countable' adapter_id_str MkAdapterId); intros []. Defined.
#[export] Instance AgentId_countable : Countable AgentId.
Proof. by apply (inj_countable' agent_id_str MkAgentId); intros []. Defined.

(* adapters/lib.rs AdapterDescriptor *)
Record AdapterDescriptor := MkAdapterDescriptor {
  ad_family : AdapterFamily;
  ad_binding : AdapterBinding;
  ad_agents : list AgentId
}.

(* adapters/lib.rs AdapterRegistry *)
Record AdapterRegistry := MkAdapterRegistry {
  ag_descriptors : gmap (AdapterFamily * AdapterId) AdapterDescriptor
}.

(* adapters/lib.rs AdapterRegistryError *)
Inductive AdapterRegistryError :=
| Ar_InvalidBinding (family : AdapterFamily) (adapter_id : AdapterId) (message : list N)
| Ar_MissingAgents (family : AdapterFamily) (adapter_id : AdapterId)
| Ar_Duplicate (family : AdapterFamily) (adapter_id : AdapterId).

(* adapters/lib.rs AdapterRegistry::insert *)
Definition adapter_registry_insert (descriptor : AdapterDescriptor) (r : AdapterRegistry)
    : result AdapterRegistryError AdapterRegistry :=
  let id := binding_id (ad_binding descriptor) in
  map_err (λ error, Ar_InvalidBinding (ad_family descriptor) id (AdapterBindingError_to_string error))
    (AdapterBinding_validate (ad_binding descriptor)) ;;
  guard_err (bool_decide (ad_agents descriptor = []))
    (Ar_MissingAgents (ad_family descriptor) id) ;;
  let key := (ad_family descriptor, id) in
  guard_err (bool_decide (is_Some (ag_descriptors r !! key)))
    (Ar_Duplicate (fst key) (snd key)) ;;
  Ok (MkAdapterRegistry (<[key := descriptor]> (ag_descriptors r))).

Fixpoint insert_descriptors (descriptors : list AdapterDescriptor) (r : AdapterRegistry)
    : result AdapterRegistryError AdapterRegistry :=
  match descriptors with
  | [] => Ok r
  | descriptor :: rest =>
      registry ← adapter_registry_insert descriptor r;
      insert_descriptors rest registry
  end.

(* adapters/lib.rs AdapterRegistry::new *)
Definition adapter_registry_new (descriptors : list AdapterDescriptor)
    : result AdapterRegistryError AdapterRegistry :=
  insert_descriptors descriptors (MkAdapterRegistry ∅).

(* adapters/lib.rs AdapterRegistry::get *)
Definition adapter_registry_get (r : AdapterRegistry) (family : AdapterFamily) (id : AdapterId)
    : option AdapterDescriptor := ag_descriptors r !! (family, id).

(* adapters/lib.rs AdapterRegistry::binding *)
Definition adapter_registry_binding (r : AdapterRegistry) (family : AdapterFamily) (id : list N)
    : option AdapterBinding :=
  match AdapterId_new id with
  | Ok id => ad_binding <$> ag_descriptors r !! (family, id)
  | Err _ => None
  end.

(* adapters/lib.rs AdapterRegistry::supports *)
Definition supports (r : AdapterRegistry) (family : AdapterFamily) (binding : AdapterBinding)
    : bool :=
  match adapter_registry_get r family (binding_id binding) with
  | Some descriptor =>
      bool_decide (binding_revision (ad_binding descriptor) = binding_revision binding)
  | None => false
  end.

(** ** The agent registry *)

(* catalog/registry.rs RegistryError *)
Inductive RegistryError :=
| Rg_DuplicateAgentId (agent : AgentId)
| Rg_AmbiguousCommand (command : list N) (first second : AgentId)
| Rg_EmptyDisplayName (agent : AgentId)
| Rg_InvalidRevision (agent : AgentId) (revision : list N)
| Rg_InvalidExecutableName (agent : AgentId) (field value : list N)
| Rg_InvalidProgram (agent : AgentId) (value : list N)
| Rg_MissingExpectedProcess (agent : AgentId)
| Rg_InvalidProcessMatcher (agent : AgentId) (value : list N)
| Rg_InvalidPromptFlag (agent : AgentId) (flag : list N)
| Rg_NulByte (agent : AgentId) (field : list N)
| Rg_InvalidAdapterBinding (agent : AgentId) (family : AdapterFamily)
    (adapter_id message : list N)
| Rg_UnsupportedAdapterBinding (agent : AgentId) (family : AdapterFamily)
    (adapter_id revision : list N)
| Rg_PtySidecarRequiresPty (agent : AgentId).

(** [value.contains(c)]. *)
Definition contains_char (c : N) (value : list N) : bool := existsb (N.eqb c) value.

(** What no name of an executable or a process may be. *)
Definition unusable_name (value : list N) : bool :=
  str_is_empty value || contains_char 0 value || chars_any is_whitespace value
  || contains_char 0x2f value || contains_char 0x5c value.

(* catalog/registry.rs validate_executable_name *)
Definition validate_executable_name (agent : AgentId) (field value : list N)
    : result RegistryError unit :=
  guard_err (unusable_name value) (Rg_InvalidExecutableName agent field value).

(* catalog/registry.rs validate_program *)
Definition validate_program (agent : AgentId) (value : list N) : result RegistryError unit :=
  guard_err (str_is_empty (trim value) || contains_char 0 value) (Rg_InvalidProgram agent value).

(* catalog/registry.rs validate_launch *)
Definition validate_launch (agent : AgentId) (launch : LaunchSpec) : result RegistryError unit :=
  validate_program agent (ls_program launch) ;;
  for_each (λ argument, guard_err (contains_char 0 argument)
    (Rg_NulByte agent (str "fixed argument"))) (ls_fixed_args launch).

(* catalog/registry.rs validate_adapter_binding *)
Definition validate_adapter_binding (agent : AgentId) (family : AdapterFamily)
    (binding : AdapterBinding) (adapters : AdapterRegistry) : result RegistryError unit :=
  map_err (λ error, Rg_InvalidAdapterBinding agent family (adapter_id_str (binding_id binding))
                      (AdapterBindingError_to_string error))
    (AdapterBinding_validate binding) ;;
  guard_err (negb (supports adapters family binding))
    (Rg_UnsupportedAdapterBinding agent family (adapter_id_str (binding_id binding))
       (binding_revision binding)).

(** The bindings a specification declares, with the family each must have. *)
(* catalog/registry.rs:199-247 validate_adapter_bindings *)
Definition declared_bindings (spec : AgentSpec) : list (AdapterFamily * option AdapterBinding) :=
  let transports := sp_transports spec in
  let adapters := sp_adapters spec in
  let pipe_family := (λ transport,
    match pt_protocol transport with
    | SemanticNdjson | StructuredJsonl => FamilyPipe
    | OneShotText => OneShot
    end) <$> tr_pipe transports in
  [(PtySemantic, tr_pty_adapter transports);
   (FamilyPipe, ac_pty_sidecar adapters);
   (default FamilyPipe pipe_family, pt_adapter <$> tr_pipe transports);
   (FamilyAcp, at_adapter <$> tr_acp transports);
   (Hook, ac_hook adapters);
   (ManagedHook, ac_managed_hook adapters);
   (OneShot, ac_one_shot adapters);
   (FamilyHistory, ac_history adapters);
   (FamilyResume, ac_resume adapters);
   (SessionOptions, ac_session_options adapters);
   (CapabilityProbe, ac_capability_probe adapters)].

(* catalog/registry.rs validate_adapter_bindings *)
Definition validate_adapter_bindings (spec : AgentSpec) (adapters : AdapterRegistry)
    : result RegistryError unit :=
  guard_err (bool_decide (is_Some (ac_pty_sidecar (sp_adapters spec)))
             && negb (tr_pty (sp_transports spec))) (Rg_PtySidecarRequiresPty (sp_id spec)) ;;
  for_each (λ entry,
    opt_each (λ binding, validate_adapter_binding (sp_id spec) (fst entry) binding adapters)
      (snd entry)) (declared_bindings spec).

Definition matcher_value (matcher : ProcessMatcher) : list N :=
  match matcher with
  | Matcher_Exact name => name
  | Matcher_Prefix prefix => prefix
  end.

(* catalog/registry.rs:176-188 validate_spec *)
Definition validate_prompt_flag (spec : AgentSpec) : result RegistryError unit :=
  match ps_initial (sp_prompt spec) with
  | Prompt_Flag flag | Prompt_InteractiveFlag flag =>
      guard_err (negb (starts_with flag 0x2d) || contains_char 0 flag)
        (Rg_InvalidPromptFlag (sp_id spec) flag)
  | _ => Ok tt
  end.

(* catalog/registry.rs validate_spec *)
Definition validate_spec (spec : AgentSpec) (adapters : AdapterRegistry)
    : result RegistryError unit :=
  let id := sp_id spec in
  guard_err (str_is_empty (trim (sp_revision spec)) || (256 <? str_len (sp_revision spec))
             || chars_any is_control (sp_revision spec))
    (Rg_InvalidRevision id (sp_revision spec)) ;;
  guard_err (str_is_empty (trim (sp_display_name spec))) (Rg_EmptyDisplayName id) ;;
  validate_executable_name id (str "detection command") (dt_command (sp_detection spec)) ;;
  for_each (validate_executable_name id (str "detection alias")) (dt_aliases (sp_detection spec)) ;;
  for_each (validate_executable_name id (str "required command"))
    (dt_required_commands (sp_detection spec)) ;;
  validate_launch id (sp_launch spec) ;;
  validate_adapter_bindings spec adapters ;;
  opt_each (validate_launch id)
    (transport ← tr_pipe (sp_transports spec); pt_launch_override transport) ;;
  opt_each (validate_launch id)
    (transport ← tr_acp (sp_transports spec); at_launch_override transport) ;;
  guard_err (bool_decide (length (sp_expected_processes spec) = 0%nat))
    (Rg_MissingExpectedProcess id) ;;
  for_each (λ matcher, guard_err (unusable_name (matcher_value matcher))
    (Rg_InvalidProcessMatcher id (matcher_value matcher))) (sp_expected_processes spec) ;;
  validate_prompt_flag spec.

(* catalog/registry.rs AgentRegistry *)
Record AgentRegistry := MkAgentRegistry {
  ar_specs : list AgentSpec;
  ar_id_index : gmap AgentId nat;
  ar_exact_command_index : gmap (list N) nat;
  ar_windows_command_index : gmap (list N) nat
}.

(* catalog/registry.rs:10-10 AgentRegistry *)
Definition agent_registry_default : AgentRegistry := MkAgentRegistry [] ∅ ∅ ∅.

(** The commands by which an agent is detected. *)
(* catalog/registry.rs:52-52 AgentRegistry::insert_with_adapters *)
Definition spec_commands (spec : AgentSpec) : list (list N) :=
  dt_command (sp_detection spec) :: dt_aliases (sp_detection spec).

(** [self.specs[i].id]: an index out of range would panic; the indexes never
    hold one ([registry_wf]). *)
Definition indexed_id (r : AgentRegistry) (index : nat) (otherwise : AgentId) : AgentId :=
  default otherwise (sp_id <$> ar_specs r !! index).

(* catalog/registry.rs:55-64 AgentRegistry::insert_with_adapters *)
Definition check_command (r : AgentRegistry) (spec : AgentSpec) (command : list N)
    : result RegistryError unit :=
  let normalized := normalize_executable_name command Windows in
  match ar_windows_command_index r !! normalized with
  | Some existing =>
      Err (Rg_AmbiguousCommand normalized (indexed_id r existing (sp_id spec)) (sp_id spec))
  | None => Ok tt
  end.

(** [for command in commands { index.insert(command, i); }]. *)
Definition index_commands (commands : list (list N)) (i : nat) (m : gmap (list N) nat)
    : gmap (list N) nat := foldr (λ command, <[command := i]>) m commands.

(* catalog/registry.rs AgentRegistry::insert_with_adapters *)
Definition insert_with_adapters (spec : AgentSpec) (adapters : AdapterRegistry)
    (r : AgentRegistry) : result RegistryError AgentRegistry :=
  validate_spec spec adapters ;;
  guard_err (bool_decide (is_Some (ar_id_index r !! sp_id spec)))
    (Rg_DuplicateAgentId (sp_id spec)) ;;
  for_each (check_command r spec) (spec_commands spec) ;;
  let index := length (ar_specs r) in
  Ok {| ar_specs := ar_specs r ++ [spec];
        ar_id_index := <[sp_id spec := index]> (ar_id_index r);
        ar_exact_command_index :=
          index_commands (spec_commands spec) index (ar_exact_command_index r);
        ar_windows_command_index :=
          index_commands ((λ c, normalize_executable_name c Windows) <$> spec_commands spec)
            index (ar_windows_command_index r) |}.

Fixpoint insert_specs (specs : list AgentSpec) (adapters : AdapterRegistry) (r : AgentRegistry)
    : result RegistryError AgentRegistry :=
  match specs with
  | [] => Ok r
  | spec :: rest =>
      registry ← insert_with_adapters spec adapters r;
      insert_specs rest adapters registry
  end.

(* catalog/registry.rs AgentRegistry::new_with_adapters *)
Definition new_with_adapters (specs : list AgentSpec) (adapters : AdapterRegistry)
    : result RegistryError AgentRegistry := insert_specs specs adapters agent_registry_default.

(* catalog/registry.rs AgentRegistry::get *)
Definition registry_get (r : AgentRegistry) (id : AgentId) : option AgentSpec :=
  index ← ar_id_index r !! id; ar_specs r !! index.

(* catalog/registry.rs AgentRegistry::get_by_id *)
Definition registry_get_by_id (r : AgentRegistry) (id : list N) : option AgentSpec :=
  registry_get r (MkAgentId id).
(* catalog/registry.rs AgentRegistry::len *)
Definition registry_len (r : AgentRegistry) : N := len (ar_specs r).
(* catalog/registry.rs AgentRegistry::is_empty *)
Definition registry_is_empty (r : AgentRegistry) : bool :=
  bool_decide (length (ar_specs r) = 0%nat).

(* catalog/registry.rs AgentRegistry::find_by_command *)
Definition find_by_command (r : AgentRegistry) (command_or_path : list N)
    (platform : RuntimePlatform) : option AgentSpec :=
  let normalized := normalize_executable_name command_or_path platform in
  index ← (match platform with
           | Windows => ar_windows_command_index r !! normalized
           | MacOs | Linux | Wsl => ar_exact_command_index r !! normalized
           end);
  spec ← ar_specs r !! index;
  if supports_platform spec platform then Some spec else None.

(** ** Adapter runtimes *)

Section runtimes.
Context {T : Type}.

(* adapters/lib.rs AdapterRuntime *)
Record AdapterRuntime := MkAdapterRuntime {
  rt_binding : AdapterBinding;
  rt_implementation : T
}.

(* adapters/lib.rs AdapterRuntimeRegistry *)
Record AdapterRuntimeRegistry := MkRuntimeRegistry {
  rr_runtimes : gmap (AdapterFamily * AdapterId) AdapterRuntime
}.

(* adapters/lib.rs AdapterRuntimeRegistryError *)
Inductive AdapterRuntimeRegistryError :=
| Rt_Duplicate (family : AdapterFamily) (adapter_id : AdapterId)
| Rt_InvalidBinding (family : AdapterFamily) (adapter_id : AdapterId) (message : list N)
| Rt_Unavailable (family : AdapterFamily) (adapter_id : AdapterId) (revision : list N)
| Rt_RevisionMismatch (family : AdapterFamily) (adapter_id : AdapterId)
    (requested available : list N).

(* adapters/lib.rs AdapterRuntimeRegistry::insert *)
Definition runtime_insert (family : AdapterFamily) (binding : AdapterBinding) (implementation : T)
    (r : AdapterRuntimeRegistry) : result AdapterRuntimeRegistryError AdapterRuntimeRegistry :=
  map_err (λ error, Rt_InvalidBinding family (binding_id binding) (AdapterBindingError_to_string error))
    (AdapterBinding_validate binding) ;;
  let key := (family, binding_id binding) in
  guard_err (bool_decide (is_Some (rr_runtimes r !! key)))
    (Rt_Duplicate family (binding_id binding)) ;;
  Ok (MkRuntimeRegistry (<[key := MkAdapterRuntime binding implementation]> (rr_runtimes r))).

(* adapters/lib.rs AdapterRuntimeRegistry::resolve *)
Definition runtime_resolve (family : AdapterFamily) (binding : AdapterBinding)
    (r : AdapterRuntimeRegistry) : result AdapterRuntimeRegistryError T :=
  match rr_runtimes r !! (family, binding_id binding) with
  | None => Err (Rt_Unavailable family (binding_id binding) (binding_revision binding))
  | Some runtime =>
      guard_err (negb (bool_decide
          (binding_revision (rt_binding runtime) = binding_revision binding)))
        (Rt_RevisionMismatch family (binding_id binding) (binding_revision binding)
           (binding_revision (rt_binding runtime))) ;;
      Ok (rt_implementation runtime)
  end.

(* adapters/lib.rs AdapterRuntimeRegistry::len *)
Definition runtime_len (r : AdapterRuntimeRegistry) : N := N.of_nat (size (rr_runtimes r)).
(* adapters/lib.rs AdapterRuntimeRegistry::is_empty *)
Definition runtime_is_empty (r : AdapterRuntimeRegistry) : bool :=
  bool_decide (size (rr_runtimes r) = 0%nat).

(** What was inserted is resolved under its own family and revision, and an
    insertion changes no other resolution. *)
Theorem runtime_insert_resolve family binding implementation r r' :
  runtime_insert family binding implementation r = Ok r' →
  runtime_resolve family binding r' = Ok implementation
  ∧ runtime_len r' = runtime_len r + 1
  ∧ ∀ family' binding', (family', binding_id binding') ≠ (family, binding_id binding) →
      runtime_resolve family' binding' r' = runtime_resolve family' binding' r.
Proof.
  unfold runtime_insert. rewrite !seq_Ok. intros (_ & Hd%guard_err_Ok & [= <-]).
  bool_prop. apply eq_None_not_Some in Hd. unfold runtime_resolve, runtime_len. cbn [rr_runtimes].
  split_and!.
  - rewrite lookup_insert_eq. cbn [rt_binding rt_implementation].
    by rewrite bool_decide_eq_true_2.
  - rewrite map_size_insert_None by done. lia.
  - intros family' binding' Hne. by rewrite lookup_insert_ne by done.
Qed.
End runtimes.
