(* ===== verification/CatalogFacts.v ===== *)
(** * What the agent catalog guarantees

    The indexes of a registry agree with its specifications, no two agents
    share an id or a command, and an agent is found under each of its commands,
    wherever the executable lies. *)

From S2P Require Import Prelude RustStr RustOrd Ids SpecTypes Catalog.

Local Open Scope N_scope.

(** ** The indexes *)

Definition normalized_commands (spec : AgentSpec) : list (list N) :=
  (λ c, normalize_executable_name c Windows) <$> spec_commands spec.

(** [m] maps exactly the keys of each specification to its position. *)
Definition indexes {K} `{Countable K} (keys : AgentSpec → list K) (specs : list AgentSpec)
    (m : gmap K nat) : Prop :=
  ∀ k i, m !! k = Some i ↔ ∃ spec, specs !! i = Some spec ∧ k ∈ keys spec.

Record registry_wf (adapters : AdapterRegistry) (r : AgentRegistry) : Prop := {
  rw_valid : ∀ spec, spec ∈ ar_specs r → validate_spec spec adapters = Ok tt;
  rw_ids : indexes (λ spec, [sp_id spec]) (ar_specs r) (ar_id_index r);
  rw_exact : indexes spec_commands (ar_specs r) (ar_exact_command_index r);
  rw_windows : indexes normalized_commands (ar_specs r) (ar_windows_command_index r)
}.

Section indexes.
Context {K : Type} `{Countable K} (keys : AgentSpec → list K).

Lemma indexes_empty : indexes keys [] ∅.
Proof. intros k i. rewrite lookup_empty. split; [done|]. by intros (? & ? & _). Qed.

Lemma lookup_foldr_insert (ks : list K) (i : nat) (m : gmap K nat) k :
  foldr (λ k, <[k := i]>) m ks !! k = if decide (k ∈ ks) then Some i else m !! k.
Proof.
  induction ks as [|k' ks IH]; cbn [foldr]; [by rewrite decide_False by apply not_elem_of_nil|].
  destruct (decide (k' = k)) as [->|Hne].
  - by rewrite lookup_insert_eq, decide_True by left.
  - rewrite lookup_insert_ne, IH by done. destruct (decide (k ∈ ks)) as [Hin|Hni].
    + by rewrite decide_True by (by right).
    + rewrite decide_False; [done|]. by rewrite not_elem_of_cons.
Qed.

(** Appending a specification whose keys are new. *)
Lemma indexes_snoc specs spec m :
  indexes keys specs m → (∀ k, k ∈ keys spec → m !! k = None) →
  indexes keys (specs ++ [spec]) (foldr (λ k, <[k := length specs]>) m (keys spec)).
Proof.
  intros Hm Hnew k i. rewrite lookup_foldr_insert. split.
  - destruct (decide _) as [Hin|Hni].
    + intros [= <-]. exists spec. by rewrite list_lookup_middle.
    + intros (spec' & Hi & Hk)%Hm. exists spec'. split; [|done]. by apply lookup_app_l_Some.
  - intros (spec' & Hi & Hk). apply lookup_app_Some in Hi as [Hi|[Hle Hi]].
    + assert (E : m !! k = Some i) by (apply Hm; eauto). rewrite decide_False; [done|].
      intros Hin%Hnew. congruence.
    + apply list_lookup_singleton_Some in Hi as [Hi <-]. rewrite decide_True by done. f_equal. lia.
Qed.

(** A key belongs to one specification. *)
Lemma indexes_unique specs m i j spec spec' k :
  indexes keys specs m → specs !! i = Some spec → specs !! j = Some spec' →
  k ∈ keys spec → k ∈ keys spec' → i = j.
Proof.
  intros Hm Hi Hj Hk Hk'. assert (E1 : m !! k = Some i) by (apply Hm; eauto).
  assert (E2 : m !! k = Some j) by (apply Hm; eauto). congruence.
Qed.
End indexes.

(** ** Insertion *)

Lemma normalized_elem c spec :
  c ∈ spec_commands spec → normalize_executable_name c Windows ∈ normalized_commands spec.
Proof. apply (list_elem_of_fmap_2 (λ c, normalize_executable_name c Windows)). Qed.

Lemma check_command_Ok r spec command :
  check_command r spec command = Ok tt
  ↔ ar_windows_command_index r !! normalize_executable_name command Windows = None.
Proof. unfold check_command. destruct (_ !! _); split; done. Qed.

Definition insertable (spec : AgentSpec) (adapters : AdapterRegistry) (r : AgentRegistry) : Prop :=
  validate_spec spec adapters = Ok tt
  ∧ (∀ other, other ∈ ar_specs r → sp_id other ≠ sp_id spec
     ∧ ∀ c, c ∈ normalized_commands other → c ∉ normalized_commands spec).

Lemma insert_conditions spec adapters r :
  registry_wf adapters r →
  (ar_id_index r !! sp_id spec = None
   ∧ Forall (λ c, check_command r spec c = Ok tt) (spec_commands spec))
  ↔ ∀ other, other ∈ ar_specs r → sp_id other ≠ sp_id spec
     ∧ ∀ c, c ∈ normalized_commands other → c ∉ normalized_commands spec.
Proof.
  intros [_ I _ W]. rewrite Forall_forall. setoid_rewrite check_command_Ok. split.
  - intros [Hid Hc] other [i Hi]%list_elem_of_lookup. split.
    + intros E. assert (E' : ar_id_index r !! sp_id spec = Some i); [|congruence].
      apply I. exists other. split; [done|]. cbn. rewrite E. left.
    + intros c Hin (x & -> & Hx)%list_elem_of_fmap. specialize (Hc x Hx).
      assert (E : ar_windows_command_index r !! normalize_executable_name x Windows = Some i);
        [|congruence]. apply W. by exists other.
  - intros Hno. split.
    + apply eq_None_not_Some. intros [i (other & Hi & Hk%list_elem_of_singleton)%I].
      destruct (Hno other) as [Hne _]; [by eapply list_elem_of_lookup_2|]. by apply Hne.
    + intros x Hx. apply eq_None_not_Some. intros [i (other & Hi & Hc)%W].
      destruct (Hno other) as [_ H]; [by eapply list_elem_of_lookup_2|].
      eapply H; [done|]. by apply normalized_elem.
Qed.

(** An exact command of an agent determines its normalized one. *)
Lemma exact_new spec adapters r :
  registry_wf adapters r → Forall (λ c, check_command r spec c = Ok tt) (spec_commands spec) →
  ∀ c, c ∈ spec_commands spec → ar_exact_command_index r !! c = None.
Proof.
  intros [_ _ X W] Hc c Hin. rewrite Forall_forall in Hc. specialize (Hc c Hin).
  apply check_command_Ok in Hc. apply eq_None_not_Some. intros [i (other & Hi & Ho)%X].
  assert (E : ar_windows_command_index r !! normalize_executable_name c Windows = Some i);
    [|congruence]. apply W. exists other. split; [done|]. by apply normalized_elem.
Qed.

Lemma insert_wf spec adapters r r' :
  registry_wf adapters r → insert_with_adapters spec adapters r = Ok r' →
  insertable spec adapters r ∧ registry_wf adapters r' ∧ ar_specs r' = ar_specs r ++ [spec].
Proof.
  intros Hr. unfold insert_with_adapters. rewrite !seq_Ok, guard_err_Ok, for_each_Ok.
  intros (Hv & Hid & Hc & [= <-]). bool_prop. apply eq_None_not_Some in Hid.
  pose proof Hr as [V I X W]. split_and!; [|split; cbn|done].
  - split; [done|]. by apply (insert_conditions spec adapters r Hr).
  - intros s [Hs| ->%list_elem_of_singleton]%elem_of_app; [by apply V|done].
  - apply (indexes_snoc (λ spec, [sp_id spec])); [done|]. by intros k ->%list_elem_of_singleton.
  - apply (indexes_snoc spec_commands); [done|]. by eapply exact_new.
  - apply (indexes_snoc normalized_commands); [done|].
    intros k (c & -> & Hin)%list_elem_of_fmap. rewrite Forall_forall in Hc.
    by apply (check_command_Ok r spec), Hc.
Qed.

(** A specification is inserted exactly when it is valid and shares neither
    its id nor, compared as Windows compares them, a command with an agent of
    the registry; it is then the last one, and all three indexes of the
    registry stay exact: each id and each command maps to the one agent that
    has it. *)
Theorem registry_insert_spec spec adapters r :
  registry_wf adapters r →
  (insertable spec adapters r ↔ is_ok (insert_with_adapters spec adapters r) = true)
  ∧ ∀ r', insert_with_adapters spec adapters r = Ok r' →
      registry_wf adapters r' ∧ ar_specs r' = ar_specs r ++ [spec].
Proof.
  intros Hr. split; [|by intros r' (_ & ? & ?)%insert_wf]. split.
  - intros [Hv Hno]. apply (insert_conditions spec adapters r Hr) in Hno as [Hid Hc].
    unfold insert_with_adapters. rewrite Hv, Hid, bool_decide_eq_false_2 by done. cbn.
    apply for_each_Ok in Hc. cbn in Hc. by rewrite Hc.
  - destruct (insert_with_adapters spec adapters r) as [r'|] eqn:E; [|done]. intros _.
    by apply (insert_wf spec adapters r r').
Qed.

Lemma empty_wf adapters : registry_wf adapters agent_registry_default.
Proof. split; try apply indexes_empty. by intros spec ?%elem_of_nil. Qed.

Lemma insert_specs_wf specs adapters r r' :
  registry_wf adapters r → insert_specs specs adapters r = Ok r' →
  registry_wf adapters r' ∧ ar_specs r' = ar_specs r ++ specs.
Proof.
  revert r. induction specs as [|spec specs IH]; intros r Hr; cbn.
  { intros [= <-]. by rewrite app_nil_r. }
  intros (r1 & H1 & H2)%result_bind_Ok. destruct (insert_wf _ _ _ _ Hr H1) as (_ & Hr1 & E).
  destruct (IH r1 Hr1 H2) as [Hr' ->]. by rewrite E, <- app_assoc.
Qed.

(** ** Finding an agent *)

Lemma registry_get_spec adapters r id spec :
  registry_wf adapters r → registry_get r id = Some spec ↔ spec ∈ ar_specs r ∧ sp_id spec = id.
Proof.
  intros [_ I _ _]. unfold registry_get. rewrite bind_Some. split.
  - intros (i & (spec' & Hi & Hk%list_elem_of_singleton)%I & Hspec).
    rewrite Hspec in Hi. injection Hi as ->. split; [|done]. by eapply list_elem_of_lookup_2.
  - intros [[i Hi]%list_elem_of_lookup <-]. exists i. split; [|done]. apply I.
    exists spec. split; [done|left].
Qed.

(** The names under which an agent is looked up on a platform. *)
Definition lookup_names (platform : RuntimePlatform) (spec : AgentSpec) : list (list N) :=
  if bool_decide (platform = Windows) then normalized_commands spec else spec_commands spec.

Lemma find_by_command_index adapters r command platform spec :
  registry_wf adapters r →
  find_by_command r command platform = Some spec ↔
  spec ∈ ar_specs r ∧ supports_platform spec platform = true
  ∧ normalize_executable_name command platform ∈ lookup_names platform spec.
Proof.
  intros [_ _ X W]. set (name := normalize_executable_name command platform).
  assert (Hi : ∃ m, indexes (lookup_names platform) (ar_specs r) m
    ∧ find_by_command r command platform =
        (index ← m !! name; spec ← ar_specs r !! index;
         if supports_platform spec platform then Some spec else None)).
  { unfold find_by_command, lookup_names, name.
    destruct platform; [exists (ar_windows_command_index r); by split|..];
      exists (ar_exact_command_index r); by split. }
  destruct Hi as (m & Hm & ->). rewrite bind_Some. split.
  - intros (i & (spec' & Hi & Hn)%Hm & (spec2 & E & Hs)%bind_Some).
    rewrite Hi in E. injection E as <-. destruct (supports_platform spec' platform) eqn:Es; [|done].
    injection Hs as <-. split_and!; [by eapply list_elem_of_lookup_2|done|done].
  - intros ([i Hi]%list_elem_of_lookup & Hs & Hn). exists i. split; [apply Hm; eauto|].
    rewrite Hi. cbn. by rewrite Hs.
Qed.

(** *** Paths *)

Definition plain_name (value : list N) : Prop := unusable_name value = false.

Lemma plain_name_chars value :
  plain_name value → value ≠ []
  ∧ Forall (λ c, is_whitespace c = false ∧ is_slash c = false) value.
Proof.
  unfold plain_name, unusable_name, contains_char. rewrite !orb_false_iff.
  intros ((((Hne & _) & Hw) & Hs) & Hb). split; [by destruct value|].
  apply chars_any_false in Hw. apply (chars_any_false (N.eqb 0x2f)) in Hs.
  apply (chars_any_false (N.eqb 0x5c)) in Hb.
  rewrite !Forall_forall in *. intros c Hc. split; [by apply Hw|].
  specialize (Hs c Hc). specialize (Hb c Hc). unfold is_slash.
  by rewrite N.eqb_sym, Hs, N.eqb_sym, Hb.
Qed.

Lemma trim_start_app a b :
  (∀ c x, b = c :: x → is_whitespace c = false) → b ≠ [] →
  trim_start (a ++ b) = trim_start a ++ b.
Proof.
  intros Hb Hne. induction a as [|c a IH]; cbn; [|by destruct (is_whitespace c)].
  destruct b as [|c x]; [done|]. cbn. by rewrite (Hb c x eq_refl).
Qed.

Lemma last_piece_end p a c b :
  p c = true → Forall (λ x, p x = false) b → last_piece p (a ++ c :: b) = b.
Proof.
  intros Hc Hb. unfold last_piece. by rewrite split_on_sep, (split_on_plain p b), last_snoc.
Qed.

(** A path to a plain name, or the name itself, is that name. *)
Inductive locates (name : list N) : list N → Prop :=
| locates_name : locates name name
| locates_path dir slash : is_slash slash = true → locates name (dir ++ slash :: name).

Lemma trim_end_app a b :
  b ≠ [] → Forall (λ c, is_whitespace c = false) b →
  reverse (trim_start (reverse (a ++ b))) = a ++ b.
Proof.
  intros Hne Hb. rewrite reverse_app. apply Forall_reverse in Hb.
  destruct (reverse b) as [|c x] eqn:E.
  { apply (f_equal reverse) in E. by rewrite reverse_involutive in E. }
  apply Forall_inv in Hb. cbn [app trim_start]. rewrite Hb.
  by rewrite app_comm_cons, <- E, <- reverse_app, reverse_involutive.
Qed.

Lemma slash_not_whitespace c : is_slash c = true → is_whitespace c = false.
Proof. intros [->%N.eqb_eq| ->%N.eqb_eq]%orb_true_iff; done. Qed.

Lemma trim_plain_end a name :
  plain_name name → (a = [] ∨ ∃ d slash, a = d ++ [slash] ∧ is_slash slash = true) →
  ∃ d, trim (a ++ name) = d ++ name ∧ (d = [] ∨ ∃ d' slash, d = d' ++ [slash] ∧ is_slash slash = true).
Proof.
  intros [Hne Hn]%plain_name_chars Ha.
  assert (Hw : Forall (λ c, is_whitespace c = false) name)
    by (eapply Forall_impl; [exact Hn|]; by intros ? []).
  unfold trim. destruct Ha as [->|(d & slash & -> & Hs)].
  - exists []. rewrite trim_start_app; [|intros c x ->; by apply Forall_inv in Hw|done].
    cbn [trim_start]. by rewrite trim_end_app; [auto|..].
  - exists (trim_start d ++ [slash]). rewrite <- app_assoc, trim_start_app; [|intros c x [= <- <-]|done].
    + rewrite app_assoc, trim_end_app by done. split; [done|]. right. by exists (trim_start d), slash.
    + by apply slash_not_whitespace.
Qed.

Lemma basename_of path name :
  plain_name name → locates name path → last_piece is_slash (trim path) = name.
Proof.
  intros Hp Hl. assert (Hs : Forall (λ c, is_slash c = false) name).
  { apply plain_name_chars in Hp as [_ Hn]. eapply Forall_impl; [exact Hn|]. by intros ? []. }
  assert (E : ∃ a, path = a ++ name
    ∧ (a = [] ∨ ∃ d slash, a = d ++ [slash] ∧ is_slash slash = true)).
  { destruct Hl as [|dir slash Hslash]; [by exists []; auto|]. exists (dir ++ [slash]).
    rewrite <- app_assoc. eauto 10. }
  destruct E as (a & -> & Ha). destruct (trim_plain_end a name Hp Ha) as (d & -> & Hd).
  destruct Hd as [->|(d' & slash & -> & Hslash)].
  - unfold last_piece. cbn [app]. by rewrite split_on_plain.
  - rewrite <- app_assoc. by apply last_piece_end.
Qed.

Lemma normalize_path path name platform :
  plain_name name → locates name path →
  normalize_executable_name path platform = normalize_executable_name name platform.
Proof.
  intros Hp Hl. unfold normalize_executable_name.
  by rewrite (basename_of path name), (basename_of name name); [| |constructor| |].
Qed.

(** The commands of a valid specification are plain names. *)
Lemma valid_commands spec adapters c :
  validate_spec spec adapters = Ok tt → c ∈ spec_commands spec → plain_name c.
Proof.
  unfold validate_spec, validate_executable_name, plain_name. rewrite !seq_Ok, !for_each_Ok.
  intros (_ & _ & Hc & Ha & _). apply guard_err_Ok in Hc. rewrite Forall_forall in Ha.
  intros [->|Hin]%elem_of_cons; [done|]. specialize (Ha c Hin). by apply guard_err_Ok in Ha.
Qed.

Lemma command_normalized spec adapters c path platform :
  validate_spec spec adapters = Ok tt → c ∈ spec_commands spec → locates c path →
  normalize_executable_name path platform ∈ lookup_names platform spec.
Proof.
  intros Hv Hc Hl. pose proof (valid_commands spec adapters c Hv Hc) as Hp.
  rewrite (normalize_path path c platform Hp Hl). unfold lookup_names.
  destruct (bool_decide_reflect (platform = Windows)) as [->|Hne]; [by apply normalized_elem|].
  unfold normalize_executable_name. rewrite bool_decide_eq_false_2 by done.
  by rewrite (basename_of c c Hp) by constructor.
Qed.

(** C35: a registry built from a list of specifications keeps them in order, no
    two of them with one id; each is found under its id and, on every platform
    it supports, under each of its commands and every path to such a command;
    and what a lookup finds is an agent of the list with that id, or one that
    has the looked-up name among its commands. *)
Theorem catalog_finds_every_agent specs adapters r :
  new_with_adapters specs adapters = Ok r →
  ar_specs r = specs ∧ NoDup (sp_id <$> specs)
  ∧ (∀ spec id, registry_get r id = Some spec ↔ spec ∈ specs ∧ sp_id spec = id)
  ∧ (∀ spec command path platform,
       spec ∈ specs → supports_platform spec platform = true → command ∈ spec_commands spec →
       locates command path → find_by_command r path platform = Some spec)
  ∧ ∀ path platform spec, find_by_command r path platform = Some spec →
      spec ∈ specs ∧ supports_platform spec platform = true
      ∧ normalize_executable_name path platform ∈ lookup_names platform spec.
Proof.
  intros H. destruct (insert_specs_wf _ _ _ _ (empty_wf adapters) H) as [Hr E]. cbn in E.
  rewrite <- E. split_and!; [done| | | |].
  - apply NoDup_alt. intros i j id Hi Hj. apply list_lookup_fmap_Some in Hi as (s & -> & Hi).
    apply list_lookup_fmap_Some in Hj as (s' & Es & Hj).
    apply (indexes_unique (λ spec, [sp_id spec]) _ _ i j s s' (sp_id s) (rw_ids _ _ Hr)); try done;
      apply list_elem_of_singleton; done.
  - intros spec id. by apply (registry_get_spec adapters).
  - intros spec command path platform Hin Hs Hc Hl. apply (find_by_command_index adapters); [done|].
    split_and!; [done|done|]. eapply command_normalized; [|done|done]. by apply (rw_valid _ _ Hr).
  - intros path platform spec. by apply (find_by_command_index adapters).
Qed.

(** ** Two agents *)

Definition demo_binding (id : string) : AdapterBinding :=
  MkAdapterBinding (MkAdapterId (str id)) (str "1") CapturedFixture.

Definition demo_adapters : AdapterRegistry :=
  MkAdapterRegistry {[
    (FamilyPipe, MkAdapterId (str "pipe.ndjson")) :=
      MkAdapterDescriptor FamilyPipe (demo_binding "pipe.ndjson")
        [MkAgentId (str "claude")] ]}.

Definition demo_spec (id : string) (alias : string) (pipe : option PipeTransportSpec) : AgentSpec :=
  {| sp_id := MkAgentId (str id); sp_revision := str "1"; sp_display_name := str id;
     sp_detection := MkDetectionSpec (str id) [str alias] [] [Wsl];
     sp_launch := MkLaunchSpec (str id) [str "--quiet"];
     sp_expected_processes := [Matcher_Exact (str id)];
     sp_prompt := MkPromptSpec (Prompt_Flag (str "--prompt")) None;
     sp_readiness := AgentReadinessSpec_default;
     sp_capabilities := MkAgentCapabilities (Some SlashLine)
       (MkTransportCapabilities true None pipe None) AgentAdapterCapabilities_default;
     sp_verification := Spec_Gate4AgentVerified |}.

Definition claude_spec : AgentSpec := demo_spec "claude" "claude-code"
  (Some (MkPipeTransport (demo_binding "pipe.ndjson") SemanticNdjson None Delivery_StdinClose)).
Definition codex_spec : AgentSpec := demo_spec "codex" "Codex.EXE2" None.

Definition demo_registry : AgentRegistry :=
  match new_with_adapters [claude_spec; codex_spec] demo_adapters with
  | Ok registry => registry
  | Err _ => agent_registry_default
  end.

Lemma demo_registry_ok :
  new_with_adapters [claude_spec; codex_spec] demo_adapters = Ok demo_registry.
Proof.
  unfold demo_registry. destruct (new_with_adapters _ _) eqn:E; [done|]. exfalso.
  assert (H : is_ok (new_with_adapters [claude_spec; codex_spec] demo_adapters) = true)
    by (vm_compute; reflexivity).
  by rewrite E in H.
Qed.

(** A third agent is refused for the alias of the first, in any case and with a
    Windows suffix, and accepted under another. *)
Lemma registry_insert_spec_witness :
  registry_wf demo_adapters demo_registry
  ∧ insert_with_adapters (demo_spec "other" "CLAUDE-code.cmd" None) demo_adapters demo_registry
    = Err (Rg_AmbiguousCommand (str "claude-code") (MkAgentId (str "claude"))
             (MkAgentId (str "other")))
  ∧ insertable (demo_spec "other" "another" None) demo_adapters demo_registry.
Proof.
  destruct (insert_specs_wf _ _ _ _ (empty_wf demo_adapters) demo_registry_ok) as [Hr _].
  split_and!; [done|vm_compute; reflexivity|].
  apply (registry_insert_spec (demo_spec "other" "another" None) demo_adapters demo_registry Hr).
  vm_compute; reflexivity.
Defined.

Lemma catalog_finds_every_agent_witness :
  find_by_command demo_registry (str "  C:\bin\Claude-Code.CMD ") Windows = Some claude_spec
  ∧ find_by_command demo_registry (str "/usr/bin/codex") Linux = Some codex_spec.
Proof.
  split; [vm_compute; reflexivity|].
  destruct (catalog_finds_every_agent _ _ _ demo_registry_ok) as (_ & _ & _ & Hfind & _).
  apply (Hfind codex_spec (str "codex")); [by right; left|reflexivity|by left|].
  apply (locates_path (str "codex") (str "/usr/bin") 0x2f). reflexivity.
Defined.
