(* ===== verification/Builtin.v ===== *)
(** * The built-in adapters and agents

    The tables of crates/gate4agent-adapters/src/lib.rs and
    crates/gate4agent-catalog/src/builtin.rs. Both registries are built with
    [expect]; they never panic. *)

From S2P Require Import Prelude RustStr RustOrd Ids SpecTypes OneShot SessionOptions Catalog.
From S2P Require Import CatalogFacts.

Local Open Scope N_scope.

(* adapters/lib.rs BUILTIN_ADAPTER_REVISION *)
Definition BUILTIN_ADAPTER_REVISION : list N := str "gate4agent-adapter/v1".

(** ** Adapters *)

Section adapters.
Context {E : Type}.

(* adapters/lib.rs descriptor_with_revision_and_verification *)
Definition descriptor_with_revision_and_verification (family : AdapterFamily)
    (id revision : list N) (verification : AdapterVerification) : outcome E AdapterDescriptor :=
  let agent := if bool_decide (id = str "claude-code") then str "claude" else id in
  adapter_id ← expect_ok (AdapterId_new id);
  binding ← expect_ok (AdapterBinding_new adapter_id revision verification);
  agent_id ← expect_ok (AgentId_new agent);
  Done (MkAdapterDescriptor family binding [agent_id]).

(* adapters/lib.rs descriptor_with_revision *)
Definition descriptor_with_revision (family : AdapterFamily) (id revision : list N)
    : outcome E AdapterDescriptor :=
  descriptor_with_revision_and_verification family id revision SyntheticFixture.

(* adapters/lib.rs descriptor *)
Definition adapter_descriptor (family : AdapterFamily) (id : list N)
    : outcome E AdapterDescriptor :=
  descriptor_with_revision family id BUILTIN_ADAPTER_REVISION.

(* adapters/lib.rs:283-289 builtin_descriptors *)
Definition one_shot_revision (id : list N) : list N * AdapterVerification :=
  if bool_decide (id = str "claude") then (CLAUDE_CODE_INLINE_REVISION, VendorCanary)
  else if bool_decide (id = str "codex") then (CODEX_CLI_INLINE_REVISION, VendorCanary)
  else if bool_decide (id = str "kimi") then (KIMI_CODE_INLINE_REVISION, VendorCanary)
  else (ONE_SHOT_REVISION, SyntheticFixture).

(* adapters/lib.rs builtin_descriptors *)
Definition builtin_descriptors : outcome E (list AdapterDescriptor) :=
  let three := [str "claude-code"; str "codex"; str "kimi"] in
  let four := [str "claude-code"; str "codex"; str "grok"; str "kimi"] in
  mapM id
    ((adapter_descriptor PtySemantic <$> three)
     ++ (adapter_descriptor FamilyPipe <$> three)
     ++ ((λ id, descriptor_with_revision_and_verification OneShot id
                  (fst (one_shot_revision id)) (snd (one_shot_revision id)))
         <$> [str "claude"; str "codex"; str "kimi"])
     ++ (adapter_descriptor FamilyAcp <$> four)
     ++ (four ≫= λ id, [adapter_descriptor FamilyHistory id; adapter_descriptor FamilyResume id])
     ++ ((λ id, descriptor_with_revision SessionOptions id SESSION_OPTION_CATALOG_REVISION)
         <$> four)).

(* adapters/lib.rs builtin_adapter_registry *)
Definition builtin_adapter_registry : outcome E AdapterRegistry :=
  descriptors ← builtin_descriptors;
  expect_ok (adapter_registry_new descriptors).

(** ** Agents *)

(* catalog/builtin.rs ORCA_REFERENCE_REVISION *)
Definition ORCA_REFERENCE_REVISION : list N := str "d8629c41c832436463d5f0b4e4deb95f867fdc42".

(* catalog/builtin.rs binding *)
Definition builtin_binding (family : AdapterFamily) (id : list N)
    : outcome E (option AdapterBinding) :=
  registry ← builtin_adapter_registry;
  Done (adapter_registry_binding registry family id).

(** [option.and_then(|id| binding(family, id))]. *)
Definition bind_adapter (family : AdapterFamily) (id : option (list N))
    : outcome E (option AdapterBinding) :=
  match id with
  | Some id => builtin_binding family id
  | None => Done None
  end.

(* catalog/builtin.rs readiness *)
Definition builtin_readiness (id : list N) : AgentReadinessSpec :=
  let d := AgentReadinessSpec_default in
  {| rd_timeout_ms := rd_timeout_ms d; rd_poll_interval_ms := rd_poll_interval_ms d;
     rd_wrapper_child_fallback_after_polls := rd_wrapper_child_fallback_after_polls d;
     rd_allow_title_idle := rd_allow_title_idle d;
     rd_followup_requires_terminal := bool_decide (id ∈ [str "claude"; str "codex"; str "kimi"]);
     rd_draft_signal :=
       if bool_decide (id = str "codex") then Signal_CodexComposerPrompt
       else if bool_decide (id = str "kimi") then Signal_BracketedPaste
       else if bool_decide (id = str "claude") then Signal_CursorAfterBracketedPaste
       else Signal_QuietAfterBracketedPaste;
     rd_draft_quiet_ms := rd_draft_quiet_ms d |}.

(** [option.or_else(f)]. *)
Definition or_else {A} (o : option A) (f : outcome E (option A)) : outcome E (option A) :=
  match o with
  | Some a => Done (Some a)
  | None => f
  end.

(* catalog/builtin.rs capabilities *)
Definition builtin_capabilities (id : list N) : outcome E AgentCapabilities :=
  let adapter_id := if bool_decide (id = str "claude") then str "claude-code" else id in
  let transport_id :=
    if bool_decide (id ∈ [str "claude"; str "codex"; str "kimi"; str "grok"])
    then Some adapter_id else None in
  let inline := bool_decide (id ∈ [str "claude"; str "codex"; str "kimi"]) in
  let one_shot_id := if inline then Some id else None in
  let structured_id := if inline then Some adapter_id else None in
  let transport := λ protocol adapter, MkPipeTransport adapter protocol None Delivery_None in
  structured ← bind_adapter FamilyPipe structured_id;
  one_shot_pipe ← or_else (option_map (transport StructuredJsonl) structured)
    (binding ← bind_adapter OneShot one_shot_id; Done (option_map (transport OneShotText) binding));
  pipe ← or_else one_shot_pipe
    (binding ← bind_adapter FamilyPipe transport_id; Done (option_map (transport SemanticNdjson) binding));
  pty_adapter ← bind_adapter PtySemantic transport_id;
  acp ← bind_adapter FamilyAcp transport_id;
  one_shot ← bind_adapter OneShot one_shot_id;
  history ← builtin_binding FamilyHistory adapter_id;
  resume ← builtin_binding FamilyResume adapter_id;
  session_options ← builtin_binding SessionOptions adapter_id;
  capability_probe ← builtin_binding CapabilityProbe adapter_id;
  Done
    {| ag_agent_commands :=
         if bool_decide (id ∈ [str "claude"; str "codex"]) then Some SlashLine else None;
       ag_transports :=
         {| tr_pty := true; tr_pty_adapter := pty_adapter; tr_pipe := pipe;
            tr_acp := option_map (λ adapter, MkAcpTransport adapter None) acp |};
       ag_adapters :=
         {| ac_pty_sidecar := None; ac_hook := None; ac_managed_hook := None;
            ac_one_shot := one_shot; ac_history := history; ac_resume := resume;
            ac_session_options := session_options; ac_capability_probe := capability_probe |} |}.

(* catalog/builtin.rs spec *)
Definition builtin_spec (id display_name command : list N) (aliases : list (list N))
    (initial : InitialPromptMode) : outcome E AgentSpec :=
  agent_id ← expect_ok (AgentId_new id);
  capabilities ← builtin_capabilities id;
  Done {| sp_id := agent_id;
          sp_revision := str "orca:" ++ ORCA_REFERENCE_REVISION;
          sp_display_name := display_name;
          sp_detection := MkDetectionSpec command aliases [] [];
          sp_launch := MkLaunchSpec command [];
          sp_expected_processes := [Matcher_Exact command];
          sp_prompt := MkPromptSpec initial None;
          sp_readiness := builtin_readiness id;
          sp_capabilities := capabilities;
          sp_verification := Spec_Reference |}.
End adapters.

#[export] Instance fields_AgentSpec : Fields AgentSpec :=
  fields_of MkAgentSpec < sp_id; sp_revision; sp_display_name; sp_detection; sp_launch;
    sp_expected_processes; sp_prompt; sp_readiness; sp_capabilities; sp_verification >.

Section agents.
Context {E : Type}.

Definition expects (matcher : ProcessMatcher) (spec : AgentSpec) : AgentSpec :=
  spec <| sp_expected_processes ::= λ processes, processes ++ [matcher] |>.

(* catalog/builtin.rs grok_spec *)
Definition grok_spec : outcome E AgentSpec :=
  value ← builtin_spec (str "grok") (str "xAI Grok CLI") (str "grok") []
            (Prompt_Positional true);
  Done (expects (Matcher_Prefix (str "grok-")) value).

(* catalog/builtin.rs kimi_spec *)
Definition kimi_spec : outcome E AgentSpec :=
  value ← builtin_spec (str "kimi") (str "Kimi Code") (str "kimi") [] Prompt_AfterReady;
  Done (expects (Matcher_Exact (str "kimi-code")) value).

(* catalog/builtin.rs codex_spec *)
Definition builtin_codex_spec : outcome E AgentSpec :=
  value ← builtin_spec (str "codex") (str "OpenAI Codex") (str "codex") []
            (Prompt_Positional false);
  Done (expects (Matcher_Prefix (str "codex-"))
          (value <| sp_launch ::= λ launch,
             MkLaunchSpec (ls_program launch)
               (ls_fixed_args launch ++ [str "-c"; str "windows_wsl_setup_acknowledged=true"]) |>)).

(* catalog/builtin.rs with_native_draft_flag *)
Definition with_native_draft_flag (spec : AgentSpec) (flag : list N) : AgentSpec :=
  spec <| sp_prompt ::= λ prompt, MkPromptSpec (ps_initial prompt) (Some (Draft_Flag flag)) |>.

(* catalog/builtin.rs builtin_specs *)
Definition builtin_specs : outcome E (list AgentSpec) :=
  claude ← builtin_spec (str "claude") (str "Claude Code") (str "claude") []
             (Prompt_Positional false);
  codex ← builtin_codex_spec;
  grok ← grok_spec;
  kimi ← kimi_spec;
  Done [with_native_draft_flag claude (str "--prefill"); codex; grok; kimi].

(* catalog/registry.rs AgentRegistry::new *)
Definition agent_registry_new (specs : list AgentSpec) : outcome RegistryError AgentRegistry :=
  adapters ← builtin_adapter_registry;
  checked (new_with_adapters specs adapters).

(* catalog/registry.rs AgentRegistry::insert *)
Definition agent_registry_insert (spec : AgentSpec) (r : AgentRegistry)
    : outcome RegistryError AgentRegistry :=
  adapters ← builtin_adapter_registry;
  checked (insert_with_adapters spec adapters r).

(* catalog/builtin.rs builtin_registry *)
Definition builtin_registry : outcome E AgentRegistry :=
  specs ← builtin_specs;
  match agent_registry_new specs with
  | Done registry => Done registry
  | Fail _ | Panic => Panic
  end.
End agents.

(** ** The tables are valid *)

(** Everything an agent declares is implemented: its one-shot adapter has a
    specification, its session-option adapter a catalog, and it declares no
    pipe of one-shot text without a one-shot adapter. *)
Definition declarations_implemented (spec : AgentSpec) : bool :=
  from_option (λ binding, is_ok (one_shot_spec (binding_id binding))) true
    (ac_one_shot (sp_adapters spec))
  && from_option (λ binding, is_ok (session_option_catalog (binding_id binding))) true
       (ac_session_options (sp_adapters spec))
  && (negb (from_option (λ transport, bool_decide (pt_protocol transport = OneShotText)) false
              (tr_pipe (sp_transports spec)))
      || bool_decide (is_Some (ac_one_shot (sp_adapters spec)))).

Definition built_in {A} (o : outcome RegistryError A) (default : A) : A :=
  match o with
  | Done a => a
  | Fail _ | Panic => default
  end.
Definition the_builtin_adapters : AdapterRegistry :=
  built_in builtin_adapter_registry (MkAdapterRegistry ∅).
Definition the_builtin_specs : list AgentSpec := built_in builtin_specs [].
Definition the_builtin_registry : AgentRegistry :=
  built_in builtin_registry agent_registry_default.

Definition is_done {E A} (o : outcome E A) : bool :=
  match o with Done _ => true | Fail _ | Panic => false end.

Lemma built_in_done {A} (o : outcome RegistryError A) d :
  is_done o = true → o = Done (built_in o d).
Proof. by destruct o. Qed.

Lemma builtin_adapters_done E : builtin_adapter_registry (E := E) = Done the_builtin_adapters.
Proof. vm_compute. reflexivity. Qed.
Lemma builtin_specs_done : builtin_specs (E := RegistryError) = Done the_builtin_specs.
Proof. apply built_in_done. vm_compute. reflexivity. Qed.
Lemma builtin_registry_done : builtin_registry (E := RegistryError) = Done the_builtin_registry.
Proof. apply built_in_done. vm_compute. reflexivity. Qed.

Lemma checked_done {E F A} (r : result E A) (a : A) :
  match checked r with
  | Done a => Done a
  | Fail _ | Panic => Panic
  end = (Done a : outcome F A) → r = Ok a.
Proof. destruct r; cbn; [by intros [= ->]|done]. Qed.

Lemma builtin_registry_new :
  new_with_adapters the_builtin_specs the_builtin_adapters = Ok the_builtin_registry.
Proof.
  pose proof builtin_registry_done as H. unfold builtin_registry in H.
  rewrite builtin_specs_done in H. cbn [mbind outcome_bind] in H. unfold agent_registry_new in H.
  rewrite builtin_adapters_done in H. cbn [mbind outcome_bind] in H.
  by apply checked_done in H.
Qed.

Lemma builtin_wf : registry_wf the_builtin_adapters the_builtin_registry.
Proof. exact (proj1 (insert_specs_wf _ _ _ _ (empty_wf _) builtin_registry_new)). Qed.

Lemma builtin_ids :
  sp_id <$> ar_specs the_builtin_registry
  = [MkAgentId (str "claude"); MkAgentId (str "codex"); MkAgentId (str "grok");
     MkAgentId (str "kimi")].
Proof. vm_compute. reflexivity. Qed.

Lemma builtin_checked spec :
  spec ∈ ar_specs the_builtin_registry →
  tr_pty (sp_transports spec) = true ∧ declarations_implemented spec = true
  ∧ dt_unsupported_platforms (sp_detection spec) = [].
Proof.
  assert (Hall : forallb (λ spec, tr_pty (sp_transports spec) && declarations_implemented spec
    && bool_decide (dt_unsupported_platforms (sp_detection spec) = []))
    (ar_specs the_builtin_registry) = true) by (vm_compute; reflexivity).
  rewrite forallb_forall in Hall. intros Hin%list_elem_of_In. specialize (Hall spec Hin).
  apply andb_true_iff in Hall as [Hall Hu%bool_decide_eq_true].
  apply andb_true_iff in Hall as [Ht Hd]. exact (conj Ht (conj Hd Hu)).
Qed.

