(* ===== verification/CatalogOptions.v ===== *)
(** * Options and probes of the agents of a catalog

    crates/gate4agent-catalog/src/session_options.rs and capability.rs, which
    bind an agent to its session options and to its capability probe, and
    crates/gate4agent-adapters/src/capability.rs, the probe itself. *)

From S2P Require Import Prelude RustStr RustOrd Ids Input RecordTypes SpecTypes.
From S2P Require Import SessionOptions Catalog Builtin.

Local Open Scope N_scope.

(** ** Session options of an agent *)

(* catalog/session_options.rs SessionOptionControlPlan *)
Record SessionOptionControlPlan := MkControlPlan {
  cp_semantics : SessionOptionMidSessionPlan;
  cp_command : option AgentCommand
}.

(* catalog/session_options.rs SessionOptionCatalogError *)
Inductive SessionOptionCatalogError :=
| Sc_UnsupportedAgent (agent : AgentId)
| Sc_UnavailableBinding (agent_id : AgentId) (adapter_id revision : list N)
| Sc_Adapter (error : SessionOptionAdapterError)
| Sc_InvalidGeneratedCommand.

(* catalog/session_options.rs session_option_binding *)
Definition session_option_binding (spec : AgentSpec)
    : outcome SessionOptionCatalogError AdapterBinding :=
  match ac_session_options (sp_adapters spec) with
  | None => Fail (Sc_UnsupportedAgent (sp_id spec))
  | Some binding =>
      registry ← builtin_adapter_registry;
      if negb (supports registry SessionOptions binding) then
        Fail (Sc_UnavailableBinding (sp_id spec) (adapter_id_str (binding_id binding))
                (binding_revision binding))
      else Done binding
  end.

(* catalog/session_options.rs session_option_catalog_for *)
Definition session_option_catalog_for (spec : AgentSpec)
    : outcome SessionOptionCatalogError AgentSessionOptionCatalog :=
  binding ← session_option_binding spec;
  checked (map_err Sc_Adapter (session_option_catalog (binding_id binding))).

(* catalog/session_options.rs resolve_session_option_launch_for *)
Definition resolve_session_option_launch_for (spec : AgentSpec)
    (selection : SessionOptionSelection) (trailing_agent_args : list (list N))
    : outcome SessionOptionCatalogError ResolvedSessionOptionLaunch :=
  binding ← session_option_binding spec;
  map_fail Sc_Adapter
    (resolve_session_option_launch (binding_id binding) selection trailing_agent_args).

(* catalog/session_options.rs plan_mid_session_option_for *)
Definition plan_mid_session_option_for (spec : AgentSpec) (current : SessionOptionSelection)
    (option_id : list N) (target : SessionOptionValue)
    : outcome SessionOptionCatalogError SessionOptionMidSessionPlan :=
  binding ← session_option_binding spec;
  checked (map_err Sc_Adapter
    (plan_mid_session_option (binding_id binding) current option_id target)).

(* catalog/session_options.rs plan_mid_session_action_for *)
Definition plan_mid_session_action_for (spec : AgentSpec) (current : SessionOptionSelection)
    (option_id : list N) : outcome SessionOptionCatalogError SessionOptionMidSessionPlan :=
  binding ← session_option_binding spec;
  checked (map_err Sc_Adapter (plan_mid_session_action (binding_id binding) current option_id)).

(* catalog/session_options.rs:106-110 bind_control_plan *)
Definition plan_command_text (semantics : SessionOptionMidSessionPlan) : option (list N) :=
  match semantics with
  | Plan_Noop => None
  | Plan_Command command _ _ _ | Plan_AgentPicker command => Some command
  end.

(* catalog/session_options.rs:111-125 bind_control_plan *)
Definition parse_command (spec : AgentSpec) (command : list N)
    : outcome SessionOptionCatalogError AgentCommand :=
  match split_ascii_whitespace command with
  | name :: arguments =>
      match strip_prefix name (str "/") with
      | Some name =>
          if str_is_empty name then Fail Sc_InvalidGeneratedCommand
          else Done (MkAgentCommand (sp_id spec) name arguments)
      | None => Fail Sc_InvalidGeneratedCommand
      end
  | [] => Fail Sc_InvalidGeneratedCommand
  end.

(* catalog/session_options.rs bind_control_plan *)
Definition bind_control_plan (spec : AgentSpec) (semantics : SessionOptionMidSessionPlan)
    : outcome SessionOptionCatalogError SessionOptionControlPlan :=
  match plan_command_text semantics with
  | None => Done (MkControlPlan semantics None)
  | Some text =>
      command ← parse_command spec text;
      Done (MkControlPlan semantics (Some command))
  end.

(* catalog/session_options.rs plan_mid_session_control_for *)
Definition plan_mid_session_control_for (spec : AgentSpec) (current : SessionOptionSelection)
    (option_id : list N) (target : SessionOptionValue)
    : outcome SessionOptionCatalogError SessionOptionControlPlan :=
  semantics ← plan_mid_session_option_for spec current option_id target;
  bind_control_plan spec semantics.

(* catalog/session_options.rs plan_mid_session_action_control_for *)
Definition plan_mid_session_action_control_for (spec : AgentSpec)
    (current : SessionOptionSelection) (option_id : list N)
    : outcome SessionOptionCatalogError SessionOptionControlPlan :=
  semantics ← plan_mid_session_action_for spec current option_id;
  bind_control_plan spec semantics.

(* catalog/session_options.rs parse_session_option_models_for *)
Definition parse_session_option_models_for (spec : AgentSpec) (stdout : list N)
    : outcome SessionOptionCatalogError (list SessionOptionModel) :=
  binding ← session_option_binding spec;
  checked (map_err Sc_Adapter (parse_session_option_models (binding_id binding) stdout)).

(** ** Capability probes *)

(* adapters/capability.rs CAPABILITY_PROBE_REVISION *)
Definition CAPABILITY_PROBE_REVISION : list N :=
  str "gate4agent-capability-probe/orca-d8629c4/v1".
(* adapters/capability.rs CAPABILITY_PROBE_OUTPUT_MAX_BYTES *)
Definition CAPABILITY_PROBE_OUTPUT_MAX_BYTES : N := 4 * 1024 * 1024.

(* adapters/capability.rs CapabilityProbePlan *)
Record CapabilityProbePlan := MkProbePlan { pp_program : list N; pp_args : list (list N) }.

(* adapters/capability.rs CapabilityProbeAdapterError *)
Inductive CapabilityProbeAdapterError :=
| Cp_UnsupportedAdapter (id : list N)
| Cp_OutputTooLarge.

(* adapters/capability.rs capability_probe_plan *)
Definition capability_probe_plan (adapter_id : AdapterId)
    : result CapabilityProbeAdapterError CapabilityProbePlan :=
  let id := adapter_id_str adapter_id in
  if bool_decide (id = str "cursor")
  then Ok (MkProbePlan (str "cursor-agent") [str "--list-models"])
  else Err (Cp_UnsupportedAdapter id).

(** The text before and after the first ['-'] between two white spaces. *)
(* adapters/capability.rs model_separator *)
Fixpoint model_separator (before line : list N) : option (list N * list N) :=
  match line with
  | [] => None
  | c :: after =>
      if (c =? 0x2d) && from_option is_whitespace false (last before)
         && from_option is_whitespace false (head after)
      then Some (before, after)
      else model_separator (before ++ [c]) after
  end.

(** One round of the loop over the suffixes: [Some] is its [return]. *)
(* adapters/capability.rs:75-85 strip_cursor_status_suffix *)
Definition strip_status (label suffix : list N)
    : outcome CapabilityProbeAdapterError (option (list N)) :=
  if str_len suffix <=? str_len label then
    pieces ← expect_some (split_at label (str_len label - str_len suffix));
    let (prefix, tail) := pieces : list N * list N in
    if eq_ignore_ascii_case tail suffix && from_option is_whitespace false (last prefix)
    then Done (Some (trim_end prefix)) else Done None
  else Done None.

(* adapters/capability.rs strip_cursor_status_suffix *)
Definition strip_cursor_status_suffix (label : list N)
    : outcome CapabilityProbeAdapterError (list N) :=
  first ← strip_status label (str "(default)");
  match first with
  | Some prefix => Done prefix
  | None =>
      second ← strip_status label (str "(current)");
      Done (default label second)
  end.

(* adapters/capability.rs:39-64 parse_capability_models *)
Fixpoint collect_capability_models (ls : list (list N)) (models : list CapabilityModelSummary)
    : outcome CapabilityProbeAdapterError (list CapabilityModelSummary) :=
  match ls with
  | [] => Done models
  | raw_line :: rest =>
      match model_separator [] (trim raw_line) with
      | None => collect_capability_models rest models
      | Some (before, after) =>
          label ← strip_cursor_status_suffix (trim after);
          let model := MkModel (trim before) label in
          if negb (is_ok (CapabilityModelSummary_validate model))
             || bool_decide (model_id model ∈ model_id <$> models)
          then collect_capability_models rest models
          else
            let models := models ++ [model] in
            if len models =? CAPABILITY_MODELS_MAX then Done models
            else collect_capability_models rest models
      end
  end.

(* adapters/capability.rs parse_capability_models *)
Definition parse_capability_models (adapter_id : AdapterId) (stdout : list N)
    : outcome CapabilityProbeAdapterError (list CapabilityModelSummary) :=
  _ ← checked (capability_probe_plan adapter_id);
  if CAPABILITY_PROBE_OUTPUT_MAX_BYTES <? str_len stdout then Fail Cp_OutputTooLarge
  else collect_capability_models (lines stdout) [].

(* catalog/capability.rs CapabilityProbeCatalogError *)
Inductive CapabilityProbeCatalogError :=
| Cc_UnsupportedAgent (agent : AgentId)
| Cc_MissingSessionOptions (agent : AgentId)
| Cc_MismatchedAdapters (agent_id : AgentId) (capability_probe_id session_options_id : list N)
| Cc_UnavailableBinding (agent_id : AgentId) (adapter_id revision : list N)
| Cc_Adapter (error : CapabilityProbeAdapterError).

(* catalog/capability.rs capability_probe_binding *)
Definition capability_probe_binding (spec : AgentSpec)
    : outcome CapabilityProbeCatalogError AdapterBinding :=
  match ac_capability_probe (sp_adapters spec) with
  | None => Fail (Cc_UnsupportedAgent (sp_id spec))
  | Some binding =>
      registry ← builtin_adapter_registry;
      if negb (supports registry CapabilityProbe binding) then
        Fail (Cc_UnavailableBinding (sp_id spec) (adapter_id_str (binding_id binding))
                (binding_revision binding))
      else Done binding
  end.

(* catalog/capability.rs ResolvedCapabilityProbePlan *)
Record ResolvedCapabilityProbePlan := MkResolvedProbe {
  rp_program : list N;
  rp_args : list (list N)
}.

(* catalog/capability.rs resolve_capability_probe_for *)
Definition resolve_capability_probe_for (spec : AgentSpec)
    : outcome CapabilityProbeCatalogError ResolvedCapabilityProbePlan :=
  probe ← capability_probe_binding spec;
  match ac_session_options (sp_adapters spec) with
  | None => Fail (Cc_MissingSessionOptions (sp_id spec))
  | Some session_options =>
      if negb (bool_decide (binding_id session_options = binding_id probe)) then
        Fail (Cc_MismatchedAdapters (sp_id spec) (adapter_id_str (binding_id probe))
                (adapter_id_str (binding_id session_options)))
      else
        adapter ← checked (map_err Cc_Adapter (capability_probe_plan (binding_id probe)));
        Done (MkResolvedProbe (ls_program (sp_launch spec))
                (ls_fixed_args (sp_launch spec) ++ pp_args adapter))
  end.

(* catalog/capability.rs parse_capability_models_for *)
Definition parse_capability_models_for (spec : AgentSpec) (stdout : list N)
    : outcome CapabilityProbeCatalogError (list CapabilityModelSummary) :=
  binding ← capability_probe_binding spec;
  map_fail Cc_Adapter (parse_capability_models (binding_id binding) stdout).
