(* ===== verification/CatalogOptionFacts.v ===== *)
(** * What the options and probes of a catalog guarantee

    The commands that change an option are commands of the agent; the models
    read from the output of an agent are bounded, valid and distinct. *)

From S2P Require Import Prelude RustStr RustOrd Ids Input RecordTypes SpecTypes.
From S2P Require Import SessionOptions SessionOptionFacts Catalog CatalogFacts Builtin CatalogOptions.

Local Open Scope N_scope.

(** ** Commands of a running session *)

(** A command of an agent: a slash and a name without white space. *)
Definition slash_command (command : list N) : bool :=
  match command with
  | slash :: name => (slash =? 0x2f) && negb (str_is_empty name)
                     && negb (chars_any is_whitespace command)
  | [] => false
  end.

Definition mid_session_ok (mid : SessionOptionMidSessionApplication) : bool :=
  match mid with
  | Mid_Command command _ _ | Mid_ToggleCommand command | Mid_AgentPicker command =>
      slash_command command
  | Mid_Unsupported => true
  end.

Definition catalog_commands_ok (c : AgentSessionOptionCatalog) : bool :=
  mid_session_ok (ap_mid_session (oc_model_apply c))
  && forallb (λ model, forallb (λ o, mid_session_ok (ap_mid_session (so_apply o)))
                         (sm_options model)) (oc_models c).

Lemma catalogs_commands_ok id c :
  session_option_catalog id = Ok c → catalog_commands_ok c = true.
Proof.
  destruct id as [id]. unfold session_option_catalog. cbn [adapter_id_str]. intros H.
  repeat (case_bool_decide; [injection H as <-; subst id; vm_compute; reflexivity|]).
  discriminate.
Qed.

Lemma ascii_whitespace c : is_ascii_whitespace c = true → is_whitespace c = true.
Proof.
  unfold is_ascii_whitespace. rewrite !orb_true_iff, !N.eqb_eq.
  intros [[[[->| ->]| ->]| ->]| ->]; reflexivity.
Qed.

(** A text without white space is one piece. *)
Lemma split_atom text :
  chars_any is_whitespace text = false → text ≠ [] → split_ascii_whitespace text = [text].
Proof.
  intros Hw Hne. unfold split_ascii_whitespace. rewrite split_on_plain; [by destruct text|].
  apply chars_any_false in Hw. eapply Forall_impl; [exact Hw|]. intros c Hc.
  destruct (is_ascii_whitespace c) eqn:E; [|done]. apply ascii_whitespace in E. congruence.
Qed.

Lemma split_command command value :
  slash_command command = true → chars_any is_whitespace value = false →
  split_ascii_whitespace (command ++ str " " ++ value)
  = command :: (if bool_decide (value = []) then [] else [value]).
Proof.
  intros Hc Hv. unfold split_ascii_whitespace. change (str " " ++ value) with (0x20 :: value).
  rewrite split_on_sep by done. rewrite List.filter_app.
  fold (split_ascii_whitespace command). fold (split_ascii_whitespace value).
  destruct command as [|c name]; [done|]. cbn [slash_command] in Hc. bool_prop.
  rewrite split_atom by done. cbn [app]. f_equal. case_bool_decide as Hv'; [by subst|].
  by rewrite split_atom.
Qed.

Lemma parse_slash spec command arguments text :
  slash_command command = true → split_ascii_whitespace text = command :: arguments →
  ∃ name, command = 0x2f :: name ∧ parse_command spec text = Done (MkAgentCommand (sp_id spec) name arguments).
Proof.
  intros Hc E. unfold parse_command. rewrite E. destruct command as [|c name]; [done|].
  cbn [slash_command] in Hc. bool_prop. subst c. exists name. split; [done|].
  assert (strip_prefix (0x2f :: name) (str "/") = Some name) as -> by (by destruct name).
  by destruct name.
Qed.

(** A planned command is one of the agent's, with at most one argument. *)
Definition planned (semantics : SessionOptionMidSessionPlan) : Prop :=
  ∀ text, plan_command_text semantics = Some text →
    ∃ command arguments, slash_command command = true ∧ (length arguments <= 1)%nat
      ∧ split_ascii_whitespace text = command :: arguments.

Lemma planned_command command value target semantics :
  slash_command command = true → value_as_command_atom target = Ok value →
  plan_command_text semantics = Some (command ++ str " " ++ value) → planned semantics.
Proof.
  intros Hc Hv E text Et. assert (text = command ++ str " " ++ value) as -> by congruence. unfold value_as_command_atom in Hv.
  apply result_bind_Ok in Hv as (v & _ & Hv). apply seq_Ok in Hv as [Hw [= <-]].
  rewrite guard_err_Ok in Hw. exists command. eexists. split; [done|].
  split; [|by apply split_command]. by case_bool_decide; cbn; lia.
Qed.

Lemma planned_plain semantics command :
  slash_command command = true → plan_command_text semantics = Some command → planned semantics.
Proof.
  intros Hc E text Et. assert (text = command) as -> by congruence. exists command, [].
  split; [done|]. split; [cbn; lia|]. destruct command as [|c name]; [done|].
  cbn [slash_command] in Hc. bool_prop. by apply split_atom.
Qed.

Lemma find_elem {A} (p : A → bool) l x : List.find p l = Some x → In x l.
Proof. by intros [? _]%find_some. Qed.

(** The application a plan is made from is one of the catalog. *)
Lemma target_application id catalog current option_id target apply model label :
  session_option_catalog id = Ok catalog →
  mid_session_target catalog current option_id target = Ok (apply, model, label) →
  mid_session_ok (ap_mid_session apply) = true.
Proof.
  intros Hc%catalogs_commands_ok H. unfold catalog_commands_ok in Hc. bool_prop.
  rename H0 into Hm, H1 into Ho. unfold mid_session_target in H. case_bool_decide.
  { destruct (value_as_str target); [by injection H as <- _ _|done]. }
  destruct (find_model catalog _) as [m|] eqn:Em; [|done].
  destruct (List.find _ (sm_options m)) as [o|] eqn:Eo; [|done].
  apply seq_Ok in H as [_ [= <- _ _]]. rewrite forallb_forall in Ho.
  specialize (Ho m (find_elem _ _ _ Em)). rewrite forallb_forall in Ho.
  exact (Ho o (find_elem _ _ _ Eo)).
Qed.

Lemma planned_noop : planned Plan_Noop.
Proof. by intros text. Qed.

Lemma option_planned id current option_id target semantics :
  plan_mid_session_option id current option_id target = Ok semantics → planned semantics.
Proof.
  unfold plan_mid_session_option. intros (catalog & Hc & H)%result_bind_Ok.
  apply result_bind_Ok in H as (s & _ & H). apply seq_Ok in H as [_ H].
  apply result_bind_Ok in H as ([[apply model] label] & Ht & H).
  pose proof (target_application _ _ _ _ _ _ _ _ Hc Ht) as Hok.
  destruct (ap_mid_session apply) as [command picker detection|command|command|]; cbn in Hok.
  - apply result_bind_Ok in H as (value & Hv & [= <-]). by apply (planned_command command value target).
  - unfold plan_toggle in H. destruct (value_as_bool target); [|done].
    destruct (_ ≫= value_as_bool); [|done]. case_bool_decide; injection H as <-;
      [apply planned_noop|by eapply planned_plain].
  - injection H as <-. by eapply planned_plain.
  - destruct (ap_composed_into_model apply); [|done]. unfold plan_composed in H.
    destruct (find_model catalog model) as [m|]; [|done].
    apply result_bind_Ok in H as (values & _ & H). apply catalogs_commands_ok in Hc.
    unfold catalog_commands_ok in Hc. bool_prop. rename H0 into Hm.
    destruct (ap_mid_session (oc_model_apply catalog)); try done.
    apply result_bind_Ok in H as (value & Hv & [= <-]).
    by apply (planned_command command value _ _ Hm Hv).
Qed.

Lemma action_planned id current option_id semantics :
  plan_mid_session_action id current option_id = Ok semantics → planned semantics.
Proof.
  unfold plan_mid_session_action. intros (catalog & Hc & H)%result_bind_Ok.
  apply result_bind_Ok in H as (s & _ & H). apply seq_Ok in H as [_ H].
  apply result_bind_Ok in H as (apply & Ha & H).
  assert (Hok : mid_session_ok (ap_mid_session apply) = true).
  { apply catalogs_commands_ok in Hc. unfold catalog_commands_ok in Hc. bool_prop.
    destruct (bool_decide (option_id = str "model")); [by injection Ha as <-|].
    destruct (find_model catalog _) as [m|] eqn:Em; [|done].
    destruct (List.find _ (sm_options m)) as [o|] eqn:Eo; [|done]. injection Ha as <-.
    rename H1 into Ho. rewrite forallb_forall in Ho. specialize (Ho m (find_elem _ _ _ Em)).
    rewrite forallb_forall in Ho. exact (Ho o (find_elem _ _ _ Eo)). }
  destruct (ap_mid_session apply); try done; cbn in Hok.
  - case_bool_decide; [done|]. injection H as <-. by eapply planned_plain.
  - injection H as <-. by eapply planned_plain.
Qed.

Lemma session_option_binding_cases spec :
  (∃ error, session_option_binding spec = Fail error ∧ error ≠ Sc_InvalidGeneratedCommand)
  ∨ ∃ binding, session_option_binding spec = Done binding.
Proof.
  unfold session_option_binding. destruct (ac_session_options _) as [binding|]; [|by left; eexists].
  rewrite builtin_adapters_done. cbn [mbind outcome_bind].
  destruct (supports _ _ _); cbn; [by right; eexists|by left; eexists].
Qed.

Lemma bind_planned spec semantics :
  planned semantics →
  ∃ command, bind_control_plan spec semantics = Done (MkControlPlan semantics command)
    ∧ (command = None ↔ semantics = Plan_Noop)
    ∧ ∀ c, command = Some c →
        command_agent_id c = sp_id spec ∧ command_name c ≠ []
        ∧ chars_any is_whitespace (command_name c) = false
        ∧ (length (command_arguments c) <= 1)%nat.
Proof.
  intros Hp. unfold bind_control_plan. destruct (plan_command_text semantics) as [text|] eqn:Et.
  - destruct (Hp text Et) as (command & arguments & Hc & Hl & Es).
    destruct (parse_slash spec command arguments text Hc Es) as (name & -> & ->).
    eexists. split; [reflexivity|]. split; [split; [done|by intros ->]|].
    intros c [= <-]. cbn [slash_command chars_any existsb] in Hc. bool_prop.
    apply orb_false_iff in H0 as [_ Hw]. split; [done|]. cbn [command_name command_arguments].
    split; [by intros ->|done].
  - exists None. split; [done|]. split; [|done]. split; [|done]. intros _.
    by destruct semantics.
Qed.



(** ** Model lists *)

(** What a list of models read line by line keeps: at most [max] entries, each
    accepted, with distinct ids. *)
Definition model_list {A} (id : A → list N) (accept : A → Prop) (max : N) (models : list A) : Prop :=
  len models <= max ∧ Forall accept models ∧ NoDup (id <$> models).

Lemma model_list_snoc {A} (id : A → list N) accept max models x :
  model_list id accept max models → len models ≠ max → accept x → id x ∉ id <$> models →
  model_list id accept max (models ++ [x]).
Proof.
  intros (Hl & Ha & Hn) Hne Hx Hid. split_and!.
  - unfold len in *. rewrite length_app. cbn. lia.
  - apply Forall_app. split; [done|by apply Forall_singleton].
  - rewrite fmap_app. apply NoDup_app. split_and!; [done| |by apply NoDup_singleton].
    intros y Hy Hx'%list_elem_of_singleton. apply Hid. by rewrite <- Hx'.
Qed.

Definition listed (model : SessionOptionModel) : Prop :=
  valid_dynamic_model_id (sm_id model) = true.

Lemma collect_models_list ls models :
  model_list sm_id listed SESSION_OPTION_MODELS_MAX models →
  len models ≠ SESSION_OPTION_MODELS_MAX →
  model_list sm_id listed SESSION_OPTION_MODELS_MAX (collect_models ls models).
Proof.
  revert models. induction ls as [|line ls IH]; intros models Hm Hne; cbn [collect_models]; [done|].
  destruct (negb (valid_dynamic_model_id (model_candidate line))) eqn:Hv; cbn [orb]; [by apply IH|].
  destruct (eq_ignore_ascii_case _ _); cbn [orb]; [by apply IH|].
  destruct (bool_decide_reflect (model_candidate line ∈ sm_id <$> models)); [by apply IH|].
  apply negb_false_iff in Hv.
  assert (Hm' : model_list sm_id listed SESSION_OPTION_MODELS_MAX
    (models ++ [listed_model (model_candidate line)])) by (by apply model_list_snoc).
  destruct (_ =? _) eqn:E; [done|]. apply IH; [done|]. by apply N.eqb_neq.
Qed.

Definition accepted_model (model : CapabilityModelSummary) : Prop :=
  CapabilityModelSummary_validate model = Ok tt.

Lemma collect_capability_list ls models models' :
  model_list model_id accepted_model CAPABILITY_MODELS_MAX models →
  len models ≠ CAPABILITY_MODELS_MAX →
  collect_capability_models ls models = Done models' →
  model_list model_id accepted_model CAPABILITY_MODELS_MAX models'.
Proof.
  revert models. induction ls as [|line ls IH]; intros models Hm Hne; cbn [collect_capability_models].
  { by intros [= <-]. }
  destruct (model_separator [] (trim line)) as [[before after]|]; [|by apply IH].
  destruct (strip_cursor_status_suffix (trim after)) as [label|e|]; cbn [mbind outcome_bind]; [|done..].
  set (model := MkModel (trim before) label).
  destruct (negb (is_ok (CapabilityModelSummary_validate model))) eqn:Hv; cbn [orb]; [by apply IH|].
  destruct (bool_decide_reflect (model_id model ∈ model_id <$> models)); [by apply IH|].
  apply negb_false_iff, is_ok_unit in Hv.
  assert (Hm' : model_list model_id accepted_model CAPABILITY_MODELS_MAX (models ++ [model]))
    by (by apply model_list_snoc).
  destruct (_ =? _) eqn:E; [by intros [= <-]|]. apply IH; [done|]. by apply N.eqb_neq.
Qed.

(** Every byte index of an ASCII text is the boundary of a character. *)
Lemma split_at_ascii s index :
  Forall (λ c, c < 0x80) s → index <= str_len s → is_Some (split_at s index).
Proof.
  intros Hs. revert index. induction Hs as [|c s Hc _ IH]; intros index Hi; cbn [split_at str_len] in *.
  { assert (index = 0) as -> by lia. by eexists. }
  destruct (index =? 0) eqn:E0; [by eexists|]. bool_prop.
  assert (Hl : len_utf8 c = 1) by (unfold len_utf8; by rewrite (proj2 (N.ltb_lt _ _) Hc)).
  rewrite Hl in *. rewrite (proj2 (N.ltb_ge index 1)) by lia.
  destruct (IH (index - 1)) as [[a b] ->]; [lia|]. by eexists.
Qed.

Lemma strip_status_ascii label suffix :
  Forall (λ c, c < 0x80) label → ∃ prefix, strip_status label suffix = Done prefix.
Proof.
  intros Hl. unfold strip_status. destruct (_ <=? _) eqn:E; [|by eexists]. bool_prop.
  destruct (split_at_ascii label (str_len label - str_len suffix) Hl) as [[prefix tail] ->]; [lia|].
  cbn [expect_some mbind outcome_bind]. destruct (_ && _); by eexists.
Qed.

Lemma strip_suffix_ascii label :
  Forall (λ c, c < 0x80) label → ∃ text, strip_cursor_status_suffix label = Done text.
Proof.
  intros Hl. unfold strip_cursor_status_suffix.
  destruct (strip_status_ascii label (str "(default)") Hl) as [[prefix|] ->];
    cbn [mbind outcome_bind]; [by eexists|].
  destruct (strip_status_ascii label (str "(current)") Hl) as [prefix ->]. by eexists.
Qed.

Lemma ascii_trim_start s : Forall (λ c, c < 0x80) s → Forall (λ c, c < 0x80) (trim_start s).
Proof. induction 1 as [|c s Hc Hs IH]; cbn; [done|]. destruct (is_whitespace c); [done|by constructor]. Qed.

Lemma ascii_trim s : Forall (λ c, c < 0x80) s → Forall (λ c, c < 0x80) (trim s).
Proof.
  intros Hs. unfold trim. apply Forall_reverse, ascii_trim_start, Forall_reverse.
  by apply ascii_trim_start.
Qed.

Lemma separator_pieces before line b a :
  model_separator before line = Some (b, a) → ∃ c, before ++ line = b ++ c :: a.
Proof.
  revert before. induction line as [|c line IH]; intros before; cbn [model_separator]; [done|].
  destruct (_ && _); [intros [= <- <-]; by exists c|].
  intros (d & E)%IH. exists d. by rewrite <- E, <- app_assoc.
Qed.

Lemma collect_ascii ls models :
  Forall (Forall (λ c, c < 0x80)) ls → ∃ models', collect_capability_models ls models = Done models'.
Proof.
  intros Hls. revert models. induction Hls as [|line ls Hline _ IH]; intros models;
    cbn [collect_capability_models]; [by eexists|].
  destruct (model_separator [] (trim line)) as [[before after]|] eqn:Es; [|apply IH].
  apply separator_pieces in Es as [c Es]. apply ascii_trim in Hline. cbn [app] in Es.
  rewrite Es in Hline. apply Forall_app in Hline as [_ Ha]. apply Forall_cons in Ha as [_ Ha].
  destruct (strip_suffix_ascii (trim after) (ascii_trim _ Ha)) as [label ->].
  cbn [mbind outcome_bind]. destruct (_ || _); [apply IH|]. destruct (_ =? _); [by eexists|apply IH].
Qed.

Lemma lines_ascii line s :
  Forall (λ c, c < 0x80) line → Forall (λ c, c < 0x80) s →
  Forall (Forall (λ c, c < 0x80)) (lines_from line s).
Proof.
  intros Hline Hs. revert line Hline. induction Hs as [|c s Hc _ IH]; intros line Hline; cbn.
  { destruct (str_is_empty line); by repeat constructor. }
  destruct (c =? 0xa); [|apply IH, Forall_app; by repeat constructor].
  constructor; [|apply IH; constructor]. unfold strip_suffix. destruct (_ && _); cbn; [|done].
  by apply Forall_take.
Qed.

Lemma validate_listed models :
  model_list model_id accepted_model CAPABILITY_MODELS_MAX models →
  validate_capability_models models = Ok tt.
Proof.
  intros (Hl & Ha & Hn). unfold validate_capability_models. apply seq_Ok. split.
  { apply guard_err_Ok, N.ltb_ge. done. }
  assert (Hseen : ∀ seen, Forall (λ m, model_id m ∉ seen) models →
    validate_models_from seen models = Ok tt); [|apply Hseen, Forall_forall; by intros m _ ?%elem_of_nil].
  clear Hl. induction Ha as [|m models Hm _ IH]; intros seen Hs; [done|].
  cbn [fmap list_fmap] in Hn. apply NoDup_cons in Hn as [Hni Hn].
  apply Forall_cons in Hs as [Hms Hs]. cbn [validate_models_from].
  rewrite Hm, bool_decide_eq_false_2 by done. cbn [guard_err mbind result_bind].
  apply IH; [done|]. rewrite Forall_forall in *. intros m' Hin [E|Hin']%elem_of_cons.
  - apply Hni. rewrite <- E. by apply list_elem_of_fmap_2.
  - by apply (Hs m').
Qed.

(** C40: the models read from the output of a probe are a list that validates:
    at most 512 models, each with a valid id and label, no id twice. ASCII
    output never makes the parser panic. The models read from a model list have
    distinct, well-formed ids and are bounded the same way. *)
Theorem model_lists_spec id stdout :
  (∀ models, parse_capability_models id stdout = Done models →
     validate_capability_models models = Ok tt)
  ∧ (Forall (λ c, c < 0x80) stdout → parse_capability_models id stdout ≠ Panic)
  ∧ ∀ models, parse_session_option_models id stdout = Ok models →
      len models <= SESSION_OPTION_MODELS_MAX ∧ NoDup (sm_id <$> models)
      ∧ Forall (λ model, valid_dynamic_model_id (sm_id model) = true) models.
Proof.
  split; [|split].
  - intros models H. apply validate_listed. unfold parse_capability_models in H.
    destruct (capability_probe_plan id); [|done]. cbn [checked mbind outcome_bind] in H.
    destruct (_ <? _); [done|]. eapply collect_capability_list; [| |exact H].
    + split_and!; [done|constructor|constructor].
    + done.
  - intros Hs. unfold parse_capability_models. destruct (capability_probe_plan id); [|done].
    cbn [checked mbind outcome_bind]. destruct (_ <? _); [done|].
    by destruct (collect_ascii (lines stdout) [] (lines_ascii [] stdout (Forall_nil_2 _) Hs)) as [m ->].
  - intros models H. unfold parse_session_option_models in H.
    apply result_bind_Ok in H as (catalog & _ & H). apply seq_Ok in H as [_ H].
    apply seq_Ok in H as [_ [= <-]].
    destruct (collect_models_list (lines stdout) []) as (Hl & Ha & Hn); [|done|done].
    split_and!; [done|constructor|constructor].
Qed.

Lemma model_lists_spec_witness :
  ∃ models, parse_capability_models (MkAdapterId (str "cursor"))
      (str "auto - Auto (default)" ++ [0xa] ++ str "auto - Again") = Done models
    ∧ validate_capability_models models = Ok tt.
Proof.
  destruct (parse_capability_models (MkAdapterId (str "cursor"))
    (str "auto - Auto (default)" ++ [0xa] ++ str "auto - Again")) as [models|e|] eqn:E;
    [|vm_compute in E; discriminate E..].
  exists models. split; [done|]. by apply (proj1 (model_lists_spec _ _) _ E).
Defined.

(** A label of two-byte characters puts the length of a status suffix inside a
    character: the parser slices it there and panics. *)
Theorem probe_label_panics :
  parse_capability_models (MkAdapterId (str "cursor")) (str "m - " ++ replicate 6 0xe9) = Panic.
Proof. vm_compute. reflexivity. Qed.
