(* ===== verification/EngineReduce.v ===== *)
(** * Provider event reduction

    The part of crates/gate4agent-engine/src/lib.rs that folds one provider
    event, or one gap, into a session's [ProviderSnapshot] and reports the
    interactions it opened and closed. *)

From S2P Require Import Prelude RustStr Ids SessionTypes ProviderTypes.

Local Open Scope N_scope.

(* engine/lib.rs ProviderInteractionTransition *)
Inductive ProviderInteractionTransition :=
| TransRequested (interaction : ProviderInteraction)
| TransResolved (interaction_id : ProviderInteractionId)
    (outcome : ProviderInteractionOutcome).

(* engine/lib.rs ProviderReduction *)
Record ProviderReduction := MkReduction {
  red_sequence : N;
  red_interaction_transitions : list ProviderInteractionTransition
}.

(** [Option<String>::as_deref() == other]. *)
Definition opt_is (a b : option (list N)) : bool := bool_decide (a = b).
Definition source_is (a b : ProviderSource) : bool := bool_decide (a = b).

(** ** Interactions *)

(* engine/lib.rs interaction_response_outcome *)
Definition interaction_response_outcome (k : ProviderInteractionResponseKind)
    : ProviderInteractionOutcome :=
  match k with
  | RK_ApproveOnce => Approved
  | RK_Deny => Denied
  | RK_Answer => Answered
  end.

(* engine/lib.rs interaction_is_unresolved *)
Definition interaction_is_unresolved (i : ProviderInteraction) : bool :=
  match pi_status i with
  | InteractionPending | InteractionResolving _ _ => true
  | InteractionResolvedAs _ => false
  end.

(* engine/lib.rs provider_progress_outcome *)
Definition provider_progress_outcome (i : ProviderInteraction)
    : option ProviderInteractionOutcome :=
  match pi_status i with
  | InteractionPending =>
      Some match pi_interaction_kind i with
           | Approval => Approved
           | Question => Answered
           end
  | InteractionResolving _ kind => Some (interaction_response_outcome kind)
  | InteractionResolvedAs _ => None
  end.

(* engine/lib.rs resolve_interaction_ids *)
Fixpoint resolve_interaction_ids (interactions : list ProviderInteraction)
    (matching : list (ProviderInteractionId * ProviderInteractionOutcome))
    : list ProviderInteraction * list ProviderInteractionTransition :=
  match matching with
  | [] => (interactions, [])
  | (interaction_id, outcome) :: rest =>
      let has_id i := bool_decide (pi_id i = interaction_id) in
      if existsb has_id interactions then
        let interactions' :=
          update_first has_id (λ i, i <| pi_status := InteractionResolvedAs outcome |>)
            interactions in
        let '(final, transitions) := resolve_interaction_ids interactions' rest in
        (final, TransResolved interaction_id outcome :: transitions)
      else resolve_interaction_ids interactions rest
  end.

(** The snapshot with its interactions resolved, and the transitions. *)
Definition resolve_ids (snapshot : ProviderSnapshot)
    (matching : list (ProviderInteractionId * ProviderInteractionOutcome))
    : ProviderSnapshot * list ProviderInteractionTransition :=
  let '(interactions, transitions) :=
    resolve_interaction_ids (ps_interactions snapshot) matching in
  (snapshot <| ps_interactions := interactions |>, transitions).

(** [filter(p).map(|i| (i.id, outcome)).collect()]. *)
Definition matching_ids (p : ProviderInteraction → bool)
    (outcome : ProviderInteractionOutcome) (l : list ProviderInteraction)
    : list (ProviderInteractionId * ProviderInteractionOutcome) :=
  (λ i, (pi_id i, outcome)) <$> retain p l.

(** [filter_map] with the outcome each interaction progresses to. *)
Fixpoint progress_ids (p : ProviderInteraction → bool) (l : list ProviderInteraction)
    : list (ProviderInteractionId * ProviderInteractionOutcome) :=
  match l with
  | [] => []
  | i :: l' =>
      match (if p i then provider_progress_outcome i else None) with
      | Some outcome => (pi_id i, outcome) :: progress_ids p l'
      | None => progress_ids p l'
      end
  end.

(** An interaction of [source] for a request id and an agent. *)
Definition matches_request (source : ProviderSource) (provider_request_id : list N)
    (agent_id : option (list N)) (i : ProviderInteraction) : bool :=
  source_is (pi_source i) source
  && opt_is (pi_provider_request_id i) (Some provider_request_id)
  && opt_is (pi_agent_id i) agent_id.

(* engine/lib.rs resolve_matching_provider_interactions *)
Definition resolve_matching_provider_interactions (snapshot : ProviderSnapshot)
    (source : ProviderSource) (provider_request_id : list N) (agent_id : option (list N))
    : ProviderSnapshot * list ProviderInteractionTransition :=
  resolve_ids snapshot
    (progress_ids (matches_request source provider_request_id agent_id)
       (ps_interactions snapshot)).

(* engine/lib.rs matching_interaction_resume_activity *)
Definition matching_interaction_resume_activity (snapshot : ProviderSnapshot)
    (source : ProviderSource) (provider_request_id : list N) (agent_id : option (list N))
    : option ProviderActivity :=
  find_map (λ i,
    if matches_request source provider_request_id agent_id i && interaction_is_unresolved i
    then pi_resume_lead_activity i else None)
    (reverse (ps_interactions snapshot)).

(* engine/lib.rs resolve_provider_request_interactions *)
Definition resolve_provider_request_interactions (snapshot : ProviderSnapshot)
    (source : ProviderSource) (provider_request_id : list N) (agent_id : option (list N))
    (outcome : ProviderInteractionOutcome)
    : ProviderSnapshot * list ProviderInteractionTransition :=
  resolve_ids snapshot
    (matching_ids (λ i, matches_request source provider_request_id agent_id i
                        && interaction_is_unresolved i)
       outcome (ps_interactions snapshot)).

(* engine/lib.rs resolve_provider_reported_interactions *)
Definition resolve_provider_reported_interactions (snapshot : ProviderSnapshot)
    (source : ProviderSource) (provider_request_id : list N)
    (outcome : ProviderInteractionOutcome)
    : ProviderSnapshot * list ProviderInteractionTransition :=
  resolve_ids snapshot
    (matching_ids (λ i, source_is (pi_source i) source
                        && opt_is (pi_provider_request_id i) (Some provider_request_id)
                        && interaction_is_unresolved i)
       outcome (ps_interactions snapshot)).

(* engine/lib.rs resolve_source_pending_interactions *)
Definition resolve_source_pending_interactions (snapshot : ProviderSnapshot)
    (source : ProviderSource) (outcome : ProviderInteractionOutcome)
    : ProviderSnapshot * list ProviderInteractionTransition :=
  resolve_ids snapshot
    (matching_ids (λ i, source_is (pi_source i) source && interaction_is_unresolved i)
       outcome (ps_interactions snapshot)).

(* engine/lib.rs resolve_source_pending_interactions_by_kind *)
Definition resolve_source_pending_interactions_by_kind (snapshot : ProviderSnapshot)
    (source : ProviderSource) : ProviderSnapshot * list ProviderInteractionTransition :=
  resolve_ids snapshot
    (progress_ids (λ i, source_is (pi_source i) source) (ps_interactions snapshot)).

(* engine/lib.rs resolve_subagent_pending_interactions *)
Definition resolve_subagent_pending_interactions (snapshot : ProviderSnapshot)
    (source : ProviderSource) (agent_id : list N) (outcome : ProviderInteractionOutcome)
    : ProviderSnapshot * list ProviderInteractionTransition :=
  resolve_ids snapshot
    (matching_ids (λ i, source_is (pi_source i) source && opt_is (pi_agent_id i) (Some agent_id)
                        && interaction_is_unresolved i)
       outcome (ps_interactions snapshot)).

(* engine/lib.rs subagent_interaction_resume_activity *)
Definition subagent_interaction_resume_activity (snapshot : ProviderSnapshot)
    (source : ProviderSource) (agent_id : list N) : option ProviderActivity :=
  find_map (λ i,
    if source_is (pi_source i) source && opt_is (pi_agent_id i) (Some agent_id)
       && interaction_is_unresolved i
    then pi_resume_lead_activity i else None)
    (ps_interactions snapshot).

(* engine/lib.rs resolve_all_pending_interactions *)
Definition resolve_all_pending_interactions (snapshot : ProviderSnapshot)
    (outcome : ProviderInteractionOutcome)
    : ProviderSnapshot * list ProviderInteractionTransition :=
  resolve_ids snapshot
    (matching_ids interaction_is_unresolved outcome (ps_interactions snapshot)).

(* engine/lib.rs push_provider_interaction *)
Definition push_provider_interaction (snapshot : ProviderSnapshot)
    (interaction : ProviderInteraction) (transitions : list ProviderInteractionTransition)
    : ProviderSnapshot * list ProviderInteractionTransition :=
  if PROVIDER_INTERACTIONS_MAX <=? len (ps_interactions snapshot) then
    let remove_index :=
      default 0%nat (position (λ existing, negb (interaction_is_unresolved existing))
                       (ps_interactions snapshot)) in
    match remove_at remove_index (ps_interactions snapshot) with
    | Some (removed, kept) =>
        (snapshot <| ps_interactions := kept ++ [interaction] |>,
         if interaction_is_unresolved removed
         then transitions ++ [TransResolved (pi_id removed) Superseded]
         else transitions)
    | None => (snapshot <| ps_interactions ::= λ l, l ++ [interaction] |>, transitions)
    end
  else (snapshot <| ps_interactions ::= λ l, l ++ [interaction] |>, transitions).

(** ** Sources, subagents and activity *)

(* engine/lib.rs provider_source_sequence *)
Definition provider_source_sequence (snapshot : ProviderSnapshot) (source : ProviderSource) : N :=
  match List.find (λ c, source_is (cursor_source c) source) (ps_sources snapshot) with
  | Some cursor => cursor_sequence cursor
  | None => 0
  end.

(** [*provider_source_cursor_mut(snapshot, source)] updated by [f]: the cursor
    of the source is created when it has none. *)
(* engine/lib.rs provider_source_cursor_mut *)
Definition with_source_cursor (source : ProviderSource)
    (f : ProviderSourceCursor → ProviderSourceCursor) (snapshot : ProviderSnapshot)
    : ProviderSnapshot :=
  let is_source c := source_is (cursor_source c) source in
  if existsb is_source (ps_sources snapshot) then
    snapshot <| ps_sources ::= update_first is_source f |>
  else snapshot <| ps_sources ::= λ l, l ++ [f (MkCursor source 0 0 false)] |>.

(* engine/lib.rs refresh_provider_activity *)
Definition refresh_provider_activity (snapshot : ProviderSnapshot) : ProviderSnapshot :=
  snapshot <| ps_activity :=
    if bool_decide (ps_lead_activity snapshot = Idle)
       && negb match ps_subagents snapshot with [] => true | _ => false end
    then Working else ps_lead_activity snapshot |>.

(* engine/lib.rs remove_source_subagents *)
Definition remove_source_subagents (snapshot : ProviderSnapshot) (source : ProviderSource)
    : ProviderSnapshot :=
  snapshot <| ps_subagents ::= retain (λ s, negb (source_is (sub_source s) source)) |>.

(* engine/lib.rs add_token_usage *)
Definition add_token_usage (total delta : TokenUsage) : TokenUsage :=
  {| input_tokens := saturating_add (input_tokens total) (input_tokens delta);
     output_tokens := saturating_add (output_tokens total) (output_tokens delta);
     cache_read_tokens := saturating_add (cache_read_tokens total) (cache_read_tokens delta);
     cache_write_tokens := saturating_add (cache_write_tokens total) (cache_write_tokens delta);
     reasoning_tokens := saturating_add (reasoning_tokens total) (reasoning_tokens delta);
     context_window :=
       match context_window delta with
       | Some w => Some w
       | None => context_window total
       end |}.

(** The lead falls idle: no prompt, no running tool. *)
Definition lead_idle (snapshot : ProviderSnapshot) : ProviderSnapshot :=
  snapshot <| ps_lead_activity := Idle |> <| ps_current_prompt := None |>
           <| ps_active_tools := [] |>.

(** ** One definition per arm of [reduce_provider_event] *)

Abbreviation step := (ProviderSnapshot * list ProviderInteractionTransition)%type.

(* engine/lib.rs:3258-3279 reduce_provider_event *)
Definition reduce_session_started (snapshot : ProviderSnapshot) (source : ProviderSource)
    (session_id model : list N) (tools : list (list N)) : step :=
  let snapshot := snapshot
    <| ps_session := Some (MkIdentity KeySessionId session_id None) |>
    <| ps_model := if negb (str_is_empty model) then Some model else None |>
    <| ps_tools := tools |> in
  let snapshot := remove_source_subagents (lead_idle snapshot) source in
  resolve_source_pending_interactions snapshot source TurnEnded.

(* engine/lib.rs:3283-3292 reduce_provider_event *)
Definition reduce_turn_started (snapshot : ProviderSnapshot) (source : ProviderSource)
    (prompt : option (list N)) : step :=
  let '(snapshot, transitions) :=
    resolve_source_pending_interactions snapshot source Superseded in
  (snapshot <| ps_lead_activity := Working |> <| ps_current_prompt := prompt |>
            <| ps_active_tools := [] |>, transitions).

(* engine/lib.rs:3293-3298 reduce_provider_event *)
Definition reduce_working_observed (snapshot : ProviderSnapshot) (source : ProviderSource)
    : step :=
  let '(snapshot, transitions) :=
    resolve_source_pending_interactions_by_kind snapshot source in
  (snapshot <| ps_lead_activity := Working |>, transitions).

(* engine/lib.rs:3299-3327 reduce_provider_event *)
Definition reduce_tool_started (snapshot : ProviderSnapshot) (source : ProviderSource)
    (id name input_json : list N) (agent_id : option (list N)) : step :=
  let resume_activity := matching_interaction_resume_activity snapshot source id agent_id in
  let '(snapshot, resolved) :=
    resolve_matching_provider_interactions snapshot source id agent_id in
  let snapshot :=
    match resolved with
    | _ :: _ => snapshot <| ps_lead_activity := default Working resume_activity |>
    | [] =>
        match agent_id with
        | None => snapshot <| ps_lead_activity := Working |>
        | Some _ => snapshot
        end
    end in
  let has_id t := bool_decide (tool_id t = id) in
  let snapshot :=
    match agent_id with
    | None =>
        if existsb has_id (ps_active_tools snapshot) then
          snapshot <| ps_active_tools ::=
            update_first has_id (λ t, MkActiveTool (tool_id t) name input_json) |>
        else snapshot <| ps_active_tools ::= λ l, l ++ [MkActiveTool id name input_json] |>
    | Some _ => snapshot
    end in
  (snapshot, resolved).

(* engine/lib.rs:3328-3340 reduce_provider_event *)
Definition reduce_tool_completed (snapshot : ProviderSnapshot) (source : ProviderSource)
    (id : list N) (agent_id : option (list N)) : step :=
  let resume_activity := matching_interaction_resume_activity snapshot source id agent_id in
  let '(snapshot, resolved) :=
    resolve_matching_provider_interactions snapshot source id agent_id in
  let snapshot :=
    match resolved with
    | _ :: _ => snapshot <| ps_lead_activity := default Working resume_activity |>
    | [] => snapshot
    end in
  let snapshot :=
    match agent_id with
    | None => snapshot <| ps_active_tools ::= retain (λ t, negb (bool_decide (tool_id t = id))) |>
    | Some _ => snapshot
    end in
  (snapshot, resolved).

(* engine/lib.rs:3341-3359 reduce_provider_event *)
Definition reduce_turn_completed (snapshot : ProviderSnapshot) (source : ProviderSource)
    (usage : TokenUsage) (is_cumulative : bool) : step :=
  let snapshot := snapshot
    <| ps_completed_turns ::= λ n, saturating_add n 1 |>
    <| ps_usage ::= λ total, if is_cumulative then usage else add_token_usage total usage |> in
  resolve_source_pending_interactions (lead_idle snapshot) source TurnEnded.

(* engine/lib.rs:3360-3369 reduce_provider_event *)
Definition reduce_turn_interrupted (snapshot : ProviderSnapshot) (source : ProviderSource)
    : step :=
  resolve_source_pending_interactions (lead_idle snapshot) source Interrupted.

(* engine/lib.rs:3370-3411 reduce_provider_event *)
Definition reduce_interaction_requested (snapshot : ProviderSnapshot)
    (source : ProviderSource) (canonical_sequence : N) (request_id : option (list N))
    (interaction_kind : ProviderInteractionKind) (tool_name prompt : list N)
    (agent_id : option (list N)) : step :=
  let inherited_resume_activity :=
    request_id ≫= λ r, matching_interaction_resume_activity snapshot source r agent_id in
  let '(snapshot, transitions) :=
    match request_id with
    | Some r =>
        resolve_provider_request_interactions snapshot source r agent_id Superseded
    | None => (snapshot, [])
    end in
  let interaction :=
    {| pi_id := MkInteraction canonical_sequence;
       pi_source := source;
       pi_provider_request_id := request_id;
       pi_interaction_kind := interaction_kind;
       pi_tool_name := tool_name;
       pi_prompt := prompt;
       pi_agent_id := agent_id;
       pi_resume_lead_activity :=
         match agent_id with
         | Some _ => Some (default (ps_lead_activity snapshot) inherited_resume_activity)
         | None => None
         end;
       pi_status := InteractionPending |} in
  let '(snapshot, transitions) :=
    push_provider_interaction snapshot interaction transitions in
  (snapshot <| ps_lead_activity := WaitingForInput |>,
   transitions ++ [TransRequested interaction]).

(* engine/lib.rs:3412-3434 reduce_provider_event *)
Definition reduce_interaction_resolved (snapshot : ProviderSnapshot)
    (source : ProviderSource) (request_id : list N) (outcome : ProviderInteractionOutcome)
    : step :=
  let '(snapshot, resolved) :=
    resolve_provider_reported_interactions snapshot source request_id outcome in
  (match resolved with
   | _ :: _ => snapshot <| ps_lead_activity :=
       if existsb interaction_is_unresolved (ps_interactions snapshot)
       then WaitingForInput else Working |>
   | [] => snapshot
   end, resolved).

(* engine/lib.rs:3457-3475 reduce_provider_event *)
Definition reduce_subagent_started (snapshot : ProviderSnapshot) (source : ProviderSource)
    (agent_id : list N) (agent_type description : option (list N)) : ProviderSnapshot :=
  let is_agent s :=
    source_is (sub_source s) source && bool_decide (sub_provider_agent_id s = agent_id) in
  let or_else (a b : option (list N)) := match a with Some x => Some x | None => b end in
  if existsb is_agent (ps_subagents snapshot) then
    snapshot <| ps_subagents ::=
      update_first is_agent (λ existing, existing
        <| sub_agent_type ::= or_else agent_type |>
        <| sub_description ::= or_else description |>) |>
  else if len (ps_subagents snapshot) <? PROVIDER_SUBAGENTS_MAX then
    snapshot <| ps_subagents ::= λ l, l ++ [MkSubagent source agent_id agent_type description] |>
  else snapshot.

(* engine/lib.rs:3476-3490 reduce_provider_event *)
Definition reduce_subagent_stopped (snapshot : ProviderSnapshot) (source : ProviderSource)
    (agent_id : list N) : step :=
  let resume_activity := subagent_interaction_resume_activity snapshot source agent_id in
  let '(snapshot, transitions) :=
    resolve_subagent_pending_interactions snapshot source agent_id TurnEnded in
  let snapshot :=
    match resume_activity with
    | Some activity => snapshot <| ps_lead_activity := activity |>
    | None => snapshot
    end in
  (snapshot <| ps_subagents ::=
     retain (λ s, negb (source_is (sub_source s) source)
                  || negb (bool_decide (sub_provider_agent_id s = agent_id))) |>,
   transitions).

(* engine/lib.rs:3257-3510 reduce_provider_event *)
Definition reduce_event_body (snapshot : ProviderSnapshot) (source : ProviderSource)
    (canonical_sequence : N) (event : ProviderEvent) : step :=
  match event with
  | PE_SessionStarted session_id model tools =>
      reduce_session_started snapshot source session_id model tools
  | PE_SessionIdentityObserved identity =>
      (snapshot <| ps_session := Some identity |>, [])
  | PE_TurnStarted prompt => reduce_turn_started snapshot source prompt
  | PE_WorkingObserved => reduce_working_observed snapshot source
  | PE_ToolStarted id name input_json agent_id =>
      reduce_tool_started snapshot source id name input_json agent_id
  | PE_ToolCompleted id _ _ _ agent_id _ => reduce_tool_completed snapshot source id agent_id
  | PE_TurnCompleted usage is_cumulative =>
      reduce_turn_completed snapshot source usage is_cumulative
  | PE_TurnInterrupted => reduce_turn_interrupted snapshot source
  | PE_InteractionRequested request_id kind tool_name _ prompt _ agent_id =>
      reduce_interaction_requested snapshot source canonical_sequence request_id kind
        tool_name prompt agent_id
  | PE_InteractionResolved request_id outcome =>
      reduce_interaction_resolved snapshot source request_id outcome
  | PE_RateLimited _ _ _ _ | PE_Error _ => (snapshot <| ps_lead_activity := Blocked |>, [])
  | PE_Ready =>
      (snapshot <| ps_lead_activity :=
         if existsb interaction_is_unresolved (ps_interactions snapshot)
         then WaitingForInput else Idle |>, [])
  | PE_SessionEnded _ _ _ _ =>
      resolve_source_pending_interactions
        (remove_source_subagents (lead_idle snapshot) source) source TurnEnded
  | PE_SubagentStarted agent_id agent_type description =>
      (reduce_subagent_started snapshot source agent_id agent_type description, [])
  | PE_SubagentStopped agent_id => reduce_subagent_stopped snapshot source agent_id
  | PE_Text _ _ | PE_Thinking _ | PE_ContextWindowUsage _ | PE_HostRequestObserved _ _ _ _ _
  | PE_UnrecognizedNotification _ _ | PE_UserMessage _ _ | PE_Plan _
  | PE_AvailableCommandsUpdated _ | PE_ModeChanged _ _ | PE_SessionInfoUpdated _
  | PE_UsageUpdated _ _ _ _ | PE_ConfigOptionsUpdated _ => (snapshot, [])
  end.

(** [None] is the panic of an exhausted sequence. *)
(* engine/lib.rs reduce_provider_event *)
Definition reduce_provider_event (snapshot : ProviderSnapshot) (source : ProviderSource)
    (source_sequence : N) (event : ProviderEvent)
    : option (ProviderSnapshot * ProviderReduction) :=
  canonical_sequence ← checked_add (ps_sequence snapshot) 1;
  let '(snapshot, interaction_transitions) :=
    reduce_event_body snapshot source canonical_sequence event in
  let snapshot := refresh_provider_activity snapshot in
  let snapshot :=
    with_source_cursor source (λ c, c <| cursor_sequence := source_sequence |>) snapshot in
  let snapshot := with_source_cursor source (λ c, c <| cursor_stale := false |>) snapshot in
  let snapshot := snapshot <| ps_sequence := canonical_sequence |>
                           <| ps_last_event := Some event |> in
  let snapshot := snapshot <| ps_stale := existsb cursor_stale (ps_sources snapshot) |> in
  Some (snapshot, MkReduction canonical_sequence interaction_transitions).

(* engine/lib.rs reduce_provider_gap *)
Definition reduce_provider_gap (snapshot : ProviderSnapshot) (source : ProviderSource)
    (source_sequence missed : N) : option (ProviderSnapshot * N) :=
  let snapshot := with_source_cursor source (λ c, c
    <| cursor_sequence := source_sequence |>
    <| cursor_gap_count ::= λ n, saturating_add n missed |>
    <| cursor_stale := true |>) snapshot in
  let snapshot := snapshot <| ps_gap_count ::= λ n, saturating_add n missed |>
                           <| ps_stale := true |> in
  sequence ← checked_add (ps_sequence snapshot) 1;
  Some (snapshot <| ps_sequence := sequence |>, sequence).
