(* ===== verification/ReduceFacts.v ===== *)
(** * Facts of the provider reduction

    Interactions keep distinct, bounded, increasing ids; the transitions a
    reduction reports replay to exactly the set of interactions it leaves
    open; the cursors, the subagents and the derived activity stay coherent. *)

From S2P Require Import Prelude RustStr Ids SessionTypes ProviderTypes EngineReduce.

Local Open Scope N_scope.

(** ** Lists *)

Lemma update_first_nodup {A} {B} (key : A → B) `{!EqDecision B} (k : B) (f : A → A) l :
  NoDup (key <$> l) →
  update_first (λ x, bool_decide (key x = k)) f l
  = (λ x, if bool_decide (key x = k) then f x else x) <$> l.
Proof.
  induction l as [|x l IH]; cbn; [done|]. intros [Hx Hnd]%NoDup_cons.
  case_bool_decide as E; [|by rewrite IH].
  f_equal. symmetry. rewrite <- (list_fmap_id l) at 2. apply list_fmap_ext.
  intros n y Hy. rewrite bool_decide_eq_false_2; [done|]. intros E'. apply Hx. rewrite E, <- E'.
  apply list_elem_of_fmap. exists y. split; [done|]. by eapply list_elem_of_lookup_2.
Qed.

Lemma retain_filter {A} (p : A → bool) l : retain p l = List.filter p l.
Proof. induction l as [|x l IH]; cbn; [done|]. by rewrite IH. Qed.

Lemma retain_length {A} (p : A → bool) l : len (retain p l) <= len l.
Proof. unfold len. pose proof (sublist_length _ _ (retain_sublist p l)). lia. Qed.

Lemma update_first_key {A B} (key : A → B) (p : A → bool) (f : A → A) l :
  (∀ x, key (f x) = key x) → key <$> update_first p f l = key <$> l.
Proof.
  intros Hf. induction l as [|x l IH]; cbn; [done|]. destruct (p x); cbn; congruence.
Qed.

Lemma update_first_length {A} (p : A → bool) (f : A → A) l :
  len (update_first p f l) = len l.
Proof.
  unfold len. f_equal. induction l as [|x l IH]; cbn; [done|]. destruct (p x); cbn; congruence.
Qed.

Lemma len_app {A} (l k : list A) : len (l ++ k) = len l + len k.
Proof. unfold len. rewrite length_app. lia. Qed.
Lemma len_nil {A} : len (@nil A) = 0.
Proof. done. Qed.
Lemma remove_at_split {A} n (l : list A) x r :
  remove_at n l = Some (x, r) → ∃ l1 l2, l = l1 ++ x :: l2 ∧ r = l1 ++ l2 ∧ length l1 = n.
Proof.
  revert n x r. induction l as [|y l IH]; intros [|n] x r; cbn; [done|done| |].
  - intros [= -> ->]. by exists [], r.
  - destruct (remove_at n l) as [[z r']|] eqn:E; [|done]. intros [= -> <-].
    destruct (IH _ _ _ E) as (l1 & l2 & -> & -> & <-). by exists (y :: l1), l2.
Qed.

Lemma remove_at_None {A} n (l : list A) : remove_at n l = None → (length l <= n)%nat.
Proof.
  revert n. induction l as [|y l IH]; intros [|n]; cbn; [lia|lia|done|].
  destruct (remove_at n l) as [[]|] eqn:E; [done|]. intros _. apply IH in E. lia.
Qed.

Lemma position_lt {A} (p : A → bool) l n : position p l = Some n → (n < length l)%nat.
Proof.
  revert n. induction l as [|x l IH]; intros n; cbn; [done|]. destruct (p x).
  - intros [= <-]. lia.
  - intros (m & Hm & ->)%fmap_Some. apply IH in Hm. lia.
Qed.

(** ** Open interactions and their replay *)

(** The ids of the interactions not resolved, in order. *)
Definition open_ids (l : list ProviderInteraction) : list ProviderInteractionId :=
  pi_id <$> List.filter interaction_is_unresolved l.

(** What a subscriber that follows the transitions knows to be open; a
    transition that does not fit is refused. *)
Definition replay_transition (open : list ProviderInteractionId)
    (t : ProviderInteractionTransition) : option (list ProviderInteractionId) :=
  match t with
  | TransRequested interaction =>
      if bool_decide (pi_id interaction ∈ open) then None else Some (open ++ [pi_id interaction])
  | TransResolved interaction_id _ =>
      if bool_decide (interaction_id ∈ open)
      then Some (List.filter (λ k, negb (bool_decide (k = interaction_id))) open) else None
  end.
Fixpoint replay (open : list ProviderInteractionId) (ts : list ProviderInteractionTransition)
    : option (list ProviderInteractionId) :=
  match ts with
  | [] => Some open
  | t :: ts' => open' ← replay_transition open t; replay open' ts'
  end.

Lemma replay_app open ts1 ts2 :
  replay open (ts1 ++ ts2) = (open' ← replay open ts1; replay open' ts2).
Proof.
  revert open. induction ts1 as [|t ts1 IH]; intros open; cbn; [done|].
  destruct (replay_transition open t); cbn; [apply IH|done].
Qed.

Lemma filter_other_id (k : ProviderInteractionId) l :
  k ∉ l → List.filter (λ x, negb (bool_decide (x = k))) l = l.
Proof.
  induction l as [|x l IH]; cbn; [done|]. intros Hk.
  rewrite bool_decide_eq_false_2 by (intros ->; apply Hk; constructor). cbn.
  rewrite IH; [done|]. intros Hin. apply Hk. by constructor.
Qed.

Lemma replay_resolved_middle open1 open2 k o :
  k ∉ open1 → k ∉ open2 →
  replay_transition (open1 ++ k :: open2) (TransResolved k o) = Some (open1 ++ open2).
Proof.
  intros H1 H2. cbn. rewrite bool_decide_eq_true_2 by set_solver. f_equal.
  rewrite List.filter_app. cbn. rewrite bool_decide_eq_true_2 by done. cbn.
  by rewrite !filter_other_id.
Qed.

Lemma open_ids_app l1 l2 : open_ids (l1 ++ l2) = open_ids l1 ++ open_ids l2.
Proof. unfold open_ids. by rewrite List.filter_app, fmap_app. Qed.

Lemma open_ids_subset l k : k ∈ open_ids l → k ∈ pi_id <$> l.
Proof.
  unfold open_ids. rewrite !list_elem_of_fmap. intros (i & -> & Hi). exists i. split; [done|].
  rewrite list_elem_of_In, filter_In in Hi. rewrite list_elem_of_In. tauto.
Qed.

Lemma open_ids_cons i l :
  open_ids (i :: l) = if interaction_is_unresolved i then pi_id i :: open_ids l else open_ids l.
Proof. unfold open_ids. cbn. by destruct (interaction_is_unresolved i). Qed.

Lemma open_ids_length l : len (open_ids l) <= len l.
Proof.
  unfold len, open_ids. rewrite length_fmap. pose proof (List.filter_length_le interaction_is_unresolved l).
  lia.
Qed.

(** ** Resolving a selection

    Every resolution of the code picks, among the interactions, some that are
    open, each with an outcome; [g] is that choice. *)

Definition select (g : ProviderInteraction → option ProviderInteractionOutcome)
    (l : list ProviderInteraction)
    : list (ProviderInteractionId * ProviderInteractionOutcome) :=
  omap (λ i, pair (pi_id i) <$> g i) l.

Definition resolve_by (g : ProviderInteraction → option ProviderInteractionOutcome)
    (i : ProviderInteraction) : ProviderInteraction :=
  match g i with
  | Some outcome => i <| pi_status := InteractionResolvedAs outcome |>
  | None => i
  end.

Definition selected_transitions (g : ProviderInteraction → option ProviderInteractionOutcome)
    (l : list ProviderInteraction) : list ProviderInteractionTransition :=
  omap (λ i, TransResolved (pi_id i) <$> g i) l.

Lemma matching_ids_select p o l :
  matching_ids p o l = select (λ i, if p i then Some o else None) l.
Proof.
  unfold matching_ids, select. induction l as [|i l IH]; cbn; [done|].
  destruct (p i); cbn; [by f_equal|done].
Qed.

Lemma progress_ids_select p l :
  progress_ids p l = select (λ i, if p i then provider_progress_outcome i else None) l.
Proof.
  unfold select. induction l as [|i l IH]; cbn; [done|].
  destruct (p i); cbn; [|done]. destruct (provider_progress_outcome i); cbn; [by f_equal|done].
Qed.

(** Resolving along a list of matches that comes from the tail [l] of the
    interactions, whose ids are distinct. *)
Lemma resolve_interaction_ids_select g l : ∀ done,
  NoDup (pi_id <$> (done ++ l)) →
  resolve_interaction_ids (done ++ l) (select g l)
  = (done ++ (resolve_by g <$> l), selected_transitions g l).
Proof.
  unfold select, selected_transitions.
  induction l as [|i l IH]; intros pre Hnd; cbn.
  { reflexivity. }
  destruct (g i) as [o|] eqn:Hg; cbn.
  - replace (existsb _ (pre ++ i :: l)) with true; cycle 1.
    { symmetry. apply existsb_exists. exists i. split; [apply in_app_iff; cbn; tauto|].
      by rewrite bool_decide_eq_true. }
    rewrite (update_first_nodup pi_id (pi_id i)) by done.
    rewrite fmap_app. cbn. rewrite bool_decide_eq_true_2 by done.
    assert (Hid : ∀ k : list ProviderInteraction, pi_id i ∉ pi_id <$> k →
              (λ x : ProviderInteraction, if bool_decide (pi_id x = pi_id i)
                    then x <| pi_status := InteractionResolvedAs o |> else x) <$> k = k).
    { intros k Hk. rewrite <- (list_fmap_id k) at 2. apply list_fmap_ext. intros n y Hy.
      rewrite bool_decide_eq_false_2; [done|]. intros E. apply Hk. rewrite <- E.
      apply list_elem_of_fmap. exists y. split; [done|]. by eapply list_elem_of_lookup_2. }
    rewrite fmap_app in Hnd. cbn in Hnd.
    assert (Hpre : pi_id i ∉ pi_id <$> pre).
    { intros H. apply NoDup_app in Hnd as (_ & Hd & _). apply (Hd _ H). by left. }
    assert (Hpost : pi_id i ∉ pi_id <$> l).
    { apply NoDup_app in Hnd as (_ & _ & Hd). by apply NoDup_cons in Hd as [? _]. }
    rewrite !Hid by done.
    replace (pre ++ _ :: l) with ((pre ++ [i <| pi_status := InteractionResolvedAs o |>]) ++ l)
      by by rewrite <- app_assoc.
    rewrite IH.
    + unfold resolve_by at 2. rewrite Hg. by rewrite <- app_assoc.
    + rewrite !fmap_app, <- app_assoc. cbn. done.
  - replace (pre ++ i :: l) with ((pre ++ [i]) ++ l) by by rewrite <- app_assoc.
    rewrite IH by by rewrite <- app_assoc.
    unfold resolve_by at 2. rewrite Hg. by rewrite <- app_assoc.
Qed.

Lemma resolve_ids_select g p :
  NoDup (pi_id <$> ps_interactions p) →
  resolve_ids p (select g (ps_interactions p))
  = (p <| ps_interactions ::= fmap (resolve_by g) |>,
     selected_transitions g (ps_interactions p)).
Proof.
  intros Hnd. unfold resolve_ids.
  pose proof (resolve_interaction_ids_select g (ps_interactions p) [] Hnd) as E.
  cbn in E. by rewrite E.
Qed.

Lemma resolve_by_id g i : pi_id (resolve_by g i) = pi_id i.
Proof. unfold resolve_by. by destruct (g i). Qed.

Lemma resolve_by_open g i :
  interaction_is_unresolved (resolve_by g i)
  = match g i with Some _ => false | None => interaction_is_unresolved i end.
Proof. unfold resolve_by. by destruct (g i). Qed.

(** The choice only picks open interactions. *)
Definition picks_open (g : ProviderInteraction → option ProviderInteractionOutcome) : Prop :=
  ∀ i o, g i = Some o → interaction_is_unresolved i = true.

Lemma replay_selected g l : ∀ pre,
  picks_open g → NoDup (pre ++ (pi_id <$> l)) →
  replay (pre ++ open_ids l) (selected_transitions g l)
  = Some (pre ++ open_ids (resolve_by g <$> l)).
Proof.
  unfold selected_transitions.
  induction l as [|i l IH]; intros pre Hg Hnd; cbn [omap list_omap]; [done|].
  rewrite fmap_cons, !open_ids_cons, resolve_by_open, resolve_by_id.
  destruct (g i) as [o|] eqn:E; cbn [fmap option_fmap option_map].
  - rewrite (Hg _ _ E). cbn [replay].
    apply NoDup_app in Hnd as (H1 & H2 & H3). cbn in H3. apply NoDup_cons in H3 as [H3 H4].
    rewrite replay_resolved_middle.
    + cbn. apply IH; [done|]. apply NoDup_app. split_and!; [done| |done].
      intros x Hx Hx'. apply (H2 x Hx). by right.
    + intros Hx. apply (H2 _ Hx). by left.
    + intros Hx. by apply H3, open_ids_subset.
  - destruct (interaction_is_unresolved i).
    + replace (pre ++ pi_id i :: open_ids l) with ((pre ++ [pi_id i]) ++ open_ids l)
        by by rewrite <- app_assoc.
      rewrite IH; [by rewrite <- app_assoc|done|]. by rewrite <- app_assoc.
    + apply IH; [done|]. cbn in Hnd.
      eapply sublist_NoDup; [exact Hnd|]. apply sublist_app; [done|by constructor].
Qed.

(** ** Well-formed interactions *)

Record interactions_wf (l : list ProviderInteraction) (sequence : N) : Prop := {
  iw_bound : len l <= PROVIDER_INTERACTIONS_MAX;
  iw_ids : Forall (λ i, interaction_raw (pi_id i) <= sequence) l;
  iw_nodup : NoDup (pi_id <$> l)
}.

(** A reduction of interactions: well formed, and replayed by its transitions,
    of which at most [n] open an interaction. *)
Definition is_request (t : ProviderInteractionTransition) : bool :=
  match t with TransRequested _ => true | TransResolved _ _ => false end.
Definition requests (ts : list ProviderInteractionTransition) : N :=
  len (List.filter is_request ts).

(** The operations some interaction is being resolved by. *)
Definition resolving_operation (i : ProviderInteraction) : option OperationId :=
  match pi_status i with
  | InteractionResolving operation_id _ => Some operation_id
  | _ => None
  end.
Definition resolving (l : list ProviderInteraction) : list OperationId :=
  omap resolving_operation l.

Record interactions_step (l l' : list ProviderInteraction)
    (ts : list ProviderInteractionTransition) (sequence n : N) : Prop := {
  is_wf : interactions_wf l' sequence;
  is_replay : replay (open_ids l) ts = Some (open_ids l');
  is_requests : requests ts <= n;
  is_resolving : resolving l' ⊆ resolving l
}.

Lemma interactions_wf_weaken l s s' : s <= s' → interactions_wf l s → interactions_wf l s'.
Proof.
  intros Hs [H1 H2 H3]. split; [done| |done]. eapply Forall_impl; [exact H2|].
  intros i Hi. cbn in Hi. lia.
Qed.

Lemma interactions_step_refl l s : interactions_wf l s → interactions_step l l [] s 0.
Proof. by split. Qed.

Lemma interactions_step_trans l1 l2 l3 ts1 ts2 s n1 n2 :
  interactions_step l1 l2 ts1 s n1 → interactions_step l2 l3 ts2 s n2 →
  interactions_step l1 l3 (ts1 ++ ts2) s (n1 + n2).
Proof.
  intros [A1 B1 C1 D1] [A2 B2 C2 D2]. split; [done| | |set_solver].
  - rewrite replay_app, B1. done.
  - unfold requests in *. rewrite List.filter_app, len_app. lia.
Qed.

Lemma interactions_step_bump l l' ts s n n' :
  n <= n' → interactions_step l l' ts s n → interactions_step l l' ts s n'.
Proof. intros H [A B C D]. split; [done|done|lia|done]. Qed.

Lemma selected_no_request g l : requests (selected_transitions g l) = 0.
Proof.
  unfold requests, selected_transitions. induction l as [|i l IH]; cbn; [done|].
  by destruct (g i).
Qed.

Lemma select_step g p s :
  picks_open g → interactions_wf (ps_interactions p) s →
  let '(p', ts) := resolve_ids p (select g (ps_interactions p)) in
  interactions_step (ps_interactions p) (ps_interactions p') ts s 0
  ∧ p' = p <| ps_interactions := ps_interactions p' |>.
Proof.
  intros Hg [H1 H2 H3]. rewrite resolve_ids_select by done. split; [|done].
  cbn. split.
  - split.
    + unfold len in *. by rewrite length_fmap.
    + apply Forall_fmap. eapply Forall_impl; [exact H2|]. intros i Hi. cbn.
      by rewrite resolve_by_id.
    + rewrite <- list_fmap_compose. erewrite list_fmap_ext; [exact H3|].
      intros; cbn. apply resolve_by_id.
  - apply (replay_selected g (ps_interactions p) []); [done|]. done.
  - by rewrite selected_no_request.
  - intros op (i & Hi & Hop)%list_elem_of_omap. apply list_elem_of_omap.
    apply list_elem_of_fmap in Hi as (j & -> & Hj). exists j. split; [done|].
    unfold resolve_by in Hop. destruct (g j); [done|exact Hop].
Qed.

Lemma provider_progress_open i o :
  provider_progress_outcome i = Some o → interaction_is_unresolved i = true.
Proof. unfold provider_progress_outcome, interaction_is_unresolved. by destruct (pi_status i). Qed.

(** ** The resolutions of the code *)

(** [r] resolves some interactions of [p] and touches nothing else. *)
Definition resolution (p : ProviderSnapshot) (s : N)
    (r : ProviderSnapshot * list ProviderInteractionTransition) : Prop :=
  interactions_step (ps_interactions p) (ps_interactions (fst r)) (snd r) s 0
  ∧ fst r = p <| ps_interactions := ps_interactions (fst r) |>.

Lemma resolution_select g p s :
  picks_open g → interactions_wf (ps_interactions p) s →
  resolution p s (resolve_ids p (select g (ps_interactions p))).
Proof.
  intros Hg Hwf. pose proof (select_step g p s Hg Hwf) as H. unfold resolution.
  by destruct (resolve_ids _ _).
Qed.

Lemma picks_matching (q : ProviderInteraction → bool) o :
  (∀ i, q i = true → interaction_is_unresolved i = true) →
  picks_open (λ i, if q i then Some o else None).
Proof. intros Hq i o'. destruct (q i) eqn:E; [|done]. intros _. by apply Hq. Qed.

Lemma picks_progress (q : ProviderInteraction → bool) :
  picks_open (λ i, if q i then provider_progress_outcome i else None).
Proof. intros i o. destruct (q i); [|done]. apply provider_progress_open. Qed.

Ltac solve_resolution :=
  intros; first [rewrite matching_ids_select; apply resolution_select;
                 [apply picks_matching; intros ? ?; bool_prop; tauto|done]
                |rewrite progress_ids_select; apply resolution_select;
                 [apply picks_progress|done]].

Section resolutions.
Context (p : ProviderSnapshot) (s : N) (Hwf : interactions_wf (ps_interactions p) s).

Lemma resolve_matching_resolution src r a :
  resolution p s (resolve_matching_provider_interactions p src r a).
Proof. unfold resolve_matching_provider_interactions. solve_resolution. Qed.
Lemma resolve_request_resolution src r a o :
  resolution p s (resolve_provider_request_interactions p src r a o).
Proof. unfold resolve_provider_request_interactions. solve_resolution. Qed.
Lemma resolve_reported_resolution src r o :
  resolution p s (resolve_provider_reported_interactions p src r o).
Proof. unfold resolve_provider_reported_interactions. solve_resolution. Qed.
Lemma resolve_source_resolution src o :
  resolution p s (resolve_source_pending_interactions p src o).
Proof. unfold resolve_source_pending_interactions. solve_resolution. Qed.
Lemma resolve_by_kind_resolution src :
  resolution p s (resolve_source_pending_interactions_by_kind p src).
Proof. unfold resolve_source_pending_interactions_by_kind. solve_resolution. Qed.
Lemma resolve_subagent_resolution src a o :
  resolution p s (resolve_subagent_pending_interactions p src a o).
Proof. unfold resolve_subagent_pending_interactions. solve_resolution. Qed.
Lemma resolve_all_resolution o :
  resolution p s (resolve_all_pending_interactions p o).
Proof. unfold resolve_all_pending_interactions. solve_resolution. Qed.
End resolutions.

(** After [resolve_all_pending_interactions] nothing is open. *)
Lemma resolve_all_none_open p o :
  NoDup (pi_id <$> ps_interactions p) →
  open_ids (ps_interactions (fst (resolve_all_pending_interactions p o))) = [].
Proof.
  intros Hnd. unfold resolve_all_pending_interactions.
  rewrite matching_ids_select, resolve_ids_select by done.
  clear Hnd. cbn [fst ps_interactions set_field]. induction (ps_interactions p) as [|i l IH]; [done|].
  rewrite fmap_cons, open_ids_cons, resolve_by_open.
  by destruct (interaction_is_unresolved i).
Qed.

(** ** Opening an interaction *)

Definition fresh_interaction (i : ProviderInteraction) (l : list ProviderInteraction) (s : N)
    : Prop :=
  interaction_raw (pi_id i) = s ∧ pi_status i = InteractionPending
  ∧ Forall (λ j, interaction_raw (pi_id j) < s) l.

Lemma fresh_not_elem i l s : fresh_interaction i l s → pi_id i ∉ pi_id <$> l.
Proof.
  intros (Hi & _ & HF) Hin. apply list_elem_of_fmap in Hin as (j & E & Hj).
  rewrite Forall_forall in HF. pose proof (HF j Hj). rewrite <- E in *. lia.
Qed.

Lemma append_wf i l s :
  fresh_interaction i l s → NoDup (pi_id <$> l) → len l < PROVIDER_INTERACTIONS_MAX →
  interactions_wf (l ++ [i]) s.
Proof.
  intros Hf Hnd Hlen. pose proof (fresh_not_elem _ _ _ Hf) as Hni.
  destruct Hf as (Hi & _ & HF). split.
  - rewrite len_app. unfold len at 2. cbn. lia.
  - apply Forall_app. split; [|constructor; [lia|done]].
    eapply Forall_impl; [exact HF|]. intros j Hj. cbn in Hj. lia.
  - rewrite fmap_app. apply NoDup_app. split_and!; [done| |apply NoDup_singleton].
    cbn. intros x Hx Hx'. apply list_elem_of_singleton in Hx' as ->. done.
Qed.

Lemma open_ids_snoc l i :
  pi_status i = InteractionPending → open_ids (l ++ [i]) = open_ids l ++ [pi_id i].
Proof.
  intros Hi. rewrite open_ids_app, open_ids_cons. unfold interaction_is_unresolved.
  by rewrite Hi.
Qed.

Lemma push_replay i l l' ts :
  pi_id i ∉ open_ids l' → pi_status i = InteractionPending →
  replay (open_ids l) ts = Some (open_ids l') →
  replay (open_ids l) (ts ++ [TransRequested i]) = Some (open_ids (l' ++ [i])).
Proof.
  intros Hni Hi Hr. rewrite replay_app, Hr. cbn. rewrite bool_decide_eq_false_2 by done.
  by rewrite open_ids_snoc.
Qed.

Lemma fresh_sublist i l l' s : sublist l l' → fresh_interaction i l' s → fresh_interaction i l s.
Proof.
  intros Hl (A & B & C). split_and!; [done|done|]. rewrite Forall_forall in C |- *.
  intros x Hx. apply C. by eapply sublist_subseteq.
Qed.

Lemma resolving_app l l' : resolving (l ++ l') = resolving l ++ resolving l'.
Proof. apply omap_app. Qed.

(** Dropping an interaction, reported as superseded if it was open. *)
Lemma evict_step l0 l1 x l2 ts s :
  interactions_step l0 (l1 ++ x :: l2) ts s 0 →
  interactions_step l0 (l1 ++ l2)
    (if interaction_is_unresolved x then ts ++ [TransResolved (pi_id x) Superseded] else ts) s 0.
Proof.
  intros [[Hb Hids Hnd] Hr Hn Hres].
  assert (Hsub : sublist (l1 ++ l2) (l1 ++ x :: l2)).
  { apply sublist_app; [done|by constructor]. }
  split.
  - split.
    + rewrite len_app, ?len_cons in *. lia.
    + rewrite Forall_app, Forall_cons in Hids. apply Forall_app. naive_solver.
    + eapply sublist_NoDup; [exact Hnd|]. rewrite !fmap_app. apply sublist_app; [done|].
      cbn. by constructor.
  - rewrite (open_ids_app l1 (x :: l2)), open_ids_cons in Hr.
    destruct (interaction_is_unresolved x) eqn:Ex; [|by rewrite Hr, open_ids_app].
    rewrite replay_app, Hr. cbn [mbind option_bind replay].
    rewrite fmap_app in Hnd. cbn in Hnd. apply NoDup_app in Hnd as (N1 & N2 & N3).
    apply NoDup_cons in N3 as [N3 N4].
    rewrite replay_resolved_middle; cbn; [by rewrite open_ids_app| |].
    + intros H. apply (N2 (pi_id x)); [by apply open_ids_subset|by left].
    + intros H. by apply N3, open_ids_subset.
  - destruct (interaction_is_unresolved x); [|done].
    unfold requests. rewrite List.filter_app. cbn. by rewrite app_nil_r.
  - etrans; [|exact Hres]. rewrite !resolving_app. unfold resolving. cbn.
    destruct (resolving_operation x); set_solver.
Qed.

(** Appending a fresh one, reported as requested. *)
Lemma append_step l0 l ts i s0 s :
  s0 < s → interactions_step l0 l ts s0 0 → fresh_interaction i l s →
  len l < PROVIDER_INTERACTIONS_MAX →
  interactions_step l0 (l ++ [i]) (ts ++ [TransRequested i]) s 1.
Proof.
  intros Hs [[Hb Hids Hnd] Hr Hn Hres] Hf Hlen.
  pose proof (fresh_not_elem _ _ _ Hf) as Hni. pose proof Hf as (_ & Hst & _). split.
  - by apply append_wf.
  - apply push_replay; [|done|done]. intros H. by apply Hni, open_ids_subset.
  - unfold requests. rewrite List.filter_app, len_app. unfold requests in Hn.
    cbn [List.filter is_request]. rewrite len_cons, len_nil. lia.
  - rewrite resolving_app. unfold resolving at 2, resolving_operation. cbn. rewrite Hst.
    by rewrite app_nil_r.
Qed.

Lemma push_provider_interaction_step p i ts0 l0 s0 s :
  s0 < s → interactions_step l0 (ps_interactions p) ts0 s0 0 →
  fresh_interaction i (ps_interactions p) s →
  let '(p', ts) := push_provider_interaction p i ts0 in
  interactions_step l0 (ps_interactions p') (ts ++ [TransRequested i]) s 1
  ∧ p' = p <| ps_interactions := ps_interactions p' |>.
Proof.
  intros Hs Hl Hf. unfold push_provider_interaction.
  destruct (PROVIDER_INTERACTIONS_MAX <=? len (ps_interactions p)) eqn:Hfull; bool_prop;
    [|split; [by eapply append_step|done]].
  destruct (remove_at _ _) as [[x kept]|] eqn:Hrm; cycle 1.
  { exfalso. apply remove_at_None in Hrm. unfold len, PROVIDER_INTERACTIONS_MAX in *.
    destruct (position _ _) as [n|] eqn:Hpos; cbn in Hrm; [apply position_lt in Hpos|]; lia. }
  apply remove_at_split in Hrm as (l1 & l2 & E & -> & _). rewrite E in *.
  cbn [fst snd]. split; [|done]. cbn [ps_interactions set_field].
  pose proof (iw_bound _ _ (is_wf _ _ _ _ _ Hl)) as Hb.
  apply (append_step _ _ _ _ s0); [done|by apply evict_step| |rewrite len_app, ?len_cons in *; lia].
  eapply fresh_sublist; [|exact Hf]. apply sublist_app; [done|by constructor].
Qed.

(** ** Well-formed provider snapshots *)

Definition subagent_key (a : ProviderSubagent) : ProviderSource * list N :=
  (sub_source a, sub_provider_agent_id a).

(** The activity shown: the lead's, except that an idle lead with subagents is
    working. *)
Definition derived_activity (p : ProviderSnapshot) : ProviderActivity :=
  if bool_decide (ps_lead_activity p = Idle) && negb (len (ps_subagents p) =? 0)
  then Working else ps_lead_activity p.

(** The subagents and tools of a snapshot: bounded and without duplicates. *)
Record roster_wf (p : ProviderSnapshot) : Prop := {
  rw_subagents : len (ps_subagents p) <= PROVIDER_SUBAGENTS_MAX;
  rw_subagent_keys : NoDup (subagent_key <$> ps_subagents p);
  rw_tools : NoDup (tool_id <$> ps_active_tools p)
}.

Record provider_wf (p : ProviderSnapshot) : Prop := {
  pw_interactions : interactions_wf (ps_interactions p) (ps_sequence p);
  pw_roster : roster_wf p;
  pw_sources : NoDup (cursor_source <$> ps_sources p);
  pw_activity : ps_activity p = derived_activity p;
  pw_stale : ps_stale p = existsb cursor_stale (ps_sources p);
  pw_sequence : ps_sequence p <= U64_MAX
}.

(** What one arm of the reduction guarantees. *)
Record body_ok (p : ProviderSnapshot) (s : N) (r : step) : Prop := {
  bo_interactions :
    interactions_step (ps_interactions p) (ps_interactions (fst r)) (snd r) s 1;
  bo_roster : roster_wf (fst r);
  bo_sources : ps_sources (fst r) = ps_sources p;
  bo_gaps : ps_gap_count (fst r) = ps_gap_count p
}.

Lemma refresh_activity_derived p : ps_activity (refresh_provider_activity p) = derived_activity p.
Proof.
  unfold refresh_provider_activity, derived_activity. cbn.
  destruct (ps_subagents p) as [|x l]; cbn; [done|].
  rewrite len_cons. by replace (len l + 1 =? 0) with false by (symmetry; apply N.eqb_neq; lia).
Qed.

Lemma NoDup_retain_key {A B} (key : A → B) p (l : list A) :
  NoDup (key <$> l) → NoDup (key <$> retain p l).
Proof.
  induction l as [|x l IH]; cbn; [done|]. intros [H1 H2]%NoDup_cons.
  destruct (p x); [|by apply IH]. cbn. apply NoDup_cons. split; [|by apply IH].
  intros (y & E & [Hy _]%elem_of_retain)%list_elem_of_fmap. apply H1. rewrite E.
  by apply list_elem_of_fmap_2.
Qed.

Lemma NoDup_snoc_key {A B} (key : A → B) (l : list A) x :
  NoDup (key <$> l) → key x ∉ key <$> l → NoDup (key <$> (l ++ [x])).
Proof.
  intros H1 H2. rewrite fmap_app. apply NoDup_app. split_and!; [done| |apply NoDup_singleton].
  cbn. intros y Hy Hy'. by apply list_elem_of_singleton in Hy' as ->.
Qed.

Lemma not_existsb_key {A B} (key : A → B) `{!EqDecision B} k (l : list A) :
  existsb (λ x, bool_decide (key x = k)) l = false → k ∉ key <$> l.
Proof.
  intros H Hin. apply list_elem_of_fmap in Hin as (x & -> & Hx).
  rewrite <- not_true_iff_false, existsb_exists in H. apply H. exists x.
  rewrite <- list_elem_of_In. by rewrite bool_decide_eq_true.
Qed.

Section body.
Context (p : ProviderSnapshot) (s : N).
Context (Hi : interactions_wf (ps_interactions p) s) (Hr : roster_wf p).

(** A step that leaves the interactions alone. *)
Lemma body_plain p' :
  ps_interactions p' = ps_interactions p → roster_wf p' →
  ps_sources p' = ps_sources p → ps_gap_count p' = ps_gap_count p →
  body_ok p s (p', []).
Proof.
  intros E1 E2 E3 E4. split; [|done|done|done]. cbn. rewrite E1.
  eapply interactions_step_bump; [|by apply interactions_step_refl]. lia.
Qed.

(** A resolution, possibly after changes of [p], followed by others. *)
Lemma body_resolution p1 p' r :
  ps_interactions p1 = ps_interactions p → resolution p1 s r →
  ps_interactions p' = ps_interactions (fst r) → roster_wf p' →
  ps_sources p' = ps_sources p → ps_gap_count p' = ps_gap_count p →
  body_ok p s (p', snd r).
Proof.
  intros E1 [Hstep _] E2 E3 E4 E5. split; [|done|done|done]. cbn. rewrite E2, <- E1.
  eapply interactions_step_bump; [|exact Hstep]. lia.
Qed.

Lemma roster_same p' :
  ps_subagents p' = ps_subagents p → ps_active_tools p' = ps_active_tools p → roster_wf p'.
Proof. destruct Hr. intros E1 E2. split; by rewrite ?E1, ?E2. Qed.

Lemma roster_no_tools p' :
  ps_subagents p' = ps_subagents p → ps_active_tools p' = [] → roster_wf p'.
Proof.
  destruct Hr. intros E1 E2. split; rewrite ?E1, ?E2; [done|done|constructor].
Qed.

Lemma roster_fewer p' f :
  ps_subagents p' = retain f (ps_subagents p) →
  (ps_active_tools p' = ps_active_tools p ∨ ps_active_tools p' = []) → roster_wf p'.
Proof.
  destruct Hr as [R1 R2 R3]. intros E1 E2. split; rewrite ?E1.
  - pose proof (retain_length f (ps_subagents p)). lia.
  - by apply NoDup_retain_key.
  - destruct E2 as [->| ->]; [done|constructor].
Qed.

Lemma roster_more p' x :
  ps_subagents p' = ps_subagents p ++ [x] → ps_active_tools p' = ps_active_tools p →
  len (ps_subagents p) < PROVIDER_SUBAGENTS_MAX →
  subagent_key x ∉ subagent_key <$> ps_subagents p → roster_wf p'.
Proof.
  destruct Hr as [R1 R2 R3]. intros E1 E2 Hl Hx. split; rewrite ?E1, ?E2; [| |done].
  - rewrite len_app, len_cons, len_nil. lia.
  - by apply NoDup_snoc_key.
Qed.

Lemma roster_update p' q f :
  ps_subagents p' = update_first q f (ps_subagents p) →
  ps_active_tools p' = ps_active_tools p →
  (∀ x, subagent_key (f x) = subagent_key x) → roster_wf p'.
Proof.
  destruct Hr as [R1 R2 R3]. intros E1 E2 Hf. split; rewrite ?E1, ?E2; [| |done].
  - by rewrite update_first_length.
  - by rewrite update_first_key.
Qed.

Lemma roster_tools p' :
  ps_subagents p' = ps_subagents p → NoDup (tool_id <$> ps_active_tools p') → roster_wf p'.
Proof. destruct Hr. intros E1 E2. split; by rewrite ?E1. Qed.
End body.

Lemma resolution_same p s q ts :
  resolution p s (q, ts) →
  ps_subagents q = ps_subagents p ∧ ps_active_tools q = ps_active_tools p
  ∧ ps_sources q = ps_sources p ∧ ps_gap_count q = ps_gap_count p
  ∧ ps_sequence q = ps_sequence p ∧ ps_lead_activity q = ps_lead_activity p.
Proof. intros [_ E]. cbn in E. by rewrite E. Qed.

(** ** The arms *)

Section arms.
Context (p : ProviderSnapshot) (src : ProviderSource) (s : N).
Context (Hi : interactions_wf (ps_interactions p) s) (Hr : roster_wf p).

(** Changes of [p] and then a resolution, or a resolution and then changes. *)
Lemma body_tail p1 r :
  ps_interactions p1 = ps_interactions p → resolution p1 s r → roster_wf p1 →
  ps_sources p1 = ps_sources p → ps_gap_count p1 = ps_gap_count p → body_ok p s r.
Proof.
  intros E1 H R E2 E3. destruct r as [q ts]. destruct (resolution_same _ _ _ _ H) as (A&B&C&D&_).
  apply (body_resolution p s p1 q (q, ts)); [done|done|done| |by rewrite C|by rewrite D].
  by apply (roster_same p1 R).
Qed.

Lemma body_then q ts p' :
  resolution p s (q, ts) → ps_interactions p' = ps_interactions q → roster_wf p' →
  ps_sources p' = ps_sources q → ps_gap_count p' = ps_gap_count q → body_ok p s (p', ts).
Proof.
  intros H E1 R E2 E3. destruct (resolution_same _ _ _ _ H) as (A&B&C&D&_).
  apply (body_resolution p s p p' (q, ts)); [done|done|done|done|by rewrite E2|by rewrite E3].
Qed.

Lemma roster_after q ts : resolution p s (q, ts) → roster_wf q.
Proof. intros H. destruct (resolution_same _ _ _ _ H) as (A&B&_). by apply (roster_same p Hr). Qed.

Lemma session_started_ok sid model tools :
  body_ok p s (reduce_session_started p src sid model tools).
Proof.
  unfold reduce_session_started.
  eapply body_tail; cycle 1; [by apply resolve_source_resolution| |done|done|done].
  eapply (roster_fewer p Hr); [done|by right].
Qed.

Lemma turn_started_ok prompt : body_ok p s (reduce_turn_started p src prompt).
Proof.
  unfold reduce_turn_started. destruct (resolve_source_pending_interactions _ _ _) as [q ts] eqn:E.
  assert (H : resolution p s (q, ts)) by (rewrite <- E; by apply resolve_source_resolution).
  eapply body_then; [exact H|done| |done|done].
  eapply (roster_no_tools q); [by eapply roster_after|done|done].
Qed.

Lemma working_observed_ok : body_ok p s (reduce_working_observed p src).
Proof.
  unfold reduce_working_observed.
  destruct (resolve_source_pending_interactions_by_kind _ _) as [q ts] eqn:E.
  assert (H : resolution p s (q, ts)) by (rewrite <- E; by apply resolve_by_kind_resolution).
  eapply body_then; [exact H|done| |done|done].
  eapply (roster_same q); [by eapply roster_after|done|done].
Qed.

Lemma tool_started_ok id name input agent_id :
  body_ok p s (reduce_tool_started p src id name input agent_id).
Proof.
  unfold reduce_tool_started.
  destruct (resolve_matching_provider_interactions _ _ _ _) as [q ts] eqn:E.
  assert (H : resolution p s (q, ts)) by (rewrite <- E; by apply resolve_matching_resolution).
  set (p1 := match ts with [] => _ | _ => _ end).
  assert (H1 : ∃ a, p1 = q <| ps_lead_activity := a |>).
  { unfold p1. destruct ts; [destruct agent_id|]; [|by eexists|by eexists].
    exists (ps_lead_activity q). by destruct q. }
  destruct H1 as [a ->]. pose proof (roster_after _ _ H) as Rq.
  destruct agent_id as [a'|].
  - eapply body_then; [exact H|done| |done|done]. by apply (roster_same q Rq).
  - destruct (existsb _ _) eqn:Hex; (eapply body_then; [exact H|done| |done|done]).
    + apply (roster_tools q Rq); [done|]. cbn. rewrite update_first_key; [|done].
      apply Rq.
    + apply (roster_tools q Rq); [done|]. cbn. apply NoDup_snoc_key; [apply Rq|].
      cbn. by apply (not_existsb_key tool_id).
Qed.

Lemma tool_completed_ok id agent_id :
  body_ok p s (reduce_tool_completed p src id agent_id).
Proof.
  unfold reduce_tool_completed.
  destruct (resolve_matching_provider_interactions _ _ _ _) as [q ts] eqn:E.
  assert (H : resolution p s (q, ts)) by (rewrite <- E; by apply resolve_matching_resolution).
  pose proof (roster_after _ _ H) as Rq.
  destruct ts as [|t ts], agent_id as [a|]; (eapply body_then; [exact H|done| |done|done]).
  2, 4: apply (roster_tools q Rq); [done|]; cbn; apply NoDup_retain_key, Rq.
  all: by apply (roster_same q Rq).
Qed.

Lemma turn_completed_ok usage cumulative :
  body_ok p s (reduce_turn_completed p src usage cumulative).
Proof.
  unfold reduce_turn_completed.
  eapply body_tail; cycle 1; [by apply resolve_source_resolution| |done|done|done].
  by eapply (roster_no_tools p Hr).
Qed.

Lemma turn_interrupted_ok : body_ok p s (reduce_turn_interrupted p src).
Proof.
  unfold reduce_turn_interrupted.
  eapply body_tail; cycle 1; [by apply resolve_source_resolution| |done|done|done].
  by eapply (roster_no_tools p Hr).
Qed.

Lemma interaction_resolved_ok request_id outcome :
  body_ok p s (reduce_interaction_resolved p src request_id outcome).
Proof.
  unfold reduce_interaction_resolved.
  destruct (resolve_provider_reported_interactions _ _ _ _) as [q ts] eqn:E.
  assert (H : resolution p s (q, ts)) by (rewrite <- E; by apply resolve_reported_resolution).
  pose proof (roster_after _ _ H) as Rq.
  destruct ts as [|t ts]; (eapply body_then; [exact H|done| |done|done]).
  all: by apply (roster_same q Rq).
Qed.

Lemma session_ended_ok :
  body_ok p s (resolve_source_pending_interactions
                 (remove_source_subagents (lead_idle p) src) src TurnEnded).
Proof.
  eapply body_tail; cycle 1; [by apply resolve_source_resolution| |done|done|done].
  eapply (roster_fewer p Hr); [done|by right].
Qed.

Lemma subagent_started_ok agent_id agent_type description :
  body_ok p s (reduce_subagent_started p src agent_id agent_type description, []).
Proof.
  unfold reduce_subagent_started. destruct (existsb _ _) eqn:Hex.
  { apply (body_plain p s Hi); [done| |done|done]. by eapply (roster_update p Hr). }
  destruct (len _ <? _) eqn:Hl; [|by apply (body_plain p s Hi)].
  bool_prop. apply (body_plain p s Hi); [done| |done|done].
  eapply (roster_more p Hr); [done|done|done|].
  intros (x & Ex & Hx)%list_elem_of_fmap. rewrite <- not_true_iff_false, existsb_exists in Hex.
  apply Hex. exists x. rewrite <- list_elem_of_In. split; [done|].
  unfold subagent_key, source_is in *. cbn in Ex. injection Ex as E1 E2.
  by rewrite andb_true_iff, !bool_decide_eq_true.
Qed.

Lemma subagent_stopped_ok agent_id : body_ok p s (reduce_subagent_stopped p src agent_id).
Proof.
  unfold reduce_subagent_stopped.
  destruct (resolve_subagent_pending_interactions _ _ _ _) as [q ts] eqn:E.
  assert (H : resolution p s (q, ts)) by (rewrite <- E; by apply resolve_subagent_resolution).
  pose proof (roster_after _ _ H) as Rq.
  destruct (subagent_interaction_resume_activity _ _ _);
    (eapply body_then; [exact H|done| |done|done]);
    eapply (roster_fewer q Rq); [done|by left|done|by left].
Qed.
End arms.

Lemma interaction_requested_ok p src s request_id kind tool prompt agent_id :
  interactions_wf (ps_interactions p) (ps_sequence p) → roster_wf p → ps_sequence p < s →
  body_ok p s (reduce_interaction_requested p src s request_id kind tool prompt agent_id).
Proof.
  intros Hi Hr Hs. unfold reduce_interaction_requested.
  set (q0 := match request_id with Some r => _ | None => _ end).
  assert (H : resolution p (ps_sequence p) q0).
  { unfold q0. destruct request_id; [by apply resolve_request_resolution|].
    split; [by apply interactions_step_refl|by destruct p]. }
  destruct q0 as [q ts]. destruct (resolution_same _ _ _ _ H) as (A & B & C & D & _).
  destruct H as [H _]. cbn [fst snd] in H.
  set (i := {| pi_id := MkInteraction s |}).
  assert (Hf : fresh_interaction i (ps_interactions q) s).
  { split_and!; [done|done|]. eapply Forall_impl; [exact (iw_ids _ _ (is_wf _ _ _ _ _ H))|].
    intros j Hj. cbn in Hj. lia. }
  pose proof (push_provider_interaction_step q i ts _ (ps_sequence p) s Hs H Hf) as Hp.
  destruct (push_provider_interaction q i ts) as [q' ts'].
  destruct Hp as [Hstep Hsame]. rewrite Hsame. split; [exact Hstep| |by cbn; rewrite C|by cbn; rewrite D].
  by apply (roster_same p Hr).
Qed.

(** Every arm of the reduction. *)
Lemma reduce_event_body_ok p src s e :
  interactions_wf (ps_interactions p) (ps_sequence p) → roster_wf p → ps_sequence p < s →
  body_ok p s (reduce_event_body p src s e).
Proof.
  intros Hi0 Hr Hs.
  assert (Hi : interactions_wf (ps_interactions p) s)
    by (eapply interactions_wf_weaken; [|exact Hi0]; lia).
  destruct e; cbn [reduce_event_body];
    auto using session_started_ok, turn_started_ok, working_observed_ok, tool_started_ok,
      tool_completed_ok, turn_completed_ok, turn_interrupted_ok, interaction_resolved_ok,
      session_ended_ok, subagent_started_ok, subagent_stopped_ok, interaction_requested_ok;
    apply (body_plain p s Hi); try done; by apply (roster_same p Hr).
Qed.

(** ** Cursors *)

Lemma existsb_source_spec src (l : list ProviderSourceCursor) :
  existsb (λ c, source_is (cursor_source c) src) l = true ↔ src ∈ cursor_source <$> l.
Proof.
  rewrite existsb_exists, list_elem_of_fmap. unfold source_is. split.
  - intros (c & Hc & E). bool_prop. exists c. by rewrite list_elem_of_In.
  - intros (c & -> & Hc). exists c. rewrite <- list_elem_of_In. by rewrite bool_decide_eq_true.
Qed.

Lemma with_source_cursor_sources src f p :
  ps_sources (with_source_cursor src f p)
  = if existsb (λ c, source_is (cursor_source c) src) (ps_sources p)
    then update_first (λ c, source_is (cursor_source c) src) f (ps_sources p)
    else ps_sources p ++ [f (MkCursor src 0 0 false)].
Proof. unfold with_source_cursor. by destruct (existsb _ _). Qed.

Lemma with_source_cursor_nodup src f p :
  (∀ c, cursor_source (f c) = cursor_source c) →
  NoDup (cursor_source <$> ps_sources p) →
  NoDup (cursor_source <$> ps_sources (with_source_cursor src f p)).
Proof.
  intros Hf Hnd. rewrite with_source_cursor_sources. destruct (existsb _ _) eqn:E.
  - by rewrite update_first_key.
  - apply NoDup_snoc_key; [done|]. rewrite Hf. cbn. rewrite <- existsb_source_spec. congruence.
Qed.

Lemma find_update_first {A} (q r : A → bool) (f : A → A) l :
  (∀ x, q (f x) = q x) → (∀ x, r x = true → q x = false) →
  List.find q (update_first r f l) = List.find q l.
Proof.
  intros Hq Hr. induction l as [|x l IH]; cbn; [done|].
  destruct (r x) eqn:E; cbn; rewrite ?Hq; [by rewrite (Hr _ E)|by rewrite IH].
Qed.

Lemma find_update_first_same {A} (q : A → bool) (f : A → A) l :
  (∀ x, q (f x) = q x) → existsb q l = true →
  ∃ x, List.find q l = Some x ∧ List.find q (update_first q f l) = Some (f x).
Proof.
  intros Hq. induction l as [|x l IH]; cbn; [done|].
  destruct (q x) eqn:E; cbn; [intros _; exists x; by rewrite Hq, E|].
  rewrite E. cbn. intros H. by apply IH.
Qed.

Lemma find_app_none {A} (q : A → bool) l x :
  existsb q l = false → List.find q (l ++ [x]) = if q x then Some x else None.
Proof.
  induction l as [|y l IH]; cbn; [done|]. intros [H1 H2]%orb_false_iff. by rewrite H1, IH.
Qed.

(** The sequence a cursor update gives its source, and every other source. *)
Lemma with_source_cursor_sequence src f p src' :
  (∀ c, cursor_source (f c) = cursor_source c) →
  provider_source_sequence (with_source_cursor src f p) src'
  = if bool_decide (src = src')
    then cursor_sequence (f (default (MkCursor src 0 0 false)
                               (List.find (λ c, source_is (cursor_source c) src) (ps_sources p))))
    else provider_source_sequence p src'.
Proof.
  intros Hf. unfold provider_source_sequence. rewrite with_source_cursor_sources.
  assert (Hq : ∀ k x, source_is (cursor_source (f x)) k = source_is (cursor_source x) k).
  { intros k x. by rewrite Hf. }
  case_bool_decide as E; [subst src'|]; destruct (existsb _ _) eqn:Ex.
  - destruct (find_update_first_same _ f _ (Hq src) Ex) as (x & -> & ->). done.
  - rewrite find_app_none by done. rewrite Hq. cbn. unfold source_is at 1.
    rewrite bool_decide_eq_true_2 by done.
    destruct (List.find _ _) eqn:Hfind; [|done]. exfalso.
    apply find_some in Hfind as [H1 H2]. rewrite <- not_true_iff_false, existsb_exists in Ex.
    eauto.
  - rewrite find_update_first; [done|by apply Hq|]. unfold source_is. intros x Hx.
    bool_prop. apply bool_decide_eq_false_2. congruence.
  - destruct (existsb (λ c, source_is (cursor_source c) src') (ps_sources p)) eqn:Ex'.
    + clear Ex. induction (ps_sources p) as [|y l IH]; cbn in *; [done|].
      destruct (source_is (cursor_source y) src'); [done|]. by apply IH.
    + rewrite find_app_none by done. rewrite Hq. cbn. unfold source_is at 1.
      rewrite bool_decide_eq_false_2 by done.
      destruct (List.find _ _) eqn:Hfind; [|done]. exfalso.
      apply find_some in Hfind as [H1 H2]. rewrite <- not_true_iff_false, existsb_exists in Ex'.
      eauto.
Qed.

Lemma with_source_cursor_same src f p :
  with_source_cursor src f p
  = p <| ps_sources := ps_sources (with_source_cursor src f p) |>.
Proof. unfold with_source_cursor. by destruct (existsb _ _). Qed.

(** ** One reduction *)

(** The cursor of an admitted event. *)
Definition admitted_cursor (n : N) (c : ProviderSourceCursor) : ProviderSourceCursor :=
  c <| cursor_sequence := n |> <| cursor_stale := false |>.

Lemma reduce_provider_event_eq p src n e :
  ps_sequence p < U64_MAX →
  let '(q, ts) := reduce_event_body p src (ps_sequence p + 1) e in
  let q' := with_source_cursor src (λ c, c <| cursor_stale := false |>)
              (with_source_cursor src (λ c, c <| cursor_sequence := n |>)
                 (refresh_provider_activity q)) in
  reduce_provider_event p src n e
  = Some (q' <| ps_sequence := ps_sequence p + 1 |> <| ps_last_event := Some e |>
             <| ps_stale := existsb cursor_stale (ps_sources q') |>,
          MkReduction (ps_sequence p + 1) ts).
Proof.
  intros Hs. unfold reduce_provider_event.
  assert (E : checked_add (ps_sequence p) 1 = Some (ps_sequence p + 1)).
  { apply checked_add_Some. split; [done|lia]. }
  rewrite E. cbn [mbind option_bind]. by destruct (reduce_event_body _ _ _ _).
Qed.

Lemma with_source_cursor_found src f p :
  (∀ c, cursor_source (f c) = cursor_source c) →
  is_Some (List.find (λ c, source_is (cursor_source c) src)
             (ps_sources (with_source_cursor src f p))).
Proof.
  intros Hk. destruct (List.find _ _) as [c|] eqn:Hf; [done|]. exfalso.
  assert (Hex : existsb (λ c, source_is (cursor_source c) src)
                  (ps_sources (with_source_cursor src f p)) = true).
  { rewrite with_source_cursor_sources. destruct (existsb _ (ps_sources p)) eqn:Ex.
    - rewrite existsb_source_spec in Ex. rewrite existsb_source_spec.
      by rewrite update_first_key.
    - rewrite existsb_app. cbn. unfold source_is. rewrite Hk, bool_decide_eq_true_2 by done.
      by rewrite orb_true_r. }
  apply existsb_exists in Hex as (c & H1 & H2). by rewrite (find_none _ _ Hf c H1) in H2.
Qed.

(** The cursor of an event's source moves to the event; the others stay. *)
Lemma event_cursors src n p src' :
  provider_source_sequence
    (with_source_cursor src (λ c, c <| cursor_stale := false |>)
       (with_source_cursor src (λ c, c <| cursor_sequence := n |>) p)) src'
  = if bool_decide (src = src') then n else provider_source_sequence p src'.
Proof.
  set (q := with_source_cursor src (λ c, c <| cursor_sequence := n |>) p).
  assert (Hq : ∀ k, provider_source_sequence q k
                    = if bool_decide (src = k) then n else provider_source_sequence p k).
  { intros k. unfold q. by rewrite with_source_cursor_sequence. }
  rewrite with_source_cursor_sequence by done.
  destruct (decide (src = src')) as [<-|E]; [|by rewrite bool_decide_eq_false_2, Hq,
                                                bool_decide_eq_false_2].
  destruct (with_source_cursor_found src (λ c, c <| cursor_sequence := n |>) p) as [c Hc]; [done|].
  fold q in Hc. specialize (Hq src). rewrite bool_decide_eq_true_2 in Hq |- * by done.
  unfold provider_source_sequence in Hq. rewrite Hc in Hq |- *. exact Hq.
Qed.

Lemma reduce_provider_event_spec p src n e p' r :
  provider_wf p → reduce_provider_event p src n e = Some (p', r) →
  provider_wf p'
  ∧ ps_sequence p' = ps_sequence p + 1 ∧ red_sequence r = ps_sequence p + 1
  ∧ interactions_step (ps_interactions p) (ps_interactions p') (red_interaction_transitions r)
      (ps_sequence p + 1) 1
  ∧ (∀ src', provider_source_sequence p' src'
             = if bool_decide (src = src') then n else provider_source_sequence p src').
Proof.
  intros [W1 W2 W3 W4 W5 W6] Hred.
  assert (Hs : ps_sequence p < U64_MAX).
  { unfold reduce_provider_event in Hred. destruct (checked_add _ _) eqn:E; [|done].
    apply checked_add_Some in E as [_ E]. lia. }
  pose proof (reduce_provider_event_eq p src n e Hs) as Heq.
  pose proof (reduce_event_body_ok p src (ps_sequence p + 1) e W1 W2 ltac:(lia)) as [B1 B2 B3 B4].
  destruct (reduce_event_body _ _ _ _) as [q ts]. cbn [fst snd] in *. cbn zeta in Heq.
  rewrite Heq in Hred. injection Hred as <- <-.
  set (q1 := refresh_provider_activity q).
  set (q2 := with_source_cursor src _ q1). set (q3 := with_source_cursor src _ q2).
  assert (E2 : q2 = q1 <| ps_sources := ps_sources q2 |>) by apply with_source_cursor_same.
  assert (E3 : q3 = q2 <| ps_sources := ps_sources q3 |>) by apply with_source_cursor_same.
  assert (F : ∀ A (f : ProviderSnapshot → A),
             (∀ p l, f (p <| ps_sources := l |>) = f p) → f q3 = f q1).
  { intros A f Hf. rewrite E3, Hf, E2, Hf. done. }
  cbn [ps_sequence ps_interactions ps_sources set_field red_sequence
       red_interaction_transitions].
  split_and!; [|done|done| |].
  - split.
    + cbn. rewrite (F _ ps_interactions) by done. apply B1.
    + apply (roster_same q B2); cbn; [by rewrite (F _ ps_subagents)|by rewrite (F _ ps_active_tools)].
    + cbn. do 2 (apply with_source_cursor_nodup; [done|]). cbn. by rewrite B3.
    + cbn. rewrite (F _ ps_activity) by done. unfold q1. rewrite refresh_activity_derived.
      unfold derived_activity. cbn. by rewrite (F _ ps_lead_activity), (F _ ps_subagents).
    + done.
    + cbn. unfold U64_MAX in *. lia.
  - cbn. rewrite (F _ ps_interactions) by done. apply B1.
  - intros src'. change (provider_source_sequence q3 src' = if bool_decide (src = src') then n
      else provider_source_sequence p src').
    unfold q3, q2. rewrite event_cursors. case_bool_decide; [done|].
    unfold provider_source_sequence. cbn. by rewrite B3.
Qed.

Lemma reduce_provider_event_total p src n e :
  ps_sequence p < U64_MAX → is_Some (reduce_provider_event p src n e).
Proof.
  intros Hs. pose proof (reduce_provider_event_eq p src n e Hs) as H.
  destruct (reduce_event_body _ _ _ _). cbn zeta in H. by rewrite H.
Qed.

(** ** One gap *)

Lemma reduce_provider_gap_spec p src n missed p' k :
  provider_wf p → reduce_provider_gap p src n missed = Some (p', k) →
  provider_wf p' ∧ k = ps_sequence p + 1 ∧ ps_sequence p' = k
  ∧ ps_interactions p' = ps_interactions p
  ∧ (∀ src', provider_source_sequence p' src'
             = if bool_decide (src = src') then n else provider_source_sequence p src')
  ∧ ps_gap_count p' = saturating_add (ps_gap_count p) missed ∧ ps_stale p' = true
  ∧ p' = p <| ps_sources := ps_sources p' |> <| ps_gap_count := ps_gap_count p' |>
           <| ps_stale := true |> <| ps_sequence := k |>.
Proof.
  intros [W1 W2 W3 W4 W5 W6]. unfold reduce_provider_gap.
  set (f := λ c : ProviderSourceCursor, _). set (q := with_source_cursor src f p).
  assert (E : q = p <| ps_sources := ps_sources q |>) by apply with_source_cursor_same.
  cbn. destruct (checked_add _ _) as [k'|] eqn:Hk; cbn; [|done]. intros [= <- <-].
  apply checked_add_Some in Hk as [-> Hk].
  assert (Es : ps_sequence q = ps_sequence p) by by rewrite E.
  rewrite Es in *. split_and!; cbn.
  - split; cbn.
    + rewrite E. cbn. eapply interactions_wf_weaken; [|exact W1]. lia.
    + apply (roster_same p W2); cbn; by rewrite E.
    + by apply with_source_cursor_nodup.
    + rewrite E. cbn. done.
    + symmetry. apply existsb_exists. unfold q. rewrite with_source_cursor_sources.
      destruct (existsb (λ c, source_is (cursor_source c) src) (ps_sources p)) eqn:Ex.
      * destruct (find_update_first_same (λ c, source_is (cursor_source c) src) f _
                    (λ x, eq_refl) Ex) as (x & _ & Hf).
        exists (f x). by apply find_some in Hf as [? _].
      * exists (f (MkCursor src 0 0 false)). split; [|done]. apply in_app_iff. right. by left.
    + lia.
  - done.
  - done.
  - by rewrite E.
  - intros src'. change (provider_source_sequence q src' = if bool_decide (src = src') then n
      else provider_source_sequence p src').
    unfold q. by rewrite with_source_cursor_sequence.
  - by rewrite E.
  - done.
  - by rewrite E.
Qed.

Lemma reduce_provider_gap_total p src n missed :
  ps_sequence p < U64_MAX → is_Some (reduce_provider_gap p src n missed).
Proof.
  intros Hs. unfold reduce_provider_gap. set (q := with_source_cursor _ _ _).
  assert (E : ps_sequence q = ps_sequence p) by (unfold q; by rewrite with_source_cursor_same).
  cbn. rewrite E. destruct (checked_add _ _) eqn:H; [by eexists|].
  apply checked_add_None in H. lia.
Qed.

Lemma provider_default_wf : provider_wf ProviderSnapshot_default.
Proof.
  assert (∀ A, NoDup (@nil A)) by constructor.
  assert (∀ A (P : A → Prop), Forall P []) by constructor.
  split; [split|split| | | |]; cbn; auto; discriminate.
Qed.

(** ** How many transitions *)

Lemma requests_cons t ts : requests (t :: ts) = (if is_request t then 1 else 0) + requests ts.
Proof. unfold requests. cbn. destruct (is_request t); [rewrite len_cons|]; lia. Qed.

Lemma replay_length ts : ∀ l l',
  NoDup l → replay l ts = Some l' →
  NoDup l' ∧ len l' + len ts = len l + 2 * requests ts.
Proof.
  induction ts as [|t ts IH]; intros l l' Hnd; cbn [replay].
  { intros [= ->]. split; [done|]. unfold requests. cbn. rewrite !len_nil. lia. }
  destruct t as [i|k o]; cbn; case_bool_decide as Hin; cbn; try done.
  - intros Hr. apply IH in Hr as [H1 H2].
    + split; [done|]. rewrite requests_cons. cbn [is_request].
      rewrite !len_app, !len_cons, len_nil in *. lia.
    + apply NoDup_app. split_and!; [done| |apply NoDup_singleton].
      intros x Hx Hx'. by apply list_elem_of_singleton in Hx' as ->.
  - apply list_elem_of_split in Hin as (l1 & l2 & ->).
    apply NoDup_app in Hnd as (N1 & N2 & N3). apply NoDup_cons in N3 as [N3 N4].
    assert (Hk : k ∉ l1) by (intros H; apply (N2 k H); by left).
    rewrite List.filter_app. cbn. rewrite bool_decide_eq_true_2 by done. cbn.
    rewrite !filter_other_id by done. intros Hr. apply IH in Hr as [H1 H2].
    + split; [done|]. rewrite requests_cons. cbn [is_request].
      rewrite !len_app, !len_cons in *. lia.
    + apply NoDup_app. split_and!; [done| |done]. intros x Hx Hx'. apply (N2 x Hx). by right.
Qed.

Lemma open_ids_nodup l : NoDup (pi_id <$> l) → NoDup (open_ids l).
Proof.
  unfold open_ids. rewrite <- retain_filter. apply NoDup_retain_key.
Qed.

Lemma transitions_length l l' ts s0 s n :
  interactions_wf l s0 → interactions_step l l' ts s n →
  len ts <= PROVIDER_INTERACTIONS_MAX + 2 * n.
Proof.
  intros [H1 _ H3] [[H4 _ _] H5 H6 _].
  apply replay_length in H5 as [_ H5]; [|by apply open_ids_nodup].
  pose proof (open_ids_length l). lia.
Qed.

(** ** Changing the status of one interaction *)

Lemma update_first_split {A} (q : A → bool) (f : A → A) l x :
  List.find q l = Some x →
  ∃ l1 l2, l = l1 ++ x :: l2 ∧ update_first q f l = l1 ++ f x :: l2.
Proof.
  induction l as [|y l IH]; cbn; [done|]. destruct (q y).
  - intros [= ->]. by exists [], l.
  - intros H. destruct (IH H) as (l1 & l2 & -> & ->). by exists (y :: l1), l2.
Qed.

Lemma interactions_wf_status l1 x l2 st s :
  interactions_wf (l1 ++ x :: l2) s →
  interactions_wf (l1 ++ (x <| pi_status := st |>) :: l2) s.
Proof.
  intros [H1 H2 H3]. split.
  - by rewrite len_app, len_cons in *.
  - rewrite Forall_app, Forall_cons in *. exact H2.
  - rewrite fmap_app, fmap_cons in *. exact H3.
Qed.

(** A status that keeps the interaction open. *)
Lemma status_open_ids l1 x l2 st :
  interaction_is_unresolved x = true →
  interaction_is_unresolved (x <| pi_status := st |>) = true →
  open_ids (l1 ++ (x <| pi_status := st |>) :: l2) = open_ids (l1 ++ x :: l2).
Proof. intros H1 H2. rewrite !open_ids_app, !open_ids_cons. by rewrite H1, H2. Qed.

(** A resolution closes it. *)
Lemma status_resolved_replay l1 x l2 o :
  NoDup (pi_id <$> (l1 ++ x :: l2)) → interaction_is_unresolved x = true →
  replay (open_ids (l1 ++ x :: l2)) [TransResolved (pi_id x) o]
  = Some (open_ids (l1 ++ (x <| pi_status := InteractionResolvedAs o |>) :: l2)).
Proof.
  intros Hnd Hx. rewrite !open_ids_app, !open_ids_cons, Hx. cbn [replay].
  rewrite fmap_app, fmap_cons in Hnd. apply NoDup_app in Hnd as (N1 & N2 & N3).
  apply NoDup_cons in N3 as [N3 N4].
  rewrite replay_resolved_middle; [done| |].
  - intros H. apply (N2 (pi_id x)); [by apply open_ids_subset|by left].
  - intros H. by apply N3, open_ids_subset.
Qed.

Lemma status_resolving l1 x l2 st op :
  op ∈ resolving (l1 ++ (x <| pi_status := st |>) :: l2) →
  op ∈ resolving (l1 ++ x :: l2) ∨ ∃ k, st = InteractionResolving op k.
Proof.
  unfold resolving. rewrite !omap_app. cbn. unfold resolving_operation at 2; cbn.
  destruct st; destruct (resolving_operation x); cbn; rewrite !elem_of_app, ?elem_of_cons; naive_solver.
Qed.
