(* ===== verification/ProviderTheorems.v ===== *)
(** * What the provider reduction guarantees

    The snapshot a session keeps of its provider, event by event, and for
    whole streams of events and gaps. *)

From S2P Require Import Prelude RustStr Ids Input SessionTypes RecordTypes ProviderTypes.
From S2P Require Import Control EngineReduce ReduceFacts.

Local Open Scope N_scope.

(** Reducing one event into a well-formed snapshot succeeds while its
    sequence can grow, and yields a well-formed snapshot: bounded interactions
    with distinct ids, bounded subagents, distinct tools and cursors, and an
    activity and staleness that agree with the parts they summarize. The
    canonical sequence grows by one, only the event's source moves its cursor,
    to the event's sequence, and the transitions returned replay the open
    interactions before into those after. *)
Theorem provider_event_reduction p src n ev :
  provider_wf p → ps_sequence p < U64_MAX →
  ∃ p' r, reduce_provider_event p src n ev = Some (p', r)
    ∧ provider_wf p' ∧ ps_sequence p' = ps_sequence p + 1 ∧ red_sequence r = ps_sequence p'
    ∧ replay (open_ids (ps_interactions p)) (red_interaction_transitions r)
      = Some (open_ids (ps_interactions p'))
    ∧ ∀ src', provider_source_sequence p' src'
              = if bool_decide (src = src') then n else provider_source_sequence p src'.
Proof.
  intros Hwf Hs. destruct (reduce_provider_event_total p src n ev Hs) as [[p' r] H].
  exists p', r. destruct (reduce_provider_event_spec _ _ _ _ _ _ Hwf H) as (A & B & C & D & E).
  split_and!; [done|done|done|congruence|apply D|done].
Qed.

Definition example_source : ProviderSource :=
  MkSource Hook (MkAdapterBinding (MkAdapterId (str "codex-hook")) (str "r1") Reference).
Definition example_request : ProviderEvent :=
  PE_InteractionRequested (Some (str "r1")) Approval (str "bash") None (str "rm?") [] None.

Lemma provider_event_reduction_witness :
  ∃ p' r, reduce_provider_event ProviderSnapshot_default example_source 3 example_request
          = Some (p', r)
    ∧ provider_wf p' ∧ open_ids (ps_interactions p') = [MkInteraction 1].
Proof.
  destruct (provider_event_reduction ProviderSnapshot_default example_source 3 example_request
    provider_default_wf ltac:(vm_compute; reflexivity)) as (p' & r & H1 & H2 & _).
  exists p', r. split; [exact H1|]. split; [exact H2|].
  vm_compute in H1. injection H1 as <- _. reflexivity.
Defined.

(** Reducing a gap into a well-formed snapshot succeeds while its sequence
    can grow; it moves the source's cursor and no other, counts the missed
    events without overflow, marks the snapshot stale, and leaves everything
    else, the interactions included, as it was. *)
Theorem provider_gap_reduction p src n missed :
  provider_wf p → ps_sequence p < U64_MAX →
  ∃ p', reduce_provider_gap p src n missed = Some (p', ps_sequence p + 1)
    ∧ provider_wf p' ∧ ps_stale p' = true
    ∧ p' = p <| ps_sources := ps_sources p' |>
             <| ps_gap_count := saturating_add (ps_gap_count p) missed |>
             <| ps_stale := true |> <| ps_sequence := ps_sequence p + 1 |>
    ∧ ∀ src', provider_source_sequence p' src'
              = if bool_decide (src = src') then n else provider_source_sequence p src'.
Proof.
  intros Hwf Hs. destruct (reduce_provider_gap_total p src n missed Hs) as [[p' k] H].
  destruct (reduce_provider_gap_spec _ _ _ _ _ _ Hwf H) as (A & B & C & _ & D & E & F & G).
  subst k. exists p'. split_and!; [done|done|done| |done]. rewrite <- E. exact G.
Qed.

Lemma provider_gap_reduction_witness :
  ∃ p', reduce_provider_gap ProviderSnapshot_default example_source 9 9 = Some (p', 1)
    ∧ provider_wf p' ∧ ps_gap_count p' = 9.
Proof.
  destruct (provider_gap_reduction ProviderSnapshot_default example_source 9 9
    provider_default_wf ltac:(vm_compute; reflexivity)) as (p' & H1 & H2 & _ & H3 & _).
  exists p'. split; [exact H1|]. split; [exact H2|]. rewrite H3. reflexivity.
Defined.

(** ** Ends of turns and sessions *)

(** How the end of a turn or of a session closes the source's interactions. *)
Definition ending_outcome (ev : ProviderEvent) : option ProviderInteractionOutcome :=
  match ev with
  | PE_TurnCompleted _ _ | PE_SessionStarted _ _ _ | PE_SessionEnded _ _ _ _ => Some TurnEnded
  | PE_TurnInterrupted => Some Interrupted
  | _ => None
  end.

Definition closed_by (src : ProviderSource) (o : ProviderInteractionOutcome)
    (i : ProviderInteraction) : ProviderInteraction :=
  if source_is (pi_source i) src && interaction_is_unresolved i
  then i <| pi_status := InteractionResolvedAs o |> else i.

Lemma resolve_source_exact p src o :
  NoDup (pi_id <$> ps_interactions p) →
  fst (resolve_source_pending_interactions p src o)
  = p <| ps_interactions ::= fmap (closed_by src o) |>.
Proof.
  intros Hnd. unfold resolve_source_pending_interactions.
  rewrite matching_ids_select, resolve_ids_select by done. cbn [fst].
  unfold set_field. f_equal. apply list_fmap_ext. intros k i _. unfold resolve_by, closed_by.
  by destruct (_ && _).
Qed.

(** When a source's turn or session ends, or a new session starts, exactly
    its own open interactions are closed, all of them, with the outcome of the
    ending; those of other sources and those already resolved keep their
    status, and the lead is idle with no prompt and no running tool. *)
Theorem turn_end_closes_own_interactions p src s ev o :
  NoDup (pi_id <$> ps_interactions p) → ending_outcome ev = Some o →
  let p' := fst (reduce_event_body p src s ev) in
  ps_interactions p' = closed_by src o <$> ps_interactions p
  ∧ ps_lead_activity p' = Idle ∧ ps_current_prompt p' = None ∧ ps_active_tools p' = [].
Proof.
  intros Hnd Hev. cbn zeta.
  destruct ev; try discriminate; injection Hev as <-; cbn [reduce_event_body];
    unfold reduce_session_started, reduce_turn_completed, reduce_turn_interrupted;
    by rewrite resolve_source_exact.
Qed.

Lemma turn_end_closes_own_interactions_witness :
  let p := fst (default (ProviderSnapshot_default, MkReduction 0 [])
                 (reduce_provider_event ProviderSnapshot_default example_source 3 example_request)) in
  ps_interactions (fst (reduce_event_body p example_source 2 PE_TurnInterrupted))
  = closed_by example_source Interrupted <$> ps_interactions p.
Proof.
  cbn zeta. apply (turn_end_closes_own_interactions _ example_source 2 PE_TurnInterrupted Interrupted).
  - vm_compute. repeat constructor; intros H; inversion H.
  - reflexivity.
Defined.

(** ** Streams *)

(** What a source delivers: an event, or the report that some were missed. *)
Inductive delivery :=
| Delivered (src : ProviderSource) (n : N) (ev : ProviderEvent)
| Missed (src : ProviderSource) (n missed : N).

Definition deliver (p : ProviderSnapshot) (d : delivery)
    : option (ProviderSnapshot * list ProviderInteractionTransition) :=
  match d with
  | Delivered src n ev =>
      '(p', r) ← reduce_provider_event p src n ev; Some (p', red_interaction_transitions r)
  | Missed src n missed => '(p', _) ← reduce_provider_gap p src n missed; Some (p', [])
  end.

Fixpoint deliver_all (p : ProviderSnapshot) (ds : list delivery)
    : option (ProviderSnapshot * list ProviderInteractionTransition) :=
  match ds with
  | [] => Some (p, [])
  | d :: ds' =>
      '(p1, ts1) ← deliver p d;
      '(p2, ts2) ← deliver_all p1 ds';
      Some (p2, ts1 ++ ts2)
  end.

Lemma deliver_sound p d :
  provider_wf p → ps_sequence p < U64_MAX →
  ∃ p' ts, deliver p d = Some (p', ts) ∧ provider_wf p' ∧ ps_sequence p' = ps_sequence p + 1
    ∧ replay (open_ids (ps_interactions p)) ts = Some (open_ids (ps_interactions p')).
Proof.
  intros Hwf Hs. destruct d as [src n ev|src n missed]; cbn [deliver].
  - destruct (reduce_provider_event_total p src n ev Hs) as [[p' r] H]. rewrite H.
    destruct (reduce_provider_event_spec _ _ _ _ _ _ Hwf H) as (A & B & C & D & _).
    eexists _, _. split_and!; [done|done|done|apply D].
  - destruct (reduce_provider_gap_total p src n missed Hs) as [[p' k] H]. rewrite H.
    destruct (reduce_provider_gap_spec _ _ _ _ _ _ Hwf H) as (A & B & C & D & _).
    eexists _, _. split_and!; [done|done|congruence|]. cbn. by rewrite D.
Qed.

Lemma deliver_all_sound ds : ∀ p,
  provider_wf p → ps_sequence p + len ds <= U64_MAX →
  ∃ p' ts, deliver_all p ds = Some (p', ts) ∧ provider_wf p'
    ∧ ps_sequence p' = ps_sequence p + len ds
    ∧ replay (open_ids (ps_interactions p)) ts = Some (open_ids (ps_interactions p')).
Proof.
  induction ds as [|d ds IH]; intros p Hwf Hs; cbn [deliver_all].
  { eexists _, _. split_and!; [done|done|by rewrite len_nil, N.add_0_r|done]. }
  rewrite len_cons in *.
  destruct (deliver_sound p d Hwf ltac:(lia)) as (p1 & ts1 & E1 & W1 & S1 & R1).
  destruct (IH p1 W1 ltac:(lia)) as (p2 & ts2 & E2 & W2 & S2 & R2).
  rewrite E1. cbn. rewrite E2. cbn. eexists _, _. split_and!; [done|done|lia|].
  by rewrite replay_app, R1.
Qed.


