(* ===== verification/EngineState.v ===== *)
(** * Engine state and counters

    The state of crates/gate4agent-engine/src/lib.rs ([Gate4AgentEngine] and
    [SessionState]), its counters, its event log, and the predicates its
    operations share. The engine's methods are computations of [EngineM]: an
    error keeps the state reached, as [&mut self] does. *)

From S2P Require Import Prelude RustStr Ids Input SessionTypes RecordTypes ProviderTypes.
From S2P Require Import Control EngineReduce.

Local Open Scope N_scope.

(* engine/lib.rs CONTROL_REVISION_HEADROOM *)
Definition CONTROL_REVISION_HEADROOM : N := PROVIDER_INGRESS_EVENTS_MAX + 1.
(* engine/lib.rs CONTROL_EVENT_HEADROOM *)
Definition CONTROL_EVENT_HEADROOM : N :=
  PROVIDER_INGRESS_EVENTS_MAX * (PROVIDER_INTERACTIONS_MAX + 1)
  + PROVIDER_INTERACTIONS_MAX + 2.

(* engine/lib.rs SessionState *)
Record SessionState := MkSessionState {
  st_snapshot : SessionSnapshot;
  st_runtime_policy : ProviderRuntimePolicy;
  st_pending_terminal_size : option TerminalSize;
  st_pending_interrupt : bool;
  st_pending_resume_identity : option ProviderSessionIdentity
}.
#[export] Instance SessionState_fields : Fields SessionState :=
  fields_of MkSessionState
    <st_snapshot; st_runtime_policy; st_pending_terminal_size; st_pending_interrupt;
     st_pending_resume_identity>.

(* engine/lib.rs Gate4AgentEngine *)
Record Gate4AgentEngine := MkEngine {
  sessions : gmap AgentInstanceId SessionState;
  generation_watermarks : gmap AgentInstanceId SessionGeneration;
  next_operation_id : option N;
  next_event_sequence : option N;
  revision : N;
  counter_error : option ControlError;
  effects : list EffectEnvelope;
  events : list ControlEvent
}.
#[export] Instance Gate4AgentEngine_fields : Fields Gate4AgentEngine :=
  fields_of MkEngine
    <sessions; generation_watermarks; next_operation_id; next_event_sequence; revision;
     counter_error; effects; events>.

(* engine/lib.rs Gate4AgentEngine::new *)
Definition engine_new : Gate4AgentEngine :=
  {| sessions := ∅; generation_watermarks := ∅; next_operation_id := Some 1;
     next_event_sequence := Some 1; revision := 0; counter_error := None;
     effects := []; events := [] |}.

Abbreviation EngineM := (stm Gate4AgentEngine ControlError).

(** ** Access to the session map *)

(** [self.sessions.get(&id).ok_or(UnknownInstance)?]. *)
Definition require_session (instance_id : AgentInstanceId) : EngineM SessionState :=
  e ← get_state;
  lift_option (UnknownInstance instance_id) (sessions e !! instance_id).

(** [self.sessions.get_mut(&id).expect(..)], changed by [f]. *)
Definition update_state (instance_id : AgentInstanceId) (f : SessionState → SessionState)
    : EngineM unit :=
  e ← get_state;
  state ← expect (sessions e !! instance_id);
  modify_state (λ e, e <| sessions ::= <[instance_id := f state]> |>).

(* engine/lib.rs Gate4AgentEngine::session_mut *)
Definition session_mut (instance_id : AgentInstanceId)
    (f : SessionSnapshot → SessionSnapshot) : EngineM unit :=
  update_state instance_id (λ state, state <| st_snapshot ::= f |>).

(** [self.effects.push(..)] and [self.effects.retain(..)]. *)
Definition push_effect (effect : EffectEnvelope) : EngineM unit :=
  modify_state (λ e, e <| effects ::= λ l, l ++ [effect] |>).
Definition retain_effects (p : EffectEnvelope → bool) : EngineM unit :=
  modify_state (λ e, e <| effects ::= retain p |>).
Definition set_watermark (instance_id : AgentInstanceId) (generation : SessionGeneration)
    : EngineM unit :=
  modify_state (λ e, e <| generation_watermarks ::= <[instance_id := generation]> |>).

(** ** Counters *)

(* engine/lib.rs Gate4AgentEngine::allocate_operation *)
Definition allocate_operation : EngineM OperationId :=
  e ← get_state;
  match counter_error e with
  | Some _ => mret (MkOperation 0)
  | None =>
      match next_operation_id e with
      | None =>
          modify_state (λ e, e <| counter_error := Some OperationIdExhausted |>) ;;
          mret (MkOperation 0)
      | Some next =>
          modify_state (λ e, e <| next_operation_id := checked_add next 1 |>) ;;
          mret (MkOperation next)
      end
  end.

(* engine/lib.rs Gate4AgentEngine::bump_revision *)
Definition bump_revision : EngineM unit :=
  modify_state (λ e,
    match counter_error e with
    | Some _ => e
    | None =>
        match checked_add (revision e) 1 with
        | None => e <| counter_error := Some RevisionExhausted |>
        | Some revision' => e <| revision := revision' |>
        end
    end).

(* engine/lib.rs Gate4AgentEngine::emit_event *)
Definition emit_event (command_id : option CommandId) (instance_id : AgentInstanceId)
    (generation : SessionGeneration) (event : ControlEventKind) : EngineM unit :=
  modify_state (λ e,
    match counter_error e with
    | Some _ => e
    | None =>
        match next_event_sequence e with
        | None => e <| counter_error := Some EventSequenceExhausted |>
        | Some sequence =>
            e <| next_event_sequence := checked_add sequence 1 |>
              <| events ::= λ l,
                   l ++ [MkControlEvent sequence command_id instance_id generation event] |>
        end
    end).

(* engine/lib.rs Gate4AgentEngine::emit_ignored *)
Definition emit_ignored (instance_id : AgentInstanceId) (generation : SessionGeneration)
    (reason : ObservationIgnoredReason) : EngineM unit :=
  emit_event None instance_id generation (Ev_ObservationIgnored reason).

(** The event that reports a transition. *)
Definition transition_event (t : ProviderInteractionTransition) : ControlEventKind :=
  match t with
  | TransRequested interaction => Ev_InteractionRequested interaction
  | TransResolved interaction_id outcome => Ev_InteractionResolved interaction_id outcome
  end.

(* engine/lib.rs Gate4AgentEngine::emit_interaction_transitions *)
Fixpoint emit_interaction_transitions (command_id : option CommandId)
    (instance_id : AgentInstanceId) (generation : SessionGeneration)
    (transitions : list ProviderInteractionTransition) : EngineM unit :=
  match transitions with
  | [] => mret tt
  | t :: rest =>
      emit_event command_id instance_id generation (transition_event t) ;;
      emit_interaction_transitions command_id instance_id generation rest
  end.

(* engine/lib.rs Gate4AgentEngine::has_counter_headroom *)
Definition has_counter_headroom (e : Gate4AgentEngine) : bool :=
  bool_decide (counter_error e = None)
  && bool_decide (is_Some (next_operation_id e))
  && match next_event_sequence e with
     | Some sequence => bool_decide (is_Some (checked_add sequence (CONTROL_EVENT_HEADROOM - 1)))
     | None => false
     end
  && bool_decide (is_Some (checked_add (revision e) CONTROL_REVISION_HEADROOM)).

(* engine/lib.rs Gate4AgentEngine::retire_exhausted_counter *)
Definition retire_exhausted_counter (e : Gate4AgentEngine) (error : ControlError)
    : Gate4AgentEngine :=
  match error with
  | OperationIdExhausted => e <| next_operation_id := None |>
  | EventSequenceExhausted => e <| next_event_sequence := None |>
  | RevisionExhausted => e <| revision := U64_MAX |>
  | _ => e
  end.

(* engine/lib.rs Gate4AgentEngine::observation_has_provider_headroom *)
Definition observation_has_provider_headroom (e : Gate4AgentEngine)
    (envelope : ObservationEnvelope) : bool :=
  match sessions e !! oe_instance_id envelope with
  | None => true
  | Some state =>
      let provider := ss_provider (st_snapshot state) in
      if ps_sequence provider =? U64_MAX then
        negb match oe_observation envelope with
             | Obs_ProviderEvent _ _ _ | Obs_ProviderGap _ _ _ => true
             | _ => false
             end
      else
        match oe_observation envelope with
        | Obs_ProviderGap source _ missed =>
            bool_decide (is_Some (checked_add (provider_source_sequence provider source) missed))
        | _ => true
        end
  end.

(** ** Generations *)

(* engine/lib.rs Gate4AgentEngine::generation_watermark *)
Definition generation_watermark (e : Gate4AgentEngine) (instance_id : AgentInstanceId)
    (current : SessionGeneration) : SessionGeneration :=
  match generation_watermarks e !! instance_id with
  | Some watermark => generation_max watermark current
  | None => current
  end.

(* engine/lib.rs checked_next_generation *)
Definition checked_next_generation (current : SessionGeneration) : option SessionGeneration :=
  MkGeneration <$> checked_add (generation_raw current) 1.

(* engine/lib.rs Gate4AgentEngine::purge_generation_bound_history *)
Definition purge_generation_bound_history (instance_id : AgentInstanceId) : EngineM unit :=
  retain_effects (λ effect,
    negb (bool_decide (ee_instance_id effect = instance_id))
    || negb match ee_effect effect with
            | Eff_DiscoverHistory _ _ | Eff_LoadHistory _ _ => true
            | _ => false
            end).

(* engine/lib.rs invalidate_foreground *)
Definition invalidate_foreground (reason : list N) (snapshot : SessionSnapshot)
    : SessionSnapshot :=
  snapshot <| ss_foreground ::= λ f,
    f <| fs_authority := AuthorityStale |> <| fs_stale_reason := Some reason |> |>.

(** ** Classification of observations *)

(* engine/lib.rs is_history_observation *)
Definition is_history_observation (o : ControlObservation) : bool :=
  match o with
  | Obs_HistoryDiscovered _ | Obs_HistoryLoaded _ | Obs_HistoryFailed _ => true
  | _ => false
  end.

(* engine/lib.rs is_capability_observation *)
Definition is_capability_observation (o : ControlObservation) : bool :=
  match o with
  | Obs_CapabilitiesProbed _ | Obs_CapabilityProbeFailed _ => true
  | _ => false
  end.

(* engine/lib.rs is_resume_authority_observation *)
Definition is_resume_authority_observation (o : ControlObservation) : bool :=
  match o with
  | Obs_ResumeAuthorized _ | Obs_ResumeDenied _ | Obs_ResumeFailed _ => true
  | _ => false
  end.

(* engine/lib.rs is_interaction_resolution_observation *)
Definition is_interaction_resolution_observation (o : ControlObservation) : bool :=
  match o with
  | Obs_InteractionResolutionCompleted _ | Obs_InteractionResolutionFailed _ _ => true
  | _ => false
  end.

(* engine/lib.rs interaction_failure_is_valid *)
Definition interaction_failure_is_valid (message : list N) : bool :=
  negb (str_is_empty (trim message))
  && (str_len message <=? PROVIDER_INTERACTION_FAILURE_MAX_BYTES)
  && negb (chars_any (λ c, is_control c
                           && negb ((c =? 0xa) || (c =? 0xd) || (c =? 0x9))) message).

(** ** Policy *)

(* engine/lib.rs require_runtime_capability *)
Definition require_runtime_capability (runtime_policy : ProviderRuntimePolicy)
    (capability : ProviderRuntimeCapability) : result ControlError unit :=
  if admits runtime_policy capability then Ok tt
  else Err (ProviderRuntimePolicyDenied capability).

(* engine/lib.rs require_structured_prompt_policy *)
Definition require_structured_prompt_policy (runtime_policy : ProviderRuntimePolicy)
    : result ControlError unit :=
  require_runtime_capability runtime_policy SemanticReadiness ;;
  require_runtime_capability runtime_policy StructuredPrompt.

(* engine/lib.rs denied_observation_capability *)
Definition denied_observation_capability (runtime_policy : ProviderRuntimePolicy)
    (o : ControlObservation) : option ProviderRuntimeCapability :=
  match o with
  | Obs_ProviderGap _ _ _ =>
      if admits runtime_policy SemanticReadiness then None else Some SemanticReadiness
  | _ => None
  end.

(* engine/lib.rs provider_event_carries_session_identity *)
Definition provider_event_carries_session_identity (event : ProviderEvent) : bool :=
  match event with
  | PE_SessionStarted _ _ _ | PE_SessionIdentityObserved _ => true
  | _ => false
  end.

(** [matches!(event, SessionIdentityObserved { .. })]. *)
Definition is_session_identity_observed (event : ProviderEvent) : bool :=
  match event with
  | PE_SessionIdentityObserved _ => true
  | _ => false
  end.

(* engine/lib.rs provider_event_denied_capability *)
Definition provider_event_denied_capability (runtime_policy : ProviderRuntimePolicy)
    (event : ProviderEvent) : option ProviderRuntimeCapability :=
  let check capability :=
    if admits runtime_policy capability then None else Some capability in
  if is_session_identity_observed event then check ProviderSessionIdentityCap
  else if negb (admits runtime_policy SemanticReadiness) then check SemanticReadiness
  else if provider_event_carries_session_identity event
          && negb (admits runtime_policy ProviderSessionIdentityCap)
  then check ProviderSessionIdentityCap
  else None.

(** The derived [Debug] of a capability. *)
Definition capability_debug (c : ProviderRuntimeCapability) : list N :=
  match c with
  | RawPtyLifecycle => str "RawPtyLifecycle"
  | SemanticReadiness => str "SemanticReadiness"
  | StructuredPrompt => str "StructuredPrompt"
  | ProviderSessionIdentityCap => str "ProviderSessionIdentity"
  | SemanticResume => str "SemanticResume"
  | HookSemantics => str "HookSemantics"
  end.

(* engine/lib.rs provider_refusal_message *)
Definition provider_refusal_message (capability : ProviderRuntimeCapability) (dropped : N)
    : list N :=
  str "provider events rejected: capability " ++ capability_debug capability
    ++ str " not admitted (" ++ fmt_dec dropped ++ str " "
    ++ (if dropped =? 1 then str "event" else str "events") ++ str ")".

(** ** Interaction resolutions in flight *)

(* engine/lib.rs pending_interaction_resolution *)
Definition pending_interaction_resolution (snapshot : SessionSnapshot)
    : option (OperationId * ProviderInteractionId) :=
  operation_id ← ss_pending_operation snapshot;
  find_map (λ i,
    match pi_status i with
    | InteractionResolving interaction_operation_id _ =>
        if bool_decide (interaction_operation_id = operation_id)
        then Some (operation_id, pi_id i) else None
    | _ => None
    end) (ps_interactions (ss_provider snapshot)).

(* engine/lib.rs interaction_resolution_is_pending *)
Definition interaction_resolution_is_pending (snapshot : SessionSnapshot)
    (operation_id : OperationId) (interaction_id : ProviderInteractionId) : bool :=
  existsb (λ i,
    bool_decide (pi_id i = interaction_id)
    && match pi_status i with
       | InteractionResolving interaction_operation_id _ =>
           bool_decide (interaction_operation_id = operation_id)
       | _ => false
       end) (ps_interactions (ss_provider snapshot)).

(* engine/lib.rs resume_identity_matches_target *)
Definition resume_identity_matches_target (snapshot : SessionSnapshot)
    (target : ResumeTarget) (identity : ProviderSessionIdentity) : bool :=
  match target with
  | TargetCurrentProvider => bool_decide (ps_session (ss_provider snapshot) = Some identity)
  | TargetProviderSession expected => bool_decide (expected = identity)
  | TargetHistoryCandidate candidate_id =>
      opt_is (hist_loaded_candidate_id (ss_history snapshot)) (Some candidate_id)
      && match hist_loaded (ss_history snapshot) with
         | Some session => bool_decide (hs_session_id session = identity_id identity)
         | None => false
         end
  end.

(** The size of the [BTreeSet] of the ids of a list. *)
Definition distinct_ids (l : list (list N)) : N :=
  N.of_nat (size (list_to_set l : gset (list N))).

(* engine/lib.rs history_candidates_are_valid *)
Definition history_candidates_are_valid (candidates : list HistoryCandidateSummary)
    (limit : N) : bool :=
  if (limit <? len candidates)
     || existsb (λ c, negb (is_ok (HistoryCandidateSummary_validate c))) candidates
  then false
  else distinct_ids (candidate_id <$> candidates) =? len candidates.

(** ** Reading and draining *)

(** The sessions in the order of their [BTreeMap]. *)
Definition instance_le (x y : AgentInstanceId * SessionState) : Prop :=
  instance_raw (fst x) <= instance_raw (fst y).
#[export] Instance instance_le_dec x y : Decision (instance_le x y).
Proof. unfold instance_le. apply _. Defined.
Definition sessions_in_order (e : Gate4AgentEngine) : list (AgentInstanceId * SessionState) :=
  merge_sort instance_le (map_to_list (sessions e)).

(** [u32::try_from(n).expect(..)]. *)
Definition expect_u32 (n : N) : option N := if n <=? U32_MAX then Some n else None.

(** [None] is the panic of a map larger than [u32::MAX]. *)
(* engine/lib.rs Gate4AgentEngine::health *)
Definition health (e : Gate4AgentEngine) : option ControlHealth :=
  exhausted ← expect_u32
    (len (List.filter (λ x : AgentInstanceId * SessionState,
            ps_sequence (ss_provider (st_snapshot (snd x))) =? U64_MAX) (sessions_in_order e)));
  retained ← expect_u32 (N.of_nat (size (generation_watermarks e)));
  Some {| operation_id_exhausted := bool_decide (next_operation_id e = None);
          event_sequence_exhausted := bool_decide (next_event_sequence e = None);
          revision_exhausted := revision e =? U64_MAX;
          provider_sequence_exhausted_sessions := exhausted;
          retained_instance_identities := retained;
          retained_instance_identity_capacity := CONTROL_INSTANCE_IDENTITIES_CAPACITY |}.

(* engine/lib.rs Gate4AgentEngine::snapshot *)
Definition snapshot (e : Gate4AgentEngine) : option ControlSnapshot :=
  h ← health e;
  Some (MkControlSnapshot (revision e) h
          ((λ x : AgentInstanceId * SessionState, st_snapshot (snd x)) <$> sessions_in_order e)).

(* engine/lib.rs Gate4AgentEngine::session_snapshot *)
Definition session_snapshot (e : Gate4AgentEngine) (instance_id : AgentInstanceId)
    : option SessionSnapshot :=
  st_snapshot <$> sessions e !! instance_id.

(* engine/lib.rs Gate4AgentEngine::session_instance_ids *)
Definition session_instance_ids (e : Gate4AgentEngine) : list AgentInstanceId :=
  fst <$> sessions_in_order e.

(* engine/lib.rs Gate4AgentEngine::record_command_rejection *)
Definition record_command_rejection (command_id : CommandId) (instance_id : AgentInstanceId)
    (message : list N) (e : Gate4AgentEngine) : Gate4AgentEngine :=
  match next_event_sequence e with
  | None => e
  | Some _ =>
      let generation :=
        match sessions e !! instance_id with
        | Some state => ss_generation (st_snapshot state)
        | None => default generation_default (generation_watermarks e !! instance_id)
        end in
      snd (emit_event (Some command_id) instance_id generation (Ev_CommandRejected message) e)
  end.

(* engine/lib.rs Gate4AgentEngine::drain_effects *)
Definition drain_effects (e : Gate4AgentEngine) : list EffectEnvelope * Gate4AgentEngine :=
  (effects e, e <| effects := [] |>).

(* engine/lib.rs Gate4AgentEngine::drain_events *)
Definition drain_events (e : Gate4AgentEngine) : list ControlEvent * Gate4AgentEngine :=
  (events e, e <| events := [] |>).
