(* ===== verification/EngineCommands.v ===== *)
(** * Engine commands

    The commands of crates/gate4agent-engine/src/lib.rs: one definition per
    handler, [apply_command_in_place] that dispatches to them, and
    [apply_command] with its copy-and-commit path for exhausted counters. *)

From S2P Require Import Prelude RustStr Ids Input SessionTypes RecordTypes ProviderTypes.
From S2P Require Import Control EngineReduce EngineState.

Local Open Scope N_scope.

(** ** Shared steps *)

(** [if let Some(operation_id) = snapshot.pending_operation
    { return Err(OperationPending) }]. *)
Definition require_no_operation (instance_id : AgentInstanceId) (s : SessionSnapshot)
    : EngineM unit :=
  match ss_pending_operation s with
  | Some operation_id => throw (OperationPending instance_id operation_id)
  | None => mret tt
  end.

(** The tail of every request: queue its effect, bump the revision, log it. *)
Definition emit_request (command_id : CommandId) (instance_id : AgentInstanceId)
    (generation : SessionGeneration) (operation_id : OperationId) (effect : ControlEffect)
    (event : ControlEventKind) : EngineM unit :=
  push_effect (MkEffect operation_id instance_id generation effect) ;;
  bump_revision ;;
  emit_event (Some command_id) instance_id generation event.

(** [self.sessions.get(&id).expect(..)]. *)
Definition get_session (instance_id : AgentInstanceId) : EngineM SessionState :=
  e ← get_state;
  expect (sessions e !! instance_id).

(** [Option::map(normalize_semantic_prompt).transpose()]. *)
Definition normalize_prompt (prompt : option (list N))
    : result InputPrepareError (option (list N)) :=
  match prompt with
  | Some text => normalized ← normalize_semantic_prompt text; Ok (Some normalized)
  | None => Ok None
  end.

(** [prompt.as_deref().is_none_or(str::is_empty)]. *)
Definition prompt_missing (prompt : option (list N)) : bool :=
  match prompt with
  | Some text => str_is_empty text
  | None => true
  end.

Definition is_inactive (status : SessionStatus) : bool :=
  match status with
  | Registered | Exited _ | Failed _ => true
  | _ => false
  end.
Definition is_active (status : SessionStatus) : bool :=
  match status with
  | Starting | Running | Stopping => true
  | _ => false
  end.
Definition is_running (status : SessionStatus) : bool :=
  match status with
  | Running => true
  | _ => false
  end.

(** ** Registration *)

(** A session that nothing has observed yet. *)
(* engine/lib.rs:126-156 register *)
Definition registered_state (instance_id : AgentInstanceId) (agent_id : AgentId)
    (transport : TransportKind) (generation : SessionGeneration) : SessionState :=
  {| st_snapshot :=
       {| ss_instance_id := instance_id; ss_agent_id := agent_id; ss_transport := transport;
          ss_generation := generation; ss_status := Registered;
          ss_pending_operation := None; ss_pending_input := None; ss_process_id := None;
          ss_terminal_size := None; ss_terminal_frame := None; ss_terminal_stale := None;
          ss_session_options := None; ss_capabilities := CapabilitySnapshot_default;
          ss_history := HistorySnapshot_default; ss_resume := ResumeSnapshot_default;
          ss_foreground := ForegroundSnapshot_default;
          ss_provider := ProviderSnapshot_default; ss_screen_state := ScreenUnknown |};
     st_runtime_policy := policy_raw_pty;
     st_pending_terminal_size := None;
     st_pending_interrupt := false;
     st_pending_resume_identity := None |}.

(* engine/lib.rs:94-167 apply_command_in_place *)
Definition register (command_id : CommandId) (instance_id : AgentInstanceId)
    (agent_id : AgentId) (transport : TransportKind) : EngineM unit :=
  e ← get_state;
  fail_when (bool_decide (is_Some (sessions e !! instance_id)))
    (DuplicateInstance instance_id) ;;
  fail_when (CONTROL_SESSIONS_MAX <=? N.of_nat (size (sessions e)))
    (SessionCapacityExceeded instance_id CONTROL_SESSIONS_MAX) ;;
  fail_when (negb (bool_decide (is_Some (generation_watermarks e !! instance_id)))
             && (CONTROL_INSTANCE_IDENTITIES_MAX
                 <=? N.of_nat (size (generation_watermarks e))))
    (InstanceIdentityCapacityExceeded instance_id CONTROL_INSTANCE_IDENTITIES_MAX) ;;
  generation ←
    match generation_watermarks e !! instance_id with
    | Some watermark =>
        lift_option (GenerationExhausted instance_id watermark)
          (checked_next_generation watermark)
    | None => mret generation_default
    end;
  modify_state (λ e, e <| sessions ::=
    <[instance_id := registered_state instance_id agent_id transport generation]> |>) ;;
  set_watermark instance_id generation ;;
  bump_revision ;;
  emit_event (Some command_id) instance_id generation Ev_Registered.

(** ** Start and stop *)

(** The session a launch leaves: a new generation that inherits no
    observation of the previous one. *)
(* engine/lib.rs:1511-1537 Gate4AgentEngine::start *)
Definition started_state (runtime_policy : ProviderRuntimePolicy) (request : StartRequest)
    (generation : SessionGeneration) (operation_id : OperationId) (state : SessionState)
    : SessionState :=
  state
    <| st_pending_terminal_size := Some (start_terminal_size request) |>
    <| st_pending_interrupt := false |>
    <| st_pending_resume_identity := None |>
    <| st_runtime_policy := runtime_policy |>
    <| st_snapshot ::= λ session, session
         <| ss_history := HistorySnapshot_default |>
         <| ss_resume := ResumeSnapshot_default |>
         <| ss_generation := generation |>
         <| ss_status := Starting |>
         <| ss_pending_operation := Some operation_id |>
         <| ss_pending_input := None |>
         <| ss_process_id := None |>
         <| ss_terminal_size := None |>
         <| ss_terminal_frame := None |>
         <| ss_terminal_stale := None |>
         <| ss_session_options := start_session_options request |>
         <| ss_foreground := ForegroundSnapshot_default |>
         <| ss_screen_state := ScreenUnknown |>
         <| ss_provider := ProviderSnapshot_default |> |>.

(* engine/lib.rs Gate4AgentEngine::start *)
Definition start (command_id : CommandId) (instance_id : AgentInstanceId)
    (runtime_policy : ProviderRuntimePolicy) (request : StartRequest) : EngineM unit :=
  lift_result InvalidProviderRuntimePolicy (policy_validate runtime_policy) ;;
  fail_when (negb (TerminalSize_is_valid (start_terminal_size request))) InvalidTerminalSize ;;
  fail_when (str_is_empty (start_working_directory request)
             || (WORKING_DIRECTORY_MAX_BYTES <? str_len (start_working_directory request))
             || chars_any (λ c, c =? 0) (start_working_directory request))
    InvalidWorkingDirectory ;;
  state ← require_session instance_id;
  let session := st_snapshot state in
  let status := ss_status session in
  let transport := ss_transport session in
  (if bool_decide (transport = Pty)
   then lift_result id (require_runtime_capability runtime_policy RawPtyLifecycle)
   else mret tt) ;;
  require_no_operation instance_id session ;;
  fail_when (negb (is_inactive status)) (InvalidTransition instance_id (str "start") status) ;;
  initial_prompt ← lift_result InputRejected (normalize_prompt (start_initial_prompt request));
  let request := request <| start_initial_prompt := initial_prompt |> in
  match start_session_options request with
  | Some session_options =>
      lift_result (λ error, InvalidSessionOptions (SessionOptionValidationError_to_string error))
        (SessionOptionSelection_validate session_options)
  | None => mret tt
  end ;;
  fail_when (bool_decide (transport = Pipe) && prompt_missing initial_prompt)
    MissingInitialPrompt ;;
  (if negb (prompt_missing initial_prompt)
   then lift_result id (require_structured_prompt_policy runtime_policy)
   else mret tt) ;;
  e ← get_state;
  let watermark := generation_watermark e instance_id (ss_generation session) in
  generation ← lift_option (GenerationExhausted instance_id watermark)
                 (checked_next_generation watermark);
  purge_generation_bound_history instance_id ;;
  operation_id ← allocate_operation;
  update_state instance_id (started_state runtime_policy request generation operation_id) ;;
  set_watermark instance_id generation ;;
  emit_request command_id instance_id generation operation_id
    (Eff_Spawn (ss_agent_id session) transport runtime_policy request)
    (Ev_StartRequested operation_id).

(** An effect other than operation [operation_id] of a session's generation. *)
Definition other_operation (instance_id : AgentInstanceId) (generation : SessionGeneration)
    (operation_id : OperationId) (effect : EffectEnvelope) : bool :=
  negb (bool_decide (ee_instance_id effect = instance_id))
  || negb (bool_decide (ee_generation effect = generation))
  || negb (bool_decide (ee_operation_id effect = operation_id)).

(* engine/lib.rs Gate4AgentEngine::stop *)
Definition stop (command_id : CommandId) (instance_id : AgentInstanceId) (force : bool)
    : EngineM unit :=
  state ← require_session instance_id;
  let status := ss_status (st_snapshot state) in
  let pending_resolution := pending_interaction_resolution (st_snapshot state) in
  fail_when (negb match status with Starting | Running => true | _ => false end)
    (InvalidTransition instance_id (str "stop") status) ;;
  operation_id ← allocate_operation;
  update_state instance_id (λ state, state
    <| st_pending_interrupt := false |>
    <| st_snapshot ::= λ session, invalidate_foreground (str "stop requested") (session
         <| ss_status := Stopping |>
         <| ss_pending_operation := Some operation_id |>
         <| ss_pending_input := None |>) |>) ;;
  let generation := ss_generation (st_snapshot state) in
  match pending_resolution with
  | Some (pending_operation_id, _) =>
      retain_effects (other_operation instance_id generation pending_operation_id)
  | None => mret tt
  end ;;
  emit_request command_id instance_id generation operation_id
    (Eff_Stop force) (Ev_StopRequested operation_id force).

(** ** Input, resize and foreground *)

(** The effect and the kind of an input action on a transport. *)
(* engine/lib.rs:1669-1739 Gate4AgentEngine::send_input *)
Definition input_effect (transport : TransportKind) (agent_id : AgentId) (action : InputAction)
    : EngineM (ControlEffect * PreparedInputKind) :=
  match transport, action with
  | Pty, IA_AgentCommand command =>
      input ← lift_result InputRejected (prepare_agent_command command agent_id);
      mret (Eff_WriteInput input (RequireAgent agent_id), input_kind input)
  | Pty, IA_ShellCommand command =>
      input ← lift_result InputRejected (prepare_shell_command command);
      mret (Eff_WriteInput input RequireShell, input_kind input)
  | Pty, action =>
      input ← lift_result InputRejected (prepare_input action);
      required_foreground ←
        match input_kind input with
        | PK_InsertDraft | PK_SubmitPrompt => mret (RequireAgent agent_id)
        | PK_TerminalText | PK_TerminalBytes | PK_TerminalControl => mret RequireAny
        | PK_AgentCommand | PK_ShellCommand => panic
        end;
      mret (Eff_WriteInput input required_foreground, input_kind input)
  | Acp, IA_SubmitPrompt prompt =>
      prompt ← lift_result InputRejected (normalize_semantic_prompt (payload_text prompt));
      mret (Eff_SubmitPrompt prompt, PK_SubmitPrompt)
  | Acp, IA_TerminalControl TC_Interrupt => mret (Eff_Interrupt, PK_TerminalControl)
  | transport, _ =>
      throw (UnsupportedTransportOperation transport (str "this input action"))
  end.

(* engine/lib.rs Gate4AgentEngine::send_input *)
Definition send_input (command_id : CommandId) (instance_id : AgentInstanceId)
    (action : InputAction) : EngineM unit :=
  state ← require_session instance_id;
  let session := st_snapshot state in
  fail_when (negb (is_running (ss_status session)))
    (InvalidTransition instance_id (str "send input") (ss_status session)) ;;
  require_no_operation instance_id session ;;
  match action with
  | IA_InsertDraft _ | IA_SubmitPrompt _ | IA_AgentCommand _ =>
      lift_result id (require_structured_prompt_policy (st_runtime_policy state))
  | _ => mret tt
  end ;;
  let interrupt_requested :=
    match action with IA_TerminalControl TC_Interrupt => true | _ => false end in
  '(effect, kind) ← input_effect (ss_transport session) (ss_agent_id session) action;
  operation_id ← allocate_operation;
  update_state instance_id (λ state, state
    <| st_pending_interrupt := interrupt_requested |>
    <| st_snapshot ::= λ session, invalidate_foreground (str "input requested") (session
         <| ss_pending_operation := Some operation_id |>
         <| ss_pending_input := Some kind |>) |>) ;;
  emit_request command_id instance_id (ss_generation session) operation_id
    effect (Ev_InputRequested operation_id kind).

(* engine/lib.rs Gate4AgentEngine::resize *)
Definition resize (command_id : CommandId) (instance_id : AgentInstanceId)
    (size : TerminalSize) : EngineM unit :=
  fail_when (negb (TerminalSize_is_valid size)) InvalidTerminalSize ;;
  state ← require_session instance_id;
  let session := st_snapshot state in
  fail_when (negb (bool_decide (ss_transport session = Pty)))
    (UnsupportedTransportOperation (ss_transport session) (str "terminal resize")) ;;
  fail_when (negb (is_running (ss_status session)))
    (InvalidTransition instance_id (str "resize") (ss_status session)) ;;
  require_no_operation instance_id session ;;
  operation_id ← allocate_operation;
  update_state instance_id (λ state, state
    <| st_snapshot ::= λ session, session <| ss_pending_operation := Some operation_id |> |>
    <| st_pending_terminal_size := Some size |>) ;;
  emit_request command_id instance_id (ss_generation session) operation_id
    (Eff_Resize size) (Ev_ResizeRequested operation_id size).

(* engine/lib.rs Gate4AgentEngine::refresh_foreground *)
Definition refresh_foreground (command_id : CommandId) (instance_id : AgentInstanceId)
    : EngineM unit :=
  state ← require_session instance_id;
  let session := st_snapshot state in
  fail_when (negb (bool_decide (ss_transport session = Pty)))
    (UnsupportedTransportOperation (ss_transport session) (str "foreground refresh")) ;;
  fail_when (negb (is_running (ss_status session)))
    (InvalidTransition instance_id (str "refresh foreground") (ss_status session)) ;;
  require_no_operation instance_id session ;;
  operation_id ← allocate_operation;
  session_mut instance_id (λ session,
    invalidate_foreground (str "foreground refresh pending")
      (session <| ss_pending_operation := Some operation_id |>)) ;;
  emit_request command_id instance_id (ss_generation session) operation_id
    Eff_ObserveForeground (Ev_ForegroundRefreshRequested operation_id).

(** ** History and capabilities *)

(** [if let Some(pending) = history.pending { return Err(..) }], and the same
    for capability probes. *)
Definition require_no_history (s : SessionSnapshot) : EngineM unit :=
  match hist_pending (ss_history s) with
  | Some pending => throw (HistoryOperationPending (pho_operation_id pending))
  | None => mret tt
  end.
Definition require_no_probe (s : SessionSnapshot) : EngineM unit :=
  match cap_pending (ss_capabilities s) with
  | Some pending => throw (CapabilityProbeOperationPending (pcp_operation_id pending))
  | None => mret tt
  end.

(* engine/lib.rs Gate4AgentEngine::discover_history *)
Definition discover_history (command_id : CommandId) (instance_id : AgentInstanceId)
    (query : HistoryQuery) : EngineM unit :=
  lift_result (λ error, InvalidHistoryRequest (HistoryValidationError_to_string error))
    (HistoryQuery_validate query) ;;
  state ← require_session instance_id;
  let session := st_snapshot state in
  require_no_history session ;;
  operation_id ← allocate_operation;
  let operation := HistoryDiscoverOp query in
  session_mut instance_id (λ session, session <| ss_history ::= λ h, h
    <| hist_pending := Some (MkPendingHistory operation_id operation) |>
    <| hist_candidates := [] |>
    <| hist_loaded_candidate_id := None |>
    <| hist_loaded := None |>
    <| hist_last_error := None |> |>) ;;
  emit_request command_id instance_id (ss_generation session) operation_id
    (Eff_DiscoverHistory (ss_agent_id session) query)
    (Ev_HistoryRequested operation_id operation).

(* engine/lib.rs Gate4AgentEngine::probe_capabilities *)
Definition probe_capabilities (command_id : CommandId) (instance_id : AgentInstanceId)
    (request : CapabilityProbeRequest) : EngineM unit :=
  lift_result (λ error,
      InvalidCapabilityProbeRequest (CapabilityValidationError_to_string error))
    (CapabilityProbeRequest_validate request) ;;
  state ← require_session instance_id;
  let session := st_snapshot state in
  require_no_probe session ;;
  fail_when (cap_settled (ss_capabilities session)) CapabilityProbeSettled ;;
  operation_id ← allocate_operation;
  session_mut instance_id (λ session, session <| ss_capabilities ::= λ c, c
    <| cap_pending := Some (MkPendingProbe operation_id (ss_generation session) request) |>
    <| cap_session_option_models := [] |>
    <| cap_last_failure := None |> |>) ;;
  emit_request command_id instance_id (ss_generation session) operation_id
    (Eff_ProbeCapabilities (ss_agent_id session) request)
    (Ev_CapabilityProbeRequested operation_id).

(* engine/lib.rs Gate4AgentEngine::load_history *)
Definition load_history (command_id : CommandId) (instance_id : AgentInstanceId)
    (candidate_id : list N) : EngineM unit :=
  lift_result (λ error, InvalidHistoryRequest (HistoryValidationError_to_string error))
    (validate_candidate_id candidate_id) ;;
  state ← require_session instance_id;
  let session := st_snapshot state in
  require_no_history session ;;
  fail_when (bool_decide (HistorySnapshot_candidate (ss_history session) candidate_id = None))
    UnknownHistoryCandidate ;;
  operation_id ← allocate_operation;
  let operation := HistoryLoadOp candidate_id in
  session_mut instance_id (λ session, session <| ss_history ::= λ h, h
    <| hist_pending := Some (MkPendingHistory operation_id operation) |>
    <| hist_loaded := None |>
    <| hist_loaded_candidate_id := None |>
    <| hist_last_error := None |> |>) ;;
  emit_request command_id instance_id (ss_generation session) operation_id
    (Eff_LoadHistory (ss_agent_id session) candidate_id)
    (Ev_HistoryRequested operation_id operation).

(** ** Resume *)

(** The authority a resume target names in a session. *)
(* engine/lib.rs:2129-2171 Gate4AgentEngine::resume *)
Definition resume_authority_target (session : SessionSnapshot) (target : ResumeTarget)
    : EngineM ResumeAuthorityTarget :=
  let require_valid identity :=
    lift_result (λ error,
        InvalidResumeRequest (ProviderEventValidationError_to_string error))
      (ProviderSessionIdentity_validate identity) in
  match target with
  | TargetCurrentProvider =>
      identity ← lift_option MissingProviderSession (ps_session (ss_provider session));
      require_valid identity ;;
      mret (AuthorityProviderSession identity)
  | TargetProviderSession identity =>
      require_valid identity ;;
      mret (AuthorityProviderSession identity)
  | TargetHistoryCandidate candidate_id =>
      let history := ss_history session in
      fail_when (bool_decide (HistorySnapshot_candidate history candidate_id = None)
                 || negb (opt_is (hist_loaded_candidate_id history) (Some candidate_id))
                 || bool_decide (hist_loaded history = None))
        HistoryCandidateNotLoaded ;;
      mret (AuthorityHistoryCandidate candidate_id)
  end.

(* engine/lib.rs Gate4AgentEngine::resume *)
Definition resume (command_id : CommandId) (instance_id : AgentInstanceId)
    (target : ResumeTarget) (runtime_policy : ProviderRuntimePolicy)
    (request : ResumeLaunchRequest) : EngineM unit :=
  lift_result InvalidProviderRuntimePolicy (policy_validate runtime_policy) ;;
  lift_result id (require_runtime_capability runtime_policy RawPtyLifecycle) ;;
  match resume_initial_prompt request with
  | Some _ =>
      lift_result id (require_runtime_capability runtime_policy ProviderSessionIdentityCap) ;;
      lift_result id (require_runtime_capability runtime_policy SemanticResume)
  | None => mret tt
  end ;;
  initial_prompt ←
    lift_result (λ error, InvalidResumeRequest (InputPrepareError_to_string error))
      (normalize_prompt (resume_initial_prompt request));
  let request := request <| resume_initial_prompt := initial_prompt |> in
  lift_result (λ error, InvalidResumeRequest (ResumeValidationError_to_string error))
    (ResumeLaunchRequest_validate request) ;;
  (if negb (prompt_missing initial_prompt)
   then lift_result id (require_structured_prompt_policy runtime_policy)
   else mret tt) ;;
  lift_result (λ error, InvalidResumeRequest (ResumeValidationError_to_string error))
    (ResumeTarget_validate target) ;;
  state ← require_session instance_id;
  let session := st_snapshot state in
  fail_when (negb match ss_transport session with Pty | Pipe => true | Acp => false end)
    (UnsupportedTransportOperation (ss_transport session) (str "resume")) ;;
  fail_when (bool_decide (ss_transport session = Pipe) && prompt_missing initial_prompt)
    MissingInitialPrompt ;;
  fail_when (negb (is_inactive (ss_status session)))
    (InvalidTransition instance_id (str "resume") (ss_status session)) ;;
  require_no_operation instance_id session ;;
  authority_target ← resume_authority_target session target;
  operation_id ← allocate_operation;
  update_state instance_id (λ state, state
    <| st_pending_resume_identity := None |>
    <| st_runtime_policy := runtime_policy |>
    <| st_snapshot ::= λ session, session
         <| ss_pending_operation := Some operation_id |>
         <| ss_resume ::= λ r, r
              <| rs_pending := Some (MkPendingResume operation_id target request Authorizing) |>
              <| rs_last_error := None |> |> |>) ;;
  emit_request command_id instance_id (ss_generation session) operation_id
    (Eff_AuthorizeResume (ss_agent_id session) authority_target request)
    (Ev_ResumeRequested operation_id target).

(** ** Provider ingress *)

(** [reduce_provider_gap] on the provider snapshot of a session. *)
Definition apply_provider_gap (instance_id : AgentInstanceId) (source : ProviderSource)
    (source_sequence missed : N) : EngineM N :=
  state ← get_session instance_id;
  '(provider, sequence) ←
    expect (reduce_provider_gap (ss_provider (st_snapshot state)) source source_sequence missed);
  session_mut instance_id (λ s, s <| ss_provider := provider |>) ;;
  mret sequence.

(** The resolution in flight that a reduction superseded. *)
(* engine/lib.rs:2408-2415 Gate4AgentEngine::ingest_provider *)
Definition superseded_resolution
    (pending_resolution : option (OperationId * ProviderInteractionId))
    (reduced : SessionSnapshot) : option (OperationId * ProviderInteractionId) :=
  match pending_resolution with
  | Some (operation_id, interaction_id) =>
      if negb (interaction_resolution_is_pending reduced operation_id interaction_id)
      then Some (operation_id, interaction_id) else None
  | None => None
  end.

(** One event: the reduction, the pending operation it may have superseded,
    and the log. The event loop of a batch and a single observed event run the
    same statements. *)
(* engine/lib.rs:2399-2446 Gate4AgentEngine::ingest_provider *)
Definition apply_provider_event (command_id : option CommandId)
    (instance_id : AgentInstanceId) (generation : SessionGeneration)
    (source : ProviderSource) (source_sequence : N) (event : ProviderEvent)
    : EngineM unit :=
  state ← get_session instance_id;
  let pending_resolution := pending_interaction_resolution (st_snapshot state) in
  '(provider, reduction) ←
    expect (reduce_provider_event (ss_provider (st_snapshot state)) source source_sequence event);
  let reduced := st_snapshot state <| ss_provider := provider |> in
  let superseded := superseded_resolution pending_resolution reduced in
  update_state instance_id (λ state, state <| st_snapshot :=
    match superseded with
    | Some _ => reduced <| ss_pending_operation := None |>
    | None => reduced
    end |>) ;;
  match superseded with
  | Some (operation_id, _) =>
      retain_effects (other_operation instance_id generation operation_id)
  | None => mret tt
  end ;;
  bump_revision ;;
  emit_event command_id instance_id generation
    (Ev_ProviderEvent (red_sequence reduction) source source_sequence event) ;;
  emit_interaction_transitions command_id instance_id generation
    (red_interaction_transitions reduction).

(** A refused batch or event: the source's cursor advances over what was
    dropped, and a visible error names the capability withheld. *)
(* engine/lib.rs:2327-2357 Gate4AgentEngine::ingest_provider *)
Definition refuse_provider_events (command_id : option CommandId)
    (instance_id : AgentInstanceId) (generation : SessionGeneration)
    (source : ProviderSource) (source_sequence dropped : N)
    (capability : ProviderRuntimeCapability) : EngineM unit :=
  canonical_sequence ← apply_provider_gap instance_id source source_sequence dropped;
  bump_revision ;;
  emit_event command_id instance_id generation
    (Ev_ProviderEvent canonical_sequence source source_sequence
       (PE_Error (provider_refusal_message capability dropped))).

(** The capability a batch needs and the session's policy withholds. *)
(* engine/lib.rs:2272-2298 Gate4AgentEngine::ingest_provider *)
Definition batch_denied_capability (runtime_policy : ProviderRuntimePolicy) (missed : N)
    (events : list ProviderEvent) : option ProviderRuntimeCapability :=
  if ((0 <? missed) || existsb (λ event, negb (is_session_identity_observed event)) events)
     && negb (admits runtime_policy SemanticReadiness)
  then Some SemanticReadiness
  else if existsb provider_event_carries_session_identity events
          && negb (admits runtime_policy ProviderSessionIdentityCap)
  then Some ProviderSessionIdentityCap
  else None.

(** The event loop. *)
(* engine/lib.rs:2398-2447 Gate4AgentEngine::ingest_provider *)
Fixpoint apply_provider_events (command_id : option CommandId)
    (instance_id : AgentInstanceId) (generation : SessionGeneration)
    (source : ProviderSource) (source_sequence : N) (events : list ProviderEvent)
    : EngineM unit :=
  match events with
  | [] => mret tt
  | event :: rest =>
      apply_provider_event command_id instance_id generation source source_sequence event ;;
      apply_provider_events command_id instance_id generation source source_sequence rest
  end.

(* engine/lib.rs Gate4AgentEngine::ingest_provider *)
Definition ingest_provider (command_id : CommandId) (instance_id : AgentInstanceId)
    (generation : SessionGeneration) (source : ProviderSource) (source_sequence : N)
    (events : list ProviderEvent) : EngineM unit :=
  lift_result (λ error, InvalidProviderEvent (AdapterBindingError_to_string error))
    (AdapterBinding_validate (source_binding source)) ;;
  fail_when ((source_sequence =? 0) || (len events =? 0)
             || (PROVIDER_INGRESS_EVENTS_MAX <? len events))
    (InvalidProviderBatch PROVIDER_INGRESS_EVENTS_MAX) ;;
  lift_result (λ error, InvalidProviderEvent (ProviderEventValidationError_to_string error))
    (for_each validate_ingress events) ;;
  state ← require_session instance_id;
  let session := st_snapshot state in
  fail_when (negb (bool_decide (ss_generation session = generation)))
    (StaleProviderGeneration (ss_generation session) generation) ;;
  fail_when (negb (is_active (ss_status session)))
    (InvalidTransition instance_id (str "ingest provider events") (ss_status session)) ;;
  let current_source_sequence := provider_source_sequence (ss_provider session) source in
  fail_when (current_source_sequence =? U64_MAX)
    (ProviderSourceSequenceExhausted instance_id generation source) ;;
  fail_when (source_sequence <=? current_source_sequence) StaleProviderSequence ;;
  missed ← expect
    (difference ← checked_sub source_sequence current_source_sequence;
     checked_sub difference 1);
  match batch_denied_capability (st_runtime_policy state) missed events with
  | Some capability =>
      let dropped := saturating_add missed (len events) in
      fail_when (bool_decide (checked_add (ps_sequence (ss_provider session)) 1 = None))
        (ProviderSequenceExhausted instance_id generation) ;;
      refuse_provider_events (Some command_id) instance_id generation source source_sequence
        dropped capability ;;
      throw (ProviderRuntimePolicyDenied capability)
  | None =>
      let canonical_steps := len events + (if 0 <? missed then 1 else 0) in
      fail_when (bool_decide
          (checked_add (ps_sequence (ss_provider session)) canonical_steps = None))
        (ProviderSequenceExhausted instance_id generation) ;;
      (if 0 <? missed then
         canonical_sequence ←
           apply_provider_gap instance_id source (source_sequence - 1) missed;
         bump_revision ;;
         emit_event (Some command_id) instance_id generation
           (Ev_ProviderGap canonical_sequence source (source_sequence - 1) missed)
       else mret tt) ;;
      apply_provider_events (Some command_id) instance_id generation source source_sequence
        events
  end.

(** ** Interactions *)

Definition has_interaction_id (interaction_id : ProviderInteractionId)
    (i : ProviderInteraction) : bool :=
  bool_decide (pi_id i = interaction_id).

(** [interactions.iter_mut().find(..).expect(..).status = status]. *)
Definition set_interaction_status (interaction_id : ProviderInteractionId)
    (status : ProviderInteractionStatus) (p : ProviderSnapshot) : option ProviderSnapshot :=
  if existsb (has_interaction_id interaction_id) (ps_interactions p) then
    Some (p <| ps_interactions ::=
      update_first (has_interaction_id interaction_id) (λ i, i <| pi_status := status |>) |>)
  else None.

(* engine/lib.rs Gate4AgentEngine::resolve_interaction *)
Definition resolve_interaction (command_id : CommandId) (instance_id : AgentInstanceId)
    (generation : SessionGeneration) (interaction_id : ProviderInteractionId)
    (response : ProviderInteractionResponse) : EngineM unit :=
  state ← require_session instance_id;
  let session := st_snapshot state in
  fail_when (negb (bool_decide (ss_generation session = generation)))
    (StaleProviderInteractionGeneration (ss_generation session) generation) ;;
  fail_when (negb (is_running (ss_status session)))
    (InvalidTransition instance_id (str "resolve provider interaction") (ss_status session)) ;;
  require_no_operation instance_id session ;;
  interaction ← lift_option (UnknownProviderInteraction interaction_id)
    (List.find (has_interaction_id interaction_id) (ps_interactions (ss_provider session)));
  fail_when (negb match pi_status interaction with InteractionPending => true | _ => false end)
    (ProviderInteractionNotPending interaction_id) ;;
  lift_result (λ error, InvalidProviderInteractionResponse
                          (ProviderInteractionResponseError_to_string error))
    (response_validate_for response (pi_interaction_kind interaction)) ;;
  let target :=
    {| target_interaction_id := interaction_id;
       target_source := pi_source interaction;
       target_provider_request_id := pi_provider_request_id interaction;
       target_interaction_kind := pi_interaction_kind interaction;
       target_tool_name := pi_tool_name interaction;
       target_agent_id := pi_agent_id interaction |} in
  operation_id ← allocate_operation;
  provider ← expect (set_interaction_status interaction_id
    (InteractionResolving operation_id (response_kind response)) (ss_provider session));
  session_mut instance_id (λ session, session
    <| ss_pending_operation := Some operation_id |>
    <| ss_provider := provider |>) ;;
  emit_request command_id instance_id generation operation_id
    (Eff_ResolveInteraction target response)
    (Ev_InteractionResolutionRequested operation_id interaction_id (response_kind response)).

(** ** ACP session settings *)

(** The guards of the three requests: an ACP session, running, with no
    operation in flight. *)
(* engine/lib.rs:2561-2583 Gate4AgentEngine::set_session_mode *)
Definition require_acp_running (instance_id : AgentInstanceId) (switch action : list N)
    : EngineM SessionSnapshot :=
  state ← require_session instance_id;
  let session := st_snapshot state in
  fail_when (negb (bool_decide (ss_transport session = Acp)))
    (UnsupportedTransportOperation (ss_transport session) switch) ;;
  fail_when (negb (is_running (ss_status session)))
    (InvalidTransition instance_id action (ss_status session)) ;;
  require_no_operation instance_id session ;;
  mret session.

(** The operation they allocate. *)
(* engine/lib.rs:2585-2593 Gate4AgentEngine::set_session_mode *)
Definition begin_operation (instance_id : AgentInstanceId) : EngineM OperationId :=
  operation_id ← allocate_operation;
  session_mut instance_id (λ session,
    session <| ss_pending_operation := Some operation_id |>) ;;
  mret operation_id.

(* engine/lib.rs Gate4AgentEngine::set_session_mode *)
Definition set_session_mode (command_id : CommandId) (instance_id : AgentInstanceId)
    (mode_id : list N) : EngineM unit :=
  lift_result (λ error,
      InvalidSessionModeRequest (ProviderEventValidationError_to_string error))
    (validate_session_control_id (str "session mode id") mode_id) ;;
  session ← require_acp_running instance_id (str "session mode switch")
              (str "set session mode");
  operation_id ← begin_operation instance_id;
  emit_request command_id instance_id (ss_generation session) operation_id
    (Eff_SetSessionMode mode_id) (Ev_SessionModeSetRequested operation_id mode_id).

(* engine/lib.rs Gate4AgentEngine::set_session_config_option *)
Definition set_session_config_option (command_id : CommandId)
    (instance_id : AgentInstanceId) (option_id value_json : list N) : EngineM unit :=
  let invalid error :=
    InvalidSessionConfigOptionRequest (ProviderEventValidationError_to_string error) in
  lift_result invalid
    (validate_session_control_id (str "session config option id") option_id) ;;
  lift_result invalid (validate_session_config_value_json value_json) ;;
  session ← require_acp_running instance_id (str "session config option switch")
              (str "set session config option");
  operation_id ← begin_operation instance_id;
  emit_request command_id instance_id (ss_generation session) operation_id
    (Eff_SetSessionConfigOption option_id value_json)
    (Ev_SessionConfigOptionSetRequested operation_id option_id).

(* engine/lib.rs Gate4AgentEngine::set_session_model *)
Definition set_session_model (command_id : CommandId) (instance_id : AgentInstanceId)
    (model_id : list N) : EngineM unit :=
  lift_result (λ error,
      InvalidSessionModelRequest (ProviderEventValidationError_to_string error))
    (validate_session_control_id (str "session model id") model_id) ;;
  session ← require_acp_running instance_id (str "session model switch")
              (str "set session model");
  operation_id ← begin_operation instance_id;
  emit_request command_id instance_id (ss_generation session) operation_id
    (Eff_SetSessionModel model_id) (Ev_SessionModelSetRequested operation_id model_id).

(** ** Removal *)

(* engine/lib.rs Gate4AgentEngine::remove *)
Definition remove (command_id : CommandId) (instance_id : AgentInstanceId) : EngineM unit :=
  state ← require_session instance_id;
  let session := st_snapshot state in
  fail_when (negb (allows_remove (ss_status session)))
    (InvalidTransition instance_id (str "remove") (ss_status session)) ;;
  require_no_operation instance_id session ;;
  require_no_probe session ;;
  require_no_history session ;;
  modify_state (λ e, e <| sessions ::= delete instance_id |>) ;;
  retain_effects (λ effect, negb (bool_decide (ee_instance_id effect = instance_id))) ;;
  bump_revision ;;
  emit_event (Some command_id) instance_id (ss_generation session) Ev_Removed.

(** ** Dispatch *)

(* engine/lib.rs Gate4AgentEngine::apply_command_in_place *)
Definition apply_command_in_place (envelope : CommandEnvelope) : EngineM unit :=
  let command_id := ce_id envelope in
  match ce_command envelope with
  | Cmd_Register i agent_id transport => register command_id i agent_id transport
  | Cmd_Start i runtime_policy request => start command_id i runtime_policy request
  | Cmd_Stop i force => stop command_id i force
  | Cmd_SendInput i action => send_input command_id i action
  | Cmd_Resize i size => resize command_id i size
  | Cmd_RefreshForeground i => refresh_foreground command_id i
  | Cmd_ProbeCapabilities i request => probe_capabilities command_id i request
  | Cmd_DiscoverHistory i query => discover_history command_id i query
  | Cmd_LoadHistory i candidate_id => load_history command_id i candidate_id
  | Cmd_Resume i target runtime_policy request =>
      resume command_id i target runtime_policy request
  | Cmd_ResolveInteraction i generation interaction_id response =>
      resolve_interaction command_id i generation interaction_id response
  | Cmd_SetSessionMode i mode_id => set_session_mode command_id i mode_id
  | Cmd_SetSessionConfigOption i option_id value_json =>
      set_session_config_option command_id i option_id value_json
  | Cmd_SetSessionModel i model_id => set_session_model command_id i model_id
  | Cmd_IngestProvider i generation source source_sequence events =>
      ingest_provider command_id i generation source source_sequence events
  | Cmd_Remove i => remove command_id i
  end.

(** The end of the two entry points when counters are short: the copy is
    committed only if no counter ran out. *)
Definition commit_candidate (e candidate : Gate4AgentEngine)
    : outcome ControlError unit * Gate4AgentEngine :=
  match counter_error candidate with
  | Some error => (Fail error, retire_exhausted_counter e error)
  | None => (Done tt, candidate)
  end.

(* engine/lib.rs Gate4AgentEngine::apply_command *)
Definition apply_command (envelope : CommandEnvelope) : EngineM unit :=
  λ e,
    if has_counter_headroom e then apply_command_in_place envelope e
    else
      match apply_command_in_place envelope e with
      | (Done _, candidate) => commit_candidate e candidate
      | (Fail error, _) => (Fail error, e)
      | (Panic, _) => (Panic, e)
      end.
