(* ===== verification/EngineObserve.v ===== *)
(** * Engine observations

    [apply_observation_in_place] of crates/gate4agent-engine/src/lib.rs, split
    where the function is: the tests every observation passes, the five groups
    that return early, the terminal and provider streams, and the lifecycle
    reduction. *)

From S2P Require Import Prelude RustStr Ids Input SessionTypes RecordTypes ProviderTypes.
From S2P Require Import Control EngineReduce EngineState EngineCommands.

Local Open Scope N_scope.

(** ** The tests every observation passes *)

(* engine/lib.rs:296-307 apply_observation_in_place *)
Definition observation_is_current (current : SessionSnapshot) (generation : SessionGeneration)
    (o : ControlObservation) : bool :=
  let capability_generation_matches :=
    is_capability_observation o
    && match cap_pending (ss_capabilities current) with
       | Some pending => bool_decide (pcp_generation pending = generation)
       | None => false
       end in
  bool_decide (ss_generation current = generation) || capability_generation_matches.

(* engine/lib.rs:319-334 apply_observation_in_place *)
Definition expected_operation (current : SessionSnapshot) (o : ControlObservation)
    : option OperationId :=
  if is_capability_observation o then pcp_operation_id <$> cap_pending (ss_capabilities current)
  else if is_history_observation o then pho_operation_id <$> hist_pending (ss_history current)
  else ss_pending_operation current.

(* engine/lib.rs:345-352 apply_observation_in_place *)
Definition foreground_is_valid (current : SessionSnapshot) (o : ControlObservation) : bool :=
  match o with
  | Obs_ForegroundObserved process =>
      ForegroundProcess_is_valid_for process (ss_agent_id current)
      && match ss_process_id current with
         | Some root_process_id => root_process_id =? fg_root_process_id process
         | None => true
         end
  | _ => true
  end.

(** The statuses in which an observation is meaningful. *)
(* engine/lib.rs:357-442 apply_observation_in_place *)
Definition observation_is_valid (status : SessionStatus) (o : ControlObservation) : bool :=
  match status, o with
  | Starting, (Obs_Spawned _ | Obs_SpawnFailed _)
  | Stopping, (Obs_StopCompleted _ _ _ | Obs_StopFailed _)
  | Running, (Obs_InputCompleted | Obs_InputFailed _)
  | Running, (Obs_ResizeCompleted _ | Obs_ResizeFailed _)
  | Running, (Obs_ForegroundObserved _ | Obs_ForegroundFailed _)
  | Running, (Obs_InteractionResolutionCompleted _ | Obs_InteractionResolutionFailed _ _)
  | Running, (Obs_SessionModeSet _ | Obs_SessionModeSetFailed _)
  | Running, (Obs_SessionConfigOptionSet _ | Obs_SessionConfigOptionSetFailed _)
  | Running, (Obs_SessionModelSet _ | Obs_SessionModelSetFailed _)
  | (Running | Stopping), (Obs_TerminalFrame _ | Obs_TerminalStale _ | Obs_ScreenState _)
  | (Starting | Running | Stopping), (Obs_ProviderEvent _ _ _ | Obs_ProviderGap _ _ _)
  | (Starting | Running | Stopping), Obs_ProcessExited _ _
  | _, (Obs_CapabilitiesProbed _ | Obs_CapabilityProbeFailed _)
  | _, (Obs_HistoryDiscovered _ | Obs_HistoryLoaded _ | Obs_HistoryFailed _)
  | _, (Obs_ResumeAuthorized _ | Obs_ResumeDenied _ | Obs_ResumeFailed _) => true
  | _, _ => false
  end.

(** The reason the tests reject an observation of a known session, if any. *)
(* engine/lib.rs:296-450 apply_observation_in_place *)
Definition observation_refusal (state : SessionState) (envelope : ObservationEnvelope)
    : option ObservationIgnoredReason :=
  let current := st_snapshot state in
  let o := oe_observation envelope in
  if negb (observation_is_current current (oe_generation envelope) o) then Some StaleGeneration
  else
    match denied_observation_capability (st_runtime_policy state) o with
    | Some capability => Some (PolicyDeniedIgnored capability)
    | None =>
        let unmatched :=
          if requires_operation_id o then
            match oe_operation_id envelope with
            | None => Some MissingOperation
            | Some operation_id =>
                if bool_decide (expected_operation current o = Some operation_id) then None
                else Some OperationMismatch
            end
          else None in
        match unmatched with
        | Some reason => Some reason
        | None =>
            if negb (foreground_is_valid current o) then Some InvalidForegroundObservation
            else if negb (observation_is_valid (ss_status current) o) then Some InvalidState
            else None
        end
    end.

(** ** Capability probes *)

(* engine/lib.rs:452-508 apply_observation_in_place *)
Definition observe_capability (instance_id : AgentInstanceId) (generation : SessionGeneration)
    (current : SessionSnapshot) (o : ControlObservation) : EngineM unit :=
  _ ← expect (cap_pending (ss_capabilities current));
  let settle models failure event :=
    session_mut instance_id (λ s, s <| ss_capabilities ::= λ c, c
      <| cap_pending := None |>
      <| cap_settled := true |>
      <| cap_session_option_models := models |>
      <| cap_last_failure := failure |> |>) ;;
    bump_revision ;;
    emit_event None instance_id (ss_generation current) event in
  match o with
  | Obs_CapabilitiesProbed session_option_models =>
      if is_ok (validate_capability_models session_option_models)
      then settle session_option_models None (Ev_CapabilitiesProbed (len session_option_models))
      else emit_ignored instance_id generation InvalidCapabilityObservation
  | Obs_CapabilityProbeFailed failure =>
      settle [] (Some failure) (Ev_CapabilityProbeFailed failure)
  | _ => emit_ignored instance_id generation InvalidCapabilityObservation
  end.

(** ** History *)

(* engine/lib.rs:510-579 apply_observation_in_place *)
Definition observe_history (instance_id : AgentInstanceId) (generation : SessionGeneration)
    (current : SessionSnapshot) (o : ControlObservation) : EngineM unit :=
  pending ← expect (hist_pending (ss_history current));
  let settle (f : HistorySnapshot → HistorySnapshot) event :=
    session_mut instance_id (λ s, s <| ss_history ::= λ h, f (h <| hist_pending := None |>) |>) ;;
    bump_revision ;;
    emit_event None instance_id generation event in
  let invalid := emit_ignored instance_id generation InvalidHistoryObservation in
  match o, pho_operation pending with
  | Obs_HistoryDiscovered candidates, HistoryDiscoverOp query =>
      if history_candidates_are_valid candidates (query_limit query) then
        settle (λ h, h <| hist_candidates := candidates |>
                       <| hist_loaded_candidate_id := None |>
                       <| hist_loaded := None |>
                       <| hist_last_error := None |>)
          (Ev_HistoryDiscovered (len candidates))
      else invalid
  | Obs_HistoryLoaded session, HistoryLoadOp candidate_id =>
      if is_ok (HistorySessionRecord_validate session) then
        settle (λ h, h <| hist_loaded_candidate_id := Some candidate_id |>
                       <| hist_loaded := Some session |>
                       <| hist_last_error := None |>)
          (Ev_HistoryLoaded (hs_session_id session))
      else invalid
  | Obs_HistoryFailed message, _ =>
      if is_ok (validate_history_error message) then
        settle (λ h, h <| hist_last_error := Some message |>) (Ev_HistoryFailed message)
      else invalid
  | _, _ => invalid
  end.

(** ** Resume authority *)

(** The session an authorized resume leaves: a new generation, spawning. *)
(* engine/lib.rs:619-650 apply_observation_in_place *)
Definition authorized_state (pending : PendingResumeOperation)
    (provider_session : ProviderSessionIdentity) (generation : SessionGeneration)
    (state : SessionState) : SessionState :=
  state
    <| st_pending_terminal_size := Some (resume_terminal_size (pro_request pending)) |>
    <| st_pending_interrupt := false |>
    <| st_pending_resume_identity := Some provider_session |>
    <| st_snapshot ::= λ session, session
         <| ss_generation := generation |>
         <| ss_status := Starting |>
         <| ss_pending_operation := Some (pro_operation_id pending) |>
         <| ss_pending_input := None |>
         <| ss_process_id := None |>
         <| ss_terminal_size := None |>
         <| ss_terminal_frame := None |>
         <| ss_terminal_stale := None |>
         <| ss_session_options := None |>
         <| ss_history := HistorySnapshot_default |>
         <| ss_foreground := ForegroundSnapshot_default |>
         <| ss_screen_state := ScreenUnknown |>
         <| ss_provider := ProviderSnapshot_default |>
         <| ss_resume ::= λ r, r
              <| rs_pending := Some (pending <| pro_phase := Spawning |>) |>
              <| rs_last_error := None |> |> |>.

(** A resume refused, by decision or by failure. *)
(* engine/lib.rs:677-696 apply_observation_in_place *)
Definition refused_state (message : list N) (state : SessionState) : SessionState :=
  state
    <| st_pending_resume_identity := None |>
    <| st_snapshot ::= λ session, session
         <| ss_pending_operation := None |>
         <| ss_resume ::= λ r, r
              <| rs_pending := None |> <| rs_last_error := Some message |> |> |>.

(* engine/lib.rs:581-722 apply_observation_in_place *)
Definition observe_resume_authority (instance_id : AgentInstanceId)
    (generation : SessionGeneration) (current_state : SessionState) (o : ControlObservation)
    : EngineM unit :=
  let current := st_snapshot current_state in
  let invalid := emit_ignored instance_id generation InvalidResumeObservation in
  match rs_pending (ss_resume current) with
  | None => invalid
  | Some pending =>
      if negb (bool_decide (pro_phase pending = Authorizing)) then invalid
      else
        match o with
        | Obs_ResumeAuthorized provider_session =>
            if is_ok (ProviderSessionIdentity_validate provider_session)
               && resume_identity_matches_target current (pro_target pending) provider_session
            then
              e ← get_state;
              match checked_next_generation
                      (generation_watermark e instance_id (ss_generation current)) with
              | None => emit_ignored instance_id generation GenerationExhaustedIgnored
              | Some next_generation =>
                  update_state instance_id
                    (authorized_state pending provider_session next_generation) ;;
                  set_watermark instance_id next_generation ;;
                  push_effect (MkEffect (pro_operation_id pending) instance_id next_generation
                    (Eff_SpawnResume (ss_agent_id current) (ss_transport current)
                       provider_session (st_runtime_policy current_state)
                       (pro_request pending))) ;;
                  bump_revision ;;
                  emit_event None instance_id next_generation
                    (Ev_ResumeAuthorized (ResumeSessionSummary_from provider_session))
              end
            else invalid
        | Obs_ResumeDenied reason =>
            if is_ok (validate_resume_error reason) then
              update_state instance_id (refused_state reason) ;;
              bump_revision ;;
              emit_event None instance_id generation (Ev_ResumeDenied reason)
            else invalid
        | Obs_ResumeFailed message =>
            if is_ok (validate_resume_error message) then
              update_state instance_id (refused_state message) ;;
              bump_revision ;;
              emit_event None instance_id generation (Ev_ResumeFailed message)
            else invalid
        | _ => invalid
        end
  end.

(** ** Interaction resolution *)

(** The provider after the response to an interaction failed to reach it. *)
(* engine/lib.rs:789-792 apply_observation_in_place *)
Definition resolution_failed (interaction_id : ProviderInteractionId) (p : ProviderSnapshot)
    : option ProviderSnapshot :=
  p ← set_interaction_status interaction_id InteractionPending p;
  Some (refresh_provider_activity (p <| ps_lead_activity := WaitingForInput |>)).

(** The provider after the response reached it. *)
(* engine/lib.rs:803-819 apply_observation_in_place *)
Definition resolution_completed (interaction_id : ProviderInteractionId)
    (outcome : ProviderInteractionOutcome) (resume_activity : option ProviderActivity)
    (p : ProviderSnapshot) : option ProviderSnapshot :=
  p ← set_interaction_status interaction_id (InteractionResolvedAs outcome) p;
  Some (refresh_provider_activity (p <| ps_lead_activity :=
    if existsb interaction_is_unresolved (ps_interactions p)
    then WaitingForInput else default Working resume_activity |>)).

(* engine/lib.rs:724-835 apply_observation_in_place *)
Definition observe_interaction_resolution (instance_id : AgentInstanceId)
    (generation : SessionGeneration) (observed_operation : option OperationId)
    (current : SessionSnapshot) (o : ControlObservation) : EngineM unit :=
  let invalid := emit_ignored instance_id generation InvalidInteractionObservation in
  operation_id ← expect observed_operation;
  let reported :=
    match o with
    | Obs_InteractionResolutionCompleted interaction_id => Some (interaction_id, None)
    | Obs_InteractionResolutionFailed interaction_id message =>
        if interaction_failure_is_valid message then Some (interaction_id, Some message) else None
    | _ => None
    end in
  match reported with
  | None => invalid
  | Some (interaction_id, failure) =>
      match List.find (has_interaction_id interaction_id)
              (ps_interactions (ss_provider current)) with
      | None => invalid
      | Some interaction =>
          match pi_status interaction with
          | InteractionResolving interaction_operation_id response_kind =>
              if negb (bool_decide (interaction_operation_id = operation_id)) then invalid
              else
                let outcome := interaction_response_outcome response_kind in
                provider ← expect
                  match failure with
                  | Some _ => resolution_failed interaction_id (ss_provider current)
                  | None => resolution_completed interaction_id outcome
                              (pi_resume_lead_activity interaction) (ss_provider current)
                  end;
                session_mut instance_id (λ s, s
                  <| ss_pending_operation := None |> <| ss_provider := provider |>) ;;
                bump_revision ;;
                emit_event None instance_id generation
                  match failure with
                  | Some message => Ev_InteractionResolutionFailed interaction_id message
                  | None => Ev_InteractionResolved interaction_id outcome
                  end
          | _ => invalid
          end
      end
  end.

(** ** Terminal streams *)

(* engine/lib.rs:837-859 apply_observation_in_place *)
Definition observe_terminal_frame (instance_id : AgentInstanceId)
    (generation : SessionGeneration) (current : SessionSnapshot) (frame : TerminalFrame)
    : EngineM unit :=
  if match ss_terminal_frame current with
     | Some existing => frame_sequence frame <=? frame_sequence existing
     | None => false
     end
  then emit_ignored instance_id generation StaleTerminalFrame
  else
    session_mut instance_id (λ s, s
      <| ss_terminal_size := Some (frame_size frame) |>
      <| ss_terminal_frame := Some frame |>
      <| ss_terminal_stale := None |>) ;;
    bump_revision.

(* engine/lib.rs:860-877 apply_observation_in_place *)
Definition observe_terminal_stale (instance_id : AgentInstanceId)
    (generation : SessionGeneration) (message : list N) : EngineM unit :=
  session_mut instance_id (λ s,
    invalidate_foreground message (s <| ss_terminal_stale := Some message |>)) ;;
  bump_revision ;;
  emit_event None instance_id generation (Ev_TerminalStale message).

(* engine/lib.rs:878-891 apply_observation_in_place *)
Definition observe_screen_state (instance_id : AgentInstanceId) (screen_state : PtyScreenState)
    : EngineM unit :=
  session_mut instance_id (λ s, s <| ss_screen_state := screen_state |>) ;;
  bump_revision.

(** ** Provider streams *)

Definition set_counter_error (error : ControlError) : EngineM unit :=
  modify_state (λ e, e <| counter_error := Some error |>).

(* engine/lib.rs:892-999 apply_observation_in_place *)
Definition observe_provider_event (instance_id : AgentInstanceId)
    (generation : SessionGeneration) (current_state : SessionState) (source : ProviderSource)
    (sequence : N) (event : ProviderEvent) : EngineM unit :=
  let current := st_snapshot current_state in
  if ps_sequence (ss_provider current) =? U64_MAX then
    set_counter_error (ProviderSequenceExhausted instance_id generation)
  else if sequence <=? provider_source_sequence (ss_provider current) source then
    emit_ignored instance_id generation StaleProviderEvent
  else
    match provider_event_denied_capability (st_runtime_policy current_state) event with
    | Some capability =>
        refuse_provider_events None instance_id generation source sequence 1 capability
    | None => apply_provider_event None instance_id generation source sequence event
    end.

(* engine/lib.rs:1000-1058 apply_observation_in_place *)
Definition observe_provider_gap (instance_id : AgentInstanceId)
    (generation : SessionGeneration) (current : SessionSnapshot) (source : ProviderSource)
    (source_sequence missed : N) : EngineM unit :=
  if ps_sequence (ss_provider current) =? U64_MAX then
    set_counter_error (ProviderSequenceExhausted instance_id generation)
  else
    let expected_source_sequence :=
      checked_add (provider_source_sequence (ss_provider current) source) missed in
    if (source_sequence =? 0) || (missed =? 0)
       || negb (bool_decide (expected_source_sequence = Some source_sequence)) then
      match expected_source_sequence with
      | None => set_counter_error (ProviderSourceSequenceExhausted instance_id generation source)
      | Some _ => emit_ignored instance_id generation StaleProviderEvent
      end
    else
      canonical_sequence ← apply_provider_gap instance_id source source_sequence missed;
      bump_revision ;;
      emit_event None instance_id generation
        (Ev_ProviderGap canonical_sequence source source_sequence missed).

(** ** Lifecycle

    Each arm gives the session it leaves, the event it logs and the
    interactions it closes; [None] is a panic. *)

Abbreviation lifecycle :=
  (option (SessionState * ControlEventKind * list ProviderInteractionTransition)).

(** [pending_resume.is_some_and(|pending| pending.phase == Spawning)]. *)
Definition is_spawning_resume (session : SessionSnapshot) : bool :=
  match rs_pending (ss_resume session) with
  | Some pending => bool_decide (pro_phase pending = Spawning)
  | None => false
  end.

(* engine/lib.rs:1075-1108 apply_observation_in_place *)
Definition lifecycle_spawned (state : SessionState) (process_id : option N) : lifecycle :=
  let running := state
    <| st_pending_interrupt := false |>
    <| st_pending_resume_identity := None |>
    <| st_pending_terminal_size := None |>
    <| st_snapshot ::= λ s, s
         <| ss_status := Running |>
         <| ss_pending_operation := None |>
         <| ss_pending_input := None |>
         <| ss_process_id := process_id |>
         <| ss_terminal_size := st_pending_terminal_size state |> |> in
  if is_spawning_resume (st_snapshot state) then
    identity ← st_pending_resume_identity state;
    let summary := ResumeSessionSummary_from identity in
    Some (running <| st_snapshot ::= λ s, s
            <| ss_provider ::= λ p, p <| ps_session := Some identity |> |>
            <| ss_resume := MkResumeSnapshot None (Some summary) None |> |>,
          Ev_Resumed summary process_id, [])
  else Some (running, Ev_Running process_id, []).

(** What every arm that ends a process does: nothing stays pending, the
    foreground is forgotten, and the open interactions end with the turn. *)
Definition end_session (status : SessionStatus) (state : SessionState)
    : SessionState * list ProviderInteractionTransition :=
  let '(provider, transitions) :=
    resolve_all_pending_interactions (ss_provider (st_snapshot state)) TurnEnded in
  (state
     <| st_pending_terminal_size := None |>
     <| st_pending_interrupt := false |>
     <| st_pending_resume_identity := None |>
     <| st_snapshot ::= λ s, s
          <| ss_status := status |>
          <| ss_pending_operation := None |>
          <| ss_pending_input := None |>
          <| ss_process_id := None |>
          <| ss_foreground := ForegroundSnapshot_default |>
          <| ss_provider := provider |> |>,
   transitions).

(* engine/lib.rs:1109-1140 apply_observation_in_place *)
Definition lifecycle_spawn_failed (state : SessionState) (message : list N) : lifecycle :=
  let '(ended, transitions) := end_session (Failed message) state in
  if is_spawning_resume (st_snapshot state) then
    Some (ended <| st_snapshot ::= λ s, s
            <| ss_provider ::= λ p, p <| ps_session := st_pending_resume_identity state |> |>
            <| ss_resume ::= λ r, r
                 <| rs_pending := None |> <| rs_last_error := Some message |> |> |>,
          Ev_ResumeFailed message, transitions)
  else Some (ended, Ev_Failed message, transitions).

(** The last frame of a session, kept if it is newer than the one held. *)
(* engine/lib.rs:1168-1176 apply_observation_in_place *)
Definition keep_final_frame (final_terminal : option TerminalFrame) (s : SessionSnapshot)
    : SessionSnapshot :=
  match final_terminal with
  | Some frame =>
      if match ss_terminal_frame s with
         | Some existing => frame_sequence existing <? frame_sequence frame
         | None => true
         end
      then s <| ss_terminal_size := Some (frame_size frame) |>
             <| ss_terminal_frame := Some frame |>
             <| ss_terminal_stale := None |>
      else s
  | None => s
  end.

(* engine/lib.rs:1149-1214 apply_observation_in_place *)
Definition lifecycle_exited (state : SessionState) (forced : bool) (exit_code : option Z)
    (final_terminal : option TerminalFrame) : lifecycle :=
  let '(ended, transitions) := end_session (Exited exit_code) state in
  Some (ended <| st_snapshot ::= λ s, keep_final_frame final_terminal (s
          <| ss_resume ::= λ r, r <| rs_pending := None |> |>) |>,
        Ev_Exited exit_code forced, transitions).

(* engine/lib.rs:1216-1238 apply_observation_in_place *)
Definition lifecycle_stop_failed (state : SessionState) (message : list N) : lifecycle :=
  let '(ended, transitions) := end_session (Failed message) state in
  Some (ended <| st_snapshot ::= λ s, s <| ss_resume ::= λ r, r <| rs_pending := None |> |> |>,
        Ev_Failed message, transitions).

(** The lead after an interrupt reached it. *)
(* engine/lib.rs:1250-1259 apply_observation_in_place *)
Definition interrupt_provider (p : ProviderSnapshot)
    : ProviderSnapshot * list ProviderInteractionTransition :=
  let '(p, transitions) := resolve_all_pending_interactions p Interrupted in
  (refresh_provider_activity (p <| ps_lead_activity := Idle |>)
     <| ps_current_prompt := None |> <| ps_active_tools := [] |>, transitions).

(** Input completed or failed: the input is no longer pending. *)
Definition input_settled (state : SessionState) : SessionState :=
  state
    <| st_pending_interrupt := false |>
    <| st_snapshot ::= λ s, s
         <| ss_pending_operation := None |> <| ss_pending_input := None |> |>.

(* engine/lib.rs:1239-1261 apply_observation_in_place *)
Definition lifecycle_input_completed (state : SessionState) : lifecycle :=
  kind ← ss_pending_input (st_snapshot state);
  if st_pending_interrupt state then
    let '(provider, transitions) := interrupt_provider (ss_provider (st_snapshot state)) in
    Some (input_settled state <| st_snapshot ::= λ s, s <| ss_provider := provider |> |>,
          Ev_InputCompleted kind, transitions)
  else Some (input_settled state, Ev_InputCompleted kind, []).

(* engine/lib.rs:1262-1277 apply_observation_in_place *)
Definition lifecycle_input_failed (state : SessionState) (message : list N) : lifecycle :=
  kind ← ss_pending_input (st_snapshot state);
  Some (input_settled state, Ev_InputFailed kind message, []).

(** An arm that only settles the pending operation and changes the snapshot. *)
(* engine/lib.rs:1299-1344 apply_observation_in_place *)
Definition lifecycle_settled (state : SessionState) (event : ControlEventKind)
    (f : SessionSnapshot → SessionSnapshot) : lifecycle :=
  Some (state <| st_snapshot ::= λ s, f (s <| ss_pending_operation := None |>) |>, event, []).

(* engine/lib.rs:1278-1298 apply_observation_in_place *)
Definition lifecycle_resize_settled (state : SessionState) (event : ControlEventKind)
    (f : SessionSnapshot → SessionSnapshot) : lifecycle :=
  lifecycle_settled (state <| st_pending_terminal_size := None |>) event f.

(* engine/lib.rs:1074-1362 apply_observation_in_place *)
Definition lifecycle_step (state : SessionState) (o : ControlObservation) : lifecycle :=
  match o with
  | Obs_Spawned process_id => lifecycle_spawned state process_id
  | Obs_SpawnFailed message => lifecycle_spawn_failed state message
  | Obs_ProcessExited exit_code final_terminal =>
      lifecycle_exited state false exit_code final_terminal
  | Obs_StopCompleted forced exit_code final_terminal =>
      lifecycle_exited state forced exit_code final_terminal
  | Obs_StopFailed message => lifecycle_stop_failed state message
  | Obs_InputCompleted => lifecycle_input_completed state
  | Obs_InputFailed message => lifecycle_input_failed state message
  | Obs_ResizeCompleted size =>
      lifecycle_resize_settled state (Ev_Resized size) (λ s, s <| ss_terminal_size := Some size |>)
  | Obs_ResizeFailed message => lifecycle_resize_settled state (Ev_ResizeFailed message) id
  | Obs_ForegroundObserved process =>
      lifecycle_settled state (Ev_ForegroundObserved process)
        (λ s, s <| ss_foreground := MkForegroundSnapshot AuthorityConfirmed (Some process) None |>)
  | Obs_ForegroundFailed message =>
      lifecycle_settled state (Ev_ForegroundFailed message) (invalidate_foreground message)
  | Obs_SessionModeSet mode_id => lifecycle_settled state (Ev_SessionModeSet mode_id) id
  | Obs_SessionModeSetFailed message =>
      lifecycle_settled state (Ev_SessionModeSetFailed message) id
  | Obs_SessionConfigOptionSet option_id =>
      lifecycle_settled state (Ev_SessionConfigOptionSet option_id) id
  | Obs_SessionConfigOptionSetFailed message =>
      lifecycle_settled state (Ev_SessionConfigOptionSetFailed message) id
  | Obs_SessionModelSet model_id => lifecycle_settled state (Ev_SessionModelSet model_id) id
  | Obs_SessionModelSetFailed message =>
      lifecycle_settled state (Ev_SessionModelSetFailed message) id
  | _ => None
  end.

(* engine/lib.rs:1059-1366 apply_observation_in_place *)
Definition observe_lifecycle (instance_id : AgentInstanceId) (generation : SessionGeneration)
    (o : ControlObservation) : EngineM unit :=
  match o with
  | Obs_ProcessExited _ _ =>
      retain_effects (λ effect,
        negb (bool_decide (ee_instance_id effect = instance_id))
        || negb (bool_decide (ee_generation effect = generation)))
  | _ => mret tt
  end ;;
  state ← get_session instance_id;
  '(state', event, interaction_transitions) ← expect (lifecycle_step state o);
  update_state instance_id (λ _, state') ;;
  bump_revision ;;
  emit_event None instance_id generation event ;;
  emit_interaction_transitions None instance_id generation interaction_transitions.

(** ** Dispatch *)

(** An observation that passed the tests. *)
(* engine/lib.rs:452-1366 apply_observation_in_place *)
Definition observe_admitted (state : SessionState) (envelope : ObservationEnvelope)
    : EngineM unit :=
  let i := oe_instance_id envelope in
  let generation := oe_generation envelope in
  let current := st_snapshot state in
  let o := oe_observation envelope in
  if is_capability_observation o then observe_capability i generation current o
  else if is_history_observation o then observe_history i generation current o
  else if is_resume_authority_observation o then observe_resume_authority i generation state o
  else if is_interaction_resolution_observation o then
    observe_interaction_resolution i generation (oe_operation_id envelope) current o
  else
    match o with
    | Obs_TerminalFrame frame => observe_terminal_frame i generation current frame
    | Obs_TerminalStale message => observe_terminal_stale i generation message
    | Obs_ScreenState screen_state => observe_screen_state i screen_state
    | Obs_ProviderEvent source sequence event =>
        observe_provider_event i generation state source sequence event
    | Obs_ProviderGap source source_sequence missed =>
        observe_provider_gap i generation current source source_sequence missed
    | _ => observe_lifecycle i generation o
    end.

(* engine/lib.rs apply_observation_in_place *)
Definition apply_observation_in_place (envelope : ObservationEnvelope) : EngineM unit :=
  let i := oe_instance_id envelope in
  e ← get_state;
  match sessions e !! i with
  | None => emit_ignored i (oe_generation envelope) UnknownInstanceIgnored
  | Some state =>
      match observation_refusal state envelope with
      | Some reason => emit_ignored i (oe_generation envelope) reason
      | None => observe_admitted state envelope
      end
  end.

(* engine/lib.rs Gate4AgentEngine::try_apply_observation *)
Definition try_apply_observation (envelope : ObservationEnvelope) : EngineM unit :=
  λ e,
    if has_counter_headroom e && observation_has_provider_headroom e envelope then
      apply_observation_in_place envelope e
    else
      match apply_observation_in_place envelope e with
      | (Panic, _) => (Panic, e)
      | (_, candidate) => commit_candidate e candidate
      end.

(** The panic of the observation, if any, and the state left. *)
(* engine/lib.rs Gate4AgentEngine::apply_observation *)
Definition apply_observation (envelope : ObservationEnvelope) (e : Gate4AgentEngine)
    : option Gate4AgentEngine :=
  match try_apply_observation envelope e with
  | (Panic, _) => None
  | (_, e') => Some e'
  end.
