(* ===== verification/EngineRespects.v ===== *)
(** * What every call respects

    The engine changes its state through few primitive steps: a session, a
    watermark, the effects of one instance, the counters and the log. A
    relation on states that these steps respect is respected by every command
    and every observation of that instance. The two classes say what a relation
    has to promise; [command_respects] and [observation_respects] are what it
    gets in return. *)

From S2P Require Import Prelude RustStr Ids Input SessionTypes RecordTypes ProviderTypes.
From S2P Require Import Control EngineReduce EngineState EngineCommands EngineObserve.

Local Open Scope N_scope.

(** ** The interface *)

(** The steps that change the data of instance [i] and no counter. *)
Class DataClosed (i : AgentInstanceId) (R : relation Gate4AgentEngine) : Prop := {
  dc_preorder :: PreOrder R;
  dc_insert e st : R e (e <| sessions ::= <[i := st]> |>);
  dc_delete e : R e (e <| sessions ::= delete i |>);
  dc_watermark e g : R e (e <| generation_watermarks ::= <[i := g]> |>);
  dc_push e op g eff : R e (e <| effects ::= λ l, l ++ [MkEffect op i g eff] |>);
  dc_retain e p :
    (∀ ef, ee_instance_id ef ≠ i → p ef = true) → R e (e <| effects ::= retain p |>)
}.

(** And the steps that use a counter. *)
Class CallClosed (i : AgentInstanceId) (R : relation Gate4AgentEngine) : Prop := {
  cc_data :: DataClosed i R;
  cc_error e err : R e (e <| counter_error := Some err |>);
  cc_bump :: Respects R bump_revision;
  cc_allocate :: Respects R allocate_operation;
  cc_emit c g k :: Respects R (emit_event c i g k)
}.

(** ** Steps that only read *)

Section reads.
Context (R : relation Gate4AgentEngine) `{!PreOrder R}.

#[export] Instance respects_require_session j : Respects R (require_session j).
Proof. unfold require_session. respect. Qed.
#[export] Instance respects_get_session j : Respects R (get_session j).
Proof. unfold get_session. respect. Qed.
#[export] Instance respects_require_no_operation j s : Respects R (require_no_operation j s).
Proof. unfold require_no_operation. respect. Qed.
#[export] Instance respects_require_no_history s : Respects R (require_no_history s).
Proof. unfold require_no_history. respect. Qed.
#[export] Instance respects_require_no_probe s : Respects R (require_no_probe s).
Proof. unfold require_no_probe. respect. Qed.
#[export] Instance respects_require_acp_running j s a : Respects R (require_acp_running j s a).
Proof. unfold require_acp_running. respect. Qed.
#[export] Instance respects_input_effect t a action : Respects R (input_effect t a action).
Proof. unfold input_effect. respect. Qed.
#[export] Instance respects_resume_authority_target s t :
  Respects R (resume_authority_target s t).
Proof. unfold resume_authority_target. respect. Qed.
End reads.

(** ** Steps on the data *)

Section data.
Context (i : AgentInstanceId) (R : relation Gate4AgentEngine) `{!DataClosed i R}.

#[export] Instance respects_update_state f : Respects R (update_state i f).
Proof. unfold update_state. respect. intros e. apply dc_insert. Qed.
#[export] Instance respects_session_mut f : Respects R (session_mut i f).
Proof. apply respects_update_state. Qed.
#[export] Instance respects_set_watermark g : Respects R (set_watermark i g).
Proof. intros e. apply dc_watermark. Qed.
#[export] Instance respects_push op g eff : Respects R (push_effect (MkEffect op i g eff)).
Proof. intros e. apply dc_push. Qed.
Lemma respects_retain p :
  (∀ ef, ee_instance_id ef ≠ i → p ef = true) → Respects R (retain_effects p).
Proof. intros H e. by apply dc_retain. Qed.
#[export] Instance respects_drop_operation g op :
  Respects R (retain_effects (other_operation i g op)).
Proof.
  apply respects_retain. intros ef H. unfold other_operation.
  by rewrite (bool_decide_eq_false_2 _ H).
Qed.
#[export] Instance respects_purge : Respects R (purge_generation_bound_history i).
Proof. apply respects_retain. intros ef H. by rewrite (bool_decide_eq_false_2 _ H). Qed.

#[export] Instance respects_apply_provider_gap src n m :
  Respects R (apply_provider_gap i src n m).
Proof. unfold apply_provider_gap. respect. Qed.
End data.

(** ** Commands and observations *)

Section calls.
Context (i : AgentInstanceId) (R : relation Gate4AgentEngine) `{!CallClosed i R}.

#[export] Instance respects_emit_ignored g reason : Respects R (emit_ignored i g reason).
Proof. unfold emit_ignored. respect. Qed.
#[export] Instance respects_set_counter_error err : Respects R (set_counter_error err).
Proof. intros e. apply (cc_error (i:=i)). Qed.
#[export] Instance respects_emit_request c g op eff k : Respects R (emit_request c i g op eff k).
Proof. unfold emit_request. respect. Qed.
#[export] Instance respects_begin_operation : Respects R (begin_operation i).
Proof. unfold begin_operation. respect. Qed.
#[export] Instance respects_transitions c g ts :
  Respects R (emit_interaction_transitions c i g ts).
Proof. induction ts as [|t ts IH]; cbn [emit_interaction_transitions]; respect. Qed.
#[export] Instance respects_provider_event c g src n ev :
  Respects R (apply_provider_event c i g src n ev).
Proof. unfold apply_provider_event. respect. Qed.
#[export] Instance respects_provider_events c g src n evs :
  Respects R (apply_provider_events c i g src n evs).
Proof. induction evs as [|ev evs IH]; cbn [apply_provider_events]; respect. Qed.
#[export] Instance respects_refuse_provider_events c g src n dropped cap :
  Respects R (refuse_provider_events c i g src n dropped cap).
Proof. unfold refuse_provider_events. respect. Qed.

#[export] Instance respects_register c a t : Respects R (register c i a t).
Proof. unfold register. respect. intros e. apply dc_insert. Qed.
#[export] Instance respects_start c p r : Respects R (start c i p r).
Proof. unfold start. respect. Qed.
#[export] Instance respects_stop c f : Respects R (stop c i f).
Proof. unfold stop. respect. Qed.
#[export] Instance respects_resume c t p r : Respects R (resume c i t p r).
Proof. unfold resume. respect. Qed.
#[export] Instance respects_resolve_interaction c g id r :
  Respects R (resolve_interaction c i g id r).
Proof. unfold resolve_interaction. respect. Qed.
#[export] Instance respects_ingest_provider c g src n evs :
  Respects R (ingest_provider c i g src n evs).
Proof. unfold ingest_provider. respect. Qed.
#[export] Instance respects_remove c : Respects R (remove c i).
Proof.
  unfold remove. respect.
  - intros e. apply dc_delete.
  - apply (respects_retain i R). intros ef H. by rewrite (bool_decide_eq_false_2 _ H).
Qed.

Lemma command_respects env :
  command_instance_id (ce_command env) = i → Respects R (apply_command_in_place env).
Proof.
  destruct env as [c cmd]. unfold apply_command_in_place. cbn [ce_id ce_command].
  destruct cmd; cbn [command_instance_id]; intros ->;
    try apply _; unfold send_input, resize, refresh_foreground, discover_history,
      probe_capabilities, load_history, set_session_mode, set_session_config_option,
      set_session_model; respect.
Qed.

#[export] Instance respects_observe_resume_authority g st o :
  Respects R (observe_resume_authority i g st o).
Proof. unfold observe_resume_authority. respect. Qed.
#[export] Instance respects_observe_interaction_resolution g op s o :
  Respects R (observe_interaction_resolution i g op s o).
Proof. unfold observe_interaction_resolution. respect. Qed.
#[export] Instance respects_observe_lifecycle g o : Respects R (observe_lifecycle i g o).
Proof.
  unfold observe_lifecycle. respect.
  apply (respects_retain i R). intros ef H. by rewrite (bool_decide_eq_false_2 _ H).
Qed.

Lemma observation_respects env :
  oe_instance_id env = i → Respects R (apply_observation_in_place env).
Proof.
  intros Hi. unfold apply_observation_in_place, observe_admitted, observe_capability,
    observe_history, observe_terminal_frame, observe_terminal_stale, observe_screen_state,
    observe_provider_event, observe_provider_gap. rewrite Hi. respect.
Qed.
End calls.
