(* ===== verification/EngineCounters.v ===== *)
(** * Running the engine's methods

    The rules of the engine's primitive steps and the cost of a method in
    counter steps. *)

From S2P Require Import Prelude RustStr Ids SessionTypes ProviderTypes Control EngineReduce.
From S2P Require Import ReduceFacts EngineState EngineCommands EngineObserve EngineRespects.

Local Open Scope N_scope.

(** ** The counters *)

(** The next value of a counter, [u64::MAX + 1] when it is exhausted. *)
Definition next_raw (o : option N) : N := default (U64_MAX + 1) o.

Definition counter_in_range (o : option N) : Prop := ∀ n, o = Some n → 1 <= n <= U64_MAX.

Lemma next_raw_step n : n <= U64_MAX → next_raw (checked_add n 1) = n + 1.
Proof.
  intros Hn. destruct (checked_add n 1) as [k|] eqn:E; cbn.
  - by apply checked_add_Some in E as [-> _].
  - apply checked_add_None in E. lia.
Qed.

Lemma checked_step_range n : counter_in_range (checked_add n 1).
Proof. intros k [-> H]%checked_add_Some. lia. Qed.

Lemma next_raw_range o : counter_in_range o → 1 <= next_raw o <= U64_MAX + 1.
Proof. intros H. destruct o as [n|]; cbn; [specialize (H n eq_refl)|]; lia. Qed.

(** Two states with the same sessions, watermarks, effects and operation ids;
    an error once set stays. *)
Record quiet (e e' : Gate4AgentEngine) : Prop := {
  q_sessions : sessions e' = sessions e;
  q_watermarks : generation_watermarks e' = generation_watermarks e;
  q_effects : effects e' = effects e;
  q_operation : next_operation_id e' = next_operation_id e;
  q_error : counter_error e' = None → counter_error e = None
}.

Definition bump_state (e : Gate4AgentEngine) : Gate4AgentEngine := snd (bump_revision e).
Definition emit_state (c : option CommandId) (i : AgentInstanceId) (g : SessionGeneration)
    (k : ControlEventKind) (e : Gate4AgentEngine) : Gate4AgentEngine :=
  snd (emit_event c i g k e).
Definition allocate_state (e : Gate4AgentEngine) : Gate4AgentEngine :=
  snd (allocate_operation e).

Lemma bump_quiet e : quiet e (bump_state e) ∧ events (bump_state e) = events e.
Proof.
  unfold bump_state, bump_revision, modify_state. cbn.
  destruct (counter_error e) eqn:E; [done|]. by destruct (checked_add _ _).
Qed.

Lemma emit_quiet c i g k e :
  quiet e (emit_state c i g k e)
  ∧ (counter_error (emit_state c i g k e) = None →
     ∃ n, next_event_sequence e = Some n
       ∧ events (emit_state c i g k e) = events e ++ [MkControlEvent n c i g k]
       ∧ next_event_sequence (emit_state c i g k e) = checked_add n 1).
Proof.
  unfold emit_state, emit_event, modify_state. cbn.
  destruct (counter_error e) eqn:E; [cbn; by rewrite E|].
  destruct (next_event_sequence e) as [n|] eqn:En; [|done].
  split; [done|]. intros _. by exists n.
Qed.

Lemma wp_bump F Q e :
  (∀ e', quiet e e' → events e' = events e → Q tt e') → wp bump_revision Q F e.
Proof. intros H. destruct (bump_quiet e). by apply H. Qed.

(** What [emit_event] did when no counter ran out. *)
Definition logged c i g k (e e' : Gate4AgentEngine) : Prop :=
  counter_error e' = None → ∃ n, events e' = events e ++ [MkControlEvent n c i g k].

Lemma wp_emit c i g k F Q e :
  (∀ e', quiet e e' → logged c i g k e e' → Q tt e') → wp (emit_event c i g k) Q F e.
Proof.
  intros H. destruct (emit_quiet c i g k e) as [H1 H2]. apply H; [done|].
  intros He. destruct (H2 He) as (n & _ & E & _). by exists n.
Qed.

(** What [allocate_operation] did when no counter ran out. *)
Record allocated (op : OperationId) (e e' : Gate4AgentEngine) : Prop := {
  al_sessions : sessions e' = sessions e;
  al_watermarks : generation_watermarks e' = generation_watermarks e;
  al_effects : effects e' = effects e;
  al_events : events e' = events e;
  al_operation : counter_error e' = None →
    counter_error e = None ∧ next_operation_id e = Some (operation_raw op)
    ∧ next_operation_id e' = checked_add (operation_raw op) 1
}.

Lemma allocate_run e :
  allocate_operation e
  = match counter_error e with
    | Some _ => (Done (MkOperation 0), e)
    | None =>
        match next_operation_id e with
        | None => (Done (MkOperation 0), e <| counter_error := Some OperationIdExhausted |>)
        | Some n => (Done (MkOperation n), e <| next_operation_id := checked_add n 1 |>)
        end
    end.
Proof.
  unfold allocate_operation, mbind, stm_bind, get_state.
  destruct (counter_error e); [done|]. by destruct (next_operation_id e).
Qed.

Lemma wp_allocate F Q e :
  (∀ op e', allocated op e e' → Q op e') → wp allocate_operation Q F e.
Proof.
  intros H. unfold wp. rewrite allocate_run.
  destruct (counter_error e) eqn:E; [apply H; split; by rewrite ?E|].
  destruct (next_operation_id e) as [n|] eqn:En; apply H; split; cbn; done.
Qed.

(** ** The cost of a method

    [cost a b c e e']: with [a] event sequences, [b] revisions and [c]
    operation ids left, no counter ran out between [e] and [e'], and at most
    those were used. *)

Definition cost (a b c : N) (e e' : Gate4AgentEngine) : Prop :=
  counter_error e = None →
  next_raw (next_event_sequence e) + a <= U64_MAX + 1 →
  revision e + b <= U64_MAX →
  next_raw (next_operation_id e) + c <= U64_MAX + 1 →
  counter_error e' = None
  ∧ next_raw (next_event_sequence e') <= next_raw (next_event_sequence e) + a
  ∧ revision e' <= revision e + b
  ∧ next_raw (next_operation_id e') <= next_raw (next_operation_id e) + c.

Lemma cost_refl e : cost 0 0 0 e e.
Proof. intros ? _ _ _. split_and!; [done|lia|lia|lia]. Qed.

Lemma cost_same e e' :
  counter_error e' = counter_error e → next_event_sequence e' = next_event_sequence e →
  revision e' = revision e → next_operation_id e' = next_operation_id e →
  cost 0 0 0 e e'.
Proof. intros E1 E2 E3 E4 ? _ _ _. rewrite E1, E2, E3, E4. split_and!; [done|lia|lia|lia]. Qed.

Lemma cost_trans a b c a' b' c' e1 e2 e3 :
  cost a b c e1 e2 → cost a' b' c' e2 e3 → cost (a + a') (b + b') (c + c') e1 e3.
Proof.
  intros H1 H2 He Ha Hb Hc. destruct H1 as (A & B & C & D); [done|lia|lia|lia|].
  destruct H2 as (A' & B' & C' & D'); [done|lia|lia|lia|]. split_and!; [done|lia|lia|lia].
Qed.

Lemma cost_weaken a b c a' b' c' e e' :
  a <= a' → b <= b' → c <= c' → cost a b c e e' → cost a' b' c' e e'.
Proof.
  intros Ha Hb Hc H He H1 H2 H3. destruct H as (A & B & C & D); [done|lia|lia|lia|].
  split_and!; [done|lia|lia|lia].
Qed.

Lemma bump_cost e : cost 0 1 0 e (bump_state e).
Proof.
  intros He _ Hb _. unfold bump_state, bump_revision, modify_state. cbn. rewrite He.
  destruct (checked_add (revision e) 1) as [r|] eqn:E.
  - apply checked_add_Some in E as [-> _].
    cbn [snd fst set_field counter_error next_event_sequence revision next_operation_id].
    split_and!; [done|lia|lia|lia].
  - apply checked_add_None in E. lia.
Qed.

Lemma emit_cost c i g k e : cost 1 0 0 e (emit_state c i g k e).
Proof.
  intros He Ha _ _. unfold emit_state, emit_event, modify_state. cbn. rewrite He.
  destruct (next_event_sequence e) as [n|] eqn:E; [|change (next_raw None) with (U64_MAX + 1) in *; lia].
  change (next_raw (Some n)) with n in *.
  cbn [snd fst set_field counter_error next_event_sequence revision next_operation_id].
  rewrite next_raw_step by lia. split_and!; [done|lia|lia|lia].
Qed.

Lemma allocate_cost e : cost 0 0 1 e (allocate_state e).
Proof.
  intros He _ _ Hc. unfold allocate_state. rewrite allocate_run, He.
  destruct (next_operation_id e) as [n|] eqn:E; [|change (next_raw None) with (U64_MAX + 1) in *; lia].
  change (next_raw (Some n)) with n in *.
  cbn [snd fst set_field counter_error next_event_sequence revision next_operation_id].
  rewrite next_raw_step by lia. split_and!; [done|lia|lia|lia].
Qed.

(** Running at no cost is respected by every step on data. *)
#[export] Instance cost_preorder : PreOrder (cost 0 0 0).
Proof. split; [exact cost_refl|]. intros e1 e2 e3. exact (cost_trans 0 0 0 0 0 0 e1 e2 e3). Qed.
#[export] Instance cost_data i : DataClosed i (cost 0 0 0).
Proof. by split; [apply _|..]; intros; apply cost_same. Qed.

(** [costs a b c m]: the cost of every run of [m], whatever its outcome. *)
Abbreviation costs a b c m := (Respects (cost a b c) m).

Lemma costs_weaken {A} a b c a' b' c' (m : EngineM A) :
  a <= a' → b <= b' → c <= c' → costs a b c m → costs a' b' c' m.
Proof. intros Ha Hb Hc H e. by eapply cost_weaken; [..|apply H]. Qed.
Lemma costs_none {A} a b c (m : EngineM A) : costs 0 0 0 m → costs a b c m.
Proof. apply costs_weaken; lia. Qed.
Lemma costs_bind {A B} a b c a' b' c' (m : EngineM A) (k : A → EngineM B) :
  costs a b c m → (∀ x, costs a' b' c' (k x)) →
  costs (a + a') (b + b') (c + c') (m ≫= k).
Proof.
  intros Hm Hk e. specialize (Hm e). unfold mbind, stm_bind.
  destruct (m e) as [[x|err|] e']; cbn in *;
    [|eapply cost_weaken; [..|exact Hm]; lia|eapply cost_weaken; [..|exact Hm]; lia].
  eapply cost_trans; [exact Hm|apply Hk].
Qed.
Lemma costs_free {A B} (m : EngineM A) (k : A → EngineM B) a b c :
  costs 0 0 0 m → (∀ x, costs a b c (k x)) → costs a b c (m ≫= k).
Proof. intros H1 H2. exact (costs_bind 0 0 0 a b c m k H1 H2). Qed.

Lemma costs_bump : costs 0 1 0 bump_revision.
Proof. exact bump_cost. Qed.
Lemma costs_emit c i g k : costs 1 0 0 (emit_event c i g k).
Proof. exact (emit_cost c i g k). Qed.
Lemma costs_allocate : costs 0 0 1 allocate_operation.
Proof. exact allocate_cost. Qed.
