(* ===== verification/EngineInv.v ===== *)
(** * The engine invariant

    What a reachable engine state satisfies, the life cycle of one session as
    a step relation, and [commit], the contract every accepted command and
    observation fulfils. *)

From S2P Require Import Prelude RustStr Ids SessionTypes RecordTypes ProviderTypes Control.
From S2P Require Import EngineReduce ReduceFacts EngineState EngineCommands EngineRespects.
From S2P Require Import EngineCounters.

Local Open Scope N_scope.

(** ** One session *)

Abbreviation interactions_of st := (ps_interactions (ss_provider (st_snapshot st))).
Abbreviation status_of st := (ss_status (st_snapshot st)).
Abbreviation generation_of st := (ss_generation (st_snapshot st)).
Abbreviation pending_of st := (ss_pending_operation (st_snapshot st)).

(** A resume in flight agrees with the status: it is being authorized while no
    process runs, and spawning until the process starts or stops. *)
Definition resume_wf (st : SessionState) : Prop :=
  ∀ p, rs_pending (ss_resume (st_snapshot st)) = Some p →
  match pro_phase p with
  | Authorizing => is_inactive (status_of st) = true ∧ pending_of st = Some (pro_operation_id p)
  | Spawning =>
      (status_of st = Starting ∧ pending_of st = Some (pro_operation_id p)
       ∨ status_of st = Stopping)
      ∧ is_Some (st_pending_resume_identity st)
  end.

(** [n] is the next operation id. *)
Record session_wf (n : N) (i : AgentInstanceId) (st : SessionState) : Prop := {
  sw_id : ss_instance_id (st_snapshot st) = i;
  sw_generation : generation_raw (generation_of st) <= U64_MAX;
  sw_provider : provider_wf (ss_provider (st_snapshot st));
  sw_operation : ∀ op, pending_of st = Some op → operation_raw op < n;
  sw_busy : status_of st = Starting ∨ status_of st = Stopping → is_Some (pending_of st);
  sw_idle : is_inactive (status_of st) = true → is_Some (pending_of st) →
    ∃ p, rs_pending (ss_resume (st_snapshot st)) = Some p ∧ pro_phase p = Authorizing;
  sw_resume : resume_wf st;
  sw_input : is_Some (ss_pending_input (st_snapshot st)) → status_of st = Running;
  sw_closed : is_inactive (status_of st) = true → open_ids (interactions_of st) = [];
  sw_starting : status_of st = Starting → resolving (interactions_of st) = [];
  sw_resolving : ∀ op, op ∈ resolving (interactions_of st) → operation_raw op < n;
  sw_stopping : status_of st = Stopping →
    ∀ op, op ∈ resolving (interactions_of st) → pending_of st ≠ Some op;
  sw_probe : ∀ p, cap_pending (ss_capabilities (st_snapshot st)) = Some p →
    cap_settled (ss_capabilities (st_snapshot st)) = false
    ∧ operation_raw (pcp_operation_id p) < n
    ∧ generation_raw (pcp_generation p) <= generation_raw (generation_of st);
  sw_history : ∀ p, hist_pending (ss_history (st_snapshot st)) = Some p →
    operation_raw (pho_operation_id p) < n
}.

Ltac open_wf H :=
  destruct H as [Wid Wgen Wprov Wop Wbusy Widle Wres Win Wclosed Wstarting Wresolving Wstopping
                 Wprobe Whist].

Lemma session_wf_mono n n' i st : n <= n' → session_wf n i st → session_wf n' i st.
Proof.
  intros Hn H. open_wf H. split; try done.
  - intros op Hop. specialize (Wop op Hop). lia.
  - intros op Hop. specialize (Wresolving op Hop). lia.
  - intros p Hp. destruct (Wprobe p Hp) as (?&?&?). split_and!; [done|lia|done].
  - intros p Hp. specialize (Whist p Hp). lia.
Qed.

(** A running session has no resume in flight. *)
Lemma running_no_resume n i st :
  session_wf n i st → status_of st = Running → rs_pending (ss_resume (st_snapshot st)) = None.
Proof.
  intros H Hst. open_wf H. unfold resume_wf in Wres. rewrite Hst in Wres.
  destruct (rs_pending _) as [p|]; [|done]. exfalso.
  specialize (Wres p eq_refl). destruct (pro_phase p); cbn in Wres; [naive_solver|].
  destruct Wres as [[[H _]|H] _]; done.
Qed.

(** ** The engine *)

Definition effect_wf (e : Gate4AgentEngine) (ef : EffectEnvelope) : Prop :=
  ∃ st, sessions e !! ee_instance_id ef = Some st
    ∧ generation_raw (ee_generation ef) <= generation_raw (generation_of st)
    ∧ operation_raw (ee_operation_id ef) < next_raw (next_operation_id e).

Record core_inv (e : Gate4AgentEngine) : Prop := {
  ci_session : ∀ i st, sessions e !! i = Some st →
    session_wf (next_raw (next_operation_id e)) i st
    ∧ generation_watermarks e !! i = Some (generation_of st);
  ci_sessions : N.of_nat (size (sessions e)) <= CONTROL_SESSIONS_MAX;
  ci_identities :
    N.of_nat (size (generation_watermarks e)) <= CONTROL_INSTANCE_IDENTITIES_MAX;
  ci_watermarks : ∀ i w, generation_watermarks e !! i = Some w → generation_raw w <= U64_MAX;
  ci_effects : ∀ ef, ef ∈ effects e → effect_wf e ef
}.

(** [l] is numbered without gaps from [first] up to the next number; once the
    numbers are exhausted, or retired, they only stay below the last. *)
Definition contiguous (first : N) (l : list ControlEvent) (next : option N) : Prop :=
  (∀ k ev, l !! k = Some ev → ev_sequence ev = first + N.of_nat k)
  ∧ match next with
    | Some n => first + len l = n
    | None => first + len l <= U64_MAX + 1
    end.

(** [first] is the number of the first event still queued. *)
Record log_inv (first : N) (e : Gate4AgentEngine) : Prop := {
  li_operation : counter_in_range (next_operation_id e);
  li_event : counter_in_range (next_event_sequence e);
  li_revision : revision e <= U64_MAX;
  li_events : contiguous first (events e) (next_event_sequence e)
}.

Record engine_inv (first : N) (e : Gate4AgentEngine) : Prop := {
  ei_core : core_inv e;
  ei_log : log_inv first e;
  ei_error : counter_error e = None
}.

(** ** The life of a session

    The generation and the status of a session, if it is registered, and the
    watermark of its identity. *)

Definition life : Type := option (SessionGeneration * SessionStatus) * option SessionGeneration.

Definition life_of (e : Gate4AgentEngine) (i : AgentInstanceId) : life :=
  ((λ st, (generation_of st, status_of st)) <$> sessions e !! i, generation_watermarks e !! i).

Definition next_generation (g : SessionGeneration) : SessionGeneration :=
  MkGeneration (generation_raw g + 1).

Inductive life_step : life → life → Prop :=
| life_stay l : life_step l l
| life_register_new : life_step (None, None)
    (Some (generation_default, Registered), Some generation_default)
| life_register_again g : life_step (None, Some g)
    (Some (next_generation g, Registered), Some (next_generation g))
| life_launch g st : is_inactive st = true → life_step (Some (g, st), Some g)
    (Some (next_generation g, Starting), Some (next_generation g))
| life_spawned g w : life_step (Some (g, Starting), w) (Some (g, Running), w)
| life_stop g st w : st = Starting ∨ st = Running →
    life_step (Some (g, st), w) (Some (g, Stopping), w)
| life_exit g st code w : is_active st = true →
    life_step (Some (g, st), w) (Some (g, Exited code), w)
| life_fail g st message w : st = Starting ∨ st = Stopping →
    life_step (Some (g, st), w) (Some (g, Failed message), w)
| life_remove g st w : allows_remove st = true → life_step (Some (g, st), w) (None, w).

(** ** Reported interactions *)

Definition open_of (e : Gate4AgentEngine) (i : AgentInstanceId) : list ProviderInteractionId :=
  match sessions e !! i with
  | Some st => open_ids (interactions_of st)
  | None => []
  end.

(** The transition an event reports to a subscriber. *)
Definition reported_transition (ev : ControlEvent) : option ProviderInteractionTransition :=
  match ev_event ev with
  | Ev_InteractionRequested interaction => Some (TransRequested interaction)
  | Ev_InteractionResolved interaction_id outcome => Some (TransResolved interaction_id outcome)
  | _ => None
  end.
Definition reported (evs : list ControlEvent) : list ProviderInteractionTransition :=
  omap reported_transition evs.

(** ** Issued effects

    A call drops queued effects and adds at most one: of an operation just
    allocated, or of a generation just begun. *)

Definition issues (old new : EffectEnvelope → Prop) (e e' : Gate4AgentEngine) : Prop :=
  next_raw (next_operation_id e) <= next_raw (next_operation_id e')
  ∧ ∃ p, effects e' = retain p (effects e)
    ∨ ∃ ef, effects e' = retain p (effects e) ++ [ef] ∧ new ef
      ∧ operation_raw (ee_operation_id ef) < next_raw (next_operation_id e')
      ∧ (next_raw (next_operation_id e) <= operation_raw (ee_operation_id ef) ∨ old ef).

(** The effect begins a generation of its instance. *)
Definition begins_generation (e : Gate4AgentEngine) (ef : EffectEnvelope) : Prop :=
  ∀ w, generation_watermarks e !! ee_instance_id ef = Some w →
       generation_raw w < generation_raw (ee_generation ef).

Definition issued (e e' : Gate4AgentEngine) : Prop :=
  issues (begins_generation e) (λ _, True) e e'.

(** The same on behalf of the session [st] of [i], which becomes [st']. *)
Definition issued_by (i : AgentInstanceId) (st st' : SessionState) (e e' : Gate4AgentEngine) : Prop :=
  issues (λ _, generation_raw (generation_of st) < generation_raw (generation_of st'))
    (λ ef, ee_instance_id ef = i ∧ ee_generation ef = generation_of st') e e'.

(** Nothing is issued. *)
Definition drops (e e' : Gate4AgentEngine) : Prop :=
  next_operation_id e' = next_operation_id e ∧ ∃ p, effects e' = retain p (effects e).

Lemma retain_all {A} (l : list A) : retain (λ _, true) l = l.
Proof. induction l; cbn; congruence. Qed.
Lemma retain_retain {A} (p q : A → bool) l : retain q (retain p l) = retain (λ x, p x && q x) l.
Proof.
  induction l as [|x l IH]; cbn; [done|].
  destruct (p x); cbn; [destruct (q x)|]; by rewrite IH.
Qed.

Lemma drops_same e e' :
  next_operation_id e' = next_operation_id e → effects e' = effects e → drops e e'.
Proof. intros E1 E2. split; [done|]. exists (λ _, true). by rewrite retain_all. Qed.

Lemma drops_issues old new e e' : drops e e' → issues old new e e'.
Proof. intros [E [p H]]. split; [by rewrite E|]. exists p. by left. Qed.

Lemma drops_issued e1 e2 e3 :
  drops e1 e2 → generation_watermarks e2 = generation_watermarks e1 → issued e2 e3 → issued e1 e3.
Proof.
  intros [E1 [p1 H1]] Ew [Hn [p2 H2]]. split; [by rewrite <- E1|].
  exists (λ ef, p1 ef && p2 ef). rewrite H1, retain_retain, E1 in H2.
  unfold begins_generation in *. rewrite Ew in H2. exact H2.
Qed.

Lemma drops_trans e1 e2 e3 : drops e1 e2 → drops e2 e3 → drops e1 e3.
Proof.
  intros [E1 [p1 H1]] [E2 [p2 H2]]. split; [congruence|].
  exists (λ ef, p1 ef && p2 ef). by rewrite H2, H1, retain_retain.
Qed.

(** ** Commits

    A change made on behalf of instance [i]: the others are untouched, its
    life makes one step, and the events appended report the interactions it
    opened and closed. *)

Record commit (i : AgentInstanceId) (e e' : Gate4AgentEngine) : Prop := {
  cm_frame : ∀ j, j ≠ i → sessions e' !! j = sessions e !! j
                        ∧ generation_watermarks e' !! j = generation_watermarks e !! j;
  cm_life : life_step (life_of e i) (life_of e' i);
  cm_events : ∃ evs, events e' = events e ++ evs
    ∧ Forall (λ ev, ev_instance_id ev = i) evs
    ∧ replay (open_of e i) (reported evs) = Some (open_of e' i);
  cm_effects : issued e e';
  cm_core : core_inv e'
}.

Lemma issued_by_elem i st st' e e' :
  issued_by i st st' e e' →
  next_raw (next_operation_id e) <= next_raw (next_operation_id e')
  ∧ ∀ ef, ef ∈ effects e' → ef ∈ effects e
     ∨ ee_instance_id ef = i ∧ ee_generation ef = generation_of st'
       ∧ operation_raw (ee_operation_id ef) < next_raw (next_operation_id e').
Proof.
  intros [Hn [p H]]. split; [done|]. intros ef. destruct H as [->|(ef' & -> & [H1 H2] & H3 & _)].
  - intros [H _]%elem_of_retain. by left.
  - intros [[H _]%elem_of_retain| ->%list_elem_of_singleton]%elem_of_app; [by left|by right].
Qed.

Lemma issued_by_issued i st st' e e' :
  generation_watermarks e !! i = Some (generation_of st) → issued_by i st st' e e' → issued e e'.
Proof.
  intros Hw [Hn [p H]]. split; [done|]. exists p.
  destruct H as [H|(ef & H & [Hi Hg] & Hop & Hnew)]; [by left|right]. exists ef.
  split_and!; [done..|]. destruct Hnew as [Hnew|Hnew]; [by left|right].
  intros w. rewrite Hi, Hw, Hg. by intros [= <-].
Qed.

(** Instance [i] goes from [st] to [st'] and the rest of the state follows. *)
Lemma core_update i e e' st st' :
  core_inv e → sessions e !! i = Some st →
  sessions e' = <[i := st']> (sessions e) →
  generation_watermarks e' = <[i := generation_of st']> (generation_watermarks e) →
  generation_raw (generation_of st) <= generation_raw (generation_of st') →
  session_wf (next_raw (next_operation_id e')) i st' →
  issued_by i st st' e e' →
  core_inv e'.
Proof.
  intros [C1 C2 C3 C4 C5] Hst Es Ew Hg Hwf Hiss.
  pose proof (issued_by_elem _ _ _ _ _ Hiss) as [Hn Hef].
  destruct (C1 _ _ Hst) as [Hwf0 Hw0]. split.
  - intros j stj. rewrite Es, Ew. destruct (decide (j = i)) as [->|Hj].
    + rewrite !lookup_insert_eq. by intros [= <-].
    + rewrite !lookup_insert_ne by done. intros Hj'. destruct (C1 _ _ Hj') as [H1 H2].
      split; [by eapply session_wf_mono|done].
  - rewrite Es, map_size_insert, Hst. done.
  - rewrite Ew, map_size_insert, Hw0. done.
  - intros j w. rewrite Ew. destruct (decide (j = i)) as [->|Hj].
    + rewrite lookup_insert_eq. intros [= <-]. apply Hwf.
    + rewrite lookup_insert_ne by done. apply C4.
  - intros ef H. apply Hef in H as [H|(H1 & H2 & H3)].
    + destruct (C5 ef H) as (st0 & A & B & C). unfold effect_wf. rewrite Es.
      destruct (decide (ee_instance_id ef = i)) as [E|Hne].
      * rewrite E in *. exists st'. rewrite lookup_insert_eq. simplify_eq.
        split_and!; [done|lia|lia].
      * exists st0. rewrite lookup_insert_ne by done. split_and!; [done|done|lia].
    + exists st'. rewrite Es, H1, lookup_insert_eq, H2. split_and!; [done|lia|done].
Qed.

Lemma commit_update i e e' st st' evs :
  core_inv e → sessions e !! i = Some st →
  sessions e' = <[i := st']> (sessions e) →
  generation_watermarks e' = <[i := generation_of st']> (generation_watermarks e) →
  generation_raw (generation_of st) <= generation_raw (generation_of st') →
  session_wf (next_raw (next_operation_id e')) i st' →
  issued_by i st st' e e' →
  life_step (Some (generation_of st, status_of st), Some (generation_of st))
    (Some (generation_of st', status_of st'), Some (generation_of st')) →
  events e' = events e ++ evs → Forall (λ ev, ev_instance_id ev = i) evs →
  replay (open_ids (interactions_of st)) (reported evs)
    = Some (open_ids (interactions_of st')) →
  commit i e e'.
Proof.
  intros Hc Hst Es Ew Hg Hwf Hef Hlife Eev Hevs Hrep.
  destruct (ci_session _ Hc _ _ Hst) as [_ Hw0]. split; cycle 3.
  - by eapply issued_by_issued.
  - by eapply core_update.
  - intros j Hj. by rewrite Es, Ew, !lookup_insert_ne by done.
  - unfold life_of. by rewrite Es, Ew, Hst, Hw0, !lookup_insert_eq.
  - exists evs. split_and!; [done|done|]. unfold open_of. by rewrite Es, Hst, lookup_insert_eq.
Qed.

(** A commit that leaves the life of [i] as it was composes with a next one. *)
Lemma commit_trans i e1 e2 e3 :
  commit i e1 e2 → life_of e2 i = life_of e1 i → drops e1 e2 → commit i e2 e3 → commit i e1 e3.
Proof.
  intros [F1 L1 (evs1 & E1 & H1 & R1) I1 C1] Hl Hd [F2 L2 (evs2 & E2 & H2 & R2) I2 C2]. split.
  - intros j Hj. destruct (F1 j Hj) as [<- <-]. by apply F2.
  - by rewrite <- Hl.
  - exists (evs1 ++ evs2). split_and!.
    + by rewrite E2, E1, app_assoc.
    + by apply Forall_app.
    + unfold reported. rewrite omap_app, replay_app. unfold reported in R1. rewrite R1. exact R2.
  - eapply drops_issued; [exact Hd| |exact I2]. apply map_eq. intros j.
    destruct (decide (j = i)) as [->|Hj]; [|by apply F1]. by injection Hl.
  - done.
Qed.

Lemma commit_refl i e : core_inv e → commit i e e.
Proof.
  intros Hc. split; [done|constructor| | |done].
  - exists []. by rewrite app_nil_r.
  - by apply drops_issues, drops_same.
Qed.

(** Nothing but the log changed. *)
Lemma commit_quiet i e e' evs :
  core_inv e → quiet e e' → events e' = events e ++ evs →
  Forall (λ ev, ev_instance_id ev = i) evs → reported evs = [] → commit i e e'.
Proof.
  intros [C1 C2 C3 C4 C5] [Q1 Q2 Q3 Q4 _] Eev Hevs Hrep. split.
  - intros j _. by rewrite Q1, Q2.
  - unfold life_of. rewrite Q1, Q2. constructor.
  - exists evs. split_and!; [done|done|]. unfold open_of. by rewrite Q1, Hrep.
  - by apply drops_issues, drops_same.
  - split.
    + intros j st. rewrite Q1, Q2, Q4. apply C1.
    + by rewrite Q1.
    + by rewrite Q2.
    + intros j w. rewrite Q2. apply C4.
    + intros ef. rewrite Q3. intros H. unfold effect_wf. rewrite Q1, Q4. by apply C5.
Qed.

Lemma watermark_same e i st :
  core_inv e → sessions e !! i = Some st →
  generation_watermarks e = <[i := generation_of st]> (generation_watermarks e).
Proof. intros C H. symmetry. apply insert_id. by apply (ci_session _ C). Qed.

(** ** The log of every method *)

(** [log_inv] holds as long as no counter ran out. *)
Definition log_ok (first : N) (e : Gate4AgentEngine) : Prop :=
  counter_error e = None → log_inv first e.

(** Every call respects the log, whatever its instance and its outcome. *)
Definition log_kept (e e' : Gate4AgentEngine) : Prop :=
  ∀ first, log_ok first e → log_ok first e'.

Lemma contiguous_snoc first l n c i g k :
  n <= U64_MAX → contiguous first l (Some n) →
  contiguous first (l ++ [MkControlEvent n c i g k]) (checked_add n 1).
Proof.
  intros Hn (Hl & Hlen). unfold contiguous. rewrite len_app, len_cons, len_nil. split.
  - intros j ev [H|[H1 H2]]%lookup_app_Some; [by apply Hl|].
    apply list_lookup_singleton_Some in H2 as [H2 <-]. cbn. unfold len in *. lia.
  - destruct (checked_add n 1) as [m|] eqn:E; [apply checked_add_Some in E as [-> _]|]; lia.
Qed.

#[export] Instance log_kept_preorder : PreOrder log_kept.
Proof. split; [by intros e first|]. intros e1 e2 e3 H1 H2 first H. by apply H2, H1. Qed.
#[export] Instance log_data i : DataClosed i log_kept.
Proof. by split; [apply _|..]; intros; intros first Hok Herr; destruct (Hok Herr). Qed.

Lemma bump_log : Respects log_kept bump_revision.
Proof.
  intros e first He. unfold bump_revision, modify_state. cbn [snd].
  destruct (counter_error e) eqn:E; [done|].
  destruct (checked_add _ _) as [r|] eqn:Er; [|done]. intros _. destruct (He E).
  apply checked_add_Some in Er as [-> Er]. by split.
Qed.
Lemma emit_log c i g k : Respects log_kept (emit_event c i g k).
Proof.
  intros e first He. unfold emit_event, modify_state. cbn [snd].
  destruct (counter_error e) eqn:E; [done|].
  destruct (next_event_sequence e) as [n|] eqn:En; [|done]. intros _.
  destruct (He E) as [H1 H2 H3 H4]. pose proof (H2 n En). rewrite En in H4.
  split; [done|apply checked_step_range|done|]. apply contiguous_snoc; [lia|done].
Qed.
Lemma allocate_log : Respects log_kept allocate_operation.
Proof.
  intros e first He. rewrite allocate_run. destruct (counter_error e) eqn:E; [exact He|].
  destruct (next_operation_id e) as [n|] eqn:En; [|done]. intros _.
  destruct (He E) as [H1 H2 H3 H4]. split; [apply checked_step_range|done|done|done].
Qed.
#[export] Instance log_closed i : CallClosed i log_kept.
Proof.
  split; [apply _|by intros|exact bump_log|exact allocate_log|].
  intros c g k. apply emit_log.
Qed.
