(* ===== verification/EngineCommandFacts.v ===== *)
(** * Commands keep the invariant

    Every command of the engine, run on its own state, either fails and
    changes nothing or commits; refused provider batches, which fail and
    commit, are in EngineIngestFacts. *)

From S2P Require Import Prelude RustStr Ids Input SessionTypes RecordTypes ProviderTypes.
From S2P Require Import InputFacts Control EngineReduce ReduceFacts EngineState.
From S2P Require Import EngineCommands EngineCounters EngineInv.

Local Open Scope N_scope.

(** ** Rules of the shared steps *)

Section rules.
Context (F : ControlError → Gate4AgentEngine → Prop).

Lemma wp_require_session i Q e :
  (sessions e !! i = None → F (UnknownInstance i) e) →
  (∀ st, sessions e !! i = Some st → Q st e) → wp (require_session i) Q F e.
Proof. intros H1 H2. by apply wp_bind, wp_get, wp_lift_option. Qed.

Lemma wp_require_no_operation i s Q e :
  (∀ op, ss_pending_operation s = Some op → F (OperationPending i op) e) →
  (ss_pending_operation s = None → Q tt e) → wp (require_no_operation i s) Q F e.
Proof. unfold require_no_operation. destruct (ss_pending_operation s); intros H1 H2; [by apply H1|by apply H2]. Qed.

Lemma wp_require_no_history s Q e :
  (∀ p, hist_pending (ss_history s) = Some p → F (HistoryOperationPending (pho_operation_id p)) e) →
  (hist_pending (ss_history s) = None → Q tt e) → wp (require_no_history s) Q F e.
Proof. unfold require_no_history. destruct (hist_pending _); intros H1 H2; [by apply H1|by apply H2]. Qed.

Lemma wp_require_no_probe s Q e :
  (∀ p, cap_pending (ss_capabilities s) = Some p →
        F (CapabilityProbeOperationPending (pcp_operation_id p)) e) →
  (cap_pending (ss_capabilities s) = None → Q tt e) → wp (require_no_probe s) Q F e.
Proof. unfold require_no_probe. destruct (cap_pending _); intros H1 H2; [by apply H1|by apply H2]. Qed.

Lemma wp_update_state i f st Q e :
  sessions e !! i = Some st → Q tt (e <| sessions ::= <[i := f st]> |>) →
  wp (update_state i f) Q F e.
Proof.
  intros Hst HQ. apply wp_bind, wp_get, wp_bind, wp_expect; [by eexists|].
  intros st'. rewrite Hst. by intros [= <-].
Qed.

Lemma wp_get_session i st Q e :
  sessions e !! i = Some st → Q st e → wp (get_session i) Q F e.
Proof.
  intros Hst HQ. apply wp_bind, wp_get, wp_expect; [by eexists|].
  intros st'. rewrite Hst. by intros [= <-].
Qed.

(** The tail of a request. *)
Definition requested c i g op eff k (e e' : Gate4AgentEngine) : Prop :=
  sessions e' = sessions e ∧ generation_watermarks e' = generation_watermarks e
  ∧ effects e' = effects e ++ [MkEffect op i g eff]
  ∧ next_operation_id e' = next_operation_id e
  ∧ (counter_error e' = None → counter_error e = None
     ∧ ∃ n, events e' = events e ++ [MkControlEvent n (Some c) i g k]).

Lemma wp_emit_request c i g op eff k Q e :
  (∀ e', requested c i g op eff k e e' → Q tt e') →
  wp (emit_request c i g op eff k) Q F e.
Proof.
  intros H. apply wp_bind, wp_modify, wp_bind, wp_bump. intros e1 [A1 A2 A3 A4 A5] Ev1.
  apply wp_emit. intros e2 [B1 B2 B3 B4 B5] Hlog. apply H.
  rewrite A1 in B1. rewrite A2 in B2. rewrite A3 in B3. rewrite A4 in B4.
  split_and!; [done|done|done|done|]. intros He. split; [by apply A5, B5|].
  destruct (Hlog He) as [n Hn]. exists n. by rewrite Hn, Ev1.
Qed.
End rules.

(** [guards] walks through the tests of a handler, whose failures change
    nothing; [guards_by tac] proves with [tac] what each failure has to show. *)
Ltac pass_by tac :=
  lazymatch goal with
  | |- wp (allocate_operation ≫= _) _ _ _ => fail
  | |- wp (_ ≫= _) _ _ _ => apply wp_bind
  | |- wp (fail_when _ _) _ _ _ => apply wp_fail_when; [intros; solve [tac]|intros ?]
  | |- wp (lift_result _ _) _ _ _ => apply wp_lift_result; [intros; solve [tac]|intros ? ?]
  | |- wp (lift_option _ _) _ _ _ => apply wp_lift_option; [intros; solve [tac]|intros ? ?]
  | |- wp (require_session _) _ _ _ => apply wp_require_session; [intros; solve [tac]|intros ? ?]
  | |- wp (require_no_operation _ _) _ _ _ =>
      apply wp_require_no_operation; [intros; solve [tac]|intros ?]
  | |- wp (require_no_history _) _ _ _ =>
      apply wp_require_no_history; [intros; solve [tac]|intros ?]
  | |- wp (require_no_probe _) _ _ _ => apply wp_require_no_probe; [intros; solve [tac]|intros ?]
  | |- wp (mret _) _ _ _ => apply wp_ret
  | |- wp (throw _) _ _ _ => apply wp_throw; solve [tac]
  | |- wp get_state _ _ _ => apply wp_get
  | |- wp (if ?b then _ else _) _ _ _ => destruct b eqn:?
  | |- wp (match ?o with Some _ => _ | None => _ end) _ _ _ => destruct o eqn:?
  end.
Ltac guards_by tac := repeat pass_by tac; cbn zeta.
Ltac guards := guards_by done.

(** A command of instance [i] on [e]: an error changes nothing, success
    commits unless a counter ran out. *)
Definition command_ok (i : AgentInstanceId) (m : EngineM unit) (e : Gate4AgentEngine) : Prop :=
  wp m (λ _ e', counter_error e' = None → commit i e e') (λ _ e', e' = e) e.

(** An event that reports no transition. *)
Definition silent (k : ControlEventKind) : Prop :=
  match k with
  | Ev_InteractionRequested _ | Ev_InteractionResolved _ _ => False
  | _ => True
  end.

Lemma silent_reported n c i g k : silent k → reported [MkControlEvent n c i g k] = [].
Proof. unfold reported, reported_transition. by destruct k. Qed.

(** What the handler of a request must show of the session it leaves. *)
Record request_ok (i : AgentInstanceId) (st : SessionState) (op : OperationId)
    (st' : SessionState) (k : ControlEventKind) : Prop := {
  ro_wf : session_wf (operation_raw op + 1) i st';
  ro_generation : generation_of st' = generation_of st;
  ro_life : status_of st' = status_of st
            ∨ (status_of st = Starting ∨ status_of st = Running) ∧ status_of st' = Stopping;
  ro_open : open_ids (interactions_of st') = open_ids (interactions_of st);
  ro_silent : silent k
}.

(** Committing a request: the end of every handler but [start]'s. *)
Lemma commit_request first i c op eff k p st st' e e1 e' :
  core_inv e → sessions e !! i = Some st → allocated op e e1 →
  requested c i (generation_of st) op eff k
    (e1 <| sessions ::= <[i := st']> |> <| effects ::= retain p |>) e' →
  (operation_raw op <= U64_MAX → session_wf (operation_raw op) i st → request_ok i st op st' k) →
  log_ok first e → counter_error e' = None → commit i e e'.
Proof.
  intros Hc Hst [A1 A2 A3 A4 A5] (R1 & R2 & R3 & R4 & R5) Hok Hlog Herr.
  destruct (R5 Herr) as [Herr1 [n Hev]]. cbn in *.
  destruct (A5 Herr1) as (Herr0 & Hop & Hop').
  assert (Hmax : operation_raw op <= U64_MAX) by (by apply (li_operation _ _ (Hlog Herr0))).
  assert (Hnext : next_raw (next_operation_id e') = operation_raw op + 1).
  { rewrite R4, Hop'. by apply next_raw_step. }
  destruct (ci_session _ Hc _ _ Hst) as [Hwf0 _]. rewrite Hop in Hwf0.
  destruct (Hok Hmax Hwf0) as [W G L O S].
  eapply (commit_update i e e' st st' [MkControlEvent n (Some c) i (generation_of st) k]);
    try done.
  - by rewrite R1, A1.
  - rewrite R2, A2, G. by eapply watermark_same.
  - by rewrite G.
  - by rewrite Hnext.
  - split; rewrite Hnext, Hop; cbn; [lia|]. exists p. right.
    eexists. rewrite R3, A3, G. split_and!; [done|done|done|cbn; lia|left; cbn; lia].
  - rewrite G. destruct L as [L|[[L|L] L']]; rewrite ?L, ?L'; constructor; auto.
  - rewrite Hev, A4. done.
  - by constructor.
  - rewrite silent_reported by done. by rewrite O.
Qed.

Lemma requested_all c i g op eff k e e' :
  requested c i g op eff k e e' →
  requested c i g op eff k (e <| effects ::= retain (λ _, true) |>) e'.
Proof.
  intros (R1 & R2 & R3 & R4 & R5). split_and!; try done. cbn. by rewrite retain_all.
Qed.

(** The usual request: allocate, change the session, emit. *)
Lemma wp_request first i c (f : OperationId → SessionState → SessionState) eff k st e :
  core_inv e → log_ok first e → sessions e !! i = Some st →
  (∀ op, operation_raw op <= U64_MAX → session_wf (operation_raw op) i st →
         request_ok i st op (f op st) (k op)) →
  command_ok i
    (operation_id ← allocate_operation;
     update_state i (f operation_id) ;;
     emit_request c i (generation_of st) operation_id (eff operation_id) (k operation_id)) e.
Proof.
  intros Hc Hlog Hst Hok. apply wp_bind, wp_allocate. intros op e1 Hal.
  apply wp_bind, (wp_update_state _ _ _ st); [by rewrite (al_sessions _ _ _ Hal)|].
  apply wp_emit_request. intros e' Hreq Herr.
  eapply commit_request; [done|done|done|exact (requested_all _ _ _ _ _ _ _ _ Hreq)| |done|done].
  intros Hop Hwf. by apply Hok.
Qed.

(** ** The sessions requests leave *)

(** A running session that begins an operation. *)
Lemma request_running i st op st' k :
  session_wf (operation_raw op) i st → status_of st = Running →
  status_of st' = Running → ss_instance_id (st_snapshot st') = ss_instance_id (st_snapshot st) →
  generation_of st' = generation_of st → ss_provider (st_snapshot st') = ss_provider (st_snapshot st) →
  pending_of st' = Some op → ss_resume (st_snapshot st') = ss_resume (st_snapshot st) →
  ss_capabilities (st_snapshot st') = ss_capabilities (st_snapshot st) →
  ss_history (st_snapshot st') = ss_history (st_snapshot st) → silent k →
  request_ok i st op st' k.
Proof.
  intros Hwf Hst Hst' Eid Eg Ep Eop Er Ec Eh Hk.
  pose proof (running_no_resume _ _ _ Hwf Hst) as Hres.
  apply (session_wf_mono _ (operation_raw op + 1)) in Hwf; [|lia]. open_wf Hwf.
  split; [|done|left; congruence|by rewrite Ep|done]. split; rewrite ?Eid, ?Eg, ?Ep, ?Ec, ?Eh, ?Hst';
    try done; try (by intros [?|?]).
  - rewrite Eop. intros op' [= ->]. lia.
  - intros p. rewrite Er, Hres. done.
Qed.

(** A session whose operation, status and provider are as they were: only its
    history, its capabilities or what is shown of its terminal changed. *)
Record aside (st st' : SessionState) : Prop := {
  as_id : ss_instance_id (st_snapshot st') = ss_instance_id (st_snapshot st);
  as_generation : generation_of st' = generation_of st;
  as_status : status_of st' = status_of st;
  as_provider : ss_provider (st_snapshot st') = ss_provider (st_snapshot st);
  as_pending : pending_of st' = pending_of st;
  as_input : ss_pending_input (st_snapshot st') = ss_pending_input (st_snapshot st);
  as_resume : ss_resume (st_snapshot st') = ss_resume (st_snapshot st);
  as_identity : st_pending_resume_identity st' = st_pending_resume_identity st
}.

Lemma aside_wf n i st st' :
  aside st st' → session_wf n i st →
  (∀ p, hist_pending (ss_history (st_snapshot st')) = Some p →
        hist_pending (ss_history (st_snapshot st)) = Some p
        ∨ operation_raw (pho_operation_id p) < n) →
  (∀ p, cap_pending (ss_capabilities (st_snapshot st')) = Some p →
        ss_capabilities (st_snapshot st') = ss_capabilities (st_snapshot st)
        ∨ cap_settled (ss_capabilities (st_snapshot st')) = false
          ∧ operation_raw (pcp_operation_id p) < n ∧ pcp_generation p = generation_of st) →
  session_wf n i st'.
Proof.
  intros [Eid Eg Es Ep Eop Ein Er Ei] Hwf Hh Hc. open_wf Hwf.
  split; unfold resume_wf in *; rewrite ?Eid, ?Eg, ?Es, ?Ep, ?Eop, ?Ein, ?Er, ?Ei; try done.
  - intros p Hp. destruct (Hc p Hp) as [E|(A & B & C)].
    + rewrite E in Hp |- *. by apply Wprobe.
    + rewrite C. split_and!; [done|lia|done].
  - intros p Hp. destruct (Hh p Hp) as [H|H]; [by apply Whist|done].
Qed.

(** A request outside the session's operation. *)
Lemma request_aside i st op st' k :
  session_wf (operation_raw op) i st → aside st st' →
  (∀ p, hist_pending (ss_history (st_snapshot st')) = Some p →
        hist_pending (ss_history (st_snapshot st)) = Some p ∨ pho_operation_id p = op) →
  (∀ p, cap_pending (ss_capabilities (st_snapshot st')) = Some p →
        ss_capabilities (st_snapshot st') = ss_capabilities (st_snapshot st)
        ∨ cap_settled (ss_capabilities (st_snapshot st')) = false
          ∧ pcp_operation_id p = op ∧ pcp_generation p = generation_of st) →
  silent k → request_ok i st op st' k.
Proof.
  intros Hwf Ha Hh Hc Hk. apply (session_wf_mono _ (operation_raw op + 1)) in Hwf; [|lia].
  split; [|apply Ha|left; apply Ha|by rewrite (as_provider _ _ Ha)|done].
  apply (aside_wf _ _ _ _ Ha Hwf).
  - intros p Hp. destruct (Hh p Hp) as [?| ->]; [by left|right; lia].
  - intros p Hp. destruct (Hc p Hp) as [?|(?& -> &?)]; [by left|right]. split_and!; [done|lia|done].
Qed.

Section commands.
Context (c : CommandId) (i : AgentInstanceId) (e : Gate4AgentEngine).
Context (first : N) (Hc : core_inv e) (Hlog : log_ok first e).

Lemma is_running_true s : negb (is_running s) = false → s = Running.
Proof. by destruct s. Qed.

Ltac request :=
  match goal with
  | H : sessions e !! i = Some ?st |- _ =>
      refine (wp_request first i c _ (λ _, _) _ st e Hc Hlog H _);
      let op := fresh "op" in let Hwf := fresh "Hwf" in intros op _ Hwf
  end.

Lemma resize_ok size : command_ok i (resize c i size) e.
Proof.
  unfold command_ok, resize. guards.
  request. apply request_running; try done; by apply is_running_true.
Qed.

Lemma refresh_foreground_ok : command_ok i (refresh_foreground c i) e.
Proof.
  unfold command_ok, refresh_foreground. guards.
  request. apply request_running; try done; by apply is_running_true.
Qed.

Lemma discover_history_ok query : command_ok i (discover_history c i query) e.
Proof.
  unfold command_ok, discover_history. guards. request.
  apply request_aside; [done|done| | |done]; cbn.
  - intros p [= <-]. by right.
  - intros p Hp. by left.
Qed.

Lemma load_history_ok candidate : command_ok i (load_history c i candidate) e.
Proof.
  unfold command_ok, load_history. guards. request.
  apply request_aside; [done|done| | |done]; cbn.
  - intros p [= <-]. by right.
  - intros p Hp. by left.
Qed.

Lemma probe_capabilities_ok r : command_ok i (probe_capabilities c i r) e.
Proof.
  unfold command_ok, probe_capabilities. guards. request.
  apply request_aside; [done|done| | |done]; cbn.
  - intros p Hp. by left.
  - intros p [= <-]. by right.
Qed.

Lemma wp_begin_operation session eff k st :
  sessions e !! i = Some st → st_snapshot st = session → status_of st = Running →
  (∀ op, silent (k op)) →
  command_ok i
    (operation_id ← begin_operation i;
     emit_request c i (ss_generation session) operation_id (eff operation_id) (k operation_id)) e.
Proof.
  intros Hst <- Hrun Hk.
  pose proof (wp_request first i c (λ op st, st <| st_snapshot ::= λ s,
                s <| ss_pending_operation := Some op |> |>) eff k st e Hc Hlog Hst) as H.
  assert (Hok : ∀ op, operation_raw op <= U64_MAX → session_wf (operation_raw op) i st →
            request_ok i st op (st <| st_snapshot ::= λ s,
                s <| ss_pending_operation := Some op |> |>) (k op))
    by (intros op _ Hwf; by apply request_running).
  specialize (H Hok). unfold command_ok, wp, begin_operation, session_mut in *.
  revert H. unfold mbind, stm_bind. destruct (allocate_operation e) as [[op|err|] e1]; [|done|done].
  by destruct (update_state _ _ e1) as [[[]|err|] e2].
Qed.

Lemma wp_require_acp_running switch action (Q : SessionSnapshot → Gate4AgentEngine → Prop) :
  (∀ st, sessions e !! i = Some st → status_of st = Running → Q (st_snapshot st) e) →
  wp (require_acp_running i switch action) Q (λ _ e', e' = e) e.
Proof.
  intros HQ. unfold require_acp_running. guards. apply HQ; [done|by apply is_running_true].
Qed.

Lemma set_session_mode_ok m : command_ok i (set_session_mode c i m) e.
Proof.
  unfold command_ok, set_session_mode. guards. apply wp_require_acp_running. intros st Hst Hr.
  by eapply (wp_begin_operation _ (λ _, _) (λ _, _)).
Qed.
Lemma set_session_config_option_ok o v :
  command_ok i (set_session_config_option c i o v) e.
Proof.
  unfold command_ok, set_session_config_option. guards. apply wp_require_acp_running. intros st Hst Hr.
  by eapply (wp_begin_operation _ (λ _, _) (λ _, _)).
Qed.
Lemma set_session_model_ok m : command_ok i (set_session_model c i m) e.
Proof.
  unfold command_ok, set_session_model. guards. apply wp_require_acp_running. intros st Hst Hr.
  by eapply (wp_begin_operation _ (λ _, _) (λ _, _)).
Qed.

Lemma wp_input_effect transport agent_id action (Q : _ → Gate4AgentEngine → Prop) :
  (∀ r, Q r e) → wp (input_effect transport agent_id action) Q (λ _ e', e' = e) e.
Proof.
  intros HQ. destruct transport, action as [p|p|p|p|p|p|p]; cbn [input_effect];
    try (by guards; apply HQ).
  1-5: guards; match goal with
    | H : prepare_input _ = Ok ?input |- _ =>
        destruct (prepare_input_not_dispatched _ _ H);
        destruct (input_kind input) eqn:?; try congruence; apply HQ
    end.
  destruct p; by guards; apply HQ.
Qed.

Lemma send_input_ok action : command_ok i (send_input c i action) e.
Proof.
  unfold command_ok, send_input. destruct action; guards;
    apply wp_input_effect; intros [eff kind];
    request; apply request_running; try done; by apply is_running_true.
Qed.
End commands.

(** ** Resume, interactions, stop *)

Section commands2.
Context (c : CommandId) (i : AgentInstanceId) (e : Gate4AgentEngine).
Context (first : N) (Hc : core_inv e) (Hlog : log_ok first e).

Lemma wp_resume_authority_target s t (Q : _ → Gate4AgentEngine → Prop) :
  (∀ r, Q r e) → wp (resume_authority_target s t) Q (λ _ e', e' = e) e.
Proof. intros HQ. destruct t; cbn [resume_authority_target]; guards; apply HQ. Qed.

Lemma resume_ok t p r : command_ok i (resume c i t p r) e.
Proof.
  unfold command_ok, resume. destruct (resume_initial_prompt r); guards;
    apply wp_resume_authority_target; intros target;
    (match goal with
     | H : sessions e !! i = Some ?st |- _ =>
         refine (wp_request first i c _ (λ _, _) (λ _, _) st e Hc Hlog H _)
     end); intros op _ Hwf;
    apply (session_wf_mono _ (operation_raw op + 1)) in Hwf; try lia; open_wf Hwf;
    (split; [|done|by left|done|done]); (split; cbn; try done).
  all: try (intros op' [= <-]; lia).
  all: try (intros p' [= <-]; cbn; split; [by apply negb_false_iff|done]).
  all: try (intros Hst'; rewrite Hst' in *; done).
  all: intros; eexists; done.
Qed.

Lemma set_interaction_status_find k s p x :
  List.find (has_interaction_id k) (ps_interactions p) = Some x →
  ∃ l1 l2, ps_interactions p = l1 ++ x :: l2 ∧ pi_id x = k
    ∧ set_interaction_status k s p
      = Some (p <| ps_interactions := l1 ++ (x <| pi_status := s |>) :: l2 |>).
Proof.
  intros Hf. destruct (update_first_split _ (λ i, i <| pi_status := s |>) _ _ Hf)
    as (l1 & l2 & E1 & E2). exists l1, l2. split; [done|].
  apply find_some in Hf as [Hin Hx]. split; [by apply bool_decide_eq_true in Hx|].
  unfold set_interaction_status. rewrite (proj2 (existsb_exists _ _)) by eauto.
  rewrite <- E2. done.
Qed.

Lemma provider_wf_interactions p l :
  provider_wf p → interactions_wf l (ps_sequence p) →
  provider_wf (p <| ps_interactions := l |>).
Proof. intros [H1 [R1 R2 R3] H3 H4 H5 H6] Hl. by split. Qed.

Lemma resolve_interaction_ok g k r : command_ok i (resolve_interaction c i g k r) e.
Proof.
  unfold command_ok, resolve_interaction. guards.
  match goal with H : sessions e !! i = Some ?s |- _ => rename H into Hst; rename s into st end.
  match goal with H : List.find _ _ = Some ?x |- _ => rename H into Hfind; rename x into it end.
  match goal with H : negb (bool_decide (generation_of st = g)) = false |- _ =>
    apply negb_false_iff, bool_decide_eq_true in H; subst g end.
  match goal with H : negb (is_running _) = false |- _ => apply is_running_true in H; rename H into Hrun end.
  assert (Hpend : pi_status it = InteractionPending) by (by destruct (pi_status it)).
  apply wp_bind, wp_allocate. intros op e1 Hal.
  destruct (set_interaction_status_find k (InteractionResolving op (response_kind r)) _ _ Hfind)
    as (l1 & l2 & El & Hk & Hset).
  rewrite Hset. apply wp_bind, wp_ret, wp_bind.
  apply (wp_update_state _ _ _ st); [by rewrite (al_sessions _ _ _ Hal)|].
  apply wp_emit_request. intros e' Hreq Herr.
  eapply commit_request; [done|done|done|exact (requested_all _ _ _ _ _ _ _ _ Hreq)| |done|done].
  intros _ Hwf. pose proof (running_no_resume _ _ _ Hwf Hrun) as Hres.
  apply (session_wf_mono _ (operation_raw op + 1)) in Hwf; [|lia]. open_wf Hwf.
  assert (Hopen : interaction_is_unresolved it = true)
    by (unfold interaction_is_unresolved; by rewrite Hpend).
  split; [|done|by left| |done].
  - split; cbn; rewrite ?Hrun; try done; try (by intros [?|?]).
    + apply provider_wf_interactions; [done|]. apply interactions_wf_status. rewrite <- El.
      by apply pw_interactions.
    + intros op' [= <-]. lia.
    + intros p. cbn. by rewrite Hres.
    + intros op' [H|[k' [= <-]]]%status_resolving; [|lia]. apply Wresolving. by rewrite El.
  - cbn. rewrite El. by apply status_open_ids.
Qed.

Lemma stop_ok force : command_ok i (stop c i force) e.
Proof.
  unfold command_ok, stop. guards.
  match goal with H : sessions e !! i = Some ?s |- _ => rename H into Hst; rename s into st end.
  match goal with H : negb _ = false |- _ => apply negb_false_iff in H; rename H into Hrun end.
  apply wp_bind, wp_allocate. intros op e1 Hal.
  apply wp_bind, (wp_update_state _ _ _ st); [by rewrite (al_sessions _ _ _ Hal)|].
  apply wp_bind.
  assert (Hok : ∀ k, silent k → session_wf (operation_raw op) i st → request_ok i st op
    (st <| st_pending_interrupt := false |>
       <| st_snapshot ::= λ session, invalidate_foreground (str "stop requested") (session
            <| ss_status := Stopping |> <| ss_pending_operation := Some op |>
            <| ss_pending_input := None |>) |>) k).
  { intros k Hk Hwf. pose proof Hwf as Hwf0.
    apply (session_wf_mono _ (operation_raw op + 1)) in Hwf; [|lia]. open_wf Hwf.
    split; [|done| |done|done].
    - split; cbn; try done.
      + intros op' [= <-]. lia.
      + intros p Hp. specialize (Wres p Hp). cbn. destruct (pro_phase p).
        * destruct Wres as [H _]. by destruct (status_of st).
        * destruct Wres as [_ H]. split; [by right|done].
      + intros _ op' Hin [= ->]. pose proof (sw_resolving _ _ _ Hwf0 _ Hin). lia.
    - right. cbn. split; [|done]. destruct (status_of st); auto; done. }
  destruct (pending_interaction_resolution _) as [[op0 k0]|].
  - apply wp_modify, wp_emit_request. intros e' Hreq Herr.
    eapply commit_request; [done|done|done|exact Hreq| |done|done]. intros _. by apply Hok.
  - apply wp_ret, wp_emit_request. intros e' Hreq Herr.
    eapply commit_request; [done|done|done|exact (requested_all _ _ _ _ _ _ _ _ Hreq)| |done|done].
    intros _. by apply Hok.
Qed.
End commands2.

(** ** Registration, start, removal *)

Lemma checked_next_generation_Some g g' :
  checked_next_generation g = Some g' ↔ g' = next_generation g ∧ generation_raw g + 1 <= U64_MAX.
Proof.
  unfold checked_next_generation, next_generation. rewrite fmap_Some. split.
  - intros (n & [-> H]%checked_add_Some & ->). done.
  - intros [-> H]. eexists. by rewrite checked_add_Some.
Qed.

(** Under the invariant the watermark is the session's generation. *)
Lemma generation_watermark_same e i st :
  core_inv e → sessions e !! i = Some st →
  generation_watermark e i (generation_of st) = generation_of st.
Proof.
  intros Hc Hst. unfold generation_watermark. destruct (ci_session _ Hc _ _ Hst) as [_ ->].
  unfold generation_max. rewrite N.max_id. by destruct (generation_of st).
Qed.

(** A launch leaves a fresh session in its new generation. *)
Record launched (st st' : SessionState) (op : OperationId) : Prop := {
  la_id : ss_instance_id (st_snapshot st') = ss_instance_id (st_snapshot st);
  la_generation : generation_of st' = next_generation (generation_of st);
  la_status : status_of st' = Starting;
  la_pending : pending_of st' = Some op;
  la_input : ss_pending_input (st_snapshot st') = None;
  la_capabilities : ss_capabilities (st_snapshot st') = ss_capabilities (st_snapshot st);
  la_history : hist_pending (ss_history (st_snapshot st')) = None;
  la_provider : ss_provider (st_snapshot st') = ProviderSnapshot_default;
  la_resume : ∀ p, rs_pending (ss_resume (st_snapshot st')) = Some p →
    pro_phase p = Spawning ∧ pro_operation_id p = op ∧ is_Some (st_pending_resume_identity st')
}.

Lemma launched_wf n i st st' op :
  launched st st' op → session_wf n i st → generation_raw (generation_of st) + 1 <= U64_MAX →
  operation_raw op < n → session_wf n i st'.
Proof.
  intros [Eid Eg Es Eop Ein Ec Eh Ep Er] Hwf Hg Hop. open_wf Hwf.
  split; rewrite ?Eid, ?Eg, ?Es, ?Eop, ?Ein, ?Ec, ?Eh, ?Ep; try done.
  - apply provider_default_wf.
  - by intros op' [= <-].
  - intros p Hp. destruct (Er p Hp) as (-> & -> & H). rewrite Es, Eop. split; [by left|done].
  - intros op' H. by apply elem_of_nil in H.
  - intros p Hp. destruct (Wprobe p Hp) as (?&?&?). split_and!; [done|done|]. cbn. lia.
Qed.

Lemma commit_launch i e e' st st' op evs k n c g p effect :
  core_inv e → sessions e !! i = Some st → is_inactive (status_of st) = true →
  launched st st' op → generation_raw (generation_of st) + 1 <= U64_MAX →
  operation_raw op < next_raw (next_operation_id e') →
  next_raw (next_operation_id e) <= next_raw (next_operation_id e') →
  sessions e' = <[i := st']> (sessions e) →
  generation_watermarks e' = <[i := next_generation (generation_of st)]> (generation_watermarks e) →
  effects e' = retain p (effects e)
               ++ [MkEffect op i (next_generation (generation_of st)) effect] →
  evs = [MkControlEvent n c i g k] → silent k → events e' = events e ++ evs →
  commit i e e'.
Proof.
  intros Hc Hst Hin Hla Hg Hop Hn Es Ew Hef -> Hk Hev.
  destruct (ci_session _ Hc _ _ Hst) as [Hwf0 _].
  apply (session_wf_mono _ (next_raw (next_operation_id e'))) in Hwf0; [|done].
  pose proof (launched_wf _ _ _ _ _ Hla Hwf0 Hg Hop) as Hwf. pose proof (sw_closed _ _ _ Hwf0 Hin) as Hcl.
  destruct Hla. eapply (commit_update i e e' st st' [_]); try done.
  - by rewrite la_generation0.
  - rewrite la_generation0. cbn. lia.
  - split; [done|]. exists p. right. eexists. rewrite Hef, la_generation0.
    split_and!; [done|done|done|done|right; cbn; lia].
  - rewrite la_generation0, la_status0. by constructor.
  - by constructor.
  - rewrite silent_reported by done. by rewrite la_provider0, Hcl.
Qed.

Section commands3.
Context (c : CommandId) (i : AgentInstanceId) (e : Gate4AgentEngine).
Context (first : N) (Hc : core_inv e) (Hlog : log_ok first e).

Lemma start_tail st p r g transport agent_id :
  sessions e !! i = Some st → negb (is_inactive (status_of st)) = false →
  checked_next_generation (generation_watermark e i (generation_of st)) = Some g →
  command_ok i
    (purge_generation_bound_history i ;;
     operation_id ← allocate_operation;
     update_state i (started_state p r g operation_id) ;;
     set_watermark i g ;;
     emit_request c i g operation_id (Eff_Spawn agent_id transport p r)
       (Ev_StartRequested operation_id)) e.
Proof.
  intros Hst Hin Hg. apply negb_false_iff in Hin.
  rewrite (generation_watermark_same e i st Hc Hst) in Hg.
  apply checked_next_generation_Some in Hg as [-> Hg].
  apply wp_bind, wp_modify, wp_bind, wp_allocate. intros op e1 [A1 A2 A3 A4 A5].
  apply wp_bind, (wp_update_state _ _ _ st); [by rewrite A1|].
  apply wp_bind, wp_modify, wp_emit_request. intros e' (R1 & R2 & R3 & R4 & R5) Herr.
  destruct (R5 Herr) as [Herr1 [n Hev]]. cbn in *. destruct (A5 Herr1) as (Herr0 & Hop & Hop').
  assert (Hmax : operation_raw op <= U64_MAX) by (by apply (li_operation _ _ (Hlog Herr0))).
  eapply (commit_launch i e e' st (started_state p r (next_generation (generation_of st)) op st) op
            _ (Ev_StartRequested op) n _ _ _ _); try done.
  - rewrite R4, Hop', next_raw_step by done. lia.
  - rewrite R4, Hop', next_raw_step by done. rewrite Hop. cbn. lia.
  - by rewrite R1, A1.
  - by rewrite R2, A2.
  - by rewrite R3, A3.
  - by rewrite Hev, A4.
Qed.

Lemma start_ok p r : command_ok i (start c i p r) e.
Proof.
  unfold command_ok, start. guards;
    match goal with
    | H : sessions e !! i = Some ?st |- _ => by apply (start_tail st)
    end.
Qed.

Lemma registered_wf n agent_id transport g :
  generation_raw g <= U64_MAX → session_wf n i (registered_state i agent_id transport g).
Proof.
  intros Hg. split; cbn; try done; try (by intros ? []%elem_of_nil); try (by intros []).
  apply provider_default_wf.
Qed.

Lemma register_tail agent_id transport g :
  sessions e !! i = None → generation_raw g <= U64_MAX →
  life_step (None, generation_watermarks e !! i) (Some (g, Registered), Some g) →
  N.of_nat (size (sessions e)) < CONTROL_SESSIONS_MAX →
  (generation_watermarks e !! i = None →
   N.of_nat (size (generation_watermarks e)) < CONTROL_INSTANCE_IDENTITIES_MAX) →
  command_ok i
    (modify_state (λ e, e <| sessions ::=
       <[i := registered_state i agent_id transport g]> |>) ;;
     set_watermark i g ;;
     bump_revision ;;
     emit_event (Some c) i g Ev_Registered) e.
Proof.
  intros Hno Hg Hlife Hsize Hids. apply wp_bind, wp_modify, wp_bind, wp_modify, wp_bind, wp_bump.
  intros e1 [A1 A2 A3 A4 A5] Aev. apply wp_emit. intros e2 [B1 B2 B3 B4 B5] Blog Herr.
  destruct (Blog Herr) as [n Hev]. cbn in *. destruct Hc as [C1 C2 C3 C4 C5].
  assert (Es : sessions e2 = <[i := registered_state i agent_id transport g]> (sessions e))
    by by rewrite B1, A1.
  assert (Ew : generation_watermarks e2 = <[i := g]> (generation_watermarks e)) by by rewrite B2, A2.
  split.
  - intros j Hj. by rewrite Es, Ew, !lookup_insert_ne.
  - unfold life_of. by rewrite Es, Ew, Hno, !lookup_insert_eq.
  - exists [MkControlEvent n (Some c) i g Ev_Registered]. split_and!.
    + by rewrite Hev, Aev.
    + by constructor.
    + unfold open_of. by rewrite Es, Hno, lookup_insert_eq.
  - apply drops_issues, drops_same; congruence.
  - split.
    + intros j st. rewrite Es, Ew, B4, A4. destruct (decide (j = i)) as [->|Hj].
      * rewrite !lookup_insert_eq. intros [= <-]. split; [by apply registered_wf|done].
      * rewrite !lookup_insert_ne by done. apply C1.
    + rewrite Es, map_size_insert, Hno. lia.
    + rewrite Ew, map_size_insert. destruct (generation_watermarks e !! i); [done|].
      specialize (Hids eq_refl). lia.
    + intros j w. rewrite Ew. destruct (decide (j = i)) as [->|Hj].
      * rewrite lookup_insert_eq. by intros [= <-].
      * rewrite lookup_insert_ne by done. apply C4.
    + intros ef. rewrite B3, A3. intros H. destruct (C5 ef H) as (st & H1 & H2 & H3).
      exists st. rewrite Es, B4, A4, lookup_insert_ne; [done|]. intros E. congruence.
Qed.

Lemma register_ok agent_id transport : command_ok i (register c i agent_id transport) e.
Proof.
  unfold command_ok, register. guards; bool_prop.
  all: match goal with
       | H : ¬ is_Some (sessions e !! i) |- _ => apply eq_None_not_Some in H
       end.
  - match goal with H : checked_next_generation _ = _ |- _ =>
      apply checked_next_generation_Some in H as [-> Hg] end.
    apply register_tail; [done|done| |done|by rewrite Heqo].
    rewrite Heqo. constructor.
  - apply register_tail; [done|done| |done|].
    + rewrite Heqo. constructor.
    + intros _. match goal with H : _ ∨ _ |- _ => destruct H as [Hid|Hid] end.
      * apply negb_false_iff, bool_decide_eq_true in Hid. by destruct Hid.
      * by apply N.leb_gt in Hid.
Qed.

Lemma remove_ok : command_ok i (remove c i) e.
Proof.
  unfold command_ok, remove. guards.
  match goal with H : sessions e !! i = Some ?s |- _ => rename H into Hst; rename s into st end.
  match goal with H : negb _ = false |- _ => apply negb_false_iff in H; rename H into Hrm end.
  apply wp_modify, wp_bind, wp_modify, wp_bind, wp_bump.
  intros e1 [A1 A2 A3 A4 A5] Aev. apply wp_emit. intros e2 [B1 B2 B3 B4 B5] Blog Herr.
  destruct (Blog Herr) as [n Hev]. cbn in *.
  assert (Es : sessions e2 = delete i (sessions e)) by by rewrite B1, A1.
  assert (Ew : generation_watermarks e2 = generation_watermarks e) by by rewrite B2, A2.
  destruct (ci_session _ Hc _ _ Hst) as [Hwf _].
  assert (Hcl : open_ids (interactions_of st) = []).
  { apply (sw_closed _ _ _ Hwf). by destruct (status_of st). }
  destruct Hc as [C1 C2 C3 C4 C5]. split.
  - intros j Hj. by rewrite Es, Ew, lookup_delete_ne.
  - unfold life_of. rewrite Es, Ew, Hst, lookup_delete_eq. by constructor.
  - exists [MkControlEvent n (Some c) i (generation_of st) Ev_Removed]. split_and!.
    + by rewrite Hev, Aev.
    + by constructor.
    + unfold open_of. by rewrite Es, Hst, Hcl, lookup_delete_eq.
  - apply drops_issues. split; [congruence|]. eexists. by rewrite B3, A3.
  - split.
    + intros j st'. rewrite Es, Ew, B4, A4. intros [_ H]%lookup_delete_Some. by apply C1.
    + rewrite Es. rewrite map_size_delete, Hst. lia.
    + by rewrite Ew.
    + intros j w. rewrite Ew. apply C4.
    + intros ef. rewrite B3, A3, elem_of_retain. intros [H Hi].
      apply negb_true_iff, bool_decide_eq_false in Hi.
      destruct (C5 ef H) as (st' & X1 & X2 & X3). exists st'.
      by rewrite Es, B4, A4, lookup_delete_ne.
Qed.
End commands3.
