(* ===== verification/EngineIngestFacts.v ===== *)
(** * Provider events keep the invariant

    The reductions of a provider's events run inside the engine: batches, the
    refusals that still advance a source's cursor, single observed events. *)

From S2P Require Import Prelude RustStr Ids Input SessionTypes RecordTypes ProviderTypes.
From S2P Require Import Control EngineReduce ReduceFacts EngineState EngineCommands.
From S2P Require Import EngineCounters EngineInv EngineCommandFacts.

Local Open Scope N_scope.

(** ** The log of a reduction *)

(** [evs] were logged between two quiet states. *)
Definition logs (i : AgentInstanceId) (ts : list ProviderInteractionTransition)
    (e e' : Gate4AgentEngine) : Prop :=
  quiet e e'
  ∧ (counter_error e' = None →
     ∃ evs, events e' = events e ++ evs ∧ Forall (λ ev, ev_instance_id ev = i) evs
       ∧ reported evs = ts).

Lemma quiet_trans e1 e2 e3 : quiet e1 e2 → quiet e2 e3 → quiet e1 e3.
Proof. intros [] []. split; [congruence..|auto]. Qed.

Lemma logs_trans i ts1 ts2 e1 e2 e3 :
  logs i ts1 e1 e2 → logs i ts2 e2 e3 → logs i (ts1 ++ ts2) e1 e3.
Proof.
  intros [Q1 H1] [Q2 H2]. split; [by eapply quiet_trans|]. intros He.
  destruct (H2 He) as (evs2 & E2 & F2 & R2). destruct (H1 (q_error _ _ Q2 He)) as (evs1 & E1 & F1 & R1).
  exists (evs1 ++ evs2). split_and!.
  - by rewrite E2, E1, app_assoc.
  - by apply Forall_app.
  - unfold reported in *. by rewrite omap_app, R1, R2.
Qed.

Lemma logs_refl i e : logs i [] e e.
Proof. split; [done|]. intros _. exists []. by rewrite app_nil_r. Qed.

Lemma wp_bump_logs i F Q e :
  (∀ e', logs i [] e e' → Q tt e') → wp bump_revision Q F e.
Proof.
  intros H. apply wp_bump. intros e' Hq Hev. apply H. split; [done|]. intros _. exists [].
  by rewrite Hev, app_nil_r.
Qed.

Lemma wp_emit_logs c i g k F Q e :
  (∀ e', logs i (option_list (reported_transition (MkControlEvent 0 c i g k))) e e' → Q tt e') →
  wp (emit_event c i g k) Q F e.
Proof.
  intros H. apply wp_emit. intros e' Hq Hlog. apply H. split; [done|]. intros He.
  destruct (Hlog He) as [n Hn]. exists [MkControlEvent n c i g k]. split_and!; [done|by constructor|].
  unfold reported. cbn. unfold reported_transition. by destruct k.
Qed.

Lemma wp_emit_silent c i g k F Q e :
  silent k → (∀ e', logs i [] e e' → Q tt e') → wp (emit_event c i g k) Q F e.
Proof.
  intros Hk H. apply wp_emit_logs. intros e' Hl. apply H.
  unfold reported_transition in Hl. by destruct k.
Qed.

Lemma wp_emit_transitions c i g ts F Q : ∀ e,
  (∀ e', logs i ts e e' → Q tt e') → wp (emit_interaction_transitions c i g ts) Q F e.
Proof.
  induction ts as [|t ts IH]; intros e H; cbn [emit_interaction_transitions].
  { apply H, logs_refl. }
  apply wp_bind, wp_emit_logs. intros e1 H1. apply IH. intros e2 H2. apply H.
  change (t :: ts) with ([t] ++ ts). eapply logs_trans; [|exact H2].
  by destruct t.
Qed.

(** ** Sessions after a reduction *)

(** [st'] differs from [st] in its provider, and perhaps in the operation a
    running session gave up. *)
Record provider_changed (st st' : SessionState) : Prop := {
  pc_id : ss_instance_id (st_snapshot st') = ss_instance_id (st_snapshot st);
  pc_generation : generation_of st' = generation_of st;
  pc_status : status_of st' = status_of st;
  pc_pending : pending_of st' = pending_of st
               ∨ pending_of st' = None ∧ status_of st = Running;
  pc_input : ss_pending_input (st_snapshot st') = ss_pending_input (st_snapshot st);
  pc_resume : ss_resume (st_snapshot st') = ss_resume (st_snapshot st);
  pc_identity : st_pending_resume_identity st' = st_pending_resume_identity st;
  pc_capabilities : ss_capabilities (st_snapshot st') = ss_capabilities (st_snapshot st);
  pc_history : ss_history (st_snapshot st') = ss_history (st_snapshot st);
  pc_policy : st_runtime_policy st' = st_runtime_policy st
}.

Lemma provider_changed_wf n i st st' :
  provider_changed st st' → session_wf n i st → is_active (status_of st) = true →
  provider_wf (ss_provider (st_snapshot st')) →
  resolving (interactions_of st') ⊆ resolving (interactions_of st) →
  session_wf n i st'.
Proof.
  intros [Eid Eg Es Eop Ein Er Ei Ec Eh _] Hwf Hact Hp Hr.
  pose proof (running_no_resume _ _ _ Hwf) as Hrun. open_wf Hwf.
  assert (Hin : is_inactive (status_of st) = false) by (by destruct (status_of st)).
  split; rewrite ?Eid, ?Eg, ?Es, ?Ein, ?Ec, ?Eh, ?Hin; try done.
  - intros op. destruct Eop as [->|[-> _]]; [apply Wop|done].
  - intros H. destruct Eop as [->|[_ E]]; [by apply Wbusy|]. rewrite E in H. by destruct H.
  - intros p. rewrite Er, Ei, Es. intros H. specialize (Wres p H).
    destruct Eop as [->|[_ E]]; [done|]. by rewrite (Hrun E) in H.
  - intros H. rewrite (Wstarting H) in Hr. destruct (resolving (interactions_of st')) as [|op l];
      [done|]. by specialize (Hr op ltac:(by left)) as []%elem_of_nil.
  - intros op H. by apply Wresolving, Hr.
  - intros H op Hop. destruct Eop as [->|[-> _]]; [|done]. by apply Wstopping, Hr.
Qed.

Lemma pending_resolution_Some s op k :
  pending_interaction_resolution s = Some (op, k) →
  ss_pending_operation s = Some op ∧ op ∈ resolving (ps_interactions (ss_provider s)).
Proof.
  unfold pending_interaction_resolution. destruct (ss_pending_operation s) as [op'|]; [|done].
  cbn [mbind option_bind]. unfold resolving.
  induction (ps_interactions (ss_provider s)) as [|x l IH]; [done|].
  cbn [find_map omap list_omap]. unfold resolving_operation at 1.
  destruct (pi_status x) as [|op0 k0|]; cbn; [by apply IH| |by apply IH].
  case_bool_decide as E.
  - intros [= <- <-]. split; [done|]. rewrite E. by left.
  - intros H. destruct (IH H) as [H1 H2]. split; [done|]. by right.
Qed.

(** ** What an event does to the engine *)

(** Instance [i] goes from [st] to a session whose provider moved by [n]. *)
Record ingested (i : AgentInstanceId) (st : SessionState) (n : N) (src : ProviderSource)
    (cursor : N) (e e' : Gate4AgentEngine) : Prop := {
  in_session : ∃ st', sessions e' !! i = Some st' ∧ provider_changed st st'
    ∧ ps_sequence (ss_provider (st_snapshot st')) = ps_sequence (ss_provider (st_snapshot st)) + n
    ∧ (∀ src', provider_source_sequence (ss_provider (st_snapshot st')) src'
               = if bool_decide (src = src') then cursor
                 else provider_source_sequence (ss_provider (st_snapshot st)) src');
  in_core : core_inv e';
  in_drops : drops e e';
  in_error : counter_error e' = None → counter_error e = None;
  in_commit : counter_error e' = None → commit i e e' ∧ life_of e' i = life_of e i
}.

Lemma ingested_trans i st st1 n1 n2 src c1 c2 e e1 e2 :
  sessions e1 !! i = Some st1 →
  ingested i st n1 src c1 e e1 → ingested i st1 n2 src c2 e1 e2 →
  ingested i st (n1 + n2) src c2 e e2.
Proof.
  intros Hst1 [(st1' & S1 & P1 & N1 & K1) C1 O1 X1 M1] [(st2 & S2 & P2 & N2 & K2) C2 O2 X2 M2].
  simplify_eq. split; [|done|by eapply drops_trans|auto|].
  - exists st2. split_and!; [done| |lia|].
    + destruct P1, P2. split; try congruence.
      destruct pc_pending1 as [->|[-> H]]; [done|right; split; [done|congruence]].
    + intros src'. rewrite K2, K1. by case_bool_decide.
  - intros He. destruct (M2 He) as [A B]. destruct (M1 (X2 He)) as [A' B'].
    split; [by eapply (commit_trans i e e1 e2)|congruence].
Qed.

Lemma logs_ingested i st st' n src cursor ts p e e' :
  core_inv e → sessions e !! i = Some st → is_active (status_of st) = true →
  provider_changed st st' → provider_wf (ss_provider (st_snapshot st')) →
  resolving (interactions_of st') ⊆ resolving (interactions_of st) →
  replay (open_ids (interactions_of st)) ts = Some (open_ids (interactions_of st')) →
  ps_sequence (ss_provider (st_snapshot st')) = ps_sequence (ss_provider (st_snapshot st)) + n →
  (∀ src', provider_source_sequence (ss_provider (st_snapshot st')) src'
           = if bool_decide (src = src') then cursor
             else provider_source_sequence (ss_provider (st_snapshot st)) src') →
  logs i ts (e <| sessions ::= <[i := st']> |> <| effects ::= retain p |>) e' →
  ingested i st n src cursor e e'.
Proof.
  intros Hc Hst Hact Hch Hp Hr Hrep Hn Hk [[Q1 Q2 Q3 Q4 Q5] Hlog].
  cbn in Q1, Q2, Q3, Q4, Q5, Hlog.
  destruct (ci_session _ Hc _ _ Hst) as [Hwf Hw].
  assert (Hwf' : session_wf (next_raw (next_operation_id e')) i st').
  { rewrite Q4. by eapply provider_changed_wf. }
  assert (Es : sessions e' = <[i:=st']> (sessions e)) by exact Q1.
  assert (Ew : generation_watermarks e' = <[i:=generation_of st']> (generation_watermarks e)).
  { rewrite (pc_generation _ _ Hch), Q2. by apply watermark_same. }
  assert (Hd : drops e e') by (split; [done|by exists p]).
  assert (Hg : generation_raw (generation_of st) <= generation_raw (generation_of st'))
    by by rewrite (pc_generation _ _ Hch).
  split.
  - exists st'. by rewrite Es, lookup_insert_eq.
  - eapply (core_update i e e' st st'); auto. by apply drops_issues.
  - done.
  - intros He. by apply Q5 in He.
  - intros He. destruct (Hlog He) as (evs & E & F & R). split.
    + eapply (commit_update i e e' st st' evs); auto; [by apply drops_issues| |by rewrite R].
      rewrite (pc_generation _ _ Hch), (pc_status _ _ Hch). constructor.
    + unfold life_of. rewrite Es, Ew, Hst, Hw, !lookup_insert_eq. cbn.
      by rewrite (pc_generation _ _ Hch), (pc_status _ _ Hch).
Qed.

(** ** The steps of the code *)

Lemma effects_retain_all e : e <| effects ::= retain (λ _, true) |> = e.
Proof.
  transitivity (e <| effects := retain (λ _, true) (effects e) |>); [done|].
  rewrite retain_all. by destruct e.
Qed.

(** [apply_provider_gap] followed by a bump and a silent event. *)
Lemma wp_gap_step i st src n missed k g c (F : ControlError → Gate4AgentEngine → Prop) Q e :
  core_inv e → sessions e !! i = Some st → is_active (status_of st) = true →
  ps_sequence (ss_provider (st_snapshot st)) < U64_MAX → (∀ m, silent (k m)) →
  (∀ e', ingested i st 1 src n e e' → Q tt e') →
  wp (canonical_sequence ← apply_provider_gap i src n missed;
      bump_revision ;;
      emit_event c i g (k canonical_sequence)) Q F e.
Proof.
  intros Hc Hst Hact Hseq Hk HQ. destruct (ci_session _ Hc _ _ Hst) as [Hwf _].
  apply wp_bind, wp_bind, (wp_get_session _ _ st); [done|]. apply wp_bind.
  apply wp_expect; [by apply reduce_provider_gap_total|]. intros [p m] Hred.
  destruct (reduce_provider_gap_spec _ _ _ _ _ _ (sw_provider _ _ _ Hwf) Hred)
    as (Hp & -> & Hs & Hi & Hcur & _ & _ & _).
  apply wp_bind, (wp_update_state _ _ _ st); [done|]. apply wp_ret.
  apply wp_bind, (wp_bump_logs i). intros e1 H1. apply wp_emit_silent; [done|]. intros e2 H2.
  apply HQ. eapply (logs_ingested i st (st <| st_snapshot ::= λ s, s <| ss_provider := p |> |>)
    1 src n [] (λ _, true)); try done.
  - by constructor; try by left.
  - cbn. by rewrite Hi.
  - cbn. by rewrite Hi.
  - rewrite effects_retain_all. by eapply (logs_trans _ [] []).
Qed.

Lemma wp_provider_event i st src n ev c (F : ControlError → Gate4AgentEngine → Prop) Q e :
  core_inv e → sessions e !! i = Some st → is_active (status_of st) = true →
  ps_sequence (ss_provider (st_snapshot st)) < U64_MAX →
  (∀ e', ingested i st 1 src n e e' → Q tt e') →
  wp (apply_provider_event c i (generation_of st) src n ev) Q F e.
Proof.
  intros Hc Hst Hact Hseq HQ. destruct (ci_session _ Hc _ _ Hst) as [Hwf _].
  apply wp_bind, (wp_get_session _ _ st); [done|]. apply wp_bind.
  apply wp_expect; [by apply reduce_provider_event_total|]. intros [p red] Hred.
  destruct (reduce_provider_event_spec _ _ _ _ _ _ (sw_provider _ _ _ Hwf) Hred)
    as (Hp & Hs & Hrs & [_ Hrep _ Hres] & Hcur).
  set (reduced := st_snapshot st <| ss_provider := p |>).
  set (sup := superseded_resolution (pending_interaction_resolution (st_snapshot st)) reduced).
  assert (Hsup : ∀ op k, sup = Some (op, k) → status_of st = Running).
  { intros op k. unfold sup, superseded_resolution.
    destruct (pending_interaction_resolution _) as [[op' k']|] eqn:Epr; [|done].
    destruct (pending_resolution_Some _ _ _ Epr) as [E1 E2]. intros _. open_wf Hwf.
    destruct (status_of st); try done.
    - rewrite Wstarting in E2 by done. by apply elem_of_nil in E2.
    - by destruct (Wstopping eq_refl _ E2). }
  cbn zeta. fold reduced. fold sup. clearbody sup.
  apply wp_bind, (wp_update_state _ _ _ st); [done|].
  set (st' := st <| st_snapshot := _ |>).
  assert (Hch : provider_changed st st').
  { unfold st'. destruct sup as [[op k]|] eqn:E.
    - pose proof (Hsup _ _ eq_refl). constructor; try done. by right.
    - constructor; try done. by left. }
  assert (Hprov : ss_provider (st_snapshot st') = p) by (unfold st'; by destruct sup).
  assert (Hdone : ∀ q e', logs i (red_interaction_transitions red)
            (e <| sessions ::= <[i := st']> |> <| effects ::= retain q |>) e' → Q tt e').
  { intros q e' Hl. apply HQ. eapply (logs_ingested i st st'); try done; rewrite Hprov; done. }
  assert (Htail : ∀ e1 q, e1 = e <| sessions ::= <[i := st']> |> <| effects ::= retain q |> →
    wp (bump_revision ;;
        emit_event c i (generation_of st) (Ev_ProviderEvent (red_sequence red) src n ev) ;;
        emit_interaction_transitions c i (generation_of st) (red_interaction_transitions red))
      Q F e1).
  { intros e1 q ->. apply wp_bind, (wp_bump_logs i). intros e2 H2.
    apply wp_bind, wp_emit_silent; [done|]. intros e3 H3. apply wp_emit_transitions. intros e4 H4.
    apply (Hdone q). change (red_interaction_transitions red)
      with ([] ++ ([] ++ red_interaction_transitions red)).
    eapply logs_trans; [exact H2|]. by eapply logs_trans. }
  apply wp_bind. destruct sup as [[op k]|].
  - apply wp_modify. by eapply Htail.
  - apply wp_ret. eapply (Htail _ (λ _, true)). by rewrite effects_retain_all.
Qed.

(** A batch. *)
Lemma wp_provider_events i src n c (F : ControlError → Gate4AgentEngine → Prop) evs :
  ∀ st Q e, core_inv e → sessions e !! i = Some st → is_active (status_of st) = true →
  ps_sequence (ss_provider (st_snapshot st)) + len evs <= U64_MAX → evs ≠ [] →
  (∀ e', ingested i st (len evs) src n e e' → Q tt e') →
  wp (apply_provider_events c i (generation_of st) src n evs) Q F e.
Proof.
  induction evs as [|ev evs IH]; intros st Q e Hc Hst Hact Hseq Hne HQ; [done|].
  rewrite len_cons in Hseq. cbn [apply_provider_events]. apply wp_bind.
  apply wp_provider_event; [done|done|done|lia|]. intros e1 H1.
  destruct evs as [|ev' evs].
  { apply wp_ret, HQ. exact H1. }
  destruct (in_session _ _ _ _ _ _ _ H1) as (st1 & Hst1 & Hch & Hs1 & _).
  rewrite <- (pc_generation _ _ Hch). apply IH; [by apply H1|done| |by rewrite Hs1; lia|done|].
  - by rewrite (pc_status _ _ Hch).
  - intros e2 H2. apply HQ. rewrite len_cons, N.add_comm.
    by eapply ingested_trans.
Qed.

(** ** The ingestion command *)

(** The sequence numbers a batch skipped. *)
Definition missed_before (st : SessionState) (src : ProviderSource) (n : N) : N :=
  n - provider_source_sequence (ss_provider (st_snapshot st)) src - 1.

(** The outcome of a batch: admitted, refused by policy with the cursor moved
    over it, or rejected with nothing changed. *)
Definition batch_admitted i src n evs (e e' : Gate4AgentEngine) : Prop :=
  ∃ st, sessions e !! i = Some st
    ∧ batch_denied_capability (st_runtime_policy st) (missed_before st src n) evs = None
    ∧ ingested i st (len evs + if 0 <? missed_before st src n then 1 else 0) src n e e'.

Definition batch_refused i src n evs (err : ControlError) (e e' : Gate4AgentEngine) : Prop :=
  ∃ st capability, sessions e !! i = Some st
    ∧ batch_denied_capability (st_runtime_policy st) (missed_before st src n) evs
      = Some capability
    ∧ err = ProviderRuntimePolicyDenied capability
    ∧ ingested i st 1 src n e e'.

Lemma missed_difference n cur :
  cur < n → (difference ← checked_sub n cur; checked_sub difference 1) = Some (n - cur - 1).
Proof.
  intros H. unfold checked_sub. replace (cur <=? n) with true by (symmetry; apply N.leb_le; lia).
  cbn. by replace (1 <=? n - cur) with true by (symmetry; apply N.leb_le; lia).
Qed.

(** The steps of an admitted batch: the gap before it, if any, and its events. *)
Lemma wp_admitted_batch c i st src n evs (F : ControlError → Gate4AgentEngine → Prop) e :
  let missed := missed_before st src n in
  core_inv e → sessions e !! i = Some st → is_active (status_of st) = true → evs ≠ [] →
  batch_denied_capability (st_runtime_policy st) missed evs = None →
  ps_sequence (ss_provider (st_snapshot st)) + (len evs + if 0 <? missed then 1 else 0)
    <= U64_MAX →
  wp ((if 0 <? missed then
         canonical_sequence ← apply_provider_gap i src (n - 1) missed;
         bump_revision ;;
         emit_event c i (generation_of st) (Ev_ProviderGap canonical_sequence src (n - 1) missed)
       else mret tt) ;;
      apply_provider_events c i (generation_of st) src n evs)
     (λ _ e', batch_admitted i src n evs e e') F e.
Proof.
  intros missed Hc Hst Hact Hev Hden Hseq. subst missed. apply wp_bind.
  destruct (0 <? missed_before st src n) eqn:Hm.
  - apply (wp_gap_step i st src (n - 1) _ (λ m, Ev_ProviderGap m src (n - 1) _)); try done; [lia|].
    intros e1 X1. destruct (in_session _ _ _ _ _ _ _ X1) as (st1 & Hst1 & Hch & Hs1 & _).
    rewrite <- (pc_generation _ _ Hch).
    eapply wp_provider_events; [by apply X1|done| |rewrite Hs1; lia|done|].
    { by rewrite (pc_status _ _ Hch). }
    intros e2 X2. exists st. rewrite Hm, N.add_comm.
    split_and!; [done|done|by eapply ingested_trans].
  - apply wp_ret. eapply wp_provider_events; [done|done|done|lia|done|].
    intros e2 X2. exists st. rewrite Hm, N.add_0_r. done.
Qed.

Lemma wp_ingest_provider c i g src n evs e :
  core_inv e →
  wp (ingest_provider c i g src n evs)
     (λ _ e', batch_admitted i src n evs e e')
     (λ err e', (e' = e ∧ ∀ capability, err ≠ ProviderRuntimePolicyDenied capability)
        ∨ batch_refused i src n evs err e e') e.
Proof.
  intros Hc. unfold ingest_provider.
  repeat first
    [ apply wp_bind
    | apply wp_fail_when; [left; by split|intros ?]
    | apply wp_lift_result; [left; by split|intros ? ?]
    | apply wp_require_session; [left; by split|intros ? ?] ].
  match goal with H : sessions e !! i = Some ?s |- _ => rename H into Hst; rename s into st end.
  match goal with H : negb (bool_decide (generation_of st = g)) = false |- _ =>
    apply negb_false_iff, bool_decide_eq_true in H; subst g end.
  match goal with H : negb (is_active _) = false |- _ =>
    apply negb_false_iff in H; rename H into Hact end.
  match goal with H : (_ <=? _) = false |- _ => apply N.leb_gt in H; rename H into Hfresh end.
  match goal with H : _ || _ || _ = false |- _ => rename H into Hbatch end.
  apply orb_false_iff in Hbatch as [Hbatch Hlen]. apply orb_false_iff in Hbatch as [_ Hne].
  apply N.eqb_neq in Hne. apply N.ltb_ge in Hlen.
  pose proof (missed_difference n _ Hfresh) as Hsub.
  apply wp_expect; [by rewrite Hsub|]. intros missed. rewrite Hsub. intros [= <-].
  fold (missed_before st src n).
  destruct (batch_denied_capability _ _ _) as [capability|] eqn:Hden.
  - apply wp_bind, wp_fail_when; [left; by split|]. intros Hseq.
    apply bool_decide_eq_false in Hseq.
    assert (Hs1 : ps_sequence (ss_provider (st_snapshot st)) < U64_MAX).
    { destruct (checked_add _ _) eqn:E; [|done]. apply checked_add_Some in E as [_ E]. lia. }
    apply wp_bind. unfold refuse_provider_events.
    apply (wp_gap_step i st src n _ (λ m, Ev_ProviderEvent m src n _)); try done.
    intros e' Hin. apply wp_throw. right. by exists st, capability.
  - apply wp_bind, wp_fail_when; [left; by split|]. intros Hseq. apply bool_decide_eq_false in Hseq.
    destruct (checked_add _ _) as [m|] eqn:E; [|done]. apply checked_add_Some in E as [_ E].
    apply wp_admitted_batch; try done. by intros ->.
Qed.
