(* ===== verification/EngineObserveFacts.v ===== *)
(** * Observations keep the invariant

    Every observation, run on the engine's own state, commits: it changes one
    session by a legal step of its life, or only logs that it was ignored. *)

From S2P Require Import Prelude RustStr Ids Input SessionTypes RecordTypes ProviderTypes.
From S2P Require Import Control EngineReduce ReduceFacts EngineState EngineCommands.
From S2P Require Import EngineObserve EngineCounters EngineInv EngineCommandFacts.
From S2P Require Import EngineIngestFacts.

Local Open Scope N_scope.

(** An observation of instance [i] on [e]: it never fails, and it commits
    unless a counter ran out. *)
Definition observation_ok (i : AgentInstanceId) (m : EngineM unit) (e : Gate4AgentEngine) : Prop :=
  wp m (λ _ e', counter_error e' = None → commit i e e') (λ _ _, False) e.

(** ** Settling a session *)

(** [st'] is a legal successor of [st] whose interactions [ts] reports. *)
Record settles (i : AgentInstanceId) (n : N) (st st' : SessionState)
    (ts : list ProviderInteractionTransition) : Prop := {
  so_wf : session_wf n i st';
  so_generation : generation_of st' = generation_of st;
  so_life : life_step (Some (generation_of st, status_of st), Some (generation_of st))
                      (Some (generation_of st, status_of st'), Some (generation_of st));
  so_replay : replay (open_ids (interactions_of st)) ts = Some (open_ids (interactions_of st'))
}.

Lemma logs_settled i st st' ts p e e' :
  core_inv e → sessions e !! i = Some st →
  settles i (next_raw (next_operation_id e)) st st' ts →
  logs i ts (e <| sessions ::= <[i := st']> |> <| effects ::= retain p |>) e' →
  counter_error e' = None → commit i e e'.
Proof.
  intros Hc Hst [Hwf Hg Hlife Hrep] [[Q1 Q2 Q3 Q4 Q5] Hlog] He.
  cbn in Q1, Q2, Q3, Q4, Q5, Hlog. destruct (Hlog He) as (evs & E & F & R).
  eapply (commit_update i e e' st st' evs); try done.
  - by rewrite Q2, Hg; apply watermark_same.
  - by rewrite Hg.
  - by rewrite Q4.
  - apply drops_issues. split; [done|by exists p].
  - by rewrite Hg.
  - by rewrite R.
Qed.

Lemma aside_settles i n st st' :
  aside st st' → session_wf n i st' → settles i n st st' [].
Proof.
  intros Ha Hwf. split; [done|apply Ha| |by rewrite (as_provider _ _ Ha)].
  rewrite (as_status _ _ Ha). constructor.
Qed.

Section observe.
Context (i : AgentInstanceId) (e : Gate4AgentEngine) (st : SessionState).
Context (Hc : core_inv e) (Hst : sessions e !! i = Some st).
Let n := next_raw (next_operation_id e).

Lemma session_is_wf : session_wf n i st.
Proof. by apply (ci_session _ Hc). Qed.

Lemma ignored_ok j g r : j = i → observation_ok i (emit_ignored j g r) e.
Proof.
  intros ->. apply wp_emit_silent; [done|]. intros e' [Hq Hlog] He.
  destruct (Hlog He) as (evs & E & F & R). by eapply commit_quiet.
Qed.

(** The transition an event of kind [k] reports. *)
Definition reported_by (k : ControlEventKind) : list ProviderInteractionTransition :=
  option_list (reported_transition (MkControlEvent 0 None i generation_default k)).

Lemma silent_reported_by k : silent k → reported_by k = [].
Proof. unfold reported_by, reported_transition. by destruct k. Qed.

Lemma settle_reporting f g k :
  settles i n st (f st) (reported_by k) →
  observation_ok i (update_state i f ;; bump_revision ;; emit_event None i g k) e.
Proof.
  intros Hs. apply wp_bind, (wp_update_state _ _ _ st); [done|].
  apply wp_bind, (wp_bump_logs i). intros e1 H1. apply wp_emit_logs. intros e2 H2.
  apply (logs_settled i st (f st) (reported_by k) (λ _, true)); [done|done|done|].
  rewrite effects_retain_all. by eapply (logs_trans _ [] _).
Qed.

Lemma settle_ok f g k :
  settles i n st (f st) [] → silent k →
  observation_ok i (update_state i f ;; bump_revision ;; emit_event None i g k) e.
Proof. intros Hs Hk. apply settle_reporting. by rewrite silent_reported_by. Qed.

Lemma settle_quietly_ok f :
  settles i n st (f st) [] → observation_ok i (update_state i f ;; bump_revision) e.
Proof.
  intros Hs. apply wp_bind, (wp_update_state _ _ _ st); [done|].
  apply (wp_bump_logs i). intros e1 H1.
  apply (logs_settled i st (f st) [] (λ _, true)); [done|done|done|].
  by rewrite effects_retain_all.
Qed.

(** *** Capabilities, history, terminal *)

Lemma observe_capability_ok g o :
  is_Some (cap_pending (ss_capabilities (st_snapshot st))) →
  observation_ok i (observe_capability i g (st_snapshot st) o) e.
Proof.
  intros Hp. pose proof session_is_wf as Hwf. apply wp_bind, wp_expect; [done|]. intros pend _.
  assert (Hok : ∀ models failure k, silent k → observation_ok i
    (session_mut i (λ s, s <| ss_capabilities ::= λ c, c
       <| cap_pending := None |> <| cap_settled := true |>
       <| cap_session_option_models := models |> <| cap_last_failure := failure |> |>) ;;
     bump_revision ;;
     emit_event None i (ss_generation (st_snapshot st)) k) e).
  { intros models failure k Hk. apply settle_ok; [|done]. apply aside_settles; [done|].
    apply (aside_wf _ _ st); [done|done| |done]. intros p H. by left. }
  destruct o; try (by apply ignored_ok); [|by apply Hok].
  destruct (is_ok _); [by apply Hok|by apply ignored_ok].
Qed.

Lemma observe_history_ok g o :
  is_Some (hist_pending (ss_history (st_snapshot st))) →
  observation_ok i (observe_history i g (st_snapshot st) o) e.
Proof.
  intros Hp. pose proof session_is_wf as Hwf. apply wp_bind, wp_expect; [done|]. intros pend _.
  assert (Hok : ∀ (f : HistorySnapshot → HistorySnapshot) k,
    (∀ h, hist_pending (f h) = hist_pending h) → silent k → observation_ok i
    (session_mut i (λ s, s <| ss_history ::= λ h, f (h <| hist_pending := None |>) |>) ;;
     bump_revision ;; emit_event None i g k) e).
  { intros f k Hf Hk. apply settle_ok; [|done]. apply aside_settles; [done|].
    apply (aside_wf _ _ st); [done|done| |intros p H; by left].
    intros p H. cbn in H. by rewrite Hf in H. }
  destruct o; try (by apply ignored_ok); destruct (pho_operation pend);
    try (by apply ignored_ok);
    match goal with |- context [if ?b then _ else _] => destruct b end;
    first [by apply ignored_ok | by apply Hok].
Qed.

Lemma observe_terminal_frame_ok g frame :
  observation_ok i (observe_terminal_frame i g (st_snapshot st) frame) e.
Proof.
  pose proof session_is_wf as Hwf. unfold observe_terminal_frame.
  match goal with |- context [if ?b then _ else _] => destruct b end; [by apply ignored_ok|].
  apply settle_quietly_ok. apply aside_settles; [done|].
  apply (aside_wf _ _ st); [done|done| |]; by left.
Qed.

Lemma observe_terminal_stale_ok g m : observation_ok i (observe_terminal_stale i g m) e.
Proof.
  pose proof session_is_wf as Hwf. apply settle_ok; [|done]. apply aside_settles; [done|].
  apply (aside_wf _ _ st); [done|done| |]; by left.
Qed.

Lemma observe_screen_state_ok s : observation_ok i (observe_screen_state i s) e.
Proof.
  pose proof session_is_wf as Hwf. apply settle_quietly_ok. apply aside_settles; [done|].
  apply (aside_wf _ _ st); [done|done| |]; by left.
Qed.

(** *** Resume authority *)

Lemma refused_ok m g k : is_inactive (status_of st) = true → silent k →
  observation_ok i (update_state i (refused_state m) ;; bump_revision ;; emit_event None i g k) e.
Proof.
  intros Hin Hk. pose proof session_is_wf as Hwf. apply settle_ok; [|done].
  open_wf Hwf. split; [|done|constructor|done].
  split; cbn; try done; try (by intros _ []).
  by destruct (status_of st); intros [].
Qed.

Lemma observe_resume_authority_ok g o :
  observation_ok i (observe_resume_authority i g st o) e.
Proof.
  pose proof session_is_wf as Hwf. unfold observe_resume_authority. cbn zeta.
  destruct (rs_pending _) as [p|] eqn:Ep; [|by apply ignored_ok].
  destruct (negb _) eqn:Hph; [by apply ignored_ok|].
  apply negb_false_iff, bool_decide_eq_true in Hph.
  pose proof (sw_resume _ _ _ Hwf p Ep) as Hres. rewrite Hph in Hres. destruct Hres as [Hin Hpend].
  destruct o; try (by apply ignored_ok).
  - destruct (is_ok _ && _); [|by apply ignored_ok]. apply wp_bind, wp_get.
    destruct (checked_next_generation _) as [g'|] eqn:Hg; [|by apply ignored_ok].
    rewrite (generation_watermark_same e i st Hc Hst) in Hg.
    apply checked_next_generation_Some in Hg as [-> Hg].
    apply wp_bind, (wp_update_state _ _ _ st); [done|].
    apply wp_bind, wp_modify, wp_bind, wp_modify, wp_bind, wp_bump.
    intros e1 [A1 A2 A3 A4 A5] Aev. apply wp_emit. intros e2 [B1 B2 B3 B4 B5] Blog He.
    destruct (Blog He) as [k Hev]. cbn in *.
    eapply (commit_launch i e e2 st
              (authorized_state p provider_session (next_generation (generation_of st)) st)
              (pro_operation_id p) _ (Ev_ResumeAuthorized _) k _ _ (λ _, true)); try done.
    + split; try done. intros p' [= <-]. by split_and!.
    + rewrite B4, A4. by apply (sw_operation _ _ _ Hwf).
    + by rewrite B4, A4.
    + by rewrite B1, A1.
    + by rewrite B2, A2.
    + by rewrite B3, A3, retain_all.
    + by rewrite Hev, Aev.
  - destruct (is_ok _); [by apply refused_ok|by apply ignored_ok].
  - destruct (is_ok _); [by apply refused_ok|by apply ignored_ok].
Qed.

(** *** Interaction resolution *)

Lemma refreshed_wf p l a :
  provider_wf p → interactions_wf l (ps_sequence p) →
  provider_wf (refresh_provider_activity (p <| ps_interactions := l |> <| ps_lead_activity := a |>)).
Proof.
  intros [H1 [R1 R2 R3] H3 H4 H5 H6] Hl. split; try done.
  rewrite refresh_activity_derived. done.
Qed.

Lemma observe_interaction_resolution_ok g op o :
  status_of st = Running → is_Some op →
  observation_ok i (observe_interaction_resolution i g op (st_snapshot st) o) e.
Proof.
  intros Hrun Hop. pose proof session_is_wf as Hwf.
  pose proof (sw_provider _ _ _ Hwf) as Hp. pose proof (pw_interactions _ Hp) as Hi.
  apply wp_bind, wp_expect; [done|]. intros op1 _. cbn zeta.
  match goal with |- context [match ?r with Some _ => _ | None => _ end] =>
    destruct r as [[k failure]|]; [|by apply ignored_ok] end.
  destruct (List.find _ _) as [it|] eqn:Hfind; [|by apply ignored_ok].
  destruct (pi_status it) as [|op0 kind|] eqn:Hit; try (by apply ignored_ok).
  destruct (negb _); [by apply ignored_ok|].
  assert (Hopen : interaction_is_unresolved it = true)
    by (unfold interaction_is_unresolved; by rewrite Hit).
  assert (Hsettle : ∀ s p' ts,
    (∃ l1 l2 a, interactions_of st = l1 ++ it :: l2
      ∧ p' = refresh_provider_activity (ss_provider (st_snapshot st)
               <| ps_interactions := l1 ++ (it <| pi_status := s |>) :: l2 |>
               <| ps_lead_activity := a |>)) →
    (∀ op k, s ≠ InteractionResolving op k) →
    replay (open_ids (interactions_of st)) ts = Some (open_ids (ps_interactions p')) →
    settles i n st (st <| st_snapshot ::= λ s, s
      <| ss_pending_operation := None |> <| ss_provider := p' |> |>) ts).
  { intros s p' ts (l1 & l2 & a & El & ->) Hs Hrep.
    split; [|done|constructor|done]. apply (provider_changed_wf _ _ st).
    - constructor; try done. by right.
    - done.
    - by rewrite Hrun.
    - apply refreshed_wf; [done|]. apply interactions_wf_status. by rewrite <- El.
    - rewrite El. intros op' [H|[k' ->]]%status_resolving; [done|by destruct (Hs op' k')]. }
  destruct failure as [m|]; cbn [from_option].
  - destruct (set_interaction_status_find k InteractionPending _ _ Hfind) as (l1 & l2 & El & Hk & Hset).
    unfold resolution_failed. rewrite Hset. apply wp_bind, wp_ret.
    apply settle_ok; [|done]. eapply Hsettle; [by exists l1, l2, WaitingForInput|done|].
    cbn. rewrite El. f_equal. symmetry. by apply status_open_ids.
  - destruct (set_interaction_status_find k (InteractionResolvedAs (interaction_response_outcome kind))
                _ _ Hfind) as (l1 & l2 & El & Hk & Hset).
    unfold resolution_completed. rewrite Hset. apply wp_bind, wp_ret.
    apply settle_reporting. eapply Hsettle; [by eexists l1, l2, _|done|].
    cbn. rewrite El, <- Hk. apply status_resolved_replay; [|done]. rewrite <- El. apply Hi.
Qed.

(** *** Provider streams *)

Lemma set_counter_error_ok err : observation_ok i (set_counter_error err) e.
Proof. intros He. by cbn in He. Qed.

Lemma ingested_commit m src k e' :
  ingested i st m src k e e' → counter_error e' = None → commit i e e'.
Proof. intros H He. by apply (in_commit _ _ _ _ _ _ _ H). Qed.

Lemma provider_room : ps_sequence (ss_provider (st_snapshot st)) =? U64_MAX = false →
  ps_sequence (ss_provider (st_snapshot st)) < U64_MAX.
Proof.
  intros H. apply N.eqb_neq in H.
  pose proof (pw_sequence _ (sw_provider _ _ _ session_is_wf)). lia.
Qed.

Lemma observe_provider_event_ok src k ev :
  is_active (status_of st) = true →
  observation_ok i (observe_provider_event i (generation_of st) st src k ev) e.
Proof.
  intros Hact. unfold observe_provider_event. cbn zeta.
  destruct (_ =? U64_MAX) eqn:Hs; [apply set_counter_error_ok|]. apply provider_room in Hs.
  destruct (_ <=? _); [by apply ignored_ok|].
  destruct (provider_event_denied_capability _ _) as [cap|].
  - apply (wp_gap_step i st src k _ (λ m, Ev_ProviderEvent m src k _)); try done.
    intros e'. apply ingested_commit.
  - apply wp_provider_event; try done. intros e'. apply ingested_commit.
Qed.

Lemma observe_provider_gap_ok g src k missed :
  is_active (status_of st) = true →
  observation_ok i (observe_provider_gap i g (st_snapshot st) src k missed) e.
Proof.
  intros Hact. unfold observe_provider_gap.
  destruct (_ =? U64_MAX) eqn:Hs; [apply set_counter_error_ok|]. apply provider_room in Hs.
  cbn zeta. destruct (_ || _).
  { destruct (checked_add _ _); [by apply ignored_ok|apply set_counter_error_ok]. }
  apply (wp_gap_step i st src k _ (λ m, Ev_ProviderGap m src k _)); try done.
  intros e'. apply ingested_commit.
Qed.

(** *** Lifecycle *)

(** A session whose process ended. *)
Record ended (st' : SessionState) (outcome : ProviderInteractionOutcome) : Prop := {
  en_id : ss_instance_id (st_snapshot st') = ss_instance_id (st_snapshot st);
  en_generation : generation_of st' = generation_of st;
  en_status : is_inactive (status_of st') = true;
  en_pending : pending_of st' = None;
  en_input : ss_pending_input (st_snapshot st') = None;
  en_capabilities : ss_capabilities (st_snapshot st') = ss_capabilities (st_snapshot st);
  en_history : ss_history (st_snapshot st') = ss_history (st_snapshot st);
  en_resume : rs_pending (ss_resume (st_snapshot st')) = None;
  en_provider : ∃ s, ss_provider (st_snapshot st')
    = fst (resolve_all_pending_interactions (ss_provider (st_snapshot st)) outcome)
        <| ps_session := s |>
}.

Lemma resolve_all_wf p o : provider_wf p →
  provider_wf (fst (resolve_all_pending_interactions p o)).
Proof.
  intros Hp. destruct (resolve_all_resolution p (ps_sequence p) (pw_interactions _ Hp) o) as [Hs ->].
  apply provider_wf_interactions; [done|]. apply Hs.
Qed.

Lemma ended_settles st' o :
  ended st' o →
  life_step (Some (generation_of st, status_of st), Some (generation_of st))
            (Some (generation_of st, status_of st'), Some (generation_of st)) →
  settles i n st st' (snd (resolve_all_pending_interactions (ss_provider (st_snapshot st)) o)).
Proof.
  intros [Eid Eg Es Eop Ein Ec Eh Er [sess Ep]] Hlife. pose proof session_is_wf as Hwf.
  open_wf Hwf. pose proof (resolve_all_wf _ o Wprov) as Hp.
  destruct (resolve_all_resolution _ _ (pw_interactions _ Wprov) o) as [[_ Hrep _ Hres] _].
  assert (Hi : interactions_of st'
    = ps_interactions (fst (resolve_all_pending_interactions (ss_provider (st_snapshot st)) o)))
    by by rewrite Ep.
  split; [|done|done|by rewrite Hi].
  split; rewrite ?Eid, ?Eg, ?Eop, ?Ein, ?Ec, ?Eh; try done.
  - rewrite Ep. destruct Hp as [? [] ? ? ? ?]. by split.
  - intros [H|H]; by rewrite H in Es.
  - intros p. by rewrite Er.
  - intros _. rewrite Hi. apply resolve_all_none_open. by apply pw_interactions.
  - intros H. by rewrite H in Es.
  - intros op. rewrite Hi. intros H. by apply Wresolving, Hres.
Qed.

Lemma no_resume_unless_spawning :
  is_inactive (status_of st) = false → is_spawning_resume (st_snapshot st) = false →
  rs_pending (ss_resume (st_snapshot st)) = None.
Proof.
  intros Hin. unfold is_spawning_resume. destruct (rs_pending _) as [p|] eqn:E; [|done].
  pose proof (sw_resume _ _ _ session_is_wf p E) as H.
  destruct (pro_phase p); [|done]. destruct H. congruence.
Qed.

(** Every arm leaves a legal successor, reported by its transitions. *)
Definition lifecycle_ok (r : lifecycle) : Prop :=
  ∃ st' k ts, r = Some (st', k, ts) ∧ silent k ∧ settles i n st st' ts.

Lemma lifecycle_spawned_ok pid :
  status_of st = Starting → lifecycle_ok (lifecycle_spawned st pid).
Proof.
  intros Hst'. pose proof session_is_wf as Hwf. unfold lifecycle_spawned.
  pose proof (no_resume_unless_spawning ltac:(by rewrite Hst')) as Hno.
  unfold lifecycle_ok. destruct (is_spawning_resume _) eqn:Hsp.
  - unfold is_spawning_resume in Hsp. destruct (rs_pending _) as [p|] eqn:Ep; [|done].
    pose proof (sw_resume _ _ _ Hwf p Ep) as Hres. apply bool_decide_eq_true in Hsp.
    rewrite Hsp in Hres. destruct Hres as [_ [identity ->]]. cbn [mbind option_bind].
    eexists _, _, _. split; [done|]. split; [done|]. open_wf Hwf.
    split; [|done|cbn; rewrite Hst'; constructor|done].
    split; cbn; try done.
    + destruct Wprov as [? [] ? ? ? ?]. by split.
    + by intros [].
  - specialize (Hno eq_refl). eexists _, _, _. split; [done|]. split; [done|]. open_wf Hwf.
    split; [|done|cbn; rewrite Hst'; constructor|done].
    split; cbn; try done; [by intros []|].
    intros p. cbn. by rewrite Hno.
Qed.

Lemma lifecycle_spawn_failed_ok m :
  status_of st = Starting → lifecycle_ok (lifecycle_spawn_failed st m).
Proof.
  intros Hst'. pose proof (no_resume_unless_spawning ltac:(by rewrite Hst')) as Hno.
  unfold lifecycle_ok, lifecycle_spawn_failed, end_session.
  pose proof (λ st', ended_settles st' TurnEnded) as Hend.
  destruct (resolve_all_pending_interactions _ _) as [p ts] eqn:E. cbn [snd] in Hend.
  destruct (is_spawning_resume _); eexists _, _, _; (split; [done|]); (split; [done|]);
    (apply Hend; [|cbn; rewrite Hst'; constructor; by left]).
  - split; try done. rewrite E. by exists (st_pending_resume_identity st).
  - specialize (Hno eq_refl). split; try done. rewrite E. exists (ps_session p). by destruct p.
Qed.

Lemma keep_final_frame_same f s :
  ∃ a b c, keep_final_frame f s
    = s <| ss_terminal_size := a |> <| ss_terminal_frame := b |> <| ss_terminal_stale := c |>.
Proof.
  assert (H : ∃ a b c, s
    = s <| ss_terminal_size := a |> <| ss_terminal_frame := b |> <| ss_terminal_stale := c |>).
  { exists (ss_terminal_size s), (ss_terminal_frame s), (ss_terminal_stale s). by destruct s. }
  unfold keep_final_frame. destruct f as [frame|]; [|done].
  destruct (match ss_terminal_frame s with Some _ => _ | None => _ end); [|done].
  by eexists _, _, _.
Qed.

Lemma lifecycle_exited_ok forced code f :
  is_active (status_of st) = true → lifecycle_ok (lifecycle_exited st forced code f).
Proof.
  intros Hact. unfold lifecycle_ok, lifecycle_exited, end_session.
  pose proof (λ st', ended_settles st' TurnEnded) as Hend.
  destruct (resolve_all_pending_interactions _ _) as [p ts] eqn:E. cbn [snd] in Hend.
  eexists _, _, _; (split; [done|]); (split; [done|]). unfold set_field at 1.
  cbn [st_snapshot set_field].
  match goal with |- context [keep_final_frame f ?s] =>
    destruct (keep_final_frame_same f s) as (a & b & c & ->) end.
  apply Hend; [|by constructor]. split; try done. rewrite E. exists (ps_session p). by destruct p.
Qed.

Lemma lifecycle_stop_failed_ok m :
  status_of st = Stopping → lifecycle_ok (lifecycle_stop_failed st m).
Proof.
  intros Hst'. unfold lifecycle_ok, lifecycle_stop_failed, end_session.
  pose proof (λ st', ended_settles st' TurnEnded) as Hend.
  destruct (resolve_all_pending_interactions _ _) as [p ts] eqn:E. cbn [snd] in Hend.
  eexists _, _, _; (split; [done|]); (split; [done|]).
  apply Hend; [|cbn; rewrite Hst'; constructor; by right].
  split; try done. rewrite E. exists (ps_session p). by destruct p.
Qed.

(** A running session whose operation is settled. *)
Lemma running_settles st' ts :
  status_of st = Running → status_of st' = Running →
  ss_instance_id (st_snapshot st') = ss_instance_id (st_snapshot st) →
  generation_of st' = generation_of st → pending_of st' = None →
  ss_resume (st_snapshot st') = ss_resume (st_snapshot st) →
  ss_capabilities (st_snapshot st') = ss_capabilities (st_snapshot st) →
  ss_history (st_snapshot st') = ss_history (st_snapshot st) →
  provider_wf (ss_provider (st_snapshot st')) →
  resolving (interactions_of st') ⊆ resolving (interactions_of st) →
  replay (open_ids (interactions_of st)) ts = Some (open_ids (interactions_of st')) →
  settles i n st st' ts.
Proof.
  intros Hrun Hrun' Eid Eg Eop Er Ec Eh Hp Hres Hrep. pose proof session_is_wf as Hwf.
  pose proof (running_no_resume _ _ _ Hwf Hrun) as Hno. open_wf Hwf.
  split; [|done|rewrite Hrun, Hrun'; constructor|done].
  split; rewrite ?Eid, ?Eg, ?Eop, ?Ec, ?Eh, ?Hrun'; try done; try (by intros [?|?]).
  - intros p. by rewrite Er, Hno.
  - intros op H. by apply Wresolving, Hres.
Qed.

Lemma running_settles_same st' :
  status_of st = Running → status_of st' = Running →
  ss_instance_id (st_snapshot st') = ss_instance_id (st_snapshot st) →
  generation_of st' = generation_of st → pending_of st' = None →
  ss_resume (st_snapshot st') = ss_resume (st_snapshot st) →
  ss_capabilities (st_snapshot st') = ss_capabilities (st_snapshot st) →
  ss_history (st_snapshot st') = ss_history (st_snapshot st) →
  ss_provider (st_snapshot st') = ss_provider (st_snapshot st) →
  settles i n st st' [].
Proof.
  intros Hrun Hrun' Eid Eg Eop Er Ec Eh Ep. apply running_settles; rewrite ?Ep; try done.
  by apply session_is_wf.
Qed.

Lemma lifecycle_input_completed_ok :
  status_of st = Running → is_Some (ss_pending_input (st_snapshot st)) →
  lifecycle_ok (lifecycle_input_completed st).
Proof.
  intros Hrun [kind Hk]. pose proof session_is_wf as Hwf.
  unfold lifecycle_ok, lifecycle_input_completed. rewrite Hk. cbn [mbind option_bind].
  destruct (st_pending_interrupt st); cycle 1.
  { eexists _, _, _; (split; [done|]); (split; [done|]). by apply running_settles_same. }
  unfold interrupt_provider. pose proof (sw_provider _ _ _ Hwf) as Hp.
  pose proof (resolve_all_resolution _ _ (pw_interactions _ Hp) Interrupted) as [[Hw Hrep _ Hres] Hsame].
  destruct (resolve_all_pending_interactions _ _) as [p ts]. cbn [fst snd] in *.
  eexists _, _, _; (split; [done|]); (split; [done|]).
  apply running_settles; try done. cbn [ss_provider st_snapshot set_field].
  rewrite Hsame. destruct (refreshed_wf _ _ Idle Hp Hw) as [W1 [R1 R2 R3] W3 W4 W5 W6].
  split; try done. split; try done. constructor.
Qed.

Lemma lifecycle_input_failed_ok m :
  status_of st = Running → is_Some (ss_pending_input (st_snapshot st)) →
  lifecycle_ok (lifecycle_input_failed st m).
Proof.
  intros Hrun [kind Hk]. unfold lifecycle_ok, lifecycle_input_failed. rewrite Hk.
  cbn [mbind option_bind]. eexists _, _, _; (split; [done|]); (split; [done|]).
  by apply running_settles_same.
Qed.

Lemma lifecycle_settled_ok p k f :
  status_of st = Running → silent k →
  (∀ s, ss_status (f s) = ss_status s ∧ ss_instance_id (f s) = ss_instance_id s
    ∧ ss_generation (f s) = ss_generation s ∧ ss_pending_operation (f s) = ss_pending_operation s
    ∧ ss_resume (f s) = ss_resume s ∧ ss_capabilities (f s) = ss_capabilities s
    ∧ ss_history (f s) = ss_history s ∧ ss_provider (f s) = ss_provider s) →
  lifecycle_ok (lifecycle_settled (st <| st_pending_terminal_size := p |>) k f).
Proof.
  intros Hrun Hk Hf. destruct (Hf (st_snapshot st <| ss_pending_operation := None |>))
    as (E1&E2&E3&E4&E5&E6&E7&E8).
  eexists _, _, _; (split; [done|]); (split; [done|]).
  apply running_settles_same; try done. cbn. by rewrite E1.
Qed.

Lemma observe_lifecycle_ok g o :
  lifecycle_ok (lifecycle_step st o) → observation_ok i (observe_lifecycle i g o) e.
Proof.
  intros (st' & k & ts & Hstep & Hk & Hs). unfold observe_lifecycle.
  assert (Htail : ∀ q e1, e1 = e <| effects ::= retain q |> →
    wp (state ← get_session i;
        '(state', event, interaction_transitions) ← expect (lifecycle_step state o);
        update_state i (λ _, state') ;;
        bump_revision ;;
        emit_event None i g event ;;
        emit_interaction_transitions None i g interaction_transitions)
       (λ _ e', counter_error e' = None → commit i e e') (λ _ _, False) e1).
  { intros q e1 ->. apply wp_bind, (wp_get_session _ _ st); [done|]. rewrite Hstep.
    apply wp_bind, wp_ret, wp_bind, (wp_update_state _ _ _ st); [done|].
    apply wp_bind, (wp_bump_logs i). intros e2 H2.
    apply wp_bind, wp_emit_silent; [done|]. intros e3 H3. apply wp_emit_transitions. intros e4 H4.
    apply (logs_settled i st st' ts q); [done|done|done|].
    eapply (logs_trans _ [] ts); [exact H2|]. by eapply (logs_trans _ [] ts). }
  apply wp_bind. destruct o; try (apply wp_ret, (Htail (λ _, true)); by rewrite effects_retain_all).
  apply wp_modify. by eapply Htail.
Qed.

(** What the input observations rely on: an input is pending. *)
Definition input_matched (o : ControlObservation) : Prop :=
  match o with
  | Obs_InputCompleted | Obs_InputFailed _ => is_Some (ss_pending_input (st_snapshot st))
  | _ => True
  end.

Lemma lifecycle_step_ok o :
  observation_is_valid (status_of st) o = true → input_matched o →
  match o with
  | Obs_CapabilitiesProbed _ | Obs_CapabilityProbeFailed _ | Obs_HistoryDiscovered _
  | Obs_HistoryLoaded _ | Obs_HistoryFailed _ | Obs_ResumeAuthorized _ | Obs_ResumeDenied _
  | Obs_ResumeFailed _ | Obs_InteractionResolutionCompleted _
  | Obs_InteractionResolutionFailed _ _ | Obs_TerminalFrame _ | Obs_TerminalStale _
  | Obs_ScreenState _ | Obs_ProviderEvent _ _ _ | Obs_ProviderGap _ _ _ => True
  | _ => lifecycle_ok (lifecycle_step st o)
  end.
Proof.
  intros Hv Hm.
  assert (Hset : ∀ k f, status_of st = Running → silent k →
    (∀ s, ss_status (f s) = ss_status s ∧ ss_instance_id (f s) = ss_instance_id s
      ∧ ss_generation (f s) = ss_generation s
      ∧ ss_pending_operation (f s) = ss_pending_operation s
      ∧ ss_resume (f s) = ss_resume s ∧ ss_capabilities (f s) = ss_capabilities s
      ∧ ss_history (f s) = ss_history s ∧ ss_provider (f s) = ss_provider s) →
    lifecycle_ok (lifecycle_settled st k f)).
  { intros k f Hr Hk Hf.
    pose proof (lifecycle_settled_ok (st_pending_terminal_size st) k f Hr Hk Hf) as H.
    replace (st <| st_pending_terminal_size := st_pending_terminal_size st |>) with st in H
      by by destruct st. done. }
  assert (Hrun : observation_is_valid (status_of st) Obs_InputCompleted = true → status_of st = Running)
    by by destruct (status_of st).
  destruct o; try exact I; cbn [lifecycle_step].
  - apply lifecycle_spawned_ok. by destruct (status_of st).
  - apply lifecycle_spawn_failed_ok. by destruct (status_of st).
  - apply lifecycle_exited_ok. by destruct (status_of st).
  - apply lifecycle_exited_ok. by destruct (status_of st).
  - apply lifecycle_stop_failed_ok. by destruct (status_of st).
  - by apply lifecycle_input_completed_ok; [apply Hrun|].
  - by apply lifecycle_input_failed_ok; [apply Hrun|].
  - by apply lifecycle_settled_ok; [apply Hrun| |].
  - by apply lifecycle_settled_ok; [apply Hrun| |].
  - by apply Hset; [apply Hrun| |].
  - by apply Hset; [apply Hrun| |].
  - by apply Hset; [apply Hrun| |].
  - by apply Hset; [apply Hrun| |].
  - by apply Hset; [apply Hrun| |].
  - by apply Hset; [apply Hrun| |].
  - by apply Hset; [apply Hrun| |].
  - by apply Hset; [apply Hrun| |].
Qed.
End observe.

(** ** The tests *)

Lemma refusal_None st env :
  observation_refusal st env = None →
  observation_is_current (st_snapshot st) (oe_generation env) (oe_observation env) = true
  ∧ (requires_operation_id (oe_observation env) = true →
     ∃ op, oe_operation_id env = Some op
       ∧ expected_operation (st_snapshot st) (oe_observation env) = Some op)
  ∧ observation_is_valid (status_of st) (oe_observation env) = true.
Proof.
  unfold observation_refusal. cbn zeta.
  destruct (negb (observation_is_current _ _ _)) eqn:H1; [done|]. apply negb_false_iff in H1.
  destruct (denied_observation_capability _ _); [done|].
  destruct (requires_operation_id _) eqn:H2.
  - destruct (oe_operation_id env) as [op|]; [|done].
    case_bool_decide as H3; [|done]. destruct (negb (foreground_is_valid _ _)); [done|].
    destruct (negb (observation_is_valid _ _)) eqn:H4; [done|]. apply negb_false_iff in H4.
    intros _. split_and!; [done| |done]. intros _. by exists op.
  - destruct (negb (foreground_is_valid _ _)); [done|].
    destruct (negb (observation_is_valid _ _)) eqn:H4; [done|]. apply negb_false_iff in H4.
    by intros _.
Qed.

(** An observation whose kind does not fit the pending operation. *)
Definition mismatched_input (e : Gate4AgentEngine) (env : ObservationEnvelope) : Prop :=
  ∃ st, sessions e !! oe_instance_id env = Some st ∧ observation_refusal st env = None
    ∧ ss_pending_input (st_snapshot st) = None
    ∧ match oe_observation env with Obs_InputCompleted | Obs_InputFailed _ => True | _ => False end.

Lemma observe_admitted_ok e st env :
  core_inv e → sessions e !! oe_instance_id env = Some st → observation_refusal st env = None →
  ¬ mismatched_input e env → observation_ok (oe_instance_id env) (observe_admitted st env) e.
Proof.
  intros Hc Hst Href Hmis. destruct (refusal_None _ _ Href) as (Hcur & Hop & Hval).
  assert (Hm : input_matched st (oe_observation env)).
  { destruct (ss_pending_input (st_snapshot st)) eqn:Hin; unfold input_matched; rewrite ?Hin;
      destruct (oe_observation env) eqn:Ho; try done; destruct Hmis; exists st; by rewrite Ho. }
  pose proof (lifecycle_step_ok _ _ _ Hc Hst _ Hval Hm) as Hlife.
  assert (Hgen : is_capability_observation (oe_observation env) = false →
            oe_generation env = generation_of st).
  { intros H. unfold observation_is_current in Hcur. rewrite H in Hcur. cbn in Hcur.
    rewrite orb_false_r in Hcur. symmetry. by apply bool_decide_eq_true in Hcur. }
  unfold observe_admitted.
  destruct (oe_observation env) eqn:Ho; cbn [is_capability_observation is_history_observation
    is_resume_authority_observation is_interaction_resolution_observation] in *;
    try (by apply (observe_lifecycle_ok _ _ st)).
  - destruct (Hop eq_refl) as (op & _ & (x & Hx & _)%fmap_Some).
    apply observe_capability_ok; [done|done|by eexists].
  - destruct (Hop eq_refl) as (op & _ & (x & Hx & _)%fmap_Some).
    apply observe_capability_ok; [done|done|by eexists].
  - destruct (Hop eq_refl) as (op & _ & (x & Hx & _)%fmap_Some).
    apply observe_history_ok; [done|done|by eexists].
  - destruct (Hop eq_refl) as (op & _ & (x & Hx & _)%fmap_Some).
    apply observe_history_ok; [done|done|by eexists].
  - destruct (Hop eq_refl) as (op & _ & (x & Hx & _)%fmap_Some).
    apply observe_history_ok; [done|done|by eexists].
  - by apply observe_resume_authority_ok.
  - by apply observe_resume_authority_ok.
  - by apply observe_resume_authority_ok.
  - destruct (Hop eq_refl) as (op & -> & _). apply observe_interaction_resolution_ok; try done.
    by destruct (status_of st).
  - destruct (Hop eq_refl) as (op & -> & _). apply observe_interaction_resolution_ok; try done.
    by destruct (status_of st).
  - by apply observe_terminal_frame_ok.
  - by eapply observe_terminal_stale_ok.
  - by eapply observe_screen_state_ok.
  - rewrite (Hgen eq_refl). apply observe_provider_event_ok; [done|done|by destruct (status_of st)].
  - apply observe_provider_gap_ok; [done|done|by destruct (status_of st)].
Qed.

Lemma apply_observation_in_place_ok e env :
  core_inv e → ¬ mismatched_input e env →
  observation_ok (oe_instance_id env) (apply_observation_in_place env) e.
Proof.
  intros Hc Hm. apply wp_bind, wp_get.
  destruct (sessions e !! oe_instance_id env) as [st|] eqn:Hst; [|by apply ignored_ok].
  destruct (observation_refusal st env) eqn:Href; [by apply ignored_ok|].
  by apply observe_admitted_ok.
Qed.

(** The kind-mismatched input observations are the ones that panic. *)
Lemma mismatched_input_panics e env :
  mismatched_input e env → fst (apply_observation_in_place env e) = Panic.
Proof.
  intros (st & Hst & Href & Hin & Ho).
  unfold apply_observation_in_place, mbind, stm_bind, get_state. rewrite Hst, Href.
  unfold observe_admitted, observe_lifecycle, get_session, mbind, stm_bind, get_state.
  destruct (oe_observation env); try done; cbn; rewrite Hst; cbn;
    unfold lifecycle_input_completed, lifecycle_input_failed; by rewrite Hin.
Qed.
