(* ===== verification/EngineHeadroom.v ===== *)
(** * Counter headroom

    The cost of every command and observation, in event numbers, revisions and
    operation ids: what [has_counter_headroom] reserves is enough, so a call
    that runs in place never exhausts a counter. The log of events stays
    contiguous through every method. *)

From S2P Require Import Prelude RustStr Ids Input SessionTypes RecordTypes ProviderTypes.
From S2P Require Import Control EngineReduce ReduceFacts EngineState EngineCommands.
From S2P Require Import EngineObserve EngineRespects EngineCounters EngineInv EngineCommandFacts.
From S2P Require Import EngineIngestFacts EngineObserveFacts.

Local Open Scope N_scope.

(** ** Automation *)

(** [frees] shows that a method uses no counter. *)
Ltac frees := try apply costs_none; respect; try (intros ?; by apply cost_same).

(** [costly] walks to the steps that use counters. *)
Ltac costly :=
  lazymatch goal with
  | |- costs _ _ _ (allocate_operation ≫= _) => fail
  | |- costs _ _ _ (bump_revision ≫= _) => fail
  | |- costs _ _ _ (_ ≫= _) => apply costs_free; [by frees|intros ?]; cbn zeta
  | |- costs _ _ _ (match ?x with _ => _ end) => destruct x
  end.

Lemma costs_logged (k : EngineM unit) : costs 1 0 0 k → costs 1 1 0 (bump_revision ;; k).
Proof. intros H. apply (costs_bind 0 1 0 1 0 0); [apply costs_bump|done]. Qed.

Lemma costs_emit_request c i g op eff k : costs 1 1 0 (emit_request c i g op eff k).
Proof.
  apply costs_free; [apply _|]. intros _. apply costs_logged, costs_emit.
Qed.

Lemma costs_allocated {A} (k : OperationId → EngineM A) :
  (∀ op, costs 1 1 0 (k op)) → costs 1 1 1 (allocate_operation ≫= k).
Proof. intros H. apply (costs_bind 0 0 1 1 1 0); [apply costs_allocate|done]. Qed.

(** ** Commands *)

Lemma costs_input_effect transport agent_id action :
  costs 0 0 0 (input_effect transport agent_id action).
Proof.
  destruct transport, action; cbn [input_effect]; frees.
Qed.

Ltac request_cost := repeat costly; apply costs_allocated; intros ?; repeat costly;
  apply costs_emit_request.

Lemma register_cost c i a t : costs 1 1 1 (register c i a t).
Proof.
  unfold register. repeat costly. eapply (costs_weaken 1 1 0); [done|done|done|].
  apply costs_logged, costs_emit.
Qed.
Lemma start_cost c i p r : costs 1 1 1 (start c i p r).
Proof. unfold start. request_cost. Qed.
Lemma stop_cost c i f : costs 1 1 1 (stop c i f).
Proof. unfold stop. request_cost. Qed.
Lemma send_input_cost c i a : costs 1 1 1 (send_input c i a).
Proof.
  unfold send_input. do 4 costly. apply costs_free; [by apply costs_input_effect|].
  intros [eff k]. request_cost.
Qed.
Lemma resize_cost c i s : costs 1 1 1 (resize c i s).
Proof. unfold resize. request_cost. Qed.
Lemma refresh_foreground_cost c i : costs 1 1 1 (refresh_foreground c i).
Proof. unfold refresh_foreground. request_cost. Qed.
Lemma discover_history_cost c i q : costs 1 1 1 (discover_history c i q).
Proof. unfold discover_history. request_cost. Qed.
Lemma probe_capabilities_cost c i r : costs 1 1 1 (probe_capabilities c i r).
Proof. unfold probe_capabilities. request_cost. Qed.
Lemma load_history_cost c i k : costs 1 1 1 (load_history c i k).
Proof. unfold load_history. request_cost. Qed.
Lemma resume_cost c i t p r : costs 1 1 1 (resume c i t p r).
Proof. unfold resume, resume_authority_target. request_cost. Qed.
Lemma resolve_interaction_cost c i g k r : costs 1 1 1 (resolve_interaction c i g k r).
Proof. unfold resolve_interaction. request_cost. Qed.
Lemma begin_cost {A} i (k : OperationId → EngineM A) :
  (∀ op, costs 1 1 0 (k op)) → costs 1 1 1 (begin_operation i ≫= k).
Proof.
  intros H. apply (costs_bind 0 0 1 1 1 0); [|done].
  apply (costs_bind 0 0 1 0 0 0); [apply costs_allocate|]. intros op. by frees.
Qed.
Lemma acp_cost {A} i s a (k : SessionSnapshot → EngineM A) :
  (∀ x, costs 1 1 1 (k x)) → costs 1 1 1 (require_acp_running i s a ≫= k).
Proof. intros H. apply costs_free; [|done]. unfold require_acp_running. by frees. Qed.
Lemma set_session_mode_cost c i m : costs 1 1 1 (set_session_mode c i m).
Proof.
  unfold set_session_mode. costly. apply acp_cost. intros s. apply begin_cost. intros op.
  apply costs_emit_request.
Qed.
Lemma set_session_config_option_cost c i o v : costs 1 1 1 (set_session_config_option c i o v).
Proof.
  unfold set_session_config_option. do 2 costly. apply acp_cost. intros s. apply begin_cost.
  intros op. apply costs_emit_request.
Qed.
Lemma set_session_model_cost c i m : costs 1 1 1 (set_session_model c i m).
Proof.
  unfold set_session_model. costly. apply acp_cost. intros s. apply begin_cost. intros op.
  apply costs_emit_request.
Qed.
Lemma remove_cost c i : costs 1 1 1 (remove c i).
Proof.
  unfold remove. repeat costly. eapply (costs_weaken 1 1 0); [done|done|done|].
  apply costs_logged, costs_emit.
Qed.

(** ** Provider events *)

(** The cost of one run, where it depends on the state. *)
Lemma cost_bind {A B} a b c a' b' c' (m : EngineM A) (k : A → EngineM B) e :
  cost a b c e (snd (m e)) →
  (∀ x e', m e = (Done x, e') → cost a' b' c' e' (snd (k x e'))) →
  cost (a + a') (b + b') (c + c') e (snd ((m ≫= k) e)).
Proof.
  intros Hm Hk. unfold mbind, stm_bind. destruct (m e) as [[x|err|] e'] eqn:E; cbn in *.
  - eapply cost_trans; [exact Hm|by apply Hk].
  - eapply cost_weaken; [..|exact Hm]; lia.
  - eapply cost_weaken; [..|exact Hm]; lia.
Qed.

Lemma cost_free {A B} a b c (m : EngineM A) (k : A → EngineM B) e :
  costs 0 0 0 m → (∀ x e', m e = (Done x, e') → cost a b c e' (snd (k x e'))) →
  cost a b c e (snd ((m ≫= k) e)).
Proof. intros Hm Hk. exact (cost_bind 0 0 0 a b c m k e (Hm e) Hk). Qed.

Lemma costs_transitions c i g ts : costs (len ts) 0 0 (emit_interaction_transitions c i g ts).
Proof.
  induction ts as [|t ts IH]; cbn [emit_interaction_transitions]; [apply _|].
  eapply (costs_weaken (1 + len ts) (0 + 0) (0 + 0)); [rewrite len_cons; lia|done|done|].
  by apply costs_bind; [apply costs_emit|].
Qed.

Lemma get_session_run i e st x e' :
  sessions e !! i = Some st → get_session i e = (Done x, e') → x = st ∧ e' = e.
Proof.
  intros Hst. unfold get_session, mbind, stm_bind, get_state. rewrite Hst. by intros [= <- <-].
Qed.

Lemma expect_run {A} (o : option A) e x e' :
  (expect o : EngineM A) e = (Done x, e') → o = Some x ∧ e' = e.
Proof. destruct o; [|done]. by intros [= <- <-]. Qed.

Lemma lift_result_run {E A} (f : E → ControlError) (r : result E A) e x e' :
  (lift_result f r : EngineM A) e = (Done x, e') → r = Ok x ∧ e' = e.
Proof. destruct r; [|done]. by intros [= <- <-]. Qed.

Lemma fail_when_run b err e x e' :
  (fail_when b err : EngineM unit) e = (Done x, e') → b = false ∧ e' = e.
Proof. destruct b; [done|]. by intros [= _ <-]. Qed.

Lemma require_session_run i e x e' :
  require_session i e = (Done x, e') → sessions e !! i = Some x ∧ e' = e.
Proof.
  unfold require_session, mbind, stm_bind, get_state.
  destruct (sessions e !! i); [|done]. by intros [= <- <-].
Qed.

Lemma provider_event_cost c i g src n ev e st :
  sessions e !! i = Some st → provider_wf (ss_provider (st_snapshot st)) →
  cost 67 1 0 e (snd (apply_provider_event c i g src n ev e)).
Proof.
  intros Hst Hp. apply cost_free; [apply _|].
  intros x e0 Hx. destruct (get_session_run _ _ _ _ _ Hst Hx) as [-> ->].
  apply cost_free; [apply _|]. intros [p red] e1 Hred.
  apply expect_run in Hred as [Hred ->].
  destruct (reduce_provider_event_spec _ _ _ _ _ _ Hp Hred) as (_ & _ & _ & Hs & _).
  pose proof (transitions_length _ _ _ _ _ _ (pw_interactions _ Hp) Hs) as Hlen.
  unfold PROVIDER_INTERACTIONS_MAX in Hlen.
  eapply (cost_weaken (1 + len (red_interaction_transitions red)) 1 0); [lia|done|done|].
  match goal with |- cost _ _ _ _ (snd (?m e)) => cut (costs (1 + len (red_interaction_transitions red)) 1 0 m) end.
  { intros H. apply H. }
  cbn zeta. apply costs_free; [apply _|]. intros _.
  apply costs_free; [by frees|]. intros _.
  apply (costs_bind 0 1 0 (1 + _) 0 0); [apply costs_bump|]. intros _.
  apply (costs_bind 1 0 0 _ 0 0); [apply costs_emit|]. intros _. apply costs_transitions.
Qed.

Lemma wp_run {A} (m : EngineM A) Q F e x e' : wp m Q F e → m e = (Done x, e') → Q x e'.
Proof. unfold wp. intros H E. by rewrite E in H. Qed.

Lemma provider_events_cost c i src n evs : ∀ e st,
  core_inv e → sessions e !! i = Some st → is_active (status_of st) = true →
  ps_sequence (ss_provider (st_snapshot st)) + len evs <= U64_MAX →
  cost (67 * len evs) (len evs) 0 e
    (snd (apply_provider_events c i (generation_of st) src n evs e)).
Proof.
  induction evs as [|ev evs IH]; intros e st Hc Hst Hact Hseq; [apply cost_refl|].
  rewrite len_cons in *. cbn [apply_provider_events].
  eapply (cost_weaken (67 + 67 * len evs) (1 + len evs) (0 + 0)); [lia|lia|done|].
  apply cost_bind.
  { eapply provider_event_cost; [exact Hst|]. by apply (ci_session _ Hc _ _ Hst). }
  intros x e1 Hx.
  assert (Hin : ingested i st 1 src n e e1).
  { pose proof (wp_provider_event i st src n ev c (λ _ _, True) (λ _ e1, ingested i st 1 src n e e1) e
      Hc Hst Hact ltac:(lia) (λ _ H, H)) as H. exact (wp_run _ _ _ _ _ _ H Hx). }
  destruct (in_session _ _ _ _ _ _ _ Hin) as (st1 & Hst1 & Hch & Hs1 & _).
  rewrite <- (pc_generation _ _ Hch). apply IH; [by apply Hin|done| |lia].
  by rewrite (pc_status _ _ Hch).
Qed.

Lemma gap_cost i src n missed c g k :
  costs 1 1 0
    (canonical_sequence ← apply_provider_gap i src n missed;
     bump_revision ;; emit_event c i g (k canonical_sequence)).
Proof.
  apply costs_free; [unfold apply_provider_gap; by frees|]. intros m. apply costs_logged, costs_emit.
Qed.

Lemma ingest_provider_cost c i g src n evs e :
  core_inv e →
  cost (CONTROL_EVENT_HEADROOM - 1) CONTROL_REVISION_HEADROOM 0 e
    (snd (ingest_provider c i g src n evs e)).
Proof.
  intros Hc. unfold ingest_provider.
  apply cost_free; [by frees|]. intros ? ? [_ ->]%lift_result_run.
  apply cost_free; [by frees|]. intros ? ? [Hb ->]%fail_when_run.
  apply orb_false_iff in Hb as [_ Hlen]. apply N.ltb_ge in Hlen.
  apply cost_free; [by frees|]. intros ? ? [_ ->]%lift_result_run.
  apply cost_free; [by frees|]. intros st' ? [Hst ->]%require_session_run. cbn zeta.
  apply cost_free; [by frees|]. intros ? ? [Hg ->]%fail_when_run.
  apply negb_false_iff, bool_decide_eq_true in Hg as <-.
  apply cost_free; [by frees|]. intros ? ? [Hact ->]%fail_when_run.
  apply negb_false_iff in Hact.
  apply cost_free; [by frees|]. intros ? ? [_ ->]%fail_when_run.
  apply cost_free; [by frees|]. intros ? ? [_ ->]%fail_when_run.
  apply cost_free; [by frees|]. intros missed ? [_ ->]%expect_run.
  destruct (batch_denied_capability _ _ _) as [cap|].
  { eapply (cost_weaken 1 1 0); [done|done|done|].
    apply cost_free; [by frees|]. intros ? e0 _.
    eapply (cost_bind 1 1 0 0 0 0); [apply gap_cost|]. intros ? ? ?. apply cost_refl. }
  apply cost_free; [by frees|]. intros ? ? [Hseq ->]%fail_when_run.
  apply bool_decide_eq_false in Hseq.
  destruct (checked_add _ _) as [m|] eqn:Hm; [|done]. apply checked_add_Some in Hm as [_ Hm].
  unfold PROVIDER_INGRESS_EVENTS_MAX in Hlen.
  eapply (cost_weaken (1 + 67 * len evs) (1 + len evs) (0 + 0)).
  { unfold CONTROL_EVENT_HEADROOM, PROVIDER_INGRESS_EVENTS_MAX, PROVIDER_INTERACTIONS_MAX. lia. }
  { unfold CONTROL_REVISION_HEADROOM, PROVIDER_INGRESS_EVENTS_MAX. lia. }
  { done. }
  destruct (0 <? missed) eqn:Hmiss.
  - apply cost_bind; [apply gap_cost|]. intros ? e1 Hx.
    assert (Hin : ingested i st' 1 src (n - 1) e e1).
    { refine (wp_run _ (λ _ e', ingested i st' 1 src (n - 1) e e') (λ _ _, True) _ _ _ _ Hx).
      apply (wp_gap_step i st' src (n - 1) _ (λ m, Ev_ProviderGap m src (n - 1) _)); try done. lia. }
    destruct (in_session _ _ _ _ _ _ _ Hin) as (st1 & Hst1 & Hch & Hs1 & _).
    rewrite <- (pc_generation _ _ Hch). apply provider_events_cost; [by apply Hin|done| |lia].
    by rewrite (pc_status _ _ Hch).
  - eapply (cost_bind 1 1 0 _ _ 0).
    { eapply (cost_weaken 0 0 0); [lia|lia|done|apply cost_refl]. }
    intros ? e1 [= _ <-]. apply provider_events_cost; try done. lia.
Qed.

(** ** In place *)

Lemma command_cost env e :
  core_inv e →
  cost (CONTROL_EVENT_HEADROOM - 1) CONTROL_REVISION_HEADROOM 1 e
    (snd (apply_command_in_place env e)).
Proof.
  intros Hc. destruct env as [c cmd]. unfold apply_command_in_place. cbn [ce_id ce_command].
  assert (H1 : ∀ m : EngineM unit, costs 1 1 1 m →
    cost (CONTROL_EVENT_HEADROOM - 1) CONTROL_REVISION_HEADROOM 1 e (snd (m e))).
  { intros m Hm. eapply cost_weaken; [..|apply Hm]; done. }
  destruct cmd; try (apply H1;
    by auto using register_cost, start_cost, stop_cost, send_input_cost, resize_cost,
      refresh_foreground_cost, discover_history_cost, probe_capabilities_cost, load_history_cost,
      resume_cost, resolve_interaction_cost, set_session_mode_cost,
      set_session_config_option_cost, set_session_model_cost, remove_cost).
  refine (cost_weaken _ _ _ _ _ _ _ _ _ _ _ (ingest_provider_cost _ _ _ _ _ _ _ Hc)); done.
Qed.

(** ** Observations *)

Lemma resolve_all_length p o :
  provider_wf p → len (snd (resolve_all_pending_interactions p o)) <= 64.
Proof.
  intros Hp. pose proof (pw_interactions _ Hp) as Hi.
  destruct (resolve_all_resolution p _ Hi o) as [Hs _].
  by apply (transitions_length _ _ _ _ _ _ Hi Hs).
Qed.

Lemma lifecycle_length st o st' k ts :
  provider_wf (ss_provider (st_snapshot st)) → lifecycle_step st o = Some (st', k, ts) →
  len ts <= 64.
Proof.
  intros Hp. pose proof (λ o, resolve_all_length _ o Hp) as Hl.
  assert (H0 : len (@nil ProviderInteractionTransition) <= 64) by done.
  pose proof (Hl TurnEnded) as H1. pose proof (Hl Interrupted) as H2.
  destruct o; cbn [lifecycle_step]; try done;
    try (unfold lifecycle_resize_settled, lifecycle_settled; by intros [= _ _ <-]).
  - unfold lifecycle_spawned. destruct (is_spawning_resume _); [|by intros [= _ _ <-]].
    destruct (st_pending_resume_identity st); [|done]. by intros [= _ _ <-].
  - unfold lifecycle_spawn_failed, end_session. destruct (resolve_all_pending_interactions _ TurnEnded).
    destruct (is_spawning_resume _); by intros [= _ _ <-].
  - unfold lifecycle_exited, end_session. destruct (resolve_all_pending_interactions _ TurnEnded).
    by intros [= _ _ <-].
  - unfold lifecycle_exited, end_session. destruct (resolve_all_pending_interactions _ TurnEnded).
    by intros [= _ _ <-].
  - unfold lifecycle_stop_failed, end_session. destruct (resolve_all_pending_interactions _ TurnEnded).
    by intros [= _ _ <-].
  - unfold lifecycle_input_completed, interrupt_provider.
    destruct (ss_pending_input _); [|done]. cbn [mbind option_bind].
    destruct (st_pending_interrupt st); [|by intros [= _ _ <-]].
    destruct (resolve_all_pending_interactions _ Interrupted). by intros [= _ _ <-].
  - unfold lifecycle_input_failed. destruct (ss_pending_input _); [|done]. by intros [= _ _ <-].
Qed.

Lemma observe_lifecycle_cost i g o e st :
  core_inv e → sessions e !! i = Some st → cost 65 1 0 e (snd (observe_lifecycle i g o e)).
Proof.
  intros Hc Hst. apply cost_free; [by frees|]. intros ? e1 H1.
  assert (Hs1 : sessions e1 !! i = Some st) by (destruct o; by injection H1 as _ <-). clear H1.
  apply cost_free; [apply _|]. intros st' e2 H2.
  destruct (get_session_run _ _ _ _ _ Hs1 H2) as [-> ->].
  apply cost_free; [by frees|]. intros [[st' k] ts] ? [Hl ->]%expect_run.
  destruct (ci_session _ Hc _ _ Hst) as [Hwf _].
  pose proof (lifecycle_length _ _ _ _ _ (sw_provider _ _ _ Hwf) Hl) as Hlen.
  match goal with |- cost _ _ _ _ (snd (?m _)) => cut (costs 65 1 0 m) end; [intros H; apply H|].
  apply costs_free; [apply _|]. intros _.
  eapply (costs_weaken (0 + (1 + len ts)) (1 + (0 + 0)) (0 + (0 + 0))); [lia|done|done|].
  apply costs_bind; [apply costs_bump|]. intros _. apply costs_bind; [apply costs_emit|].
  intros _. apply costs_transitions.
Qed.

Lemma ignored_cost i g r : costs 1 0 0 (emit_ignored i g r).
Proof. apply costs_emit. Qed.

Lemma ignored_cost' i g r : costs 1 1 0 (emit_ignored i g r).
Proof. eapply costs_weaken; [..|apply ignored_cost]; done. Qed.

(** What [observation_has_provider_headroom] rules out: the only errors an
    observation sets on purpose. *)
Lemma observation_cost env e :
  core_inv e → observation_has_provider_headroom e env = true →
  cost 67 1 0 e (snd (apply_observation_in_place env e)).
Proof.
  intros Hc Hroom.
  assert (Hplain : ∀ m : EngineM unit, costs 1 1 0 m → cost 67 1 0 e (snd (m e))).
  { intros m Hm. eapply cost_weaken; [..|apply Hm]; done. }
  unfold apply_observation_in_place. apply cost_free; [by frees|]. intros ? e0 [= <- <-].
  unfold observation_has_provider_headroom in Hroom.
  destruct (sessions e !! _) as [st|] eqn:Hst; [|by apply Hplain, ignored_cost'].
  destruct (observation_refusal _ _); [by apply Hplain, ignored_cost'|].
  unfold observe_admitted. cbn zeta.
  assert (Hlife : ∀ g o, cost 67 1 0 e (snd (observe_lifecycle (oe_instance_id env) g o e))).
  { intros g o. eapply cost_weaken; [..|by eapply observe_lifecycle_cost]; done. }
  destruct (oe_observation env); cbn [is_capability_observation is_history_observation
    is_resume_authority_observation is_interaction_resolution_observation];
    try (apply Hlife).
  1-2: apply Hplain; unfold observe_capability; repeat costly;
    first [apply ignored_cost' | apply costs_logged, costs_emit].
  1-3: apply Hplain; unfold observe_history; repeat costly;
    first [apply ignored_cost' | apply costs_logged, costs_emit].
  1-3: apply Hplain; unfold observe_resume_authority; repeat costly;
    first [apply ignored_cost' | apply costs_logged, costs_emit].
  1-2: apply Hplain; unfold observe_interaction_resolution; repeat costly;
    first [apply ignored_cost' | apply costs_logged, costs_emit].
  - apply Hplain. unfold observe_terminal_frame. repeat costly; [apply ignored_cost'|..].
    all: eapply (costs_weaken 0 1 0); [done|done|done|apply costs_bump].
  - apply Hplain. unfold observe_terminal_stale. costly. apply costs_logged, costs_emit.
  - apply Hplain. unfold observe_screen_state. costly.
    eapply (costs_weaken 0 1 0); [done|done|done|apply costs_bump].
  - unfold observe_provider_event. cbn zeta. destruct (_ =? U64_MAX); [done|].
    destruct (_ <=? _); [apply Hplain, ignored_cost'|].
    destruct (provider_event_denied_capability _ _); [apply Hplain, gap_cost|].
    eapply provider_event_cost; [exact Hst|]. by apply (ci_session _ Hc _ _ Hst).
  - apply Hplain. unfold observe_provider_gap. destruct (_ =? U64_MAX); [done|]. cbn zeta.
    apply bool_decide_eq_true in Hroom as [x Hx]. rewrite Hx.
    destruct (_ || _); [apply ignored_cost'|apply gap_cost].
Qed.
