(* ===== verification/EngineEntry.v ===== *)
(** * The entry points

    [apply_command] and [try_apply_observation]: in place when the counters
    have headroom, on a copy that is committed only if no counter ran out when
    they have not. *)

From S2P Require Import Prelude RustStr Ids Input SessionTypes RecordTypes ProviderTypes.
From S2P Require Import Control EngineReduce ReduceFacts EngineState EngineCommands.
From S2P Require Import EngineObserve EngineRespects EngineCounters EngineInv EngineCommandFacts.
From S2P Require Import EngineIngestFacts EngineObserveFacts EngineHeadroom.

Local Open Scope N_scope.

(** ** In place *)

(** A provider batch the session's policy refuses. *)
Definition refused_batch (cmd : ControlCommand) (err : ControlError)
    (e e' : Gate4AgentEngine) : Prop :=
  match cmd with
  | Cmd_IngestProvider i _ src n evs => batch_refused i src n evs err e e'
  | _ => False
  end.

Lemma command_in_place first c cmd e :
  core_inv e → log_ok first e →
  wp (apply_command_in_place (MkCommandEnvelope c cmd))
     (λ _ e', counter_error e' = None → commit (command_instance_id cmd) e e')
     (λ err e', e' = e ∨ refused_batch cmd err e e') e.
Proof.
  intros Hc Hlog. unfold apply_command_in_place. cbn [ce_id ce_command].
  assert (H : ∀ i m, command_ok i m e → wp m (λ _ e', counter_error e' = None → commit i e e')
                       (λ err e', e' = e ∨ refused_batch cmd err e e') e).
  { intros i m. unfold command_ok, wp. destruct (m e) as [[?|?|] ?]; auto. }
  destruct cmd; cbn [command_instance_id];
    try (apply H;
      by eauto using register_ok, start_ok, stop_ok, send_input_ok, resize_ok,
        refresh_foreground_ok, discover_history_ok, probe_capabilities_ok, load_history_ok,
        resume_ok, resolve_interaction_ok, set_session_mode_ok, set_session_config_option_ok,
        set_session_model_ok, remove_ok).
  pose proof (wp_ingest_provider c instance_id generation source source_sequence events e Hc) as Hin.
  revert Hin. unfold wp. destruct (ingest_provider _ _ _ _ _ _ e) as [[?|?|] e']; [|by intros [[]|]; [left|right]|done].
  intros (st & _ & _ & Hin) He. by apply (in_commit _ _ _ _ _ _ _ Hin).
Qed.

(** ** Headroom *)

Record headroom (e : Gate4AgentEngine) : Prop := {
  hr_error : counter_error e = None;
  hr_event : next_raw (next_event_sequence e) + (CONTROL_EVENT_HEADROOM - 1) <= U64_MAX;
  hr_revision : revision e + CONTROL_REVISION_HEADROOM <= U64_MAX;
  hr_operation : is_Some (next_operation_id e)
}.

Lemma has_counter_headroom_spec e : has_counter_headroom e = true ↔ headroom e.
Proof.
  unfold has_counter_headroom. rewrite !andb_true_iff, !bool_decide_eq_true. split.
  - intros [[[H1 H2] H3] [r H4]]. apply checked_add_Some in H4 as [_ H4].
    destruct (next_event_sequence e) as [n|] eqn:En; [|done].
    apply bool_decide_eq_true in H3 as [m H3]. apply checked_add_Some in H3 as [_ H3].
    split; [done|by rewrite En|done|done].
  - intros [H1 H2 H3 H4]. split_and!; [done|done| |].
    + destruct (next_event_sequence e) as [n|]; cbn in H2.
      * apply bool_decide_eq_true. eexists. by apply checked_add_Some.
      * exfalso. unfold CONTROL_EVENT_HEADROOM, U64_MAX in H2. cbn in H2. lia.
    + eexists. by apply checked_add_Some.
Qed.

Lemma cost_headroom first e e' a b c :
  log_inv first e → headroom e →
  a <= CONTROL_EVENT_HEADROOM - 1 → b <= CONTROL_REVISION_HEADROOM → c <= 1 →
  cost a b c e e' → counter_error e' = None.
Proof.
  intros Hlog [H1 H2 H3 [n H4]] Ha Hb Hcc H. destruct H as [H _]; [done|lia|lia| |done].
  rewrite H4. pose proof (li_operation _ _ Hlog n H4). cbn. lia.
Qed.

(** ** Retiring a counter *)

Lemma retire_inv first e err : engine_inv first e → engine_inv first (retire_exhausted_counter e err).
Proof.
  intros [Hc [L1 L2 L3 L4] He].
  assert (Hc' : core_inv (e <| next_operation_id := None |>)).
  { destruct Hc as [C1 C2 C3 C4 C5]. pose proof (next_raw_range _ L1) as Hn. split; try done; cbn.
    - intros i st Hst. destruct (C1 i st Hst) as [W1 W2]. split; [|done].
      eapply session_wf_mono; [|exact W1]. cbn. lia.
    - intros ef Hef. destruct (C5 ef Hef) as (st & A & B & C). exists st. split_and!; [done|done|].
      cbn. lia. }
  destruct err; try (by split; [exact Hc| |]); cbn.
  - split; [exact Hc'| |done]. by split.
  - split; [by destruct Hc| |done]. split; [done|done|done|].
    destruct L4 as (A & B). split; [exact A|]. cbn.
    destruct (next_event_sequence e) as [n|] eqn:En; [specialize (L2 n eq_refl)|]; lia.
  - split; [by destruct Hc| |done]. split; [done|done|cbn; lia|done].
Qed.

(** The retired state differs in one counter at most. *)
Lemma retire_same e err :
  let e' := retire_exhausted_counter e err in
  sessions e' = sessions e ∧ generation_watermarks e' = generation_watermarks e
  ∧ effects e' = effects e ∧ events e' = events e ∧ counter_error e' = counter_error e.
Proof. by destruct err. Qed.

(** ** The outcome of the entry points *)

(** How a command ends. *)
Inductive command_outcome (first : N) (cmd : ControlCommand) (e : Gate4AgentEngine)
  : outcome ControlError unit → Gate4AgentEngine → Prop :=
| command_committed e' :
    commit (command_instance_id cmd) e e' → engine_inv first e' → command_outcome first cmd e (Done tt) e'
| command_rejected err : command_outcome first cmd e (Fail err) e
| command_refused err e' :
    headroom e → refused_batch cmd err e e' → engine_inv first e' → command_outcome first cmd e (Fail err) e'
| command_exhausted err :
    ¬ headroom e → engine_inv first (retire_exhausted_counter e err) →
    command_outcome first cmd e (Fail err) (retire_exhausted_counter e err).

Lemma refused_batch_ingested cmd err e e' :
  refused_batch cmd err e e' → ∃ i st src n, command_instance_id cmd = i ∧ ingested i st 1 src n e e'.
Proof. destruct cmd; try done. intros (st & cap & _ & _ & _ & H). by eexists _, _, _, _. Qed.

Lemma apply_command_outcome first c cmd e :
  engine_inv first e →
  let r := apply_command (MkCommandEnvelope c cmd) e in command_outcome first cmd e (fst r) (snd r).
Proof.
  intros [Hc Hlog He]. assert (Hok : log_ok first e) by by intros _.
  pose proof (command_in_place first c cmd e Hc Hok) as Hwp.
  pose proof (command_respects _ log_kept (MkCommandEnvelope c cmd) eq_refl e first Hok) as Hlog'.
  pose proof (command_cost (MkCommandEnvelope c cmd) e Hc) as Hcost.
  unfold apply_command. unfold wp in Hwp. cbn zeta.
  destruct (has_counter_headroom e) eqn:Hh.
  - apply has_counter_headroom_spec in Hh.
    apply (cost_headroom _ _ _ _ _ _ Hlog Hh) in Hcost; [|done|done|done].
    destruct (apply_command_in_place _ e) as [[[]|err|] e']; cbn [fst snd] in *; [| |done].
    + specialize (Hwp Hcost). constructor; [done|]. split; [apply Hwp|by apply Hlog'|done].
    + destruct Hwp as [->|Hr]; [constructor|]. apply command_refused; [done|done|].
      destruct (refused_batch_ingested _ _ _ _ Hr) as (i & st & src & n & _ & Hin).
      split; [apply Hin|by apply Hlog'|done].
  - destruct (apply_command_in_place _ e) as [[[]|err|] e']; cbn [fst snd] in *;
      [|constructor|done].
    unfold commit_candidate. destruct (counter_error e') as [err|] eqn:Herr; cbn [fst snd].
    + constructor; [|by apply retire_inv]. intros H. apply has_counter_headroom_spec in H. congruence.
    + specialize (Hwp eq_refl). constructor; [done|]. split; [apply Hwp|by apply Hlog'|done].
Qed.

(** How an observation ends. *)
Inductive observation_outcome (first : N) (i : AgentInstanceId) (e : Gate4AgentEngine)
  : outcome ControlError unit → Gate4AgentEngine → Prop :=
| observation_committed e' :
    commit i e e' → engine_inv first e' → observation_outcome first i e (Done tt) e'
| observation_exhausted err :
    engine_inv first (retire_exhausted_counter e err) →
    observation_outcome first i e (Fail err) (retire_exhausted_counter e err).

Lemma try_apply_observation_outcome first env e :
  engine_inv first e → ¬ mismatched_input e env →
  let r := try_apply_observation env e in
  observation_outcome first (oe_instance_id env) e (fst r) (snd r).
Proof.
  intros [Hc Hlog He] Hm. assert (Hok : log_ok first e) by by intros _.
  pose proof (apply_observation_in_place_ok e env Hc Hm) as Hwp.
  pose proof (observation_respects _ log_kept env eq_refl e first Hok) as Hlog'.
  pose proof (observation_cost env e Hc) as Hcost.
  unfold try_apply_observation. unfold observation_ok, wp in Hwp. cbn zeta.
  destruct (has_counter_headroom e && observation_has_provider_headroom e env) eqn:Hh.
  - apply andb_true_iff in Hh as [Hh Hp]. apply has_counter_headroom_spec in Hh.
    specialize (Hcost Hp). apply (cost_headroom _ _ _ _ _ _ Hlog Hh) in Hcost; [|done|done|done].
    destruct (apply_observation_in_place _ e) as [[[]|err|] e']; cbn [fst snd] in *; [|done|done].
    specialize (Hwp Hcost). constructor; [done|]. split; [apply Hwp|by apply Hlog'|done].
  - destruct (apply_observation_in_place _ e) as [[[]|err|] e']; cbn [fst snd] in *; [|done|done].
    unfold commit_candidate. destruct (counter_error e') as [err|] eqn:Herr; cbn [fst snd].
    + constructor. by apply retire_inv.
    + specialize (Hwp eq_refl). constructor; [done|]. split; [apply Hwp|by apply Hlog'|done].
Qed.

(** ** The other calls *)

Lemma new_inv : engine_inv 1 engine_new.
Proof.
  split; [|split|done].
  - split; try done. intros ef H. by apply elem_of_nil in H.
  - by intros n [= <-].
  - by intros n [= <-].
  - done.
  - by split.
Qed.

Lemma record_command_rejection_inv first c i m e :
  engine_inv first e → engine_inv first (record_command_rejection c i m e).
Proof.
  intros [Hc Hlog He]. unfold record_command_rejection.
  destruct (next_event_sequence e) as [n|] eqn:En; [|done].
  match goal with |- context [emit_event ?c ?i ?g ?k e] =>
    pose proof (emit_log c i g k e first (λ _, Hlog)) as Hlog';
    destruct (emit_quiet c i g k e) as [[Q1 Q2 Q3 Q4 _] _];
    unfold emit_state in *; set (e' := snd (emit_event c i g k e)) in *;
    assert (He' : counter_error e' = None)
  end.
  { subst e'. unfold emit_event, modify_state. cbn. by rewrite He, En. }
  split; [|by apply Hlog'|done]. destruct Hc as [C1 C2 C3 C4 C5]. split.
  - intros j st. rewrite Q1, Q2, Q4. apply C1.
  - by rewrite Q1.
  - by rewrite Q2.
  - intros j w. rewrite Q2. apply C4.
  - intros ef. rewrite Q3. intros H. unfold effect_wf. rewrite Q1, Q4. by apply C5.
Qed.

Lemma drain_effects_inv first e : engine_inv first e → engine_inv first (snd (drain_effects e)).
Proof.
  intros [[C1 C2 C3 C4 C5] [L1 L2 L3 L4] He]. split; [|by split|done].
  split; try done. intros ef H. by apply elem_of_nil in H.
Qed.

Lemma drain_events_inv first e :
  engine_inv first e → engine_inv (first + len (events e)) (snd (drain_events e)).
Proof.
  intros [[C1 C2 C3 C4 C5] [L1 L2 L3 [_ L4]] He]. split; [by split| |done].
  split; [done|done|done|]. unfold contiguous.
  change (events (snd (drain_events e))) with (@nil ControlEvent). by rewrite len_nil, N.add_0_r.
Qed.
