(* ===== verification/EngineReach.v ===== *)
(** * Runs of the engine

    The calls a host makes on an engine, the states they reach from a new
    one, and what every run preserves: the invariant, the stage of each
    session, and the log of all events ever emitted. *)

From S2P Require Import Prelude RustStr Ids Input SessionTypes RecordTypes ProviderTypes.
From S2P Require Import Control EngineReduce ReduceFacts EngineState EngineCommands.
From S2P Require Import EngineObserve EngineCounters EngineInv EngineCommandFacts.
From S2P Require Import EngineIngestFacts EngineObserveFacts EngineHeadroom EngineEntry.

Local Open Scope N_scope.

(** ** Calls *)

Inductive call :=
| Call_command (envelope : CommandEnvelope)
| Call_observation (envelope : ObservationEnvelope)
| Call_rejection (command_id : CommandId) (instance_id : AgentInstanceId) (message : list N)
| Call_drain_effects
| Call_drain_events.

(** The state a call leaves, whether it accepts or returns an error; [None] is
    a panic. *)
Definition run_call (c : call) (e : Gate4AgentEngine) : option Gate4AgentEngine :=
  match c with
  | Call_command envelope =>
      match apply_command envelope e with
      | (Panic, _) => None
      | (_, e') => Some e'
      end
  | Call_observation envelope => apply_observation envelope e
  | Call_rejection command_id i message =>
      Some (record_command_rejection command_id i message e)
  | Call_drain_effects => Some (snd (drain_effects e))
  | Call_drain_events => Some (snd (drain_events e))
  end.

Fixpoint run_calls (cs : list call) (e : Gate4AgentEngine) : option Gate4AgentEngine :=
  match cs with
  | [] => Some e
  | c :: cs' => e' ← run_call c e; run_calls cs' e'
  end.

Definition reachable (e : Gate4AgentEngine) : Prop := ∃ cs, run_calls cs engine_new = Some e.

(** ** What one call does *)

(** The transitions that [evs] report of instance [j]. *)
Definition reported_of (j : AgentInstanceId) (evs : list ControlEvent)
    : list ProviderInteractionTransition :=
  reported (List.filter (λ ev, bool_decide (ev_instance_id ev = j)) evs).

Lemma reported_of_app j l1 l2 : reported_of j (l1 ++ l2) = reported_of j l1 ++ reported_of j l2.
Proof. unfold reported_of, reported. by rewrite List.filter_app, omap_app. Qed.

Lemma reported_of_same i evs :
  Forall (λ ev, ev_instance_id ev = i) evs → reported_of i evs = reported evs.
Proof.
  intros H. unfold reported_of. f_equal. induction H as [|ev evs Hev _ IH]; cbn; [done|].
  by rewrite bool_decide_eq_true_2, IH.
Qed.

Lemma reported_of_other i j evs :
  i ≠ j → Forall (λ ev, ev_instance_id ev = i) evs → reported_of j evs = [].
Proof.
  intros Hij H. unfold reported_of. induction H as [|ev evs Hev _ IH]; cbn; [done|].
  rewrite bool_decide_eq_false_2 by congruence. exact IH.
Qed.

(** One call: every session makes one legal step of its life, and the events
    it appends replay every session's interactions. *)
Record advances (e e' : Gate4AgentEngine) (evs : list ControlEvent) : Prop := {
  ad_life : ∀ j, life_step (life_of e j) (life_of e' j);
  ad_effects : issued e e';
  ad_events : events e' = events e ++ evs;
  ad_replay : ∀ j, replay (open_of e j) (reported_of j evs) = Some (open_of e' j)
}.

Lemma open_of_same e e' j : sessions e' !! j = sessions e !! j → open_of e' j = open_of e j.
Proof. unfold open_of. by intros ->. Qed.

Lemma life_of_same e e' j :
  sessions e' !! j = sessions e !! j →
  generation_watermarks e' !! j = generation_watermarks e !! j → life_of e' j = life_of e j.
Proof. unfold life_of. by intros -> ->. Qed.

Lemma commit_advances i e e' : commit i e e' → ∃ evs, advances e e' evs.
Proof.
  intros [F L (evs & E & H & R) I _]. exists evs. split; [|done|done|].
  - intros j. destruct (decide (j = i)) as [->|Hj]; [done|]. destruct (F j Hj).
    rewrite (life_of_same e e' j) by done. constructor.
  - intros j. destruct (decide (j = i)) as [->|Hj]; [by rewrite reported_of_same|].
    rewrite (reported_of_other i) by done. cbn. f_equal. symmetry. by apply open_of_same, F.
Qed.

Lemma same_advances e e' :
  sessions e' = sessions e → generation_watermarks e' = generation_watermarks e →
  issued e e' → events e' = events e → advances e e' [].
Proof.
  intros E1 E2 I E3. split; [|done| |].
  - intros j. rewrite (life_of_same e e' j) by (by rewrite ?E1, ?E2). constructor.
  - by rewrite app_nil_r.
  - intros j. cbn. f_equal. symmetry. apply open_of_same. by rewrite E1.
Qed.

Lemma retire_advances first e err :
  log_inv first e → advances e (retire_exhausted_counter e err) [].
Proof.
  intros Hl. destruct (retire_same e err) as (E1 & E2 & E4 & E3 & _). apply same_advances; try done.
  split; [|by exists (λ _, true); left; rewrite retain_all].
  destruct err; try done. cbn. by apply next_raw_range, Hl.
Qed.

Lemma outcome_advances first cmd e r e' :
  command_outcome first cmd e r e' → engine_inv first e → ∃ evs, advances e e' evs.
Proof.
  intros [e1 Hc _|err|err e1 _ Hr Hinv|err _ _] Hi.
  - by eapply commit_advances.
  - exists []. apply same_advances; try done. by apply drops_issues, drops_same.
  - destruct (refused_batch_ingested _ _ _ _ Hr) as (i & st & src & n & _ & Hin).
    apply (commit_advances i), (in_commit _ _ _ _ _ _ _ Hin), Hinv.
  - exists []. by eapply retire_advances, Hi.
Qed.

Lemma outcome_inv first cmd e r e' :
  engine_inv first e → command_outcome first cmd e r e' → engine_inv first e'.
Proof. by intros H [e1 Hc Hi|err|err e1 _ Hr Hi|err _ Hi]. Qed.

Lemma rejection_advances first c i m e :
  engine_inv first e → ∃ evs, advances e (record_command_rejection c i m e) evs.
Proof.
  intros [_ _ He]. unfold record_command_rejection.
  destruct (next_event_sequence e) as [n|] eqn:En;
    [|exists []; apply same_advances; try done; by apply drops_issues, drops_same].
  match goal with |- context [emit_event ?c ?i ?g ?k e] =>
    exists [MkControlEvent n c i g k];
    assert (E : snd (emit_event c i g k e)
      = e <| next_event_sequence := checked_add n 1 |>
          <| events := events e ++ [MkControlEvent n c i g k] |>)
  end.
  { unfold emit_event, modify_state. cbn. by rewrite He, En. }
  rewrite E. split; [intros j; constructor|by apply drops_issues, drops_same|done|].
  intros j. unfold reported_of. cbn. by case_bool_decide.
Qed.

Lemma panicking e env :
  mismatched_input e env → try_apply_observation env e = (Panic, snd (try_apply_observation env e)).
Proof.
  intros Hm. apply mismatched_input_panics in Hm. unfold try_apply_observation.
  destruct (apply_observation_in_place env e) as [r e'] eqn:E. cbn in Hm. subst r.
  by destruct (_ && _).
Qed.

(** Without the panic of a mismatched input observation. *)
Lemma apply_observation_Some e env e' :
  apply_observation env e = Some e' →
  ¬ mismatched_input e env ∧ e' = snd (try_apply_observation env e).
Proof.
  unfold apply_observation. intros H. split.
  - intros Hm. rewrite (panicking _ _ Hm) in H. done.
  - by destruct (try_apply_observation env e) as [[]]; simplify_eq.
Qed.

(** The log base after a call. *)
Definition base_after (c : call) (e : Gate4AgentEngine) (first : N) : N :=
  match c with
  | Call_drain_events => first + len (events e)
  | _ => first
  end.

Lemma run_call_inv first c e e' :
  engine_inv first e → run_call c e = Some e' → engine_inv (base_after c e first) e'.
Proof.
  intros Hinv. destruct c as [[c cmd]|env|c i m| |]; cbn.
  - pose proof (apply_command_outcome first c cmd e Hinv) as Ho. cbn zeta in Ho.
    apply (outcome_inv _ _ _ _ _ Hinv) in Ho. destruct (apply_command _ e) as [[| |] e1]; naive_solver.
  - intros [Hm ->]%apply_observation_Some.
    pose proof (try_apply_observation_outcome first env e Hinv Hm) as Ho. cbn zeta in Ho. by destruct Ho.
  - intros [= <-]. by apply record_command_rejection_inv.
  - intros [= <-]. by apply drain_effects_inv.
  - intros [= <-]. by apply drain_events_inv.
Qed.

(** What a call does to the sessions and the events, draining aside. *)
Lemma run_call_advances first c e e' :
  engine_inv first e → run_call c e = Some e' →
  match c with
  | Call_drain_events => advances e (e' <| events := events e |>) [] ∧ events e' = []
  | _ => ∃ evs, advances e e' evs
  end.
Proof.
  intros Hinv. pose proof (ei_error _ _ Hinv) as He. destruct c as [[c cmd]|env|c i m| |]; cbn.
  - pose proof (apply_command_outcome first c cmd e Hinv) as Ho. cbn zeta in Ho.
    apply outcome_advances in Ho; [|done]. destruct (apply_command _ e) as [[| |] e1]; naive_solver.
  - intros [Hm ->]%apply_observation_Some.
    pose proof (try_apply_observation_outcome first env e Hinv Hm) as Ho. cbn zeta in Ho.
    destruct Ho as [e1 Hc _|err _]; [by eapply commit_advances|].
    exists []. by eapply retire_advances, Hinv.
  - intros [= <-]. by eapply rejection_advances.
  - intros [= <-]. exists []. apply same_advances; try done. apply drops_issues. split; [done|].
    exists (λ _, false). by induction (effects e).
  - intros [= <-]. split; [|done]. apply same_advances; try done. by apply drops_issues, drops_same.
Qed.

Lemma run_calls_inv cs : ∀ first e e',
  engine_inv first e → run_calls cs e = Some e' → ∃ first', engine_inv first' e'.
Proof.
  induction cs as [|c cs IH]; intros first e e' Hinv; cbn.
  - intros [= <-]. by exists first.
  - destruct (run_call c e) as [e1|] eqn:E; [|done]. cbn.
    intros H. eapply IH; [|exact H]. by eapply run_call_inv.
Qed.

Lemma run_calls_app cs1 cs2 e :
  run_calls (cs1 ++ cs2) e = (e' ← run_calls cs1 e; run_calls cs2 e').
Proof.
  revert e. induction cs1 as [|c cs1 IH]; intros e; cbn; [done|].
  destruct (run_call c e); cbn; [apply IH|done].
Qed.

Lemma reachable_engine_inv e : reachable e → ∃ first, engine_inv first e.
Proof. intros [cs H]. eapply run_calls_inv; [apply new_inv|done]. Qed.

Lemma reachable_core e : reachable e → core_inv e.
Proof. intros [first H]%reachable_engine_inv. apply H. Qed.

Lemma reachable_run cs e e' : reachable e → run_calls cs e = Some e' → reachable e'.
Proof. intros [cs0 H0] H. exists (cs0 ++ cs). by rewrite run_calls_app, H0. Qed.

(** ** Stages

    The watermark of an instance and how far its session has come in that
    generation, ordered lexicographically. *)

Definition status_rank (st : SessionStatus) : N :=
  match st with
  | Registered => 1
  | Starting => 2
  | Running => 3
  | Stopping => 4
  | Exited _ | Failed _ => 5
  end.

Definition stage_of (l : life) : N * N :=
  match l with
  | (Some (_, st), Some w) => (generation_raw w, status_rank st)
  | (None, Some w) => (generation_raw w, 6)
  | (_, None) => (0, 0)
  end.

Definition stage (e : Gate4AgentEngine) (i : AgentInstanceId) : N * N := stage_of (life_of e i).

Definition stage_lt (x y : N * N) : Prop :=
  fst x < fst y ∨ fst x = fst y ∧ snd x < snd y.

Lemma stage_lt_trans x y z : stage_lt x y → stage_lt y z → stage_lt x z.
Proof. unfold stage_lt. lia. Qed.

Lemma life_step_stage l l' :
  life_step l l' → (∀ g st w, l = (Some (g, st), w) → is_Some w) →
  l' = l ∨ stage_lt (stage_of l) (stage_of l').
Proof.
  intros [ | |g|g st Hst|g w|g st w Hst|g st code w Hst|g st m w Hst|g st w Hst] Hw;
    [by left|right..]; unfold stage_lt; cbn; try lia.
  - by destruct (Hw _ _ _ eq_refl) as [x ->]; cbn; lia.
  - destruct (Hw _ _ _ eq_refl) as [x ->]; cbn. destruct Hst as [-> | ->]; cbn; lia.
  - destruct (Hw _ _ _ eq_refl) as [x ->]; cbn. destruct st; cbn in *; try done; lia.
  - destruct (Hw _ _ _ eq_refl) as [x ->]; cbn. destruct Hst as [-> | ->]; cbn; lia.
  - destruct (Hw _ _ _ eq_refl) as [x ->]; cbn. destruct st; cbn; lia.
Qed.

Lemma life_watermark e i g st w :
  core_inv e → life_of e i = (Some (g, st), w) → w = Some g.
Proof.
  intros Hc. unfold life_of. destruct (sessions e !! i) as [s|] eqn:Hs; [|done].
  destruct (ci_session _ Hc _ _ Hs) as [_ ->]. cbn. by intros [= <- _ <-].
Qed.

Lemma advances_stage e e' evs i :
  core_inv e → advances e e' evs →
  life_of e' i = life_of e i ∨ stage_lt (stage e i) (stage e' i).
Proof.
  intros Hc [Hl _ _ _]. apply life_step_stage; [apply Hl|].
  intros g st w H. apply (life_watermark _ _ _ _ _ Hc) in H as ->. by eexists.
Qed.

Lemma run_calls_stage cs i : ∀ first e e',
  engine_inv first e → run_calls cs e = Some e' →
  life_of e' i = life_of e i ∨ stage_lt (stage e i) (stage e' i).
Proof.
  induction cs as [|c cs IH]; intros first e e' Hinv; cbn [run_calls].
  { intros [= <-]. by left. }
  destruct (run_call c e) as [e1|] eqn:E; [|done]. cbn [mbind option_bind]. intros H.
  pose proof (run_call_inv _ _ _ _ Hinv E) as Hinv1.
  assert (H1 : life_of e1 i = life_of e i ∨ stage_lt (stage e i) (stage e1 i)).
  { apply (run_call_advances first) in E; [|done].
    pose proof (ei_core _ _ Hinv) as Hc.
    destruct c; try (destruct E as [evs E]; by apply (advances_stage _ _ _ i Hc) in E).
    destruct E as [E _]. by apply (advances_stage _ _ _ i Hc) in E. }
  destruct (IH _ _ _ Hinv1 H) as [H2|H2], H1 as [H1|H1].
  - left. congruence.
  - right. unfold stage in *. by rewrite H2.
  - right. unfold stage in *. by rewrite <- H1.
  - right. by eapply stage_lt_trans.
Qed.

(** ** Effects, known by operation and generation *)

Definition effect_key (ef : EffectEnvelope) : AgentInstanceId * OperationId * SessionGeneration :=
  (ee_instance_id ef, ee_operation_id ef, ee_generation ef).

(** Distinct effects, of operations allocated and generations begun. *)
Record known (e : Gate4AgentEngine) (l : list EffectEnvelope) : Prop := {
  kn_distinct : NoDup (effect_key <$> l);
  kn_operation ef : ef ∈ l → operation_raw (ee_operation_id ef) < next_raw (next_operation_id e);
  kn_generation ef : ef ∈ l →
    ∃ w, generation_watermarks e !! ee_instance_id ef = Some w
         ∧ generation_raw (ee_generation ef) <= generation_raw w
}.

Lemma life_step_watermark l l' w :
  life_step l l' → snd l = Some w →
  ∃ w', snd l' = Some w' ∧ generation_raw w <= generation_raw w'.
Proof.
  intros [ | |g|g st Hst|g w0|g st w0 Hst|g st code w0 Hst|g st m w0 Hst|g st w0 Hst]; cbn;
    intros H; simplify_eq; (eexists; split; [done|cbn; lia]).
Qed.

Lemma retain_sub {A} p (l l1 : list A) : sublist (l1 ++ retain p l) (l1 ++ l).
Proof.
  apply sublist_app; [done|]. induction l as [|x l IH]; cbn; [done|].
  destruct (p x); by constructor.
Qed.

(** An effect just issued is not a known one. *)
Lemma issued_fresh l e ef :
  known e l →
  next_raw (next_operation_id e) <= operation_raw (ee_operation_id ef) ∨ begins_generation e ef →
  effect_key ef ∉ effect_key <$> l.
Proof.
  intros [_ K2 K3] Hnew H. apply list_elem_of_fmap in H as (ef0 & E & Hl).
  unfold effect_key in E. injection E as Ei Eo Eg. destruct Hnew as [Hop|Hgen].
  - specialize (K2 _ Hl). rewrite <- Eo in K2. lia.
  - destruct (K3 _ Hl) as (w & Hw & Hle). rewrite <- Ei in Hw. specialize (Hgen w Hw).
    rewrite <- Eg in Hle. lia.
Qed.

Lemma advances_known l e e' evs :
  known e (l ++ effects e) → core_inv e' → advances e e' evs → known e' (l ++ effects e').
Proof.
  intros Hk Hc [Hl [Hn [p Hp]] _ _]. pose proof Hk as [K1 K2 K3].
  assert (Hold : ∀ l', sublist l' (l ++ effects e) → known e' l').
  { intros l' Hs. split.
    - eapply sublist_NoDup; [exact K1|]. by apply fmap_sublist.
    - intros ef H. specialize (K2 ef (elem_of_sublist _ _ _ H Hs)). lia.
    - intros ef H. destruct (K3 ef (elem_of_sublist _ _ _ H Hs)) as (w & Hw & Hle).
      destruct (life_step_watermark _ _ w (Hl (ee_instance_id ef)) Hw) as (w' & Hw' & Hle').
      exists w'. split; [exact Hw'|lia]. }
  pose proof (Hold _ (retain_sub p (effects e) l)) as [O1 O2 O3].
  destruct Hp as [-> |(ef & E & _ & Hop & Hnew)]; [done|]. rewrite E, (assoc_L app).
  destruct (ci_effects _ Hc ef) as (st & Hst & Hg & Ho); [rewrite E; set_solver|].
  split.
  - rewrite fmap_app. apply NoDup_app. split_and!; [done| |apply NoDup_singleton].
    intros k Hin ->%list_elem_of_singleton. apply (issued_fresh _ _ ef Hk Hnew).
    eapply elem_of_sublist; [exact Hin|]. apply fmap_sublist, retain_sub.
  - intros ef' [H| ->%list_elem_of_singleton]%elem_of_app; [by apply O2|done].
  - intros ef' [H| ->%list_elem_of_singleton]%elem_of_app; [by apply O3|].
    exists (generation_of st). split; [by apply (ci_session _ Hc)|done].
Qed.

(** ** What the host has taken

    A host drains events to publish and effects to execute. *)

Record host := MkHost {
  host_events : list ControlEvent;
  host_effects : list EffectEnvelope
}.

Definition host_call (c : call) (e : Gate4AgentEngine) (h : host) : host :=
  match c with
  | Call_drain_events => MkHost (host_events h ++ fst (drain_events e)) (host_effects h)
  | Call_drain_effects => MkHost (host_events h) (host_effects h ++ fst (drain_effects e))
  | _ => h
  end.

Fixpoint trace_calls (cs : list call) (h : host) (e : Gate4AgentEngine)
    : option (host * Gate4AgentEngine) :=
  match cs with
  | [] => Some (h, e)
  | c :: cs' => e' ← run_call c e; trace_calls cs' (host_call c e h) e'
  end.

(** Every event ever emitted is numbered from 1 without gaps, a subscriber to
    the log knows the open interactions of every session, and the effects ever
    handed out are distinct. *)
Record traced (h : host) (e : Gate4AgentEngine) : Prop := {
  tr_inv : engine_inv (1 + len (host_events h)) e;
  tr_numbers : ∀ k ev,
    (host_events h ++ events e) !! k = Some ev → ev_sequence ev = 1 + N.of_nat k;
  tr_replay : ∀ j, replay [] (reported_of j (host_events h ++ events e)) = Some (open_of e j);
  tr_effects : known e (host_effects h ++ effects e)
}.

Lemma numbers_app first drained l next :
  first = 1 + len drained →
  (∀ k ev, drained !! k = Some ev → ev_sequence ev = 1 + N.of_nat k) →
  contiguous first l next →
  ∀ k ev, (drained ++ l) !! k = Some ev → ev_sequence ev = 1 + N.of_nat k.
Proof.
  intros -> Hd [Hl _] k ev [H|[Hk H]]%lookup_app_Some; [by apply Hd|].
  rewrite (Hl _ _ H). unfold len. lia.
Qed.

(** A call that drains nothing. *)
Lemma advances_traced h e e' evs :
  traced h e → advances e e' evs → engine_inv (1 + len (host_events h)) e' → traced h e'.
Proof.
  intros [Hinv Hn Hr Hk] Ha Hi. split; [done| | |].
  - eapply numbers_app; [done| |apply (li_events _ _ (ei_log _ _ Hi))].
    intros k ev H. apply Hn. by apply lookup_app_l_Some.
  - intros j. rewrite (ad_events _ _ _ Ha), app_assoc, reported_of_app, replay_app, Hr.
    apply (ad_replay _ _ _ Ha).
  - by eapply advances_known; [|apply Hi|].
Qed.

Lemma known_same e e' l :
  next_operation_id e' = next_operation_id e → generation_watermarks e' = generation_watermarks e →
  known e l → known e' l.
Proof. intros E1 E2 [K1 K2 K3]. split; by rewrite ?E1, ?E2. Qed.

Lemma drain_events_traced h e :
  traced h e → traced (host_call Call_drain_events e h) (snd (drain_events e)).
Proof.
  intros [Hinv Hn Hr Hk]. apply drain_events_inv in Hinv. split; cbn.
  - by rewrite len_app, N.add_assoc.
  - by rewrite app_nil_r.
  - by rewrite app_nil_r.
  - by eapply known_same, Hk.
Qed.

Lemma drain_effects_traced h e :
  traced h e → traced (host_call Call_drain_effects e h) (snd (drain_effects e)).
Proof.
  intros [Hinv Hn Hr Hk]. split; [by apply drain_effects_inv|done|done|].
  cbn. rewrite app_nil_r. by eapply known_same, Hk.
Qed.

Lemma run_call_traced c h e e' : traced h e → run_call c e = Some e' → traced (host_call c e h) e'.
Proof.
  intros Ht E. pose proof (tr_inv _ _ Ht) as Hinv. pose proof (run_call_inv _ _ _ _ Hinv E) as Hinv'.
  pose proof (run_call_advances _ _ _ _ Hinv E) as Ha.
  destruct c; try (destruct Ha as [evs Ha]; by eapply (advances_traced h)).
  - injection E as <-. by apply drain_effects_traced.
  - injection E as <-. by apply drain_events_traced.
Qed.

Lemma trace_calls_traced cs : ∀ h e h' e',
  traced h e → trace_calls cs h e = Some (h', e') → traced h' e'.
Proof.
  induction cs as [|c cs IH]; intros h e h' e' Ht; cbn; [by intros [= <- <-]|].
  destruct (run_call c e) as [e1|] eqn:E; [|done]. cbn. apply IH. by apply run_call_traced.
Qed.

Lemma new_traced : traced (MkHost [] []) engine_new.
Proof.
  split; [apply new_inv|done|done|].
  split; [by constructor|by intros ? ?%elem_of_nil|by intros ? ?%elem_of_nil].
Qed.
