(* ===== verification/EngineFrame.v ===== *)
(** * What a call may change

    A call of one instance is confined to that instance: the sessions,
    watermarks and queued effects of the others stay, and the events it logs
    are about its own. *)

From S2P Require Import Prelude RustStr Ids Input SessionTypes RecordTypes ProviderTypes.
From S2P Require Import Control EngineReduce ReduceFacts EngineState EngineCommands.
From S2P Require Import EngineObserve EngineRespects EngineCounters.

Local Open Scope N_scope.

Definition effects_of (j : AgentInstanceId) (l : list EffectEnvelope) : list EffectEnvelope :=
  retain (λ ef, bool_decide (ee_instance_id ef = j)) l.

Lemma effects_of_app j l1 l2 : effects_of j (l1 ++ l2) = effects_of j l1 ++ effects_of j l2.
Proof. unfold effects_of. by rewrite !retain_filter, List.filter_app. Qed.

Lemma effects_of_retain j p l :
  (∀ ef, ee_instance_id ef = j → p ef = true) → effects_of j (retain p l) = effects_of j l.
Proof.
  intros Hp. unfold effects_of. induction l as [|ef l IH]; cbn; [done|].
  destruct (p ef) eqn:E; cbn; [by rewrite IH|]. rewrite IH. case_bool_decide as H; [|done].
  by rewrite (Hp _ H) in E.
Qed.

(** What a call of instance [i] may change: its own session, watermark and
    effects, and the log, where its events are about [i]. *)
Record confined (i : AgentInstanceId) (e e' : Gate4AgentEngine) : Prop := {
  cf_sessions j : j ≠ i → sessions e' !! j = sessions e !! j;
  cf_watermarks j :
    j ≠ i → generation_watermarks e' !! j = generation_watermarks e !! j;
  cf_effects j : j ≠ i → effects_of j (effects e') = effects_of j (effects e);
  cf_events : ∃ evs, events e' = events e ++ evs ∧ Forall (λ ev, ev_instance_id ev = i) evs
}.

(** Nothing but counters changed, and events of [i] were logged. *)
Lemma confined_log i e e' evs :
  sessions e' = sessions e → generation_watermarks e' = generation_watermarks e →
  effects e' = effects e → events e' = events e ++ evs →
  Forall (λ ev, ev_instance_id ev = i) evs → confined i e e'.
Proof. intros E1 E2 E3 E4 H. split; intros; by rewrite ?E1, ?E2, ?E3 || by exists evs. Qed.

Lemma confined_same i e e' :
  sessions e' = sessions e → generation_watermarks e' = generation_watermarks e →
  effects e' = effects e → events e' = events e → confined i e e'.
Proof. intros E1 E2 E3 E4. apply (confined_log i e e' []); try done. by rewrite app_nil_r. Qed.

#[export] Instance confined_preorder i : PreOrder (confined i).
Proof.
  split; [intros e; by apply confined_same|].
  intros e1 e2 e3 [A1 B1 C1 (l1 & D1 & F1)] [A2 B2 C2 (l2 & D2 & F2)]. split; intros.
  - by rewrite A2, A1.
  - by rewrite B2, B1.
  - by rewrite C2, C1.
  - exists (l1 ++ l2). by rewrite D2, D1, (assoc_L app), Forall_app.
Qed.

(** A step on the data of [i]. *)
Lemma confined_data i e e' :
  (∀ j, j ≠ i → sessions e' !! j = sessions e !! j) →
  (∀ j, j ≠ i → generation_watermarks e' !! j = generation_watermarks e !! j) →
  (∀ j, j ≠ i → effects_of j (effects e') = effects_of j (effects e)) →
  events e' = events e → confined i e e'.
Proof. intros H1 H2 H3 E. split; [done..|]. exists []. by rewrite app_nil_r. Qed.

#[export] Instance confined_closed_data i : DataClosed i (confined i).
Proof.
  split; [apply _|..]; intros; apply confined_data; try done; intros j Hj.
  - by apply lookup_insert_ne.
  - by apply lookup_delete_ne.
  - by apply lookup_insert_ne.
  - refine (eq_trans (effects_of_app j (effects e) _) _). cbn.
    by rewrite bool_decide_eq_false_2, app_nil_r by congruence.
  - apply (effects_of_retain j p (effects e)). intros ef Hef. apply H. congruence.
Qed.

#[export] Instance confined_closed i : CallClosed i (confined i).
Proof.
  split; [apply _|intros; by apply confined_same|..].
  - intros e. destruct (bump_quiet e) as [[Q1 Q2 Q3 _ _] Qe]. by apply confined_same.
  - intros e. rewrite allocate_run. destruct (counter_error e); [by apply confined_same|].
    destruct (next_operation_id e); by apply confined_same.
  - intros c g k e. unfold emit_event, modify_state. cbn [snd].
    destruct (counter_error e); [by apply confined_same|].
    destruct (next_event_sequence e) as [n|]; [|by apply confined_same].
    by apply (confined_log i _ _ [MkControlEvent n c i g k]); [..|constructor].
Qed.

(** ** The entry points *)

Lemma retire_confined i e err : confined i e (retire_exhausted_counter e err).
Proof. destruct err; by apply confined_same. Qed.

Lemma apply_command_confined env e :
  confined (command_instance_id (ce_command env)) e (snd (apply_command env e)).
Proof.
  pose proof (command_respects _ (confined _) env eq_refl e) as H.
  unfold apply_command. destruct (has_counter_headroom e); [done|].
  destruct (apply_command_in_place env e) as [[|err|] e']; [|done|done].
  unfold commit_candidate. destruct (counter_error e'); [apply retire_confined|done].
Qed.

Lemma apply_observation_confined env e :
  confined (oe_instance_id env) e (snd (try_apply_observation env e)).
Proof.
  pose proof (observation_respects _ (confined _) env eq_refl e) as H.
  unfold try_apply_observation. destruct (_ && _); [done|].
  destruct (apply_observation_in_place env e) as [[|err|] e']; [..|done];
    unfold commit_candidate; (destruct (counter_error e'); [apply retire_confined|done]).
Qed.

Lemma rejection_confined c i m e : confined i e (record_command_rejection c i m e).
Proof.
  unfold record_command_rejection. destruct (next_event_sequence e); [|done].
  apply (cc_emit (i:=i) (R:=confined i)).
Qed.
