(* ===== verification/EngineRuns.v ===== *)
(** * Exact runs

    What the primitives of the engine compute while no counter is exhausted,
    and the small runs that the examples of EngineTheorems start from. *)

From S2P Require Import Prelude RustStr Ids Input SessionTypes RecordTypes ProviderTypes.
From S2P Require Import Control EngineReduce ReduceFacts EngineState EngineCommands.
From S2P Require Import EngineObserve EngineCounters EngineInv EngineCommandFacts.
From S2P Require Import EngineEntry EngineReach.

Local Open Scope N_scope.

(** ** Counters in range *)

(** No counter ran out, and the next operation, event and revision exist. *)
Record ready (e : Gate4AgentEngine) (op seq : N) : Prop := {
  rd_error : counter_error e = None;
  rd_operation : next_operation_id e = Some op;
  rd_event : next_event_sequence e = Some seq;
  rd_revision : revision e < U64_MAX
}.

Lemma headroom_ready e : headroom e → ∃ op seq, ready e op seq.
Proof.
  intros [H1 H2 H3 [op H4]]. destruct (next_event_sequence e) as [seq|] eqn:E.
  - exists op, seq. split; [done|done|done|]. unfold CONTROL_REVISION_HEADROOM in H3. lia.
  - exfalso. change (next_raw None) with (U64_MAX + 1) in H2.
    unfold CONTROL_EVENT_HEADROOM in H2. lia.
Qed.

(** The effect of an event and of a revision on the state. *)
Definition log_event (seq : N) (c : option CommandId) (i : AgentInstanceId)
    (g : SessionGeneration) (k : ControlEventKind) (e : Gate4AgentEngine) : Gate4AgentEngine :=
  e <| next_event_sequence := checked_add seq 1 |>
    <| events := events e ++ [MkControlEvent seq c i g k] |>.
Definition tick (e : Gate4AgentEngine) : Gate4AgentEngine := e <| revision := revision e + 1 |>.

Lemma emit_exact e seq c i g k :
  counter_error e = None → next_event_sequence e = Some seq →
  emit_event c i g k e = (Done tt, log_event seq c i g k e).
Proof. intros H1 H2. unfold emit_event, modify_state. by rewrite H1, H2. Qed.

Lemma bump_exact e :
  counter_error e = None → revision e < U64_MAX → bump_revision e = (Done tt, tick e).
Proof.
  intros H1 H2. unfold bump_revision, modify_state. rewrite H1.
  destruct (checked_add _ _) as [r|] eqn:E.
  - by apply checked_add_Some in E as [-> _].
  - apply checked_add_None in E. lia.
Qed.

Lemma bind_exact {A B} (m : EngineM A) (k : A → EngineM B) e a e' :
  m e = (Done a, e') → (m ≫= k) e = k a e'.
Proof. intros H. unfold mbind, stm_bind. by rewrite H. Qed.

Lemma update_exact i f st e :
  sessions e !! i = Some st →
  update_state i f e = (Done tt, e <| sessions ::= <[i := f st]> |>).
Proof. intros H. unfold update_state, mbind, stm_bind, get_state. by rewrite H. Qed.

(** A revision and one event. *)
Lemma log_exact e seq c i g k :
  counter_error e = None → next_event_sequence e = Some seq → revision e < U64_MAX →
  (bump_revision ;; emit_event c i g k) e = (Done tt, log_event seq c i g k (tick e)).
Proof.
  intros H1 H2 H3. rewrite (bind_exact _ _ _ _ _ (bump_exact e H1 H3)). by apply emit_exact.
Qed.

(** The state a request leaves. *)
Definition request_state (op seq : N) (c : CommandId) (i : AgentInstanceId)
    (g : SessionGeneration) (st : SessionState) (eff : ControlEffect) (k : ControlEventKind)
    (e : Gate4AgentEngine) : Gate4AgentEngine :=
  log_event seq (Some c) i g k
    (tick (e <| next_operation_id := checked_add op 1 |>
             <| sessions := <[i := st]> (sessions e) |>
             <| effects := effects e ++ [MkEffect (MkOperation op) i g eff] |>)).

(** With headroom the entry points run in place. *)
Lemma apply_command_headroom env e :
  headroom e → apply_command env e = apply_command_in_place env e.
Proof. intros H. apply has_counter_headroom_spec in H. unfold apply_command. by rewrite H. Qed.

Lemma apply_observation_headroom env e :
  headroom e → observation_has_provider_headroom e env = true →
  try_apply_observation env e = apply_observation_in_place env e.
Proof.
  intros H H'. apply has_counter_headroom_spec in H. unfold try_apply_observation.
  by rewrite H, H'.
Qed.

(** ** Examples *)

Section examples.
Definition demo_agent : AgentId := MkAgentId (str "claude").
Definition demo_instance : AgentInstanceId := MkInstance 7.
Definition demo_other : AgentInstanceId := MkInstance 9.
Definition demo_policy : ProviderRuntimePolicy := MkPolicy true true true true true true.
Definition demo_size : TerminalSize := MkTerminalSize 24 80.
Definition demo_request : StartRequest :=
  MkStartRequest (str "/work") demo_size None None Moderate.
Definition demo_source : ProviderSource :=
  MkSource PtySemantic (MkAdapterBinding (MkAdapterId (str "claude-pty")) (str "r1") Reference).

Definition command (n : N) (c : ControlCommand) : call :=
  Call_command (MkCommandEnvelope (MkCommand n) c).
Definition observe (op : option N) (g : N) (o : ControlObservation) : call :=
  Call_observation (MkObservationEnvelope (MkOperation <$> op) demo_instance (MkGeneration g) o).

Definition demo_register : call := command 1 (Cmd_Register demo_instance demo_agent Pty).
Definition demo_start : call := command 2 (Cmd_Start demo_instance demo_policy demo_request).

Definition demo_starting : list call := [demo_register; demo_start].
Definition demo_running : list call := demo_starting ++ [observe (Some 1) 1 (Obs_Spawned (Some 42))].
Definition demo_asking : list call :=
  demo_running ++
  [command 3 (Cmd_IngestProvider demo_instance (MkGeneration 1) demo_source 1
     [PE_InteractionRequested (Some (str "r1")) Question (str "ask") None (str "which?") [] None])].
Definition demo_answering : list call :=
  demo_asking ++
  [command 4 (Cmd_ResolveInteraction demo_instance (MkGeneration 1) (MkInteraction 1)
     (Answer (str "the first")))].
Definition demo_exited : list call :=
  demo_asking ++ [observe None 1 (Obs_ProcessExited (Some 0%Z) None)].

Definition after (cs : list call) : Gate4AgentEngine := default engine_new (run_calls cs engine_new).
Definition session_after (cs : list call) : SessionState :=
  default (registered_state demo_instance demo_agent Pty generation_default)
    (sessions (after cs) !! demo_instance).
Definition demo_identity : ProviderSessionIdentity := MkIdentity KeySessionId (str "s-1") None.
Definition demo_query : HistoryQuery := MkHistoryQuery None 10.
Definition demo_launch : ResumeLaunchRequest := MkResumeRequest (str "/work") demo_size None.
Definition demo_resumed : list call :=
  [demo_register;
   command 2 (Cmd_DiscoverHistory demo_instance demo_query);
   command 3 (Cmd_Resume demo_instance (TargetProviderSession demo_identity) demo_policy
                demo_launch);
   observe (Some 2) 0 (Obs_ResumeAuthorized demo_identity)].
End examples.

(** [demo] shows that an example is reachable. *)
Ltac demo cs := exists cs; vm_compute; reflexivity.
