(* ===== verification/EngineTheorems.v ===== *)
(** * What the engine guarantees

    The properties of every state and every call of the engine: the invariant,
    panics, failures, the life of a session, the event log, and the isolation
    of instances. Each is followed by an instance of it on a concrete run. *)

From S2P Require Import Prelude RustStr Ids Input SessionTypes RecordTypes ProviderTypes.
From S2P Require Import Control EngineReduce ReduceFacts EngineState EngineCommands.
From S2P Require Import EngineObserve EngineCounters EngineInv EngineCommandFacts.
From S2P Require Import EngineIngestFacts EngineObserveFacts EngineHeadroom EngineEntry.
From S2P Require Import EngineReach EngineFrame EngineRuns.

Local Open Scope N_scope.

(** ** States *)

(** C1: every state the calls of a host can reach satisfies the engine
    invariant: each session is well formed (its pending operation, resume,
    interactions, probes and history agree with its status and were numbered
    before the next operation id), every queued effect belongs to a registered
    session, the generation of a session is the watermark of its identity, the
    capacities are respected, the queued events are numbered without gaps, and
    no counter error is pending. *)
Theorem reachable_states_valid e : reachable e → ∃ first, engine_inv first e.
Proof. apply reachable_engine_inv. Qed.

Lemma reachable_states_valid_witness :
  ∃ first, engine_inv first (after demo_asking).
Proof. apply reachable_states_valid. demo demo_asking. Defined.

(** ** Panics *)

(** C6: in a reachable state a command never panics: none of the [expect]s and
    [unreachable!]s of its handlers can fail. *)
Theorem apply_command_never_panics env e :
  reachable e → fst (apply_command env e) ≠ Panic.
Proof.
  intros [first Hinv]%reachable_engine_inv. destruct env as [c cmd].
  pose proof (apply_command_outcome first c cmd e Hinv) as H. cbn zeta in H. by destruct H.
Qed.

Lemma apply_command_never_panics_witness :
  fst (apply_command (MkCommandEnvelope (MkCommand 5) (Cmd_Stop demo_instance true))
         (after demo_asking)) ≠ Panic.
Proof. apply apply_command_never_panics. demo demo_asking. Defined.

Lemma mismatched_input_dec e env : mismatched_input e env ∨ ¬ mismatched_input e env.
Proof.
  unfold mismatched_input. destruct (sessions e !! oe_instance_id env) as [st|] eqn:Hst;
    [|right; by intros (st & ? & _)].
  destruct (observation_refusal st env) eqn:Hr; [right; intros (st' & ? & ? & _); congruence|].
  destruct (ss_pending_input (st_snapshot st)) eqn:Hin;
    [right; intros (st' & ? & _ & ? & _); congruence|].
  destruct (oe_observation env); try (left; by exists st); right; by intros (? & _ & _ & _ & ?).
Qed.


Definition demo_resizing : list call :=
  demo_running ++ [command 3 (Cmd_Resize demo_instance (MkTerminalSize 30 100))].


(** ** Failures *)

(** C7: a command that returns an error in a reachable state leaves the engine
    as it was, except in two cases the code intends: a provider batch the
    session's policy refuses moves its source's cursor past the batch, and a
    counter that ran out is retired. *)
Theorem failed_command_is_atomic c cmd err e e' :
  reachable e → apply_command (MkCommandEnvelope c cmd) e = (Fail err, e') →
  e' = e ∨ refused_batch cmd err e e'
  ∨ has_counter_headroom e = false ∧ e' = retire_exhausted_counter e err.
Proof.
  intros [first Hinv]%reachable_engine_inv Hrun.
  pose proof (apply_command_outcome first c cmd e Hinv) as H. cbn zeta in H.
  rewrite Hrun in H. cbn in H. inversion H; subst; [by left|by right; left|].
  right; right. split; [|done]. apply not_true_iff_false. by rewrite has_counter_headroom_spec.
Qed.

Lemma failed_command_is_atomic_witness :
  let e := after demo_running in
  let cmd := Cmd_Register demo_instance demo_agent Pty in
  e = e ∨ refused_batch cmd (DuplicateInstance demo_instance) e e
  ∨ has_counter_headroom e = false
    ∧ e = retire_exhausted_counter e (DuplicateInstance demo_instance).
Proof.
  cbn zeta. apply (failed_command_is_atomic (MkCommand 9)); [demo demo_running|].
  vm_compute. reflexivity.
Defined.

(** C8: the counter headroom reserved before a command or an observation runs
    in place is enough: whatever it does, no counter runs out half way. *)
Theorem headroom_suffices e :
  reachable e → has_counter_headroom e = true →
  (∀ env, counter_error (snd (apply_command_in_place env e)) = None)
  ∧ (∀ env, observation_has_provider_headroom e env = true →
       counter_error (snd (apply_observation_in_place env e)) = None).
Proof.
  intros [first [Hc Hlog _]]%reachable_engine_inv Hh%has_counter_headroom_spec. split.
  - intros env. eapply cost_headroom; [done|done|..|by apply command_cost]; done.
  - intros env Hp. eapply cost_headroom; [done|done|..|by apply observation_cost]; done.
Qed.

Lemma headroom_suffices_witness :
  (∀ env, counter_error (snd (apply_command_in_place env (after demo_asking))) = None)
  ∧ (∀ env, observation_has_provider_headroom (after demo_asking) env = true →
       counter_error (snd (apply_observation_in_place env (after demo_asking))) = None).
Proof. apply headroom_suffices; [demo demo_asking|vm_compute; reflexivity]. Defined.

(** ** The life of a session *)

(** C4: every call moves every session by at most one legal step of its life:
    registered, starting under the next generation, running, stopping, ended,
    removed. *)
Theorem calls_take_legal_steps c e e' :
  reachable e → run_call c e = Some e' → ∀ i, life_step (life_of e i) (life_of e' i).
Proof.
  intros [first Hinv]%reachable_engine_inv Hrun i.
  apply (run_call_advances first) in Hrun; [|done].
  destruct c; try (destruct Hrun as [evs [H _ _]]; apply H).
  destruct Hrun as [[H _ _] _]. apply (H i).
Qed.

Lemma calls_take_legal_steps_witness :
  life_step (life_of (after demo_starting) demo_instance)
    (life_of (after demo_running) demo_instance).
Proof.
  apply (calls_take_legal_steps (observe (Some 1) 1 (Obs_Spawned (Some 42)))).
  - demo demo_starting.
  - vm_compute. reflexivity.
Defined.

(** C5: along any run an instance only moves forward: its generation watermark
    never decreases, not even when it is removed and registered again, and
    within one generation its status only advances from registered over
    starting, running and stopping to ended and removed; a run that leaves it
    at the same stage leaves its life unchanged. *)
Theorem sessions_only_advance cs e e' i :
  reachable e → run_calls cs e = Some e' →
  life_of e' i = life_of e i ∨ stage_lt (stage e i) (stage e' i).
Proof. intros [first Hinv]%reachable_engine_inv. by apply (run_calls_stage cs i first). Qed.

Lemma sessions_only_advance_witness :
  life_of (after demo_exited) demo_instance = life_of (after demo_running) demo_instance
  ∨ stage_lt (stage (after demo_running) demo_instance) (stage (after demo_exited) demo_instance).
Proof.
  apply (sessions_only_advance (drop 3 demo_exited)); [demo demo_running|].
  vm_compute. reflexivity.
Defined.

(** C2: the events a host has drained and those still queued, in order, are
    numbered from 1 without a gap; and replaying the interaction events of any
    session from the empty list, each transition fitting the ones before, gives
    exactly the interactions that are open in it. *)
Theorem event_log_is_complete cs h e :
  trace_calls cs (MkHost [] []) engine_new = Some (h, e) →
  (∀ k ev, (host_events h ++ events e) !! k = Some ev → ev_sequence ev = 1 + N.of_nat k)
  ∧ (∀ i, replay [] (reported_of i (host_events h ++ events e)) = Some (open_of e i)).
Proof. intros H. by apply trace_calls_traced in H as [_ H1 H2 _]; [|apply new_traced]. Qed.

Lemma event_log_is_complete_witness :
  let '(h, e) := default (MkHost [] [], engine_new)
    (trace_calls (demo_asking ++ [Call_drain_events; demo_register]) (MkHost [] []) engine_new) in
  (∀ k ev, (host_events h ++ events e) !! k = Some ev → ev_sequence ev = 1 + N.of_nat k)
  ∧ (∀ i, replay [] (reported_of i (host_events h ++ events e)) = Some (open_of e i)).
Proof.
  destruct (trace_calls _ _ _) as [[h e]|] eqn:E; [|vm_compute in E; discriminate E].
  exact (event_log_is_complete _ _ _ E).
Defined.

(** C3: no work is handed out twice. The effects a host has drained and those
    still queued never repeat an instance, an operation and a generation, and
    all belong to operations already allocated and to generations already
    begun: an operation id can only come again in another generation, as it
    does when an authorized resume is launched. *)
Theorem effects_are_handed_out_once cs h e :
  trace_calls cs (MkHost [] []) engine_new = Some (h, e) →
  NoDup (effect_key <$> host_effects h ++ effects e)
  ∧ (∀ ef, ef ∈ host_effects h ++ effects e →
       operation_raw (ee_operation_id ef) < next_raw (next_operation_id e)
       ∧ ∃ w, generation_watermarks e !! ee_instance_id ef = Some w
              ∧ generation_raw (ee_generation ef) <= generation_raw w).
Proof.
  intros H. apply trace_calls_traced in H as [_ _ _ [K1 K2 K3]]; [|apply new_traced].
  split; [done|]. intros ef Hef. split; [by apply K2|by apply K3].
Qed.

(** A resume: its authority and its spawn share an operation id. *)
Lemma effects_are_handed_out_once_witness :
  let '(h, e) := default (MkHost [] [], engine_new)
    (trace_calls (take 3 demo_resumed ++ Call_drain_effects :: drop 3 demo_resumed)
       (MkHost [] []) engine_new) in
  NoDup (effect_key <$> host_effects h ++ effects e).
Proof.
  destruct (trace_calls _ _ _) as [[h e]|] eqn:E; [|vm_compute in E; discriminate E].
  exact (proj1 (effects_are_handed_out_once _ _ _ E)).
Defined.

(** ** Isolation *)

(** The instance a call addresses. *)
Definition call_instance (c : call) : option AgentInstanceId :=
  match c with
  | Call_command envelope => Some (command_instance_id (ce_command envelope))
  | Call_observation envelope => Some (oe_instance_id envelope)
  | Call_rejection _ i _ => Some i
  | Call_drain_effects | Call_drain_events => None
  end.

(** C10: a command, an observation or a recorded rejection of one instance is
    confined to it: the sessions, the generation watermarks and the queued
    effects of every other instance stay as they were, and every event it logs
    is about its own instance. It holds in every state, whatever the outcome. *)
Theorem instances_are_isolated c i e e' :
  run_call c e = Some e' → call_instance c = Some i → confined i e e'.
Proof.
  intros Hrun Hi. destruct c as [env|env|c k m| |]; cbn in Hrun, Hi; simplify_eq.
  - pose proof (apply_command_confined env e) as H.
    by destruct (apply_command env e) as [[] e1]; simplify_eq.
  - apply apply_observation_Some in Hrun as [_ ->]. apply apply_observation_confined.
  - apply rejection_confined.
Qed.

Lemma instances_are_isolated_witness :
  let e := after demo_running in
  confined demo_other e
    (snd (apply_command (MkCommandEnvelope (MkCommand 4)
            (Cmd_Register demo_other demo_agent Acp)) e)).
Proof.
  cbn zeta.
  apply (instances_are_isolated (command 4 (Cmd_Register demo_other demo_agent Acp)) demo_other).
  - vm_compute. reflexivity.
  - reflexivity.
Defined.
