(* ===== verification/EngineSpecs.v ===== *)
(** * What the commands and observations do

    The functional behaviour of the session life cycle: registration, launch,
    stop, exit and removal, the observations that are ignored, and the reading
    of the engine. *)

From S2P Require Import Prelude RustStr Ids Input SessionTypes RecordTypes ProviderTypes.
From S2P Require Import Control EngineReduce ReduceFacts EngineState EngineCommands.
From S2P Require Import EngineObserve EngineCounters EngineInv EngineCommandFacts.
From S2P Require Import EngineIngestFacts EngineObserveFacts EngineHeadroom EngineEntry.
From S2P Require Import EngineReach EngineFrame EngineRuns.

Local Open Scope N_scope.

(** ** Rules *)

Lemma wp_exact {A} (m : EngineM A) Q (F : ControlError → Gate4AgentEngine → Prop) e a e' :
  m e = (Done a, e') → Q a e' → wp m Q F e.
Proof. unfold wp. by intros ->. Qed.

(** A command's outcome under headroom, from its handler's. *)
Lemma apply_command_wp c cmd e Q F :
  headroom e →
  wp (apply_command_in_place (MkCommandEnvelope c cmd)) Q F e →
  let r := apply_command (MkCommandEnvelope c cmd) e in
  match fst r with
  | Done _ => Q tt (snd r)
  | Fail err => F err (snd r)
  | Panic => False
  end.
Proof.
  intros Hh. rewrite (apply_command_headroom _ _ Hh). unfold wp. cbn zeta.
  destruct (apply_command_in_place _ e) as [[[]| |] e']; done.
Qed.

Lemma ready_unique e op seq op' seq' : ready e op seq → ready e op' seq' → op = op' ∧ seq = seq'.
Proof. intros [_ H1 H2 _] [_ H3 H4 _]. split; congruence. Qed.

(** [step] runs the first instruction of a computation. *)
Ltac step := etransitivity; [apply bind_exact; reflexivity|].

(** ** Registration *)

(** The engine after a registration. *)
Definition registered_engine (seq : N) (c : CommandId) (i : AgentInstanceId) (a : AgentId)
    (t : TransportKind) (g : SessionGeneration) (e : Gate4AgentEngine) : Gate4AgentEngine :=
  log_event seq (Some c) i g Ev_Registered
    (tick (e <| sessions ::= <[i := registered_state i a t g]> |>
             <| generation_watermarks ::= <[i := g]> |>)).

(** Registering an instance has exactly these outcomes: a duplicate, a full
    session table, a full identity table (only for an identity never seen) or
    an exhausted generation is refused and changes nothing; otherwise the
    session exists with the default generation, or with the one after the
    watermark of an identity that was removed, and one event says so. *)
Theorem register_spec c i a t e op seq :
  reachable e → has_counter_headroom e = true → ready e op seq →
  apply_command (MkCommandEnvelope c (Cmd_Register i a t)) e
  = match sessions e !! i with
    | Some _ => (Fail (DuplicateInstance i), e)
    | None =>
        if CONTROL_SESSIONS_MAX <=? N.of_nat (size (sessions e))
        then (Fail (SessionCapacityExceeded i CONTROL_SESSIONS_MAX), e)
        else
          match generation_watermarks e !! i with
          | None =>
              if CONTROL_INSTANCE_IDENTITIES_MAX <=? N.of_nat (size (generation_watermarks e))
              then (Fail (InstanceIdentityCapacityExceeded i CONTROL_INSTANCE_IDENTITIES_MAX), e)
              else (Done tt, registered_engine seq c i a t generation_default e)
          | Some w =>
              if generation_raw w =? U64_MAX then (Fail (GenerationExhausted i w), e)
              else (Done tt, registered_engine seq c i a t (next_generation w) e)
          end
    end.
Proof.
  intros Hc%reachable_core Hh%has_counter_headroom_spec Hr.
  rewrite (apply_command_headroom _ _ Hh). unfold apply_command_in_place. cbn [ce_id ce_command].
  assert (Htail : ∀ g,
    (modify_state (λ e, e <| sessions ::= <[i := registered_state i a t g]> |>) ;;
     set_watermark i g ;; bump_revision ;; emit_event (Some c) i g Ev_Registered) e
    = (Done tt, registered_engine seq c i a t g e)).
  { intros g. do 2 step.
    by apply log_exact; destruct Hr. }
  unfold register. step.
  destruct (sessions e !! i) as [st|]; [done|].
  step.
  destruct (_ <=? N.of_nat (size (sessions e))); [done|]. step.
  destruct (generation_watermarks e !! i) as [w|] eqn:Hw; cbn [andb negb].
  - step. unfold checked_next_generation.
    pose proof (ci_watermarks _ Hc i w Hw) as Hmax.
    destruct (checked_add _ _) as [n|] eqn:E.
    + apply checked_add_Some in E as [-> E]. replace (_ =? U64_MAX) with false
        by (symmetry; apply N.eqb_neq; lia).
      step. apply Htail.
    + apply checked_add_None in E. by replace (_ =? U64_MAX) with true
        by (symmetry; apply N.eqb_eq; lia).
  - rewrite bool_decide_eq_false_2 by (by intros []). cbn [andb negb].
    destruct (_ <=? N.of_nat (size (generation_watermarks e))); [done|].
    do 2 step.
    apply Htail.
Qed.

Definition demo_removed : list call := demo_exited ++ [command 8 (Cmd_Remove demo_instance)].

Lemma register_spec_witness :
  fst (apply_command (MkCommandEnvelope (MkCommand 9) (Cmd_Register demo_instance demo_agent Acp))
         (after demo_removed)) = Done tt.
Proof.
  rewrite (register_spec _ _ _ _ (after demo_removed) 2 9);
    [vm_compute; reflexivity|demo demo_removed|vm_compute; reflexivity|].
  split; vm_compute; reflexivity.
Defined.

(** ** Launch *)

(** The history work queued for an instance. *)
Definition is_history_effect (i : AgentInstanceId) (effect : EffectEnvelope) : bool :=
  bool_decide (ee_instance_id effect = i)
  && match ee_effect effect with
     | Eff_DiscoverHistory _ _ | Eff_LoadHistory _ _ => true
     | _ => false
     end.

(** The engine after a launch. *)
Definition launched_engine (op seq : N) (c : CommandId) (i : AgentInstanceId) (st : SessionState)
    (p : ProviderRuntimePolicy) (request : StartRequest) (e : Gate4AgentEngine)
    : Gate4AgentEngine :=
  let g := next_generation (generation_of st) in
  log_event seq (Some c) i g (Ev_StartRequested (MkOperation op))
    (tick (e <| next_operation_id := checked_add op 1 |>
             <| sessions ::= <[i := started_state p request g (MkOperation op) st]> |>
             <| generation_watermarks ::= <[i := g]> |>
             <| effects := retain (λ effect, negb (is_history_effect i effect)) (effects e) ++
                  [MkEffect (MkOperation op) i g
                     (Eff_Spawn (ss_agent_id (st_snapshot st)) (ss_transport (st_snapshot st))
                        p request)] |>)).

(** What a launch requires of the session, the policy and the request. *)
Record launchable (st : SessionState) (p : ProviderRuntimePolicy) (request : StartRequest)
    (prompt : option (list N)) : Prop := {
  la_policy : policy_validate p = Ok tt;
  la_size : TerminalSize_is_valid (start_terminal_size request) = true;
  la_directory : str_is_empty (start_working_directory request) = false
    ∧ str_len (start_working_directory request) <= WORKING_DIRECTORY_MAX_BYTES
    ∧ chars_any (λ c, c =? 0) (start_working_directory request) = false;
  la_prompt : normalize_prompt (start_initial_prompt request) = Ok prompt;
  la_options : ∀ options, start_session_options request = Some options →
    SessionOptionSelection_validate options = Ok tt;
  la_status : is_inactive (status_of st) = true;
  la_pending : pending_of st = None;
  la_pty : ss_transport (st_snapshot st) = Pty → admits p RawPtyLifecycle = true;
  la_pipe : ss_transport (st_snapshot st) = Pipe → prompt_missing prompt = false;
  la_semantic : prompt_missing prompt = false →
    admits p SemanticReadiness = true ∧ admits p StructuredPrompt = true;
  la_generation : generation_raw (generation_of st) < U64_MAX
}.

Lemma require_capability_Ok p k u : require_runtime_capability p k = Ok u → admits p k = true.
Proof. unfold require_runtime_capability. by destruct (admits p k). Qed.

Lemma require_capability_Err p k err :
  require_runtime_capability p k = Err err → admits p k = false.
Proof. unfold require_runtime_capability. by destruct (admits p k). Qed.

Lemma require_structured_Ok p u :
  require_structured_prompt_policy p = Ok u →
  admits p SemanticReadiness = true ∧ admits p StructuredPrompt = true.
Proof.
  unfold require_structured_prompt_policy. intros ([] & H1 & H2)%result_bind_Ok.
  split; by eapply require_capability_Ok.
Qed.

Lemma require_structured_Err p err :
  require_structured_prompt_policy p = Err err →
  ¬ (admits p SemanticReadiness = true ∧ admits p StructuredPrompt = true).
Proof.
  unfold require_structured_prompt_policy, require_runtime_capability. intros H [H1 H2].
  by rewrite H1, H2 in H.
Qed.

Lemma no_generation_left e i st :
  core_inv e → sessions e !! i = Some st →
  checked_next_generation (generation_watermark e i (generation_of st)) = None →
  U64_MAX <= generation_raw (generation_of st).
Proof.
  intros Hc Hst. rewrite (generation_watermark_same e i st Hc Hst). unfold checked_next_generation.
  destruct (checked_add _ _) eqn:E; [done|]. intros _. apply checked_add_None in E. lia.
Qed.

Lemma next_generation_left e i st g :
  core_inv e → sessions e !! i = Some st →
  checked_next_generation (generation_watermark e i (generation_of st)) = Some g →
  g = next_generation (generation_of st) ∧ generation_raw (generation_of st) < U64_MAX.
Proof.
  intros Hc Hst. rewrite (generation_watermark_same e i st Hc Hst).
  intros [-> H]%checked_next_generation_Some. split; [done|lia].
Qed.

(** [refused] closes a failed test of a handler, which changes nothing and
    contradicts a field of the record [H] of what the handler requires. *)
Ltac test_facts :=
  repeat match goal with
  | Hc : core_inv ?e, Hst : sessions ?e !! ?i = Some ?st,
    H : checked_next_generation (generation_watermark ?e ?i _) = None |- _ =>
      apply (no_generation_left e i st Hc Hst) in H
  | Hc : core_inv ?e, Hst : sessions ?e !! ?i = Some ?st,
    H : checked_next_generation (generation_watermark ?e ?i _) = Some _ |- _ =>
      apply (next_generation_left e i st _ Hc Hst) in H as [-> ?]
  | H : require_runtime_capability _ _ = Ok _ |- _ => apply require_capability_Ok in H
  | H : require_runtime_capability _ _ = Err _ |- _ => apply require_capability_Err in H
  | H : require_structured_prompt_policy _ = Ok _ |- _ => apply require_structured_Ok in H
  | H : require_structured_prompt_policy _ = Err _ |- _ => apply require_structured_Err in H
  end.
Ltac refused_by facts :=
  split; [done|]; intros; intros []; facts; simplify_eq; test_facts;
  bool_prop; destruct_or?; bool_prop; destruct_or?; bool_prop; destruct_and?;
  first [congruence | lia | naive_solver congruence].
Ltac refused := refused_by idtac.
(** [accepted] proves such a record from the tests that were passed. *)
Ltac accepted :=
  repeat match goal with u : unit |- _ => destruct u end;
  split; intros; bool_prop; destruct_or?; bool_prop; first [done | congruence | naive_solver lia].

Lemma retain_ext {A} (p q : A → bool) l : (∀ x, p x = q x) → retain p l = retain q l.
Proof. intros H. induction l as [|x l IH]; cbn; [done|]. by rewrite H, IH. Qed.

Lemma purge_exact i e :
  purge_generation_bound_history i e
  = (Done tt, e <| effects ::= retain (λ effect, negb (is_history_effect i effect)) |>).
Proof.
  unfold purge_generation_bound_history, retain_effects, modify_state, set_field. do 2 f_equal.
  apply retain_ext. intros ef. unfold is_history_effect. by rewrite negb_andb.
Qed.

Lemma launch_exact op seq c i st p request e :
  core_inv e → ready e op seq → sessions e !! i = Some st →
  (operation_id ← allocate_operation;
   update_state i (started_state p request (next_generation (generation_of st)) operation_id) ;;
   set_watermark i (next_generation (generation_of st)) ;;
   emit_request c i (next_generation (generation_of st)) operation_id
     (Eff_Spawn (ss_agent_id (st_snapshot st)) (ss_transport (st_snapshot st)) p request)
     (Ev_StartRequested operation_id))
    (e <| effects ::= retain (λ effect, negb (is_history_effect i effect)) |>)
  = (Done tt, launched_engine op seq c i st p request e).
Proof.
  intros Hc [H1 H2 H3 H4] Hst.
  etransitivity; [apply bind_exact; rewrite allocate_run; cbn; by rewrite H1, H2|].
  etransitivity; [apply bind_exact, (update_exact i _ st); exact Hst|].
  step. unfold emit_request. step. by apply log_exact.
Qed.

(** C19: a launch is accepted exactly when the session is inactive, waits for
    nothing and has a generation left, and the request is well formed under a
    valid policy that admits what the transport and the prompt need, with a
    prompt for a pipe; it leaves the session starting under the next generation
    with nothing inherited from the last one, drops the history work queued for
    the instance, and queues exactly one spawn of the normalized request under a
    fresh operation id. A launch that is refused changes nothing. *)
Theorem start_spec c i p request e op seq st :
  reachable e → has_counter_headroom e = true → ready e op seq → sessions e !! i = Some st →
  let r := apply_command (MkCommandEnvelope c (Cmd_Start i p request)) e in
  match fst r with
  | Done _ => ∃ prompt, launchable st p request prompt
      ∧ snd r = launched_engine op seq c i st p (request <| start_initial_prompt := prompt |>) e
  | Fail _ => snd r = e ∧ ∀ prompt, ¬ launchable st p request prompt
  | Panic => False
  end.
Proof.
  intros Hc%reachable_core Hh%has_counter_headroom_spec Hr Hst.
  apply (apply_command_wp c _ e (λ _ e', ∃ prompt, launchable st p request prompt
    ∧ e' = launched_engine op seq c i st p (request <| start_initial_prompt := prompt |>) e)
    (λ _ e', e' = e ∧ ∀ prompt, ¬ launchable st p request prompt)); [done|].
  unfold apply_command_in_place, start. cbn [ce_id ce_command].
  guards_by refused; simplify_eq; test_facts;
    (eapply wp_exact; [apply purge_exact|]; eapply wp_exact; [by apply launch_exact|];
     eexists; split; [|reflexivity]); accepted.
Qed.

Lemma start_spec_witness :
  let r := apply_command (MkCommandEnvelope (MkCommand 9)
             (Cmd_Start demo_instance demo_policy demo_request)) (after [demo_register]) in
  fst r = Done tt
  ∧ ∃ prompt, launchable (session_after [demo_register]) demo_policy demo_request prompt
      ∧ snd r = launched_engine 1 2 (MkCommand 9) demo_instance (session_after [demo_register])
                  demo_policy (demo_request <| start_initial_prompt := prompt |>)
                  (after [demo_register]).
Proof.
  cbn zeta.
  pose proof (start_spec (MkCommand 9) demo_instance demo_policy demo_request
    (after [demo_register]) 1 2 (session_after [demo_register]) ltac:(demo [demo_register])
    ltac:(vm_compute; reflexivity) ltac:(split; vm_compute; reflexivity)
    ltac:(vm_compute; reflexivity)) as H. cbn zeta in H.
  assert (E : fst (apply_command (MkCommandEnvelope (MkCommand 9)
    (Cmd_Start demo_instance demo_policy demo_request)) (after [demo_register])) = Done tt)
    by (vm_compute; reflexivity).
  rewrite E in H. split; [exact E|exact H].
Defined.

(** ** Removal *)

(** A session is removed exactly when it is not active and waits for no
    operation, capability probe or history request; removal then forgets the
    session and every effect queued for it and keeps its watermark, so the
    identity can never reuse a generation. *)
Theorem remove_spec c i e op seq st :
  reachable e → has_counter_headroom e = true → ready e op seq → sessions e !! i = Some st →
  let r := apply_command (MkCommandEnvelope c (Cmd_Remove i)) e in
  match fst r with
  | Done _ =>
      is_inactive (status_of st) = true ∧ pending_of st = None
      ∧ cap_pending (ss_capabilities (st_snapshot st)) = None
      ∧ hist_pending (ss_history (st_snapshot st)) = None
      ∧ snd r = log_event seq (Some c) i (generation_of st) Ev_Removed
          (tick (e <| sessions ::= delete i |>
                   <| effects ::= retain (λ effect,
                        negb (bool_decide (ee_instance_id effect = i))) |>))
  | Fail _ => snd r = e
      ∧ (is_active (status_of st) = true ∨ is_Some (pending_of st)
         ∨ is_Some (cap_pending (ss_capabilities (st_snapshot st)))
         ∨ is_Some (hist_pending (ss_history (st_snapshot st))))
  | Panic => False
  end.
Proof.
  intros Hc%reachable_core Hh%has_counter_headroom_spec [R1 R2 R3 R4] Hst.
  apply (apply_command_wp c _ e
    (λ _ e', is_inactive (status_of st) = true ∧ pending_of st = None
      ∧ cap_pending (ss_capabilities (st_snapshot st)) = None
      ∧ hist_pending (ss_history (st_snapshot st)) = None
      ∧ e' = log_event seq (Some c) i (generation_of st) Ev_Removed _)
    (λ _ e', e' = e ∧ (is_active (status_of st) = true ∨ is_Some (pending_of st)
       ∨ is_Some (cap_pending (ss_capabilities (st_snapshot st)))
       ∨ is_Some (hist_pending (ss_history (st_snapshot st)))))); [done|].
  unfold apply_command_in_place, remove. cbn [ce_id ce_command].
  apply wp_bind, (wp_exact _ _ _ _ st e); [unfold require_session, mbind, stm_bind; cbn; by rewrite Hst|].
  apply wp_bind, wp_fail_when; intros Ha.
  { split; [done|]. left. by destruct (status_of st). }
  unfold require_no_operation, require_no_probe, require_no_history.
  apply wp_bind. destruct (pending_of st) as [x|]; [apply wp_throw; eauto|apply wp_ret].
  apply wp_bind. destruct (cap_pending _) as [x|]; [apply wp_throw; eauto 6|apply wp_ret].
  apply wp_bind. destruct (hist_pending _) as [x|]; [apply wp_throw; eauto 6|apply wp_ret].
  apply wp_bind, wp_modify, wp_bind, wp_modify.
  eapply wp_exact; [by apply log_exact|]. split_and!; try done. by destruct (status_of st).
Qed.

Lemma remove_spec_witness :
  fst (apply_command (MkCommandEnvelope (MkCommand 8) (Cmd_Remove demo_instance)) (after demo_exited))
    = Done tt
  ∧ sessions (snd (apply_command (MkCommandEnvelope (MkCommand 8) (Cmd_Remove demo_instance))
                     (after demo_exited))) !! demo_instance = None.
Proof.
  pose proof (remove_spec (MkCommand 8) demo_instance (after demo_exited) 2 8 (session_after demo_exited)
    ltac:(demo demo_exited) ltac:(vm_compute; reflexivity)
    ltac:(split; vm_compute; reflexivity) ltac:(vm_compute; reflexivity)) as H. cbn zeta in H.
  assert (E : fst (apply_command (MkCommandEnvelope (MkCommand 8) (Cmd_Remove demo_instance))
    (after demo_exited)) = Done tt) by (vm_compute; reflexivity).
  rewrite E in H. destruct H as (_ & _ & _ & _ & ->). split; [exact E|vm_compute; reflexivity].
Defined.

(** ** Stop *)

(** The session that waits to be stopped. *)
Definition stopping_state (op : N) (st : SessionState) : SessionState :=
  st <| st_pending_interrupt := false |>
     <| st_snapshot ::= λ session, invalidate_foreground (str "stop requested") (session
          <| ss_status := Stopping |>
          <| ss_pending_operation := Some (MkOperation op) |>
          <| ss_pending_input := None |>) |>.

(** The queued effect of the resolution a stop overtakes is withdrawn. *)
Definition without_resolution (i : AgentInstanceId) (st : SessionState)
    (l : list EffectEnvelope) : list EffectEnvelope :=
  match pending_interaction_resolution (st_snapshot st) with
  | Some (pending_operation_id, _) =>
      retain (other_operation i (generation_of st) pending_operation_id) l
  | None => l
  end.

(** A stop is never blocked: a starting or running session accepts it
    whatever operation, input or resume is in flight, and then waits for the
    stop alone under a fresh operation id, with one stop effect queued and the
    response to an interaction that had not been delivered withdrawn; in any
    other status it is refused and nothing changes. *)
Theorem stop_spec c i force e op seq st :
  reachable e → has_counter_headroom e = true → ready e op seq → sessions e !! i = Some st →
  apply_command (MkCommandEnvelope c (Cmd_Stop i force)) e
  = match status_of st with
    | Starting | Running =>
        (Done tt,
         log_event seq (Some c) i (generation_of st) (Ev_StopRequested (MkOperation op) force)
           (tick (e <| next_operation_id := checked_add op 1 |>
                    <| sessions ::= <[i := stopping_state op st]> |>
                    <| effects := without_resolution i st (effects e)
                         ++ [MkEffect (MkOperation op) i (generation_of st) (Eff_Stop force)] |>)))
    | status => (Fail (InvalidTransition i (str "stop") status), e)
    end.
Proof.
  intros _ Hh%has_counter_headroom_spec [R1 R2 R3 R4] Hst.
  rewrite (apply_command_headroom _ _ Hh). unfold apply_command_in_place. cbn [ce_id ce_command].
  unfold stop. etransitivity.
  { apply (bind_exact _ _ e st e). unfold require_session, mbind, stm_bind. cbn. by rewrite Hst. }
  cbn zeta. destruct (status_of st) eqn:Es; try reflexivity.
  all: step; etransitivity; [apply bind_exact; rewrite allocate_run, R1, R2; reflexivity|];
    (etransitivity; [apply bind_exact, (update_exact i _ st); exact Hst|]);
    unfold without_resolution;
    destruct (pending_interaction_resolution (st_snapshot st)) as [[op' k]|];
    (step; unfold emit_request; step; by apply log_exact).
Qed.

Lemma stop_spec_witness :
  let r := apply_command (MkCommandEnvelope (MkCommand 5) (Cmd_Stop demo_instance true))
             (after demo_asking) in
  fst r = Done tt
  ∧ life_of (snd r) demo_instance = (Some (MkGeneration 1, Stopping), Some (MkGeneration 1)).
Proof.
  cbn zeta. rewrite (stop_spec _ _ _ _ 2 6 (session_after demo_asking));
    [|demo demo_asking|vm_compute; reflexivity|split; vm_compute; reflexivity
     |vm_compute; reflexivity].
  split; vm_compute; reflexivity.
Defined.

(** ** Observations *)

(** An observation that passes the tests of a session, under headroom. *)
Lemma apply_observation_wp env e st (Q : unit → Gate4AgentEngine → Prop) :
  headroom e → observation_has_provider_headroom e env = true →
  sessions e !! oe_instance_id env = Some st → observation_refusal st env = None →
  wp (observe_admitted st env) Q (λ _ _, False) e →
  ∃ e', apply_observation env e = Some e' ∧ Q tt e'.
Proof.
  intros Hh Hp Hst Href. unfold apply_observation. rewrite (apply_observation_headroom _ _ Hh Hp).
  unfold apply_observation_in_place, mbind, stm_bind, get_state. rewrite Hst, Href. unfold wp.
  destruct (observe_admitted st env e) as [[[]| |] e']; try done. intros H. by exists e'.
Qed.

(** One arm of the lifecycle: the session it leaves, and quiet logging. *)
Lemma wp_observe_lifecycle i g o e st st' k ts p (Q : unit → Gate4AgentEngine → Prop) F :
  sessions e !! i = Some st → lifecycle_step st o = Some (st', k, ts) →
  p = match o with
      | Obs_ProcessExited _ _ => λ effect,
          negb (bool_decide (ee_instance_id effect = i))
          || negb (bool_decide (ee_generation effect = g))
      | _ => λ _, true
      end →
  (∀ e', quiet (e <| sessions ::= <[i := st']> |> <| effects ::= retain p |>) e' → Q tt e') →
  wp (observe_lifecycle i g o) Q F e.
Proof.
  intros Hst Hstep Hp HQ. unfold observe_lifecycle. apply wp_bind.
  assert (Htail : ∀ e1, e1 = e <| effects ::= retain p |> →
    wp (state ← get_session i;
        '(state', event, interaction_transitions) ← expect (lifecycle_step state o);
        update_state i (λ _, state') ;;
        bump_revision ;;
        emit_event None i g event ;;
        emit_interaction_transitions None i g interaction_transitions) Q F e1).
  { intros e1 ->. apply wp_bind, (wp_get_session _ _ st); [done|]. rewrite Hstep.
    apply wp_bind, wp_ret, wp_bind, (wp_update_state _ _ _ st); [done|].
    apply wp_bind, wp_bump. intros e2 H2 _. apply wp_bind, wp_emit. intros e3 H3 _.
    apply wp_emit_transitions. intros e4 [H4 _]. apply HQ.
    eapply quiet_trans; [exact H2|]. by eapply quiet_trans. }
  destruct o; subst p; first [apply wp_modify; by apply Htail
                     | apply wp_ret; apply Htail; by rewrite effects_retain_all].
Qed.


