(* ===== verification/EngineStreams.v ===== *)
(** * Observations, provider streams and reading

    The observations an engine ignores, the cursors and the policy of provider
    streams, the withdrawal of a superseded response, what a queued launch
    carries, and the snapshot. *)

From S2P Require Import Prelude RustStr Ids Input SessionTypes RecordTypes ProviderTypes.
From S2P Require Import Control EngineReduce ReduceFacts EngineState EngineCommands.
From S2P Require Import EngineObserve EngineCounters EngineInv EngineCommandFacts.
From S2P Require Import EngineIngestFacts EngineObserveFacts EngineHeadroom EngineEntry.
From S2P Require Import EngineReach EngineFrame EngineRuns.

Local Open Scope N_scope.

(** ** Ignored observations *)

(** Why an observation is not acted on, if it is not. *)
Definition ignored_reason (e : Gate4AgentEngine) (env : ObservationEnvelope)
    : option ObservationIgnoredReason :=
  match sessions e !! oe_instance_id env with
  | None => Some UnknownInstanceIgnored
  | Some st => observation_refusal st env
  end.

Lemma ignored_run e env r :
  ignored_reason e env = Some r →
  apply_observation_in_place env e = emit_ignored (oe_instance_id env) (oe_generation env) r e.
Proof.
  unfold ignored_reason, apply_observation_in_place, mbind, stm_bind, get_state.
  destruct (sessions e !! _) as [st|]; [|by intros [= <-]]. by intros ->.
Qed.

(** An observation of an unknown instance, of another generation, with a
    missing or different operation id, denied by policy, about another process
    or out of place in the session's status changes nothing but the log, where
    one event gives the reason. *)
Theorem ignored_observation_only_logs e env r op seq :
  reachable e → ready e op seq → ignored_reason e env = Some r →
  apply_observation env e
  = Some (log_event seq None (oe_instance_id env) (oe_generation env) (Ev_ObservationIgnored r) e).
Proof.
  intros _ [R1 R2 R3 R4] Hr. unfold apply_observation, try_apply_observation.
  rewrite (ignored_run _ _ _ Hr). unfold emit_ignored. rewrite (emit_exact _ seq) by done.
  destruct (_ && _); [done|]. unfold commit_candidate. cbn. by rewrite R1.
Qed.

Lemma ignored_observation_only_logs_witness :
  let env := MkObservationEnvelope (Some (MkOperation 1)) demo_instance (MkGeneration 0)
               (Obs_StopFailed (str "late")) in
  apply_observation env (after demo_running)
  = Some (log_event 4 None demo_instance (MkGeneration 0) (Ev_ObservationIgnored StaleGeneration)
            (after demo_running)).
Proof.
  exact (ignored_observation_only_logs (after demo_running)
    (MkObservationEnvelope (Some (MkOperation 1)) demo_instance (MkGeneration 0)
       (Obs_StopFailed (str "late"))) StaleGeneration 2 4
    ltac:(demo demo_running) ltac:(split; vm_compute; reflexivity) ltac:(vm_compute; reflexivity)).
Defined.

(** C30: an observation changes a session only if it is current: the session
    exists, the observation carries its generation (or the one a capability
    probe was requested in), the operation id it carries, when its kind needs
    one, is the one the session waits for, and its kind fits the status. *)
Theorem only_current_observations_act e env e' :
  reachable e → apply_observation env e = Some e' → sessions e' ≠ sessions e →
  ∃ st, sessions e !! oe_instance_id env = Some st
    ∧ observation_is_current (st_snapshot st) (oe_generation env) (oe_observation env) = true
    ∧ (requires_operation_id (oe_observation env) = true →
       ∃ op, oe_operation_id env = Some op
         ∧ expected_operation (st_snapshot st) (oe_observation env) = Some op)
    ∧ observation_is_valid (status_of st) (oe_observation env) = true.
Proof.
  intros [first Hinv]%reachable_engine_inv Hrun Hne.
  destruct (ignored_reason e env) as [r|] eqn:Hr.
  - exfalso. apply Hne. apply apply_observation_Some in Hrun as [_ ->].
    unfold try_apply_observation. rewrite (ignored_run _ _ _ Hr).
    destruct (emit_quiet None (oe_instance_id env) (oe_generation env)
                (Ev_ObservationIgnored r) e) as [[Q1 _ _ _ _] _].
    unfold emit_state in Q1. change (emit_event _ _ _ _) with
      (emit_ignored (oe_instance_id env) (oe_generation env) r) in Q1.
    destruct (_ && _); [done|].
    destruct (emit_ignored _ _ _ e) as [[| |] e1]; cbn in *; [| |done];
      unfold commit_candidate; (destruct (counter_error e1) as [err|]; cbn; [|done]);
      apply (retire_same e err).
  - unfold ignored_reason in Hr. destruct (sessions e !! oe_instance_id env) as [st|]; [|done].
    exists st. split; [done|]. by apply refusal_None.
Qed.

Lemma only_current_observations_act_witness :
  ∃ st, sessions (after demo_starting) !! demo_instance = Some st
    ∧ observation_is_current (st_snapshot st) (MkGeneration 1) (Obs_Spawned (Some 42)) = true
    ∧ (requires_operation_id (Obs_Spawned (Some 42)) = true →
       ∃ op, Some (MkOperation 1) = Some op
         ∧ expected_operation (st_snapshot st) (Obs_Spawned (Some 42)) = Some op)
    ∧ observation_is_valid (status_of st) (Obs_Spawned (Some 42)) = true.
Proof.
  apply (only_current_observations_act (after demo_starting)
    (MkObservationEnvelope (Some (MkOperation 1)) demo_instance (MkGeneration 1)
       (Obs_Spawned (Some 42))) (after demo_running)).
  - demo demo_starting.
  - vm_compute. reflexivity.
  - intros H. apply (f_equal (λ m, (λ st, status_of st) <$> m !! demo_instance)) in H.
    vm_compute in H. discriminate H.
Defined.

(** ** Provider streams *)

(** An accepted provider batch moves its source's cursor exactly to the
    batch's sequence and no other source's, which was behind it; the session's
    own sequence advances by one per event and one more for a gap; and nothing
    of the session's status, generation, input, resume or policy changes. *)
Theorem accepted_batch_moves_cursor c i g src n evs e e' :
  reachable e →
  apply_command (MkCommandEnvelope c (Cmd_IngestProvider i g src n evs)) e = (Done tt, e') →
  ∃ st st', sessions e !! i = Some st ∧ sessions e' !! i = Some st' ∧ provider_changed st st'
    ∧ batch_denied_capability (st_runtime_policy st) (missed_before st src n) evs = None
    ∧ ps_sequence (ss_provider (st_snapshot st'))
      = ps_sequence (ss_provider (st_snapshot st)) + len evs
        + (if 0 <? missed_before st src n then 1 else 0)
    ∧ ∀ src', provider_source_sequence (ss_provider (st_snapshot st')) src'
              = if bool_decide (src = src') then n
                else provider_source_sequence (ss_provider (st_snapshot st)) src'.
Proof.
  intros Hc%reachable_core Hrun. pose proof (wp_ingest_provider c i g src n evs e Hc) as Hin.
  assert (H : apply_command_in_place (MkCommandEnvelope c (Cmd_IngestProvider i g src n evs)) e
              = (Done tt, e')).
  { revert Hrun. unfold apply_command. destruct (has_counter_headroom e); [done|].
    destruct (apply_command_in_place _ e) as [[[]| |] e1]; [|done|done].
    unfold commit_candidate. by destruct (counter_error e1); intros [= ->]. }
  unfold apply_command_in_place in H. cbn [ce_id ce_command] in H. unfold wp in Hin.
  rewrite H in Hin. destruct Hin as (st & Hst & Hden & [(st' & Hst' & Hch & Hs & Hk) _ _ _ _]).
  exists st, st'. split_and!; [done|done|done|done| |done]. by rewrite <- N.add_assoc.
Qed.

Definition demo_text : list ProviderEvent := [PE_Text (str "hello") true; PE_WorkingObserved].

Lemma accepted_batch_moves_cursor_witness :
  ∃ st st', sessions (after demo_asking) !! demo_instance = Some st
    ∧ ps_sequence (ss_provider (st_snapshot st')) = ps_sequence (ss_provider (st_snapshot st)) + 2 + 1
    ∧ provider_source_sequence (ss_provider (st_snapshot st')) demo_source = 5.
Proof.
  destruct (accepted_batch_moves_cursor (MkCommand 4) demo_instance (MkGeneration 1) demo_source 5
    demo_text (after demo_asking)
    (snd (apply_command (MkCommandEnvelope (MkCommand 4) (Cmd_IngestProvider demo_instance
            (MkGeneration 1) demo_source 5 demo_text)) (after demo_asking)))
    ltac:(demo demo_asking) ltac:(vm_compute; reflexivity))
    as (st & st' & H1 & _ & _ & _ & H2 & H3).
  assert (E : sessions (after demo_asking) !! demo_instance = Some (session_after demo_asking))
    by (vm_compute; reflexivity).
  rewrite E in H1. injection H1 as <-. exists (session_after demo_asking), st'.
  split; [exact E|]. split.
  - rewrite H2. vm_compute. reflexivity.
  - rewrite H3. by rewrite bool_decide_eq_true_2.
Defined.

Lemma denied_not_admitted p missed evs cap :
  batch_denied_capability p missed evs = Some cap → admits p cap = false.
Proof.
  unfold batch_denied_capability. repeat case_match; intros [= <-]; bool_prop; done.
Qed.

(** A provider batch the session's policy refuses returns an error naming a
    capability the policy withholds, and nevertheless consumes the batch: the
    source's cursor moves to its sequence, so a later batch is not stale, and
    the session's own sequence advances by the one event that reports it. *)
Theorem refused_batch_moves_cursor c i g src n evs cap e e' :
  reachable e → has_counter_headroom e = true →
  apply_command (MkCommandEnvelope c (Cmd_IngestProvider i g src n evs)) e
    = (Fail (ProviderRuntimePolicyDenied cap), e') →
  ∃ st st', sessions e !! i = Some st ∧ sessions e' !! i = Some st' ∧ provider_changed st st'
    ∧ admits (st_runtime_policy st) cap = false
    ∧ ps_sequence (ss_provider (st_snapshot st')) = ps_sequence (ss_provider (st_snapshot st)) + 1
    ∧ ∀ src', provider_source_sequence (ss_provider (st_snapshot st')) src'
              = if bool_decide (src = src') then n
                else provider_source_sequence (ss_provider (st_snapshot st)) src'.
Proof.
  intros Hc%reachable_core Hh%has_counter_headroom_spec.
  rewrite (apply_command_headroom _ _ Hh). unfold apply_command_in_place. cbn [ce_id ce_command].
  pose proof (wp_ingest_provider c i g src n evs e Hc) as Hin. unfold wp in Hin.
  intros H. rewrite H in Hin.
  destruct Hin as [[_ []%(λ H, H cap)]|(st & cap' & Hst & Hden & Herr & Hin)]; [done|].
  injection Herr as <-. destruct Hin as [(st' & Hst' & Hch & Hs & Hk) _ _ _ _].
  exists st, st'. split_and!; try done. by eapply denied_not_admitted.
Qed.

Definition demo_raw : list call :=
  [demo_register; command 2 (Cmd_Start demo_instance policy_raw_pty demo_request);
   observe (Some 1) 1 (Obs_Spawned (Some 42))].
Definition demo_denied : CommandEnvelope :=
  MkCommandEnvelope (MkCommand 3) (Cmd_IngestProvider demo_instance (MkGeneration 1) demo_source 2
    demo_text).

Lemma refused_batch_moves_cursor_witness :
  ∃ st st', sessions (after demo_raw) !! demo_instance = Some st
    ∧ sessions (snd (apply_command demo_denied (after demo_raw))) !! demo_instance = Some st'
    ∧ admits (st_runtime_policy st) SemanticReadiness = false
    ∧ provider_source_sequence (ss_provider (st_snapshot st')) demo_source = 2.
Proof.
  destruct (refused_batch_moves_cursor (MkCommand 3) demo_instance (MkGeneration 1) demo_source 2
    demo_text SemanticReadiness (after demo_raw) (snd (apply_command demo_denied (after demo_raw)))
    ltac:(demo demo_raw) ltac:(vm_compute; reflexivity) ltac:(vm_compute; reflexivity))
    as (st & st' & H1 & H2 & _ & H3 & _ & H4).
  exists st, st'. split_and!; [exact H1|exact H2|exact H3|].
  rewrite H4. by rewrite bool_decide_eq_true_2.
Defined.

(** Without counter headroom a command that fails leaves every session and
    the log alone; in particular the cursor of a refused provider batch does
    not move then, and the refusal is not logged. *)
Theorem failure_without_headroom_drops_refusal env err e e' :
  has_counter_headroom e = false → apply_command env e = (Fail err, e') →
  sessions e' = sessions e ∧ generation_watermarks e' = generation_watermarks e
  ∧ effects e' = effects e ∧ events e' = events e.
Proof.
  unfold apply_command. intros ->. destruct (apply_command_in_place env e) as [[|err'|] e1]; [|by intros [= _ <-]|done].
  unfold commit_candidate. destruct (counter_error e1) as [err'|]; [|done]. intros [= _ <-].
  destruct (retire_same e err') as (?&?&?&?&_). done.
Qed.

(** The last event number is next: the headroom is gone. *)
Definition demo_worn : Gate4AgentEngine := after demo_raw <| next_event_sequence := Some U64_MAX |>.

Lemma failure_without_headroom_drops_refusal_witness :
  fst (apply_command demo_denied demo_worn) = Fail (ProviderRuntimePolicyDenied SemanticReadiness)
  ∧ sessions (snd (apply_command demo_denied demo_worn)) = sessions demo_worn.
Proof.
  split; [vm_compute; reflexivity|].
  exact (proj1 (failure_without_headroom_drops_refusal demo_denied
    (ProviderRuntimePolicyDenied SemanticReadiness) demo_worn
    (snd (apply_command demo_denied demo_worn))
    ltac:(vm_compute; reflexivity) ltac:(vm_compute; reflexivity))).
Defined.

(** ** The snapshot *)

Section order.
#[local] Instance instance_le_trans : Transitive instance_le.
Proof. intros x y z. unfold instance_le. lia. Qed.
#[local] Instance instance_le_total : Total instance_le.
Proof. intros x y. unfold instance_le. lia. Qed.

Lemma sessions_in_order_elem e i st :
  (i, st) ∈ sessions_in_order e ↔ sessions e !! i = Some st.
Proof. unfold sessions_in_order. by rewrite merge_sort_Permutation, elem_of_map_to_list. Qed.

Definition instance_lt (x y : AgentInstanceId * SessionState) : Prop :=
  instance_raw (fst x) < instance_raw (fst y).

Lemma sorted_strictly (l : list (AgentInstanceId * SessionState)) :
  StronglySorted instance_le l → NoDup (fst <$> l) → StronglySorted instance_lt l.
Proof.
  induction 1 as [|x l Hl IH Hx]; [constructor|]. cbn. intros [Hni Hnd]%NoDup_cons.
  constructor; [by apply IH|]. rewrite Forall_forall in Hx |- *. intros y Hy. specialize (Hx y Hy).
  unfold instance_le, instance_lt in *.
  assert (instance_raw (fst x) ≠ instance_raw (fst y)); [|lia].
  intros E. apply Hni. apply list_elem_of_fmap. exists y. split; [|done].
  rewrite <- (instance_raw_of (fst x)), E. by rewrite instance_raw_of.
Qed.

Lemma sessions_in_order_sorted e : StronglySorted instance_lt (sessions_in_order e).
Proof.
  apply sorted_strictly; [apply (StronglySorted_merge_sort _); apply _|].
  unfold sessions_in_order. rewrite merge_sort_Permutation. apply NoDup_fst_map_to_list.
Qed.

Lemma sessions_in_order_len e : len (sessions_in_order e) = N.of_nat (size (sessions e)).
Proof. unfold sessions_in_order, len. by rewrite merge_sort_Permutation, length_map_to_list. Qed.
End order.

Lemma StronglySorted_fmap {A B} (f : A → B) (R : A → A → Prop) (S : B → B → Prop) l :
  (∀ x y, x ∈ l → y ∈ l → R x y → S (f x) (f y)) → StronglySorted R l → StronglySorted S (f <$> l).
Proof.
  intros Hf. induction 1 as [|x l Hl IH Hx]; cbn; constructor.
  - apply IH. intros y z Hy Hz. apply Hf; by constructor.
  - rewrite Forall_fmap. rewrite Forall_forall in *. intros y Hy. apply Hf; [by constructor..|auto].
Qed.

(** The snapshot of a reachable engine exists (its counts fit their width),
    lists exactly the registered sessions, each once and in ascending order of
    their ids, and reports the revision and the number of identities retained. *)
Theorem snapshot_is_complete e :
  reachable e →
  ∃ s, snapshot e = Some s ∧ cs_revision s = revision e
    ∧ retained_instance_identities (cs_health s) = N.of_nat (size (generation_watermarks e))
    ∧ (∀ snap, snap ∈ cs_sessions s ↔ session_snapshot e (ss_instance_id snap) = Some snap)
    ∧ StronglySorted (λ a b, instance_raw (ss_instance_id a) < instance_raw (ss_instance_id b))
        (cs_sessions s)
    ∧ session_instance_ids e = ss_instance_id <$> cs_sessions s.
Proof.
  intros Hc%reachable_core. pose proof (ci_sessions _ Hc) as H1. pose proof (ci_identities _ Hc) as H2.
  assert (Hid : ∀ x, x ∈ sessions_in_order e → ss_instance_id (st_snapshot (snd x)) = fst x).
  { intros [i st] H%sessions_in_order_elem. by destruct (ci_session _ Hc _ _ H) as [[] _]. }
  unfold snapshot, health, expect_u32.
  set (exhausted := List.filter _ (sessions_in_order e)).
  assert (H3 : len exhausted <= len (sessions_in_order e)).
  { unfold len, exhausted. pose proof (List.filter_length_le
      (λ x : AgentInstanceId * SessionState, ps_sequence (ss_provider (st_snapshot (snd x))) =? U64_MAX)
      (sessions_in_order e)). lia. }
  rewrite sessions_in_order_len in H3. unfold CONTROL_SESSIONS_MAX in H1.
  change CONTROL_INSTANCE_IDENTITIES_MAX with 4096 in H2.
  rewrite !(proj2 (N.leb_le _ _)) by (unfold U32_MAX; lia). cbn [mbind option_bind].
  eexists. split; [reflexivity|]. cbn [cs_revision cs_health cs_sessions retained_instance_identities].
  split_and!; [done|done| | |].
  - intros snap. unfold session_snapshot. rewrite list_elem_of_fmap, fmap_Some. split.
    + intros ([i st] & -> & H). pose proof (Hid _ H) as E. cbn in E |- *. rewrite E.
      exists st. split; [|done]. by apply sessions_in_order_elem.
    + intros (st & H & ->). exists (ss_instance_id (st_snapshot st), st). split; [done|].
      by apply sessions_in_order_elem.
  - eapply StronglySorted_fmap; [|apply sessions_in_order_sorted].
    intros x y Hx Hy. unfold instance_lt. by rewrite !Hid.
  - unfold session_instance_ids. rewrite <- list_fmap_compose. apply list_fmap_ext.
    intros k x Hx. symmetry. apply Hid. by eapply list_elem_of_lookup_2.
Qed.

Lemma snapshot_is_complete_witness :
  ∃ s, snapshot (after demo_asking) = Some s ∧ cs_revision s = revision (after demo_asking).
Proof.
  destruct (snapshot_is_complete (after demo_asking) ltac:(demo demo_asking)) as (s & H1 & H2 & _).
  exists s. split; [exact H1|exact H2].
Defined.
