(* ===== verification/EngineResolve.v ===== *)
(** * Inputs and interactions

    What an accepted input queues and on whose authority, and the round trip
    of an answer: from the request over its delivery to the closed
    interaction. *)

From S2P Require Import Prelude RustStr Ids Input InputFacts SessionTypes RecordTypes.
From S2P Require Import ProviderTypes Control EngineReduce ReduceFacts EngineState.
From S2P Require Import EngineCommands EngineObserve EngineCounters EngineInv.
From S2P Require Import EngineCommandFacts EngineIngestFacts EngineObserveFacts.
From S2P Require Import EngineHeadroom EngineEntry EngineReach EngineFrame EngineRuns.
From S2P Require Import EngineSpecs.

Local Open Scope N_scope.

(** A request of a registered session: allocate, change it, emit. *)
Lemma wp_request_exact i c g f eff k st e op seq Q F :
  ready e op seq → sessions e !! i = Some st →
  Q tt (request_state op seq c i g (f (MkOperation op) st) (eff (MkOperation op))
          (k (MkOperation op)) e) →
  wp (operation_id ← allocate_operation;
      update_state i (f operation_id) ;;
      emit_request c i g operation_id (eff operation_id) (k operation_id)) Q F e.
Proof.
  intros [H1 H2 H3 H4] Hst HQ. eapply wp_exact; [|exact HQ].
  etransitivity; [apply bind_exact; rewrite allocate_run, H1, H2; reflexivity|].
  etransitivity; [apply bind_exact, (update_exact i _ st); exact Hst|].
  unfold emit_request. step. by apply log_exact.
Qed.

(** ** Input *)

(** Inputs that speak to the agent need the structured prompt policy. *)
Definition is_structured (action : InputAction) : bool :=
  match action with
  | IA_InsertDraft _ | IA_SubmitPrompt _ | IA_AgentCommand _ => true
  | _ => false
  end.

(** The authority an input's effect carries: on a terminal, text for the agent
    is only written while the agent is in the foreground, shell commands only
    while the shell is, and raw terminal input always; over a protocol, only
    prompts and the interrupt exist. *)
Definition authorized_effect (t : TransportKind) (a : AgentId) (action : InputAction)
    (eff : ControlEffect) : Prop :=
  match t with
  | Pty => ∃ input req, eff = Eff_WriteInput input req
      ∧ req = match action with
              | IA_InsertDraft _ | IA_SubmitPrompt _ | IA_AgentCommand _ => RequireAgent a
              | IA_ShellCommand _ => RequireShell
              | _ => RequireAny
              end
  | Pipe => False
  | Acp => (∃ prompt, action = IA_SubmitPrompt prompt ∧ ∃ text, eff = Eff_SubmitPrompt text)
           ∨ action = IA_TerminalControl TC_Interrupt ∧ eff = Eff_Interrupt
  end.

(** Preparing an input depends on the input alone. *)
Lemma input_effect_run t a action :
  (∃ eff kind, authorized_effect t a action eff
     ∧ ∀ e, input_effect t a action e = (Done (eff, kind), e))
  ∨ ∃ err, ∀ e, input_effect t a action e = (Fail err, e).
Proof.
  destruct t, action as [p|p|p|p|p|p|p]; cbn [input_effect]; try (by right; eexists).
  all: try match goal with
  | |- context [prepare_input ?x] =>
      destruct (prepare_input x) as [input|err] eqn:E; [left|by right; eexists];
      pose proof (prepare_input_kind _ _ E) as Hk; cbn [lift_result action_kind] in *;
      eexists _, _; split; [by eexists _, _|];
      intros e; unfold mbind, stm_bind; cbn; rewrite Hk; reflexivity
  | |- context [lift_result _ ?r] =>
      destruct r; [left|by right; eexists];
      eexists _, _; (split; [first [by eexists _, _ | left; by repeat eexists]|done])
  end.
  destruct p; try (by right; eexists). left. eexists _, _. split; [by right|done].
Qed.

Definition is_interrupt (action : InputAction) : bool :=
  match action with
  | IA_TerminalControl TC_Interrupt => true
  | _ => false
  end.

(** The session an accepted input leaves. *)
Definition inputting_state (op : OperationId) (kind : PreparedInputKind) (interrupt : bool)
    (st : SessionState) : SessionState :=
  st <| st_pending_interrupt := interrupt |>
     <| st_snapshot ::= λ session, invalidate_foreground (str "input requested") (session
          <| ss_pending_operation := Some op |>
          <| ss_pending_input := Some kind |>) |>.

(** What an input requires, and what it is prepared into. *)
Record sendable (st : SessionState) (action : InputAction) (eff : ControlEffect)
    (kind : PreparedInputKind) : Prop := {
  se_status : is_running (status_of st) = true;
  se_pending : pending_of st = None;
  se_policy : is_structured action = true →
    admits (st_runtime_policy st) SemanticReadiness = true
    ∧ admits (st_runtime_policy st) StructuredPrompt = true;
  se_prepared e :
    input_effect (ss_transport (st_snapshot st)) (ss_agent_id (st_snapshot st)) action e
    = (Done (eff, kind), e)
}.

(** C24: an input is accepted exactly when the session runs with no operation in
    flight, the policy admits structured prompts if the input speaks to the
    agent, and the input can be prepared for the session's transport; it then
    queues exactly one effect, with the authority its kind calls for, makes its
    operation the pending one and declares the observed foreground stale. A
    refused input changes nothing. *)
Theorem send_input_spec c i action e op seq st :
  reachable e → has_counter_headroom e = true → ready e op seq → sessions e !! i = Some st →
  let r := apply_command (MkCommandEnvelope c (Cmd_SendInput i action)) e in
  match fst r with
  | Done _ => ∃ eff kind, sendable st action eff kind
      ∧ authorized_effect (ss_transport (st_snapshot st)) (ss_agent_id (st_snapshot st)) action eff
      ∧ snd r = request_state op seq c i (generation_of st)
                  (inputting_state (MkOperation op) kind (is_interrupt action) st)
                  eff (Ev_InputRequested (MkOperation op) kind) e
  | Fail _ => snd r = e ∧ ∀ eff kind, ¬ sendable st action eff kind
  | Panic => False
  end.
Proof.
  intros Hc%reachable_core Hh%has_counter_headroom_spec Hr Hst.
  apply (apply_command_wp c _ e
    (λ _ e', ∃ eff kind, sendable st action eff kind
      ∧ authorized_effect (ss_transport (st_snapshot st)) (ss_agent_id (st_snapshot st)) action eff
      ∧ e' = request_state op seq c i (generation_of st)
               (inputting_state (MkOperation op) kind (is_interrupt action) st)
               eff (Ev_InputRequested (MkOperation op) kind) e)
    (λ _ e', e' = e ∧ ∀ eff kind, ¬ sendable st action eff kind)); [done|].
  unfold apply_command_in_place, send_input. cbn [ce_id ce_command].
  do 4 pass_by refused. simplify_eq. do 2 pass_by refused.
  rename select (negb _ = false) into Hrun. apply negb_false_iff in Hrun.
  apply wp_bind.
  eapply (wp_mono _ _ (λ _ e', e' = e ∧ (is_structured action = true →
    admits (st_runtime_policy st) SemanticReadiness = true
    ∧ admits (st_runtime_policy st) StructuredPrompt = true))).
  - intros _ e' [-> Hs]. apply wp_bind.
    destruct (input_effect_run (ss_transport (st_snapshot st)) (ss_agent_id (st_snapshot st)) action)
      as [(eff & kind & Ha & Hin)|[err Hin]].
    + eapply wp_exact; [apply Hin|].
      apply (wp_request_exact i c (generation_of st)
        (λ o, inputting_state o kind (is_interrupt action)) (λ _, eff)
        (λ o, Ev_InputRequested o kind) st e op seq); [done|done|]. by exists eff, kind.
    + unfold wp. rewrite Hin. split; [done|]. intros eff kind [_ _ _ Hp]. by specialize (Hp e); rewrite Hin in Hp.
  - destruct action; try (by apply wp_ret); apply wp_lift_result; try (intros; refused);
      intros u Hu; (split; [done|intros _; by eapply require_structured_Ok]).
Qed.

Lemma send_input_spec_witness :
  let r := apply_command (MkCommandEnvelope (MkCommand 6) (Cmd_SendInput demo_instance
             (IA_TerminalControl TC_Interrupt))) (after demo_running) in
  fst r = Done tt ∧ status_of (session_after demo_running) = Running
  ∧ ∃ eff kind, authorized_effect Pty demo_agent (IA_TerminalControl TC_Interrupt) eff
      ∧ snd r = request_state 2 4 (MkCommand 6) demo_instance (MkGeneration 1)
                  (inputting_state (MkOperation 2) kind true (session_after demo_running))
                  eff (Ev_InputRequested (MkOperation 2) kind) (after demo_running).
Proof.
  cbn zeta.
  pose proof (send_input_spec (MkCommand 6) demo_instance (IA_TerminalControl TC_Interrupt)
    (after demo_running) 2 4 (session_after demo_running) ltac:(demo demo_running)
    ltac:(vm_compute; reflexivity) ltac:(split; vm_compute; reflexivity)
    ltac:(vm_compute; reflexivity)) as H. cbn zeta in H.
  assert (E : fst (apply_command (MkCommandEnvelope (MkCommand 6) (Cmd_SendInput demo_instance
    (IA_TerminalControl TC_Interrupt))) (after demo_running)) = Done tt) by (vm_compute; reflexivity).
  rewrite E in H. destruct H as (eff & kind & [H1 _ _ _] & H2 & H3).
  split; [exact E|]. split; [reflexivity|]. exists eff, kind. split; [exact H2|].
  rewrite H3. f_equal.
Defined.

(** ** Answers *)

(** The session whose interaction [k] is being answered. *)
Definition answering_state (k : ProviderInteractionId) (kind : ProviderInteractionResponseKind)
    (l1 : list ProviderInteraction) (it : ProviderInteraction) (l2 : list ProviderInteraction)
    (op : OperationId) (st : SessionState) : SessionState :=
  st <| st_snapshot ::= λ session, session
          <| ss_pending_operation := Some op |>
          <| ss_provider ::= λ p, p <| ps_interactions :=
               l1 ++ (it <| pi_status := InteractionResolving op kind |>) :: l2 |> |> |>.

(** What an answer is sent to. *)
Definition answer_target (it : ProviderInteraction) : ProviderInteractionTarget :=
  MkInteractionTarget (pi_id it) (pi_source it) (pi_provider_request_id it)
    (pi_interaction_kind it) (pi_tool_name it) (pi_agent_id it).

(** What an answer requires of the session and of interaction [it]. *)
Record answerable (st : SessionState) (g : SessionGeneration) (k : ProviderInteractionId)
    (response : ProviderInteractionResponse) (it : ProviderInteraction) : Prop := {
  an_generation : generation_of st = g;
  an_status : is_running (status_of st) = true;
  an_pending : pending_of st = None;
  an_found : List.find (has_interaction_id k) (interactions_of st) = Some it;
  an_open : pi_status it = InteractionPending;
  an_response : response_validate_for response (pi_interaction_kind it) = Ok tt
}.

(** C23: an answer is accepted exactly for a pending interaction of the session's
    current generation, of a kind the response fits, while the session runs
    with no operation in flight; it then marks that interaction, and no other,
    as being resolved by the new operation, and queues one effect that names
    the interaction's own source, request and agent. A refused answer changes
    nothing. *)
Theorem resolve_interaction_spec c i g k response e op seq st :
  reachable e → has_counter_headroom e = true → ready e op seq → sessions e !! i = Some st →
  let r := apply_command (MkCommandEnvelope c (Cmd_ResolveInteraction i g k response)) e in
  match fst r with
  | Done _ => ∃ l1 it l2, answerable st g k response it
      ∧ interactions_of st = l1 ++ it :: l2 ∧ pi_id it = k
      ∧ snd r = request_state op seq c i g
          (answering_state k (response_kind response) l1 it l2 (MkOperation op) st)
          (Eff_ResolveInteraction (answer_target it) response)
          (Ev_InteractionResolutionRequested (MkOperation op) k (response_kind response)) e
  | Fail _ => snd r = e ∧ ∀ it, ¬ answerable st g k response it
  | Panic => False
  end.
Proof.
  intros Hc%reachable_core Hh%has_counter_headroom_spec [R1 R2 R3 R4] Hst.
  apply (apply_command_wp c _ e
    (λ _ e', ∃ l1 it l2, answerable st g k response it
      ∧ interactions_of st = l1 ++ it :: l2 ∧ pi_id it = k
      ∧ e' = request_state op seq c i g
          (answering_state k (response_kind response) l1 it l2 (MkOperation op) st)
          (Eff_ResolveInteraction (answer_target it) response)
          (Ev_InteractionResolutionRequested (MkOperation op) k (response_kind response)) e)
    (λ _ e', e' = e ∧ ∀ it, ¬ answerable st g k response it)); [done|].
  unfold apply_command_in_place, resolve_interaction. cbn [ce_id ce_command].
  guards_by ltac:(split; [done|]; intros; intros []; simplify_eq; bool_prop;
    repeat case_match; congruence).
  simplify_eq.
  match goal with H : List.find _ _ = Some ?x |- _ => rename H into Hfind; rename x into it end.
  destruct (set_interaction_status_find k (InteractionResolving (MkOperation op)
    (response_kind response)) _ _ Hfind) as (l1 & l2 & El & Hk & Hset).
  eapply wp_exact.
  { etransitivity; [apply bind_exact; rewrite allocate_run, R1, R2; reflexivity|].
    rewrite Hset. step. etransitivity; [apply bind_exact, (update_exact i _ st); exact Hst|].
    unfold emit_request. step. by apply log_exact. }
  exists l1, it, l2. split_and!; [|done|done|].
  - repeat match goal with u : unit |- _ => destruct u end.
    split; bool_prop; try done. by destruct (pi_status it).
  - unfold answer_target. by subst k.
Qed.

Lemma resolve_interaction_spec_witness :
  let r := apply_command (MkCommandEnvelope (MkCommand 4) (Cmd_ResolveInteraction demo_instance
             (MkGeneration 1) (MkInteraction 1) (Answer (str "yes")))) (after demo_asking) in
  fst r = Done tt ∧ pending_of (session_after demo_asking) = None
  ∧ ∃ it, pi_id it = MkInteraction 1 ∧ pi_status it = InteractionPending.
Proof.
  cbn zeta.
  pose proof (resolve_interaction_spec (MkCommand 4) demo_instance (MkGeneration 1) (MkInteraction 1)
    (Answer (str "yes")) (after demo_asking) 2 6 (session_after demo_asking) ltac:(demo demo_asking)
    ltac:(vm_compute; reflexivity) ltac:(split; vm_compute; reflexivity)
    ltac:(vm_compute; reflexivity)) as H. cbn zeta in H.
  assert (E : fst (apply_command (MkCommandEnvelope (MkCommand 4) (Cmd_ResolveInteraction demo_instance
             (MkGeneration 1) (MkInteraction 1) (Answer (str "yes")))) (after demo_asking)) = Done tt)
    by (vm_compute; reflexivity).
  rewrite E in H. destruct H as (l1 & it & l2 & [_ _ H2 _ H4 _] & _ & H3 & _).
  split; [exact E|]. split; [exact H2|]. exists it. by split.
Defined.

Lemma find_interaction l1 it l2 :
  NoDup (pi_id <$> (l1 ++ it :: l2)) →
  List.find (has_interaction_id (pi_id it)) (l1 ++ it :: l2) = Some it.
Proof.
  induction l1 as [|x l1 IH]; cbn.
  - unfold has_interaction_id. by rewrite bool_decide_eq_true_2.
  - intros [Hx Hnd]%NoDup_cons. unfold has_interaction_id at 1.
    rewrite bool_decide_eq_false_2; [by apply IH|].
    intros E. apply Hx. rewrite fmap_app, fmap_cons, E. apply elem_of_app. right. by left.
Qed.

Lemma set_status_exact l1 it l2 s p :
  ps_interactions p = l1 ++ it :: l2 → NoDup (pi_id <$> ps_interactions p) →
  set_interaction_status (pi_id it) s p
  = Some (p <| ps_interactions := l1 ++ (it <| pi_status := s |>) :: l2 |>).
Proof.
  intros El Hnd. unfold set_interaction_status.
  rewrite El in Hnd. pose proof (find_interaction _ _ _ Hnd) as Hf.
  rewrite El, (proj2 (existsb_exists _ _)) by (exists it; by apply find_some in Hf).
  unfold set_field. rewrite El. do 2 f_equal. clear El Hf. induction l1 as [|x l1 IH]; cbn in *.
  - unfold has_interaction_id. by rewrite bool_decide_eq_true_2.
  - apply NoDup_cons in Hnd as [Hx Hnd]. unfold has_interaction_id at 1.
    rewrite bool_decide_eq_false_2; [by rewrite IH|].
    intros E. apply Hx. rewrite fmap_app, fmap_cons, E. apply elem_of_app. right. by left.
Qed.

(** The session that observes how the delivery of an answer ended. *)
Lemma resolution_admitted e i st op o :
  sessions e !! i = Some st → status_of st = Running → pending_of st = Some op →
  is_interaction_resolution_observation o = true →
  observation_refusal st (MkObservationEnvelope (Some op) i (generation_of st) o) = None
  ∧ observation_has_provider_headroom e (MkObservationEnvelope (Some op) i (generation_of st) o) = true.
Proof.
  intros Hst Hrun Hop Ho. unfold observation_refusal, observation_is_current, expected_operation,
    observation_has_provider_headroom. cbn.
  rewrite Hst, bool_decide_eq_true_2, Hop, Hrun by done.
  destruct o; try done; cbn; rewrite bool_decide_eq_true_2 by done;
    (split; [done|by destruct (_ =? U64_MAX)]).
Qed.

(** Once an interaction is being resolved by the session's pending
    operation, the report that the answer was delivered closes exactly that
    interaction with the outcome of the answer, and the report that it was not
    reopens it as pending; either way the session is free again. *)
Theorem answer_delivery_settles_interaction i e st op l1 it l2 kind :
  reachable e → has_counter_headroom e = true → sessions e !! i = Some st →
  status_of st = Running → pending_of st = Some op →
  interactions_of st = l1 ++ it :: l2 → pi_status it = InteractionResolving op kind →
  ∀ failure : option (list N),
  (∀ message, failure = Some message → interaction_failure_is_valid message = true) →
  let status := match failure with
                | None => InteractionResolvedAs (interaction_response_outcome kind)
                | Some _ => InteractionPending
                end in
  let o := match failure with
           | None => Obs_InteractionResolutionCompleted (pi_id it)
           | Some message => Obs_InteractionResolutionFailed (pi_id it) message
           end in
  ∃ e' st', apply_observation (MkObservationEnvelope (Some op) i (generation_of st) o) e = Some e'
    ∧ sessions e' !! i = Some st' ∧ status_of st' = Running ∧ pending_of st' = None
    ∧ interactions_of st' = l1 ++ (it <| pi_status := status |>) :: l2.
Proof.
  intros Hc%reachable_core Hh%has_counter_headroom_spec Hst Hrun Hop El Hit failure Hmsg. cbn zeta.
  destruct (ci_session _ Hc _ _ Hst) as [Hwf _].
  pose proof (iw_nodup _ _ (pw_interactions _ (sw_provider _ _ _ Hwf))) as Hnd.
  set (o := match failure with None => _ | Some _ => _ end).
  destruct (resolution_admitted e i st op o Hst Hrun Hop) as [Href Hroom]; [by destruct failure|].
  set (env := MkObservationEnvelope (Some op) i (generation_of st) o) in *.
  destruct (apply_observation_wp env e st (λ _ e', ∃ st', sessions e' !! i = Some st'
    ∧ status_of st' = Running ∧ pending_of st' = None
    ∧ interactions_of st' = l1 ++ (it <| pi_status := match failure with
        | None => InteractionResolvedAs (interaction_response_outcome kind)
        | Some _ => InteractionPending end |>) :: l2) Hh Hroom Hst Href) as (e' & H1 & st' & H2).
  - assert (E : observe_admitted st env
      = observe_interaction_resolution i (generation_of st) (Some op) (st_snapshot st) o)
      by (unfold observe_admitted; by destruct failure).
    rewrite E. apply wp_bind, wp_ret. cbn zeta.
    pose proof (find_interaction l1 it l2) as Hf. rewrite <- El in Hf. specialize (Hf Hnd).
    assert (Hgo : ∀ p k, ps_interactions p = l1 ++ (it <| pi_status := match failure with
        | None => InteractionResolvedAs (interaction_response_outcome kind)
        | Some _ => InteractionPending end |>) :: l2 →
      wp (session_mut i (λ s, s <| ss_pending_operation := None |> <| ss_provider := p |>) ;;
          bump_revision ;; emit_event None i (generation_of st) k)
        (λ _ e', ∃ st', sessions e' !! i = Some st' ∧ status_of st' = Running ∧ pending_of st' = None
           ∧ interactions_of st' = l1 ++ (it <| pi_status := match failure with
               | None => InteractionResolvedAs (interaction_response_outcome kind)
               | Some _ => InteractionPending end |>) :: l2) (λ _ _, False) e).
    { intros p k Hp. apply wp_bind, (wp_update_state _ _ _ st); [done|].
      apply wp_bind, wp_bump. intros e1 [A1 _ _ _ _] _. apply wp_emit. intros e2 [B1 _ _ _ _] _.
      rewrite B1, A1. cbn. rewrite lookup_insert_eq. eexists. split; [done|]. by split_and!. }
    subst o. destruct failure as [m|]; cbn [negb]; rewrite ?(Hmsg m eq_refl), Hf, Hit;
      rewrite bool_decide_eq_true_2 by done; cbn [negb].
    + unfold resolution_failed. rewrite (set_status_exact l1 it l2) by done.
      apply wp_bind, wp_ret, Hgo. done.
    + unfold resolution_completed. rewrite (set_status_exact l1 it l2) by done.
      apply wp_bind, wp_ret, Hgo. done.
  - exists e', st'. by split.
Qed.

Lemma only_interaction l k s :
  pi_id <$> l = [k] → pi_status <$> l = [s] → ∃ it, l = [it] ∧ pi_id it = k ∧ pi_status it = s.
Proof.
  intros H1 H2. destruct l as [|it [|? ?]]; try discriminate. exists it.
  injection H1 as H1. by injection H2 as H2.
Qed.

Lemma answer_delivery_settles_interaction_witness :
  ∃ e' st', apply_observation (MkObservationEnvelope (Some (MkOperation 2)) demo_instance
      (MkGeneration 1) (Obs_InteractionResolutionCompleted (MkInteraction 1))) (after demo_answering)
      = Some e'
    ∧ sessions e' !! demo_instance = Some st' ∧ pending_of st' = None
    ∧ pi_status <$> interactions_of st' = [InteractionResolvedAs Answered].
Proof.
  assert (E : sessions (after demo_answering) !! demo_instance = Some (session_after demo_answering))
    by (vm_compute; reflexivity).
  assert (Hids : pi_id <$> interactions_of (session_after demo_answering) = [MkInteraction 1])
    by (vm_compute; reflexivity).
  assert (Hss : pi_status <$> interactions_of (session_after demo_answering)
    = [InteractionResolving (MkOperation 2) RK_Answer]) by (vm_compute; reflexivity).
  destruct (only_interaction _ _ _ Hids Hss) as (it & Ei & Hid & Hs).
  destruct (answer_delivery_settles_interaction demo_instance (after demo_answering)
    (session_after demo_answering) (MkOperation 2) [] it [] RK_Answer ltac:(demo demo_answering)
    ltac:(vm_compute; reflexivity) E ltac:(vm_compute; reflexivity) ltac:(vm_compute; reflexivity)
    Ei Hs None ltac:(discriminate)) as (e' & st' & H1 & H2 & _ & H3 & H4).
  rewrite Hid in H1. exists e', st'. split; [exact H1|]. split; [exact H2|]. split; [exact H3|].
  by rewrite H4.
Defined.
