(* ===== verification/EngineResume.v ===== *)
(** * Resuming a provider session

    A resume asks for the authority to launch a provider session again; only
    the identity that was authorized is launched, under a new generation. *)

From S2P Require Import Prelude RustStr Ids Input InputFacts SessionTypes RecordTypes.
From S2P Require Import ProviderTypes Control EngineReduce ReduceFacts EngineState.
From S2P Require Import EngineCommands EngineObserve EngineCounters EngineInv.
From S2P Require Import EngineCommandFacts EngineIngestFacts EngineObserveFacts.
From S2P Require Import EngineHeadroom EngineEntry EngineReach EngineFrame EngineRuns.
From S2P Require Import EngineSpecs EngineResolve.

Local Open Scope N_scope.

(** ** The request *)

(** The authority a target names in a session, if it names one. *)
Definition authority_of (session : SessionSnapshot) (target : ResumeTarget)
    (authority : ResumeAuthorityTarget) : Prop :=
  match target with
  | TargetCurrentProvider =>
      ∃ identity, ps_session (ss_provider session) = Some identity
        ∧ ProviderSessionIdentity_validate identity = Ok tt
        ∧ authority = AuthorityProviderSession identity
  | TargetProviderSession identity =>
      ProviderSessionIdentity_validate identity = Ok tt
      ∧ authority = AuthorityProviderSession identity
  | TargetHistoryCandidate candidate_id =>
      is_Some (HistorySnapshot_candidate (ss_history session) candidate_id)
      ∧ hist_loaded_candidate_id (ss_history session) = Some candidate_id
      ∧ is_Some (hist_loaded (ss_history session))
      ∧ authority = AuthorityHistoryCandidate candidate_id
  end.

Lemma wp_authority session target Q (F : ControlError → Gate4AgentEngine → Prop) e :
  (∀ authority, authority_of session target authority → Q authority e) →
  (∀ err, (∀ authority, ¬ authority_of session target authority) → F err e) →
  wp (resume_authority_target session target) Q F e.
Proof.
  intros HQ HF. destruct target as [|identity|candidate_id];
    cbn [resume_authority_target authority_of] in *.
  - apply wp_bind, wp_lift_option; [intros E|intros identity E].
    { apply HF. intros a (x & H & _). congruence. }
    apply wp_bind, wp_lift_result; [intros err Hv|intros [] Hv].
    { apply HF. intros a (x & H & H' & _). congruence. }
    apply wp_ret, HQ. by exists identity.
  - apply wp_bind, wp_lift_result; [intros err Hv|intros [] Hv].
    { apply HF. intros a [H _]. congruence. }
    apply wp_ret, HQ. by split.
  - unfold opt_is. apply wp_bind, wp_fail_when; intros Hb; bool_prop; [|apply wp_ret, HQ].
    + apply HF. intros a ([x H1] & H2 & [y H3] & _).
      destruct_or?; bool_prop; destruct_or?; bool_prop; congruence.
    + split_and!; [by apply not_eq_None_Some|done|by apply not_eq_None_Some|done].
Qed.

(** What a resume requires. *)
Record resumable (st : SessionState) (target : ResumeTarget) (p : ProviderRuntimePolicy)
    (request : ResumeLaunchRequest) (prompt : option (list N))
    (authority : ResumeAuthorityTarget) : Prop := {
  re_policy : policy_validate p = Ok tt;
  re_pty : admits p RawPtyLifecycle = true;
  re_prompted : resume_initial_prompt request = None
    ∨ admits p ProviderSessionIdentityCap = true ∧ admits p SemanticResume = true;
  re_prompt : normalize_prompt (resume_initial_prompt request) = Ok prompt;
  re_request : ResumeLaunchRequest_validate (request <| resume_initial_prompt := prompt |>) = Ok tt;
  re_semantic : prompt_missing prompt = false →
    admits p SemanticReadiness = true ∧ admits p StructuredPrompt = true;
  re_target : ResumeTarget_validate target = Ok tt;
  re_transport : ss_transport (st_snapshot st) ≠ Acp;
  re_pipe : ss_transport (st_snapshot st) = Pipe → prompt_missing prompt = false;
  re_status : is_inactive (status_of st) = true;
  re_pending : pending_of st = None;
  re_authority : authority_of (st_snapshot st) target authority
}.

(** The session that waits for the authority. *)
Definition authorizing_state (target : ResumeTarget) (p : ProviderRuntimePolicy)
    (request : ResumeLaunchRequest) (op : OperationId) (st : SessionState) : SessionState :=
  st <| st_pending_resume_identity := None |>
     <| st_runtime_policy := p |>
     <| st_snapshot ::= λ session, session
          <| ss_pending_operation := Some op |>
          <| ss_resume ::= λ r, r
               <| rs_pending := Some (MkPendingResume op target request Authorizing) |>
               <| rs_last_error := None |> |> |>.

(** The engine after an accepted resume. *)
Definition resuming_engine (op seq : N) (c : CommandId) (i : AgentInstanceId) (st : SessionState)
    (target : ResumeTarget) (p : ProviderRuntimePolicy) (request : ResumeLaunchRequest)
    (authority : ResumeAuthorityTarget) (e : Gate4AgentEngine) : Gate4AgentEngine :=
  request_state op seq c i (generation_of st)
    (authorizing_state target p request (MkOperation op) st)
    (Eff_AuthorizeResume (ss_agent_id (st_snapshot st)) authority request)
    (Ev_ResumeRequested (MkOperation op) target) e.

(** The handler tests the prompt first and normalizes it then: [prompt_facts]
    names it by the request's field again. *)
Lemma resumes_acp t :
  negb match t with Pty | Pipe => true | Acp => false end = true → t = Acp.
Proof. by destruct t. Qed.
Lemma resumes_other t :
  negb match t with Pty | Pipe => true | Acp => false end = false → t ≠ Acp.
Proof. by destruct t. Qed.
Ltac prompt_facts :=
  repeat match goal with
  | H : negb match ss_transport _ with _ => _ end = true |- _ => apply resumes_acp in H
  | H : negb match ss_transport _ with _ => _ end = false |- _ => apply resumes_other in H
  | E : resume_initial_prompt ?r = ?o, H : normalize_prompt ?o = _ |- _ => rewrite <- E in H
  | H1 : normalize_prompt ?x = Ok _, H2 : normalize_prompt ?x = Ok _ |- _ =>
      rewrite H1 in H2; injection H2 as <-
  end.
Ltac resume_refused := refused_by prompt_facts.

(** C20: a resume is accepted exactly when the session is inactive, waits for
    nothing and is not an ACP session, the policy admits what resuming with the
    prompt needs, the request is well formed and its target names an authority
    the session has; it then changes no status and no generation: it waits under
    a fresh operation id, with one effect that asks for that authority. A resume
    that is refused changes nothing. *)
Theorem resume_spec c i target p request e op seq st :
  reachable e → has_counter_headroom e = true → ready e op seq → sessions e !! i = Some st →
  let r := apply_command (MkCommandEnvelope c (Cmd_Resume i target p request)) e in
  match fst r with
  | Done _ => ∃ prompt authority, resumable st target p request prompt authority
      ∧ snd r = resuming_engine op seq c i st target p
                  (request <| resume_initial_prompt := prompt |>) authority e
  | Fail _ => snd r = e ∧ ∀ prompt authority, ¬ resumable st target p request prompt authority
  | Panic => False
  end.
Proof.
  intros Hc%reachable_core Hh%has_counter_headroom_spec Hr Hst.
  apply (apply_command_wp c _ e (λ _ e', ∃ prompt authority,
      resumable st target p request prompt authority
      ∧ e' = resuming_engine op seq c i st target p
               (request <| resume_initial_prompt := prompt |>) authority e)
    (λ _ e', e' = e ∧ ∀ prompt authority, ¬ resumable st target p request prompt authority));
    [done|].
  unfold apply_command_in_place, resume. cbn [ce_id ce_command].
  guards_by resume_refused; prompt_facts; simplify_eq.
  all: apply wp_authority; [intros authority Hauth|intros err Hno; resume_refused].
  all: match goal with H : normalize_prompt _ = Ok ?prompt |- _ =>
    apply (wp_request_exact i c (generation_of st)
      (authorizing_state target p (request <| resume_initial_prompt := prompt |>))
      (λ _, Eff_AuthorizeResume (ss_agent_id (st_snapshot st)) authority
              (request <| resume_initial_prompt := prompt |>))
      (λ op, Ev_ResumeRequested op target) st e op seq); [done|done|exists prompt, authority] end;
    (split; [test_facts; accepted|reflexivity]).
Qed.

Lemma resume_spec_witness :
  let r := apply_command (MkCommandEnvelope (MkCommand 3)
             (Cmd_Resume demo_instance (TargetProviderSession demo_identity) demo_policy
                demo_launch)) (after [demo_register]) in
  fst r = Done tt
  ∧ ∃ prompt authority,
      resumable (session_after [demo_register]) (TargetProviderSession demo_identity) demo_policy
        demo_launch prompt authority
      ∧ authority = AuthorityProviderSession demo_identity.
Proof.
  cbn zeta.
  pose proof (resume_spec (MkCommand 3) demo_instance (TargetProviderSession demo_identity)
    demo_policy demo_launch (after [demo_register]) 1 2 (session_after [demo_register])
    ltac:(demo [demo_register]) ltac:(vm_compute; reflexivity)
    ltac:(split; vm_compute; reflexivity) ltac:(vm_compute; reflexivity)) as H. cbn zeta in H.
  assert (E : fst (apply_command (MkCommandEnvelope (MkCommand 3)
    (Cmd_Resume demo_instance (TargetProviderSession demo_identity) demo_policy
       demo_launch)) (after [demo_register])) = Done tt) by (vm_compute; reflexivity).
  rewrite E in H. destruct H as (prompt & authority & H & _). split; [exact E|].
  exists prompt, authority. split; [exact H|]. exact (proj2 (re_authority _ _ _ _ _ _ H)).
Defined.

(** ** The authority *)

Lemma apply_observation_exact env e st e' :
  headroom e → observation_has_provider_headroom e env = true →
  sessions e !! oe_instance_id env = Some st → observation_refusal st env = None →
  observe_admitted st env e = (Done tt, e') → apply_observation env e = Some e'.
Proof.
  intros Hh Hp Hst Href Hrun. unfold apply_observation.
  rewrite (apply_observation_headroom _ _ Hh Hp).
  unfold apply_observation_in_place, mbind, stm_bind, get_state. by rewrite Hst, Href, Hrun.
Qed.

(** A report about the authority of the resume in flight passes every test. *)
Lemma resume_answer_admitted e i st p o :
  core_inv e → sessions e !! i = Some st →
  rs_pending (ss_resume (st_snapshot st)) = Some p → pro_phase p = Authorizing →
  is_resume_authority_observation o = true →
  let env := MkObservationEnvelope (Some (pro_operation_id p)) i (generation_of st) o in
  observation_refusal st env = None ∧ observation_has_provider_headroom e env = true.
Proof.
  intros Hc Hst Hp Hph Ho. destruct (ci_session _ Hc _ _ Hst) as [Hwf _].
  pose proof (sw_resume _ _ _ Hwf p Hp) as Hres. rewrite Hph in Hres. destruct Hres as [_ Hop].
  unfold observation_refusal, observation_is_current, expected_operation,
    observation_has_provider_headroom. cbn. rewrite Hst, bool_decide_eq_true_2, Hop by done.
  destruct o; try done; cbn; rewrite bool_decide_eq_true_2 by done;
    (split; [by destruct (ss_status (st_snapshot st))|by destruct (_ =? U64_MAX)]).
Qed.

(** The engine after an authorized resume: the launch of [identity] is queued
    under the next generation and the operation id of the request. *)
Definition authorized_engine (seq : N) (i : AgentInstanceId) (st : SessionState)
    (p : PendingResumeOperation) (identity : ProviderSessionIdentity) (e : Gate4AgentEngine)
    : Gate4AgentEngine :=
  let g := next_generation (generation_of st) in
  log_event seq None i g (Ev_ResumeAuthorized (ResumeSessionSummary_from identity))
    (tick (e <| sessions ::= <[i := authorized_state p identity g st]> |>
             <| generation_watermarks ::= <[i := g]> |>
             <| effects ::= λ l, l ++
                  [MkEffect (pro_operation_id p) i g
                     (Eff_SpawnResume (ss_agent_id (st_snapshot st))
                        (ss_transport (st_snapshot st)) identity (st_runtime_policy st)
                        (pro_request p))] |>)).

(** The engine after a refused one. *)
Definition denied_engine (seq : N) (i : AgentInstanceId) (st : SessionState) (message : list N)
    (k : ControlEventKind) (e : Gate4AgentEngine) : Gate4AgentEngine :=
  log_event seq None i (generation_of st) k
    (tick (e <| sessions ::= <[i := refused_state message st]> |>)).


