(* ===== verification/EngineDefects.v ===== *)
(** * Where the engine falls short of its comments

    Concrete runs, each reached by legal calls, in which the engine does not do
    what its comments say: an operation completed by an observation of another
    kind, and a resumed generation that inherits queued history work. *)

From S2P Require Import Prelude RustStr Ids Input SessionTypes RecordTypes ProviderTypes.
From S2P Require Import Control EngineReduce ReduceFacts EngineState EngineCommands.
From S2P Require Import EngineObserve EngineReach EngineRuns.

Local Open Scope N_scope.

(** ** Completions of another kind *)

(** The operation ids of two kinds share one slot, and admission compares the
    id only. *)
Definition demo_confused : list call :=
  demo_answering ++ [observe (Some 2) 1 (Obs_ResizeCompleted demo_size)].

Definition interaction_statuses (e : Gate4AgentEngine) : list ProviderInteractionStatus :=
  match sessions e !! demo_instance with
  | Some st => pi_status <$> ps_interactions (ss_provider (st_snapshot st))
  | None => []
  end.

Definition pending_operations (e : Gate4AgentEngine) : list (option OperationId) :=
  match sessions e !! demo_instance with
  | Some st => [ss_pending_operation (st_snapshot st)]
  | None => []
  end.

(** A resize completion that carries the operation id of an interaction
    response is admitted: it frees the session's operation and leaves the
    interaction waiting for a delivery that can no longer be reported: the
    delivery's own observation is ignored, and answering again is refused. *)
Theorem mismatched_completion_wedges_interaction :
  let e := after demo_confused in
  let done := MkObservationEnvelope (Some (MkOperation 2)) demo_instance (MkGeneration 1)
                (Obs_InteractionResolutionCompleted (MkInteraction 1)) in
  run_calls demo_confused engine_new = Some e
  ∧ pending_operations e = [None]
  ∧ interaction_statuses e = [InteractionResolving (MkOperation 2) RK_Answer]
  ∧ (interaction_statuses <$> apply_observation done e)
    = Some [InteractionResolving (MkOperation 2) RK_Answer]
  ∧ fst (apply_command (MkCommandEnvelope (MkCommand 5)
           (Cmd_ResolveInteraction demo_instance (MkGeneration 1) (MkInteraction 1)
              (Answer (str "again")))) e)
    = Fail (ProviderInteractionNotPending (MkInteraction 1)).
Proof. cbn zeta. split_and!; vm_compute; reflexivity. Qed.

(** An input completion that carries the operation id of a resize is
    admitted, and panics: the engine expects an input to be pending. *)
Theorem mismatched_input_completion_panics :
  let e := after (demo_running ++ [command 3 (Cmd_Resize demo_instance demo_size)]) in
  run_calls (demo_running ++ [command 3 (Cmd_Resize demo_instance demo_size)]) engine_new = Some e
  ∧ apply_observation (MkObservationEnvelope (Some (MkOperation 2)) demo_instance (MkGeneration 1)
      Obs_InputCompleted) e = None
  ∧ apply_observation (MkObservationEnvelope (Some (MkOperation 2)) demo_instance (MkGeneration 1)
      (Obs_InputFailed (str "closed"))) e = None.
Proof. cbn zeta. split_and!; vm_compute; reflexivity. Qed.

(** ** History work across a resume *)

Definition is_discovery (ef : EffectEnvelope) : bool :=
  match ee_effect ef with
  | Eff_DiscoverHistory _ _ => true
  | _ => false
  end.

(** A resume that is authorized begins a new generation and forgets the
    history request that was pending, but the request's effect stays queued
    under the old generation: unlike a start, the resume does not purge the
    history work bound to the generation it ends. *)
Theorem authorized_resume_keeps_history_work :
  let e := after demo_resumed in
  run_calls demo_resumed engine_new = Some e
  ∧ (ss_generation ∘ st_snapshot <$> sessions e !! demo_instance) = Some (MkGeneration 1)
  ∧ (hist_pending ∘ ss_history ∘ st_snapshot <$> sessions e !! demo_instance) = Some None
  ∧ ee_generation <$> List.filter is_discovery (effects e) = [MkGeneration 0]
  ∧ effects (after (take 2 demo_resumed ++ [demo_start])) ≠ []
  ∧ List.filter is_discovery (effects (after (take 2 demo_resumed ++ [demo_start]))) = [].
Proof. cbn zeta. split_and!; vm_compute; (reflexivity || discriminate). Qed.
